(** * Point-get fast path of TiDB: planner ([planner/core], point-get plan
    construction) and executor ([executor/point_get.go]).

    The development is a shallow embedding.  Go values become Rocq values
    ([int64] is [Z], [[]byte] and [kv.Key] are byte strings, a Go [error]
    is an [option error] whose [None] is [nil]); the stateful executor is
    written in a small state monad whose state holds the executor struct,
    the session's pessimistic-lock cache, the chunk handed to [Next] and a
    ghost trace recording every call made to a storage collaborator. *)

From stdpp Require Import base option list gmap strings sorting pretty.
From Stdlib Require Import ZArith Lia Permutation.

Open Scope string_scope.
Open Scope Z_scope.

(** ** Shared data model (parser/model, types, kv) *)

Module Model.

(** [model.CIStr]: original and lower-cased spelling of an identifier. *)
Record CIStr := mkCIStr { O : string; L : string }.

Definition NewCIStr (l : string) : CIStr := mkCIStr l l.

(** [model.SchemaState]. *)
Inductive SchemaState :=
| StateNone
| StateDeleteOnly
| StateWriteOnly
| StateWriteReorganization
| StateDeleteReorganization
| StatePublic
| StateReplicaOnly
| StateGlobalTxnOnly.

Definition SchemaState_eqb (a b : SchemaState) : bool :=
  match a, b with
  | StateNone, StateNone | StateDeleteOnly, StateDeleteOnly
  | StateWriteOnly, StateWriteOnly
  | StateWriteReorganization, StateWriteReorganization
  | StateDeleteReorganization, StateDeleteReorganization
  | StatePublic, StatePublic | StateReplicaOnly, StateReplicaOnly
  | StateGlobalTxnOnly, StateGlobalTxnOnly => true
  | _, _ => false
  end.

(** Column types of [parser/mysql] that the point-get code tells apart. *)
Inductive MysqlType :=
| TypeTiny | TypeShort | TypeLong | TypeLonglong | TypeInt24 | TypeBit
| TypeString | TypeVarString | TypeVarchar | TypeEnum
| TypeOther (code : Z).

Definition isTypeString (t : MysqlType) : bool :=
  match t with TypeString => true | _ => false end.
Definition isTypeVarString (t : MysqlType) : bool :=
  match t with TypeVarString => true | _ => false end.
Definition isTypeVarchar (t : MysqlType) : bool :=
  match t with TypeVarchar => true | _ => false end.
Definition isTypeEnum (t : MysqlType) : bool :=
  match t with TypeEnum => true | _ => false end.
Definition isTypeBit (t : MysqlType) : bool :=
  match t with TypeBit => true | _ => false end.

(** Flag bits of a field type (the values of [parser/mysql]). *)
Definition PriKeyFlag : Z := 2.
Definition UnsignedFlag : Z := 32.

Definition HasPriKeyFlag (flag : Z) : bool := 0 <? Z.land flag PriKeyFlag.
Definition HasUnsignedFlag (flag : Z) : bool := 0 <? Z.land flag UnsignedFlag.

(** [types.FieldType]. *)
Record FieldType := mkFieldType {
  ftTp : MysqlType;
  ftFlag : Z;
  ftCollate : string;
  ftElems : list string
}.

Definition NewFieldType (t : MysqlType) : FieldType := mkFieldType t 0 "" [].

(** [types.EvalType], as far as the planner looks at it. *)
Inductive EvalType := ETInt | ETReal | ETDecimal | ETString | ETOtherEval.

Definition isETString (e : EvalType) : bool :=
  match e with ETString => true | _ => false end.

(** Kinds of a [types.Datum]. *)
Inductive DatumKind :=
| KindNull | KindInt64 | KindUint64 | KindFloat32 | KindFloat64
| KindString | KindBytes | KindBinaryLiteral | KindMysqlDecimal
| KindMysqlEnum | KindOther.

Definition DatumKind_eqb (a b : DatumKind) : bool :=
  match a, b with
  | KindNull, KindNull | KindInt64, KindInt64 | KindUint64, KindUint64
  | KindFloat32, KindFloat32 | KindFloat64, KindFloat64
  | KindString, KindString | KindBytes, KindBytes
  | KindBinaryLiteral, KindBinaryLiteral
  | KindMysqlDecimal, KindMysqlDecimal | KindMysqlEnum, KindMysqlEnum
  | KindOther, KindOther => true
  | _, _ => false
  end.

(** [types.Datum]: the kind tag [k], the 64-bit payload [i], the byte
    payload [b] and the collation.  The zero value has kind [KindNull]. *)
Record Datum := mkDatum {
  dK : DatumKind;
  dI : Z;
  dB : string;
  dCollation : string
}.

Definition zeroDatum : Datum := mkDatum KindNull 0 "" "".
Definition NewIntDatum (v : Z) : Datum := mkDatum KindInt64 v "" "".
Definition NewStringDatum (s : string) : Datum := mkDatum KindString 0 s "".

Definition Kind (d : Datum) : DatumKind := dK d.
Definition IsNull (d : Datum) : bool := DatumKind_eqb (dK d) KindNull.
Definition GetInt64 (d : Datum) : Z := dI d.
Definition GetString (d : Datum) : string := dB d.
Definition Collation (d : Datum) : string := dCollation d.
Definition SetString (d : Datum) (s collation : string) : Datum :=
  mkDatum KindString (dI d) s collation.

(** Go errors.  The named ones are those the code compares against. *)
Inductive error :=
| ErrNotExist            (* kv.ErrNotExist *)
| ErrOverflow            (* types.ErrOverflow *)
| ErrDataTooLong         (* types.ErrDataTooLong *)
| ErrTruncated           (* types.ErrTruncated *)
| ErrTruncatedWrongVal   (* types.ErrTruncatedWrongVal *)
| ErrLookupInconsistent  (* raised by the consistency reporter *)
| ErrPanic (msg : string) (* a run-time panic (index out of range, ...) *)
| ErrOther (msg : string).

Definition isErrNotExist (e : error) : bool :=
  match e with ErrNotExist => true | _ => false end.
Definition isErrOverflow (e : error) : bool :=
  match e with ErrOverflow => true | _ => false end.
Definition isErrDataTooLong (e : error) : bool :=
  match e with ErrDataTooLong => true | _ => false end.
Definition isErrTruncated (e : error) : bool :=
  match e with ErrTruncated => true | _ => false end.
Definition isErrTruncatedWrongVal (e : error) : bool :=
  match e with ErrTruncatedWrongVal => true | _ => false end.

(** [model.ColumnInfo]. *)
Record ColumnInfo := mkColumnInfo {
  colID : Z;
  colName : CIStr;
  colOffset : nat;
  colFieldType : FieldType;
  colState : SchemaState;
  colGenerated : bool        (* IsGenerated() *)
}.

(** [model.IndexColumn]; [icLength] is [-1] ([types.UnspecifiedLength])
    unless the index covers only a prefix of the column. *)
Record IndexColumn := mkIndexColumn {
  icName : CIStr;
  icOffset : nat;
  icLength : Z
}.

Definition UnspecifiedLength : Z := -1.

(** [model.IndexInfo]. *)
Record IndexInfo := mkIndexInfo {
  idxID : Z;
  idxName : CIStr;
  idxColumns : list IndexColumn;
  idxState : SchemaState;
  idxUnique : bool;
  idxPrimary : bool;
  idxInvisible : bool;
  idxGlobal : bool;
  idxMVIndex : bool
}.

(** [IndexInfo.HasPrefixIndex]. *)
Definition HasPrefixIndex (idx : IndexInfo) : bool :=
  existsb (fun ic => negb (icLength ic =? UnspecifiedLength)) (idxColumns idx).

Inductive PartitionType :=
| PartitionTypeRange | PartitionTypeHash | PartitionTypeList
| PartitionTypeKey | PartitionTypeOther.

(** [model.PartitionDefinition]. *)
Record PartitionDefinition := mkPartitionDefinition {
  pdID : Z;
  pdName : CIStr
}.

(** [model.PartitionInfo]; [piNum] is a [uint64] in the source. *)
Record PartitionInfo := mkPartitionInfo {
  piType : PartitionType;
  piNum : Z;
  piColumns : list CIStr;
  piDefinitions : list PartitionDefinition;
  piAddingDefinitions : list PartitionDefinition;
  piDroppingDefinitions : list PartitionDefinition
}.

Inductive TempTableType := TempTableNone | TempTableGlobal | TempTableLocal.

Inductive TableLockType :=
| TableLockNone | TableLockRead | TableLockReadLocal | TableLockReadOnly
| TableLockWrite | TableLockWriteLocal.

(** [model.TableInfo]. *)
Record TableInfo := mkTableInfo {
  tblID : Z;
  tblName : CIStr;
  tblColumns : list ColumnInfo;
  tblIndices : list IndexInfo;
  tblPKIsHandle : bool;
  tblIsCommonHandle : bool;
  tblPartition : option PartitionInfo;     (* GetPartitionInfo() *)
  tblTempTableType : TempTableType;
  tblLock : option TableLockType;          (* Lock, with its Tp *)
  tblIsView : bool                         (* IsView() *)
}.

(** [kv.Handle]: an integer handle or the encoded columns of a clustered
    primary key. *)
Inductive Handle :=
| IntHandle (v : Z)
| CommonHandle (encoded : string).

(** [expression.Column], as built by [colInfoToColumn]. *)
Record Column := mkColumn {
  cRetType : FieldType;
  cID : Z;
  cUniqueID : Z;
  cIndex : nat;
  cOrigName : string
}.

(** [types.FieldName]. *)
Record FieldName := mkFieldName {
  fnDBName : CIStr;
  fnOrigTblName : CIStr;
  fnTblName : CIStr;
  fnOrigColName : CIStr;
  fnColName : CIStr
}.

(** [expression.Constant] built from a parameter marker: the marker's
    position and the datum it evaluates to. *)
Record Constant := mkConstant {
  conOrder : nat;
  conValue : Datum
}.

(** [PointGetPlan]: the fields the fast path fills and the executor
    reads. *)
Record PointGetPlan := mkPointGetPlan {
  pDbName : string;
  pSchema : list Column;
  pTblInfo : TableInfo;
  pIndexInfo : option IndexInfo;
  pPartitionDef : option PartitionDefinition;
  pHandle : option Handle;
  pHandleConstant : option Constant;
  pHandleFieldType : option FieldType;
  pIndexValues : list Datum;
  pIndexConstants : list (option Constant);
  pColsFieldType : list (option FieldType);
  pUnsignedHandle : bool;
  pIsTableDual : bool;
  pLock : bool;
  pOutputNames : list FieldName;
  pLockWaitTime : Z;
  pPartitionColumnPos : Z;
  pColumns : list ColumnInfo
}.

End Model.

(** ** The point-get executor ([executor/point_get.go]) *)

Module PointGet.
Import Model.

(** A decoded row of the result chunk. *)
Definition Row := list Datum.

(** Calls made to collaborators, recorded in the order they happen. *)
Inductive Event :=
| EvLock (key : string) (lockOnlyIfExists : bool) (waitTime : Z)
    (* doLockKeys with a lock context carrying LockOnlyIfExists *)
| EvMemBufferGet (key : string)       (* txn.GetMemBuffer().Get *)
| EvLockCacheGet (key : string)       (* TxnCtx.GetKeyInPessimisticLockCache *)
| EvSnapshotGet (key : string)        (* snapshot.Get *)
| EvMemCacheGet (tid : Z) (key : string)   (* GetMemCache().UnionGet *)
| EvReport (rowKey idxKey : string).  (* Reporter.ReportLookupInconsistent *)

(** [kv.ReturnedValue], one entry of [LockCtx.Values]. *)
Record ReturnedValue := mkReturnedValue {
  rvValue : string;
  rvExists : bool;
  rvAlreadyLocked : bool
}.

(** The collaborators of the executor: session variables, the transaction
    obtained by [Open], the snapshot, the lock manager, the consistency
    reporter and the codecs.  None of them is defined in point_get.go. *)
Record Env := mkEnv {
  IsPessimisticReadConsistency : bool;
  WeakConsistency : bool;
  EnablePointGetCache : bool;
  txnErr : option error;                 (* error of Ctx().Txn(false) *)
  txnScopeErr : option error;            (* outcome of verifyTxnScope *)
  txnValid : bool;
  txnIsReadOnly : bool;
  memBufferGet : string -> string * option error;
  snapshotGet : string -> string * option error;
  unionGet : Z -> string -> string * option error;
  newLockCtx : Z -> option error;
  doLockKeys : Z -> bool -> string -> error + gmap string ReturnedValue;
  ReportLookupInconsistent :
    TableInfo -> IndexInfo -> option Handle -> string -> string -> option error;
  isCommonHandleRead : TableInfo -> IndexInfo -> bool;
  CastValue : Datum -> ColumnInfo -> Datum * option error;
  ToString : Datum -> string * option error;
  ParseEnumName : list string -> string -> string -> error + (string * Z);
  EncodeKey : list Datum -> string * option error;
  EncodeIndexSeekKey : Z -> Z -> string -> string;
  NewCommonHandle : string -> error + Handle;
  DecodeHandleInUniqueIndexValue : string -> bool -> error + Handle;
  DecodePartitionID : string -> error + Z;
  EncodeRowKeyWithHandle : Z -> option Handle -> string;
  IsNewFormat : string -> bool;
  DecodeToChunk : string -> option Handle -> error + Row;
  decodeOldRowValToChunk :
    list Column -> TableInfo -> option Handle -> string -> error + Row;
  FillVirtualColumnValue : list Column -> list ColumnInfo -> Row -> error + Row
}.

(** [PointGetExecutor]. *)
Record PointGetExecutor := mkExec {
  schema : list Column;
  tblInfo : TableInfo;
  handle : option Handle;
  idxInfo : option IndexInfo;
  partitionDef : option PartitionDefinition;
  idxKey : string;
  handleVal : string;
  idxVals : list Datum;
  done : bool;
  lock : bool;
  lockWaitTime : Z;
  columns : list ColumnInfo
}.

Definition set_handle (h : option Handle) (e : PointGetExecutor) :=
  mkExec (schema e) (tblInfo e) h (idxInfo e) (partitionDef e) (idxKey e)
         (handleVal e) (idxVals e) (done e) (lock e) (lockWaitTime e) (columns e).
Definition set_idxKey (k : string) (e : PointGetExecutor) :=
  mkExec (schema e) (tblInfo e) (handle e) (idxInfo e) (partitionDef e) k
         (handleVal e) (idxVals e) (done e) (lock e) (lockWaitTime e) (columns e).
Definition set_handleVal (v : string) (e : PointGetExecutor) :=
  mkExec (schema e) (tblInfo e) (handle e) (idxInfo e) (partitionDef e) (idxKey e)
         v (idxVals e) (done e) (lock e) (lockWaitTime e) (columns e).
Definition set_idxVals (vs : list Datum) (e : PointGetExecutor) :=
  mkExec (schema e) (tblInfo e) (handle e) (idxInfo e) (partitionDef e) (idxKey e)
         (handleVal e) vs (done e) (lock e) (lockWaitTime e) (columns e).
Definition set_done (b : bool) (e : PointGetExecutor) :=
  mkExec (schema e) (tblInfo e) (handle e) (idxInfo e) (partitionDef e) (idxKey e)
         (handleVal e) (idxVals e) b (lock e) (lockWaitTime e) (columns e).

(** The mutable state a call can touch: the executor, the session's
    pessimistic-lock cache, the chunk [req] and the table ids passed to
    [UpdateDeltaForTableID]. *)
Record St := mkSt {
  sExec : PointGetExecutor;
  sLockCache : gmap string string;
  sReq : list Row;
  sDelta : list Z
}.

Definition with_exec (f : PointGetExecutor -> PointGetExecutor) (s : St) : St :=
  mkSt (f (sExec s)) (sLockCache s) (sReq s) (sDelta s).
Definition with_cache (f : gmap string string -> gmap string string) (s : St) : St :=
  mkSt (sExec s) (f (sLockCache s)) (sReq s) (sDelta s).
Definition with_req (f : list Row -> list Row) (s : St) : St :=
  mkSt (sExec s) (sLockCache s) (f (sReq s)) (sDelta s).
Definition with_delta (f : list Z -> list Z) (s : St) : St :=
  mkSt (sExec s) (sLockCache s) (sReq s) (f (sDelta s)).

(** State monad with a trace of collaborator calls. *)
Definition M (A : Type) : Type := St -> A * St * list Event.

Definition ret {A} (a : A) : M A := fun s => (a, s, []).
Definition bind {A B} (m : M A) (k : A -> M B) : M B :=
  fun s =>
    let '(a, s1, t1) := m s in
    let '(b, s2, t2) := k a s1 in
    (b, s2, (t1 ++ t2)%list).
Definition emit (ev : Event) : M unit := fun s => (tt, s, [ev]).
Definition getSt : M St := fun s => (s, s, []).
Definition modify (f : St -> St) : M unit := fun s => (tt, f s, []).

Declare Scope exec_scope.
Delimit Scope exec_scope with exec.
Notation "x <-- c ;; k" := (bind c (fun x => k))
  (at level 100, c at next level, right associativity) : exec_scope.
Notation "c ;;; k" := (bind c (fun _ => k))
  (at level 100, right associativity) : exec_scope.
Open Scope exec_scope.

Definition result {A} (r : A * St * list Event) : A := fst (fst r).
Definition state {A} (r : A * St * list Event) : St := snd (fst r).
Definition events {A} (r : A * St * list Event) : list Event := snd r.

Definition len (b : string) : nat := String.length b.
Definition isEmpty (b : string) : bool := Nat.eqb (len b) 0.

Section Executor.
Context (env : Env).

(** [Init]: fields needed for executor reuse. *)
Definition Init (sch : list Column) (p : PointGetPlan) (e : PointGetExecutor)
  : PointGetExecutor :=
  let temp := match tblTempTableType (pTblInfo p) with
              | TempTableNone => false
              | _ => true
              end in
  mkExec sch (pTblInfo p) (pHandle p) (pIndexInfo p) (pPartitionDef p)
         (idxKey e) (handleVal e) (pIndexValues p)
         false
         (if temp then false else pLock p)
         (if temp then 0 else pLockWaitTime p)
         (pColumns p).

(** The executor as [buildPointGet] allocates it, before [Init]. *)
Definition newExecutor (p : PointGetPlan) : PointGetExecutor :=
  mkExec (pSchema p) (pTblInfo p) None None None "" "" [] false false 0 [].

(** [Open]. *)
Definition Open : M (option error) :=
  match txnErr env with
  | Some err => ret (Some err)
  | None => ret (txnScopeErr env)
  end.

(** [Close]. *)
Definition Close : M (option error) :=
  modify (with_exec (set_done false)) ;;; ret None.

(** Snapshot part of [get]: the table-lock read cache or the snapshot. *)
Definition snapshotRead (key : string) : M (string * option error) :=
  s <-- getSt ;;
  let e := sExec s in
  let cached :=
    match tblLock (tblInfo e) with
    | Some TableLockRead | Some TableLockReadOnly => EnablePointGetCache env
    | _ => false
    end in
  if cached then
    emit (EvMemCacheGet (tblID (tblInfo e)) key) ;;;
    match unionGet env (tblID (tblInfo e)) key with
    | (_, Some err) => ret ("", Some err)
    | (val, None) => ret (val, None)
    end
  else
    emit (EvSnapshotGet key) ;;;
    ret (snapshotGet env key).

(** [get]: txn buffer first, then the pessimistic lock cache, then the
    store. *)
Definition get (key : string) : M (string * option error) :=
  if isEmpty key then ret ("", Some ErrNotExist)
  else if txnValid env && negb (txnIsReadOnly env) then
    emit (EvMemBufferGet key) ;;;
    match memBufferGet env key with
    | (val, None) => ret (val, None)
    | (_, Some err) =>
        if negb (isErrNotExist err) then ret ("", Some err)
        else
          s <-- getSt ;;
          if lock (sExec s) then
            emit (EvLockCacheGet key) ;;;
            match sLockCache s !! key with
            | Some val => ret (val, None)
            | None => snapshotRead key
            end
          else snapshotRead key
    end
  else snapshotRead key.

(** [getValueFromLockCtx]. *)
Definition getValueFromLockCtx (values : gmap string ReturnedValue)
    (key : string) : M (string * option error) :=
  match values !! key with
  | Some val =>
      if rvExists val then ret (rvValue val, None)
      else if rvAlreadyLocked val then
        r <-- get key ;;
        match r with
        | (v, Some err) =>
            if negb (isErrNotExist err) then ret ("", Some err)
            else ret ("", None)
        | (v, None) => ret (v, None)
        end
      else ret ("", None)
  | None => ret ("", None)
  end.

(** [LockCtx.IterateValuesNotLocked] applied to
    [TxnCtx.SetPessimisticLockCache]. *)
Definition cacheValuesNotLocked (values : gmap string ReturnedValue)
    (cache : gmap string string) : gmap string string :=
  map_fold (fun k v c => if rvAlreadyLocked v then c else <[k := rvValue v]> c)
           cache values.

(** [lockKeyBase]. *)
Definition lockKeyBase (key : string) (lockOnlyIfExists : bool)
  : M (string * option error) :=
  if isEmpty key then ret ("", None)
  else
    s <-- getSt ;;
    let e := sExec s in
    if lock e then
      match newLockCtx env (lockWaitTime e) with
      | Some err => ret ("", Some err)
      | None =>
          emit (EvLock key lockOnlyIfExists (lockWaitTime e)) ;;;
          match doLockKeys env (lockWaitTime e) lockOnlyIfExists key with
          | inl err => ret ("", Some err)
          | inr values =>
              modify (with_cache (cacheValuesNotLocked values)) ;;;
              (if negb (isEmpty (handleVal e))
               then modify (with_cache (fun c => <[idxKey e := handleVal e]> c))
               else ret tt) ;;;
              if lockOnlyIfExists then getValueFromLockCtx values key
              else ret ("", None)
          end
      end
    else ret ("", None).

(** [lockKeyIfNeeded]. *)
Definition lockKeyIfNeeded (key : string) : M (option error) :=
  r <-- lockKeyBase key false ;; ret (snd r).

(** [lockKeyIfExists]. *)
Definition lockKeyIfExists (key : string) : M (string * option error) :=
  lockKeyBase key true.

(** [getAndLock]. *)
Definition getAndLock (key : string) : M (string * option error) :=
  if IsPessimisticReadConsistency env then
    s <-- getSt ;;
    if lock (sExec s) then
      r <-- lockKeyIfExists key ;;
      match r with
      | (_, Some err) => ret ("", Some err)
      | (val, None) => ret (val, None)
      end
    else
      r <-- get key ;;
      match r with
      | (_, Some err) =>
          if negb (isErrNotExist err) then ret ("", Some err)
          else ret ("", None)
      | (val, None) => ret (val, None)
      end
  else
    err <-- lockKeyIfNeeded key ;;
    match err with
    | Some err => ret ("", Some err)
    | None =>
        r <-- get key ;;
        match r with
        | (_, Some err) =>
            if negb (isErrNotExist err) then ret ("", Some err)
            else ret ("", None)
        | (val, None) => ret (val, None)
        end
    end.

(** [Datum.SetMysqlEnum]. *)
Definition SetMysqlEnum (d : Datum) (name : string) (value : Z)
    (collation : string) : Datum :=
  mkDatum KindMysqlEnum value name collation.

(** The cast errors after which the value cannot be in the index. *)
Definition castErrMeansNotExist (err : error) : bool :=
  isErrOverflow err || isErrDataTooLong err ||
  isErrTruncated err || isErrTruncatedWrongVal err.

Definition isStringKind (k : DatumKind) : bool :=
  match k with
  | KindString | KindBytes | KindBinaryLiteral => true
  | _ => false
  end.

(** Body of the loop of [EncodeUniqueIndexValuesForKey] for one value:
    the datum written back to [idxVals[i]] and the error that ends the
    loop, if any. *)
Definition encodeIndexValue (colInfo : ColumnInfo) (d : Datum)
  : Datum * option error :=
  let tp := ftTp (colFieldType colInfo) in
  if isTypeString tp || isTypeVarString tp || isTypeVarchar tp then
    let '(str, err) := ToString env d in
    (SetString d str (Collation d), err)
  else if isTypeEnum tp && isStringKind (Kind d) then
    match ToString env d with
    | (_, Some _) => (d, Some ErrNotExist)
    | (str, None) =>
        match ParseEnumName env (ftElems (colFieldType colInfo)) str
                (ftCollate (colFieldType colInfo)) with
        | inl _ => (d, Some ErrNotExist)
        | inr (name, v) =>
            (SetMysqlEnum d name v (ftCollate (colFieldType colInfo)), None)
        end
    end
  else
    match CastValue env d colInfo with
    | (d', Some err) =>
        if castErrMeansNotExist err then (d', Some ErrNotExist)
        else (d', Some err)
    | (d', None) => (d', None)
    end.

(** The loop [for i := range idxVals]; the values are updated in place,
    so the updated slice is returned along with the error.  Indexing
    outside [idxInfo.Columns] or [tblInfo.Columns] panics. *)
Fixpoint encodeIndexValues (tbl : TableInfo) (idx : IndexInfo) (i : nat)
    (vals : list Datum) : list Datum * option error :=
  match vals with
  | [] => ([], None)
  | d :: rest =>
      match idxColumns idx !! i with
      | None => (d :: rest, Some (ErrPanic "index out of range"))
      | Some ic =>
          match tblColumns tbl !! icOffset ic with
          | None => (d :: rest, Some (ErrPanic "index out of range"))
          | Some colInfo =>
              match encodeIndexValue colInfo d with
              | (d', Some err) => (d' :: rest, Some err)
              | (d', None) =>
                  let '(rest', err) := encodeIndexValues tbl idx (S i) rest in
                  (d' :: rest', err)
              end
          end
      end
  end.

(** [EncodeUniqueIndexValuesForKey]: the updated values, the encoded
    bytes and the error. *)
Definition EncodeUniqueIndexValuesForKey (tbl : TableInfo) (idx : IndexInfo)
    (vals : list Datum) : list Datum * (string * option error) :=
  match encodeIndexValues tbl idx 0 vals with
  | (vals', Some err) => (vals', ("", Some err))
  | (vals', None) =>
      match EncodeKey env vals' with
      | (_, Some err) => (vals', ("", Some err))
      | (enc, None) => (vals', (enc, None))
      end
  end.

(** [EncodeUniqueIndexKey]. *)
Definition EncodeUniqueIndexKey (tbl : TableInfo) (idx : IndexInfo)
    (vals : list Datum) (tID : Z) : list Datum * (string * option error) :=
  match EncodeUniqueIndexValuesForKey tbl idx vals with
  | (vals', (_, Some err)) => (vals', ("", Some err))
  | (vals', (enc, None)) =>
      (vals', (EncodeIndexSeekKey env tID (idxID idx) enc, None))
  end.

(** [DecodeRowValToChunk]: on success one row is appended to the chunk. *)
Definition DecodeRowValToChunk (sch : list Column) (tbl : TableInfo)
    (h : option Handle) (rowVal : string) : error + Row :=
  if IsNewFormat env rowVal then DecodeToChunk env rowVal h
  else decodeOldRowValToChunk env sch tbl h rowVal.

(** [table.FillVirtualColumnValue] walks the rows of the chunk and fills
    the virtual columns of each row in place. *)
Fixpoint fillVirtualRows (sch : list Column) (cols : list ColumnInfo)
    (rows : list Row) : list Row * option error :=
  match rows with
  | [] => ([], None)
  | r :: rest =>
      match FillVirtualColumnValue env sch cols r with
      | inl err => (r :: rest, Some err)
      | inr r' =>
          let '(rest', err) := fillVirtualRows sch cols rest in
          (r' :: rest', err)
      end
  end.

(** [Next], lines 244-273: the read of the index entry, with its lock. *)
Definition readIndexEntry : M (option error) :=
  s <-- getSt ;;
  let e := sExec s in
  let lockNonExistIdxKey := negb (IsPessimisticReadConsistency env) in
  if lockNonExistIdxKey then
    err <-- lockKeyIfNeeded (idxKey e) ;;
    match err with
    | Some err => ret (Some err)
    | None =>
        r <-- get (idxKey e) ;;
        modify (with_exec (set_handleVal (fst r))) ;;;
        match snd r with
        | Some err => if negb (isErrNotExist err) then ret (Some err) else ret None
        | None => ret None
        end
    end
  else if lock e then
    r <-- lockKeyIfExists (idxKey e) ;;
    modify (with_exec (set_handleVal (fst r))) ;;;
    ret (snd r)
  else
    r <-- get (idxKey e) ;;
    modify (with_exec (set_handleVal (fst r))) ;;;
    match snd r with
    | Some err => if negb (isErrNotExist err) then ret (Some err) else ret None
    | None => ret None
    end.

(** [Next], lines 310-347: the read of the row, the inconsistency report,
    the decoding. *)
Definition readRow (tid : Z) : M (option error) :=
  s <-- getSt ;;
  let e := sExec s in
  let key := EncodeRowKeyWithHandle env tid (handle e) in
  r <-- getAndLock key ;;
  match r with
  | (_, Some err) => ret (Some err)
  | (val, None) =>
      if isEmpty val then
        match idxInfo e with
        | Some idx =>
            if negb (isCommonHandleRead env (tblInfo e) idx) &&
               negb (WeakConsistency env)
            then
              emit (EvReport key (idxKey e)) ;;;
              ret (ReportLookupInconsistent env (tblInfo e) idx (handle e)
                     key (idxKey e))
            else ret None
        | None => ret None
        end
      else
        match DecodeRowValToChunk (schema e) (tblInfo e) (handle e) val with
        | inl err => ret (Some err)
        | inr row =>
            modify (with_req (fun c => (c ++ [row])%list)) ;;;
            s' <-- getSt ;;
            let '(rows, err) := fillVirtualRows (schema e) (columns e) (sReq s') in
            modify (with_req (fun _ => rows)) ;;;
            ret err
        end
  end.

(** [Next]. *)
Definition Next : M (option error) :=
  modify (with_req (fun _ => [])) ;;;
  s <-- getSt ;;
  let e := sExec s in
  if done e then ret None
  else
    modify (with_exec (set_done true)) ;;;
    let tid := match partitionDef e with
               | Some pd => pdID pd
               | None => tblID (tblInfo e)
               end in
    (if lock e then modify (with_delta (fun l => (l ++ [tid])%list)) else ret tt) ;;;
    match idxInfo e with
    | Some idx =>
        if isCommonHandleRead env (tblInfo e) idx then
          let '(vals, (handleBytes, err)) :=
            EncodeUniqueIndexValuesForKey (tblInfo e) idx (idxVals e) in
          modify (with_exec (set_idxVals vals)) ;;;
          match err with
          | Some err => if isErrNotExist err then ret None else ret (Some err)
          | None =>
              match NewCommonHandle env handleBytes with
              | inl err => modify (with_exec (set_handle None)) ;;; ret (Some err)
              | inr h => modify (with_exec (set_handle (Some h))) ;;; readRow tid
              end
          end
        else
          let '(vals, (key, err)) :=
            EncodeUniqueIndexKey (tblInfo e) idx (idxVals e) tid in
          modify (with_exec (fun e => set_idxKey key (set_idxVals vals e))) ;;;
          if match err with
             | Some err => negb (isErrNotExist err)
             | None => false
             end
          then ret err
          else
            r <-- readIndexEntry ;;
            match r with
            | Some err => ret (Some err)
            | None =>
                s1 <-- getSt ;;
                let hv := handleVal (sExec s1) in
                if isEmpty hv then ret None
                else
                  match DecodeHandleInUniqueIndexValue env hv
                          (tblIsCommonHandle (tblInfo e)) with
                  | inl err => ret (Some err)
                  | inr iv =>
                      modify (with_exec (set_handle (Some iv))) ;;;
                      if idxGlobal idx then
                        match DecodePartitionID env hv with
                        | inl err => ret (Some err)
                        | inr pid => readRow pid
                        end
                      else readRow tid
                  end
            end
    | None => readRow tid
    end.

(** The caller's loop: [n] successive calls of [Next] on the same
    executor, with their results and the calls they made. *)
Fixpoint NextTimes (n : nat) (s : St) : list (option error) * St * list Event :=
  match n with
  | 0%nat => ([], s, [])
  | S n' =>
      let '(r, s1, t1) := Next s in
      let '(rs, s2, t2) := NextTimes n' s1 in
      (r :: rs, s2, (t1 ++ t2)%list)
  end.

End Executor.
End PointGet.

(** ** The fast-path planner (point-get plan construction) *)

Module Planner.
Import Model.

(** Outcome of code that may panic at run time (index out of range, nil
    dereference, division by zero, explicit [panic]). *)
Inductive Res (A : Type) :=
| Ok (a : A)
| Panic (msg : string).
Arguments Ok {A} a.
Arguments Panic {A} msg.

Definition rbind {A B} (r : Res A) (k : A -> Res B) : Res B :=
  match r with
  | Ok a => k a
  | Panic m => Panic m
  end.

Declare Scope res_scope.
Delimit Scope res_scope with res.
Notation "x <-? c ;; k" := (rbind c (fun x => k))
  (at level 100, c at next level, right associativity) : res_scope.
Open Scope res_scope.

(** *** Syntax trees ([parser/ast]) *)

Inductive Op := LogicAnd | EQ | OpOther (code : Z).

Record ColumnName := mkColumnName {
  cnSchema : CIStr;
  cnTable : CIStr;
  cnName : CIStr
}.

#[local] Set Warnings "-register-all".
Inductive ExprNode :=
| ValueExpr (d : Datum)                       (* driver.ValueExpr *)
| ParamMarkerExpr (order : nat) (d : Datum)   (* driver.ParamMarkerExpr, which embeds a ValueExpr *)
| ColumnNameExpr (name : ColumnName)
| BinaryOperationExpr (op : Op) (l r : ExprNode)
| ParenthesesExpr (e : ExprNode)
| RowExpr (values : list ExprNode)
| PatternInExpr (e : ExprNode) (items : list ExprNode) (not : bool)
| FuncCallExpr (fnName : CIStr) (args : list ExprNode)
| SubqueryExpr
| OtherExpr (tag : Z).

Inductive IndexHintType := HintUse | HintIgnore | HintForce | HintOtherType.
Inductive IndexHintScope :=
| HintForScan | HintForJoin | HintForOrderBy | HintForGroupBy.

(** [ast.IndexHint]; [hIndexNames] is [None] for a nil slice. *)
Record IndexHint := mkIndexHint {
  hIndexNames : option (list CIStr);
  hHintType : IndexHintType;
  hHintScope : IndexHintScope
}.

(** [ast.TableName]. *)
Record TableName := mkTableName {
  tnSchema : CIStr;
  tnName : CIStr;
  tnTableInfo : option TableInfo;
  tnIndexHints : list IndexHint;
  tnPartitionNames : list CIStr
}.

(** What a [TableSource] wraps. *)
Inductive SourceNode :=
| SrcTableName (tn : TableName)
| SrcOther.

Inductive ResultSetNode :=
| TableSource (source : SourceNode) (asName : CIStr)
| OtherResultSet.

(** [ast.Join]. *)
Record Join := mkJoin {
  jLeft : ResultSetNode;
  jRight : option ResultSetNode
}.

(** [ast.TableRefsClause]. *)
Record TableRefsClause := mkTableRefsClause {
  trTableRefs : option Join
}.

Record WildCardField := mkWildCardField {
  wcSchema : CIStr;
  wcTable : CIStr
}.

(** [ast.SelectField]. *)
Record SelectField := mkSelectField {
  sfWildCard : option WildCardField;
  sfExpr : option ExprNode;
  sfAsName : CIStr
}.

(** [ast.Limit]. *)
Record Limit := mkLimit {
  lCount : option ExprNode;
  lOffset : option ExprNode
}.

Inductive SelectLockType :=
| SelectLockNone | SelectLockForUpdate | SelectLockForShare
| SelectLockForUpdateNoWait | SelectLockForUpdateWaitN
| SelectLockForShareNoWait | SelectLockForUpdateSkipLocked
| SelectLockForShareSkipLocked.

Record SelectLockInfo := mkSelectLockInfo {
  liLockType : SelectLockType;
  liWaitSec : Z
}.

(** [ast.SelectStmt].  The clauses whose mere presence matters carry
    their expressions only. *)
Record SelectStmt := mkSelectStmt {
  ssDistinct : bool;
  ssFrom : option TableRefsClause;
  ssWhere : option ExprNode;
  ssFields : list SelectField;
  ssGroupBy : option (list ExprNode);
  ssHaving : option ExprNode;
  ssWindowSpecs : list string;
  ssOrderBy : option (list ExprNode);
  ssLimit : option Limit;
  ssLockInfo : option SelectLockInfo
}.

(** *** Partition expressions ([table/tables]) *)

(** [expression.Expression], as far as the fast path tells the kinds
    apart. *)
Inductive Expression :=
| ExprColumn (c : Column)
| ExprOther.

Record ForRangePruning := mkForRangePruning {
  frLessThanLen : nat;                      (* len(LessThan) *)
  frCompare : nat -> Z -> bool -> Z         (* Compare(i, val, unsigned) *)
}.

Record ForListPruning := mkForListPruning {
  flLocateExpr : Expression;
  flColPrunesNil : bool;                    (* ColPrunes == nil *)
  flLocatePartition : Z -> bool -> Z
}.

(** [tables.PartitionExpr]. *)
Record PartitionExpr := mkPartitionExpr {
  peExpr : option Expression;
  peOrigExpr : option ExprNode;
  peKeyPartCols : list Column;
  peForRangePruning : ForRangePruning;
  peForListPruning : ForListPruning;
  peLocateKeyPartition : Z -> list Datum -> error + Z
}.

(** *** Session context and the collaborators of the planner *)

Record Ctx := mkCtx {
  CurrentDB : string;
  LockWaitTimeout : Z;
  IsAutocommit : bool;
  InTxn : bool;
  PessimisticAutoCommit : bool;
  ConnectionID : Z;
  IsolationReadCommitted : bool;        (* IsIsolation(ast.ReadCommitted) *)
  SelectLimitIsMax : bool;              (* SelectLimit == math.MaxUint64 *)
  checkStableResultMode : bool;
  LockNoWait : Z;                       (* tikvstore.LockNoWait *)
  checkFastPlanPrivilege : string -> string -> option error;
  IsMemDB : string -> bool;
  isForUpdateReadSelectLock : option SelectLockInfo -> bool;
  extractLimitCountOffset : Limit -> Z * Z * option error;
  getPartitionExpr : TableInfo -> option PartitionExpr;
  getLatestIndexInfo : Z -> option (gmap Z IndexInfo) * bool * option error;
  ParamMarkerExpression : nat -> Datum -> bool -> error + Constant;
  Eval : Constant -> error + Datum;
  EvalTypeOf : FieldType -> EvalType;   (* FieldType.EvalType() *)
  ConvertTo : Datum -> FieldType -> Datum * option error;
  Compare : Datum -> Datum -> string -> Z * option error;
  exprGetType : ExprNode -> FieldType;  (* GetType() of a syntax node *)
  rowChecksumFieldType : FieldType;
  NewExtraHandleColInfo : ColumnInfo
}.

(** [nameValuePair]. *)
Record nameValuePair := mkPair {
  nvColName : string;
  nvColFieldType : option FieldType;
  nvValue : Datum;
  nvCon : option Constant
}.

Definition zeroPair : nameValuePair := mkPair "" None zeroDatum None.

(** [BatchPointGetPlan]. *)
Record BatchPointGetPlan := mkBatchPointGetPlan {
  bDbName : string;
  bSchema : list Column;
  bNames : list FieldName;
  bRowCount : nat;                              (* statsInfo.RowCount *)
  bTblInfo : TableInfo;
  bIndexInfo : option IndexInfo;
  bPartitionDefs : option (list PartitionDefinition);
  bHandles : list Handle;
  bHandleType : option FieldType;
  bHandleParams : list (option Constant);
  bIndexValues : list (list Datum);
  bIndexValueParams : list (list (option Constant));
  bIndexColTypes : option (list (option FieldType));
  bPartitionColPos : Z;
  bPartitionExpr : option PartitionExpr;
  bLock : bool;
  bLockWaitTime : Z
}.

(** The plans [TryFastPlan] can return for a SELECT. *)
Inductive Plan :=
| PlanPointGet (p : PointGetPlan)
| PlanBatchPointGet (p : BatchPointGetPlan)
| PlanTableDual (schema : list Column) (names : list FieldName).

Definition eqs (a b : string) : bool := bool_decide (a = b).

Section Resolver.
Context (ctx : Ctx).

(** [IsSelectForUpdateLockType]. *)
Definition IsSelectForUpdateLockType (lockType : SelectLockType) : bool :=
  match lockType with
  | SelectLockForUpdate | SelectLockForShare
  | SelectLockForUpdateNoWait | SelectLockForUpdateWaitN => true
  | _ => false
  end.

(** Conversion [int64(x)] of a [uint64]. *)
Definition toInt64 (x : Z) : Z := if x <? 2 ^ 63 then x else x - 2 ^ 64.

(** [getLockWaitTime].  [WaitSec] is a [uint64]: the product
    [WaitSec * 1000] wraps at [2^64] before [int64(...)] reads it as a
    signed number. *)
Definition getLockWaitTime (lockInfo : option SelectLockInfo) : bool * Z :=
  match lockInfo with
  | Some li =>
      if IsSelectForUpdateLockType (liLockType li) then
        if negb (IsAutocommit ctx) || InTxn ctx || PessimisticAutoCommit ctx then
          match liLockType li with
          | SelectLockForUpdateWaitN =>
              (true, toInt64 ((liWaitSec li * 1000) mod 2 ^ 64))
          | SelectLockForUpdateNoWait => (true, LockNoWait ctx)
          | _ => (true, LockWaitTimeout ctx)
          end
        else (false, 0)
      else (false, 0)
  | None => (false, 0)
  end.

(** [findInPairs]; [None] stands for [-1]. *)
Fixpoint findInPairsFrom (i : nat) (name : string) (pairs : list nameValuePair)
  : option nat :=
  match pairs with
  | [] => None
  | pr :: rest =>
      if eqs (nvColName pr) name then Some i
      else findInPairsFrom (S i) name rest
  end.
Definition findInPairs (name : string) (pairs : list nameValuePair) : option nat :=
  findInPairsFrom 0 name pairs.

(** The loop of [getIndexValues] over [idxInfo.Columns]; [None] when a
    column has no pair. *)
Fixpoint collectIndexValues (cols : list IndexColumn) (pairs : list nameValuePair)
  : option (list Datum * list (option Constant) * list (option FieldType)) :=
  match cols with
  | [] => Some ([], [], [])
  | idxCol :: rest =>
      match findInPairs (L (icName idxCol)) pairs with
      | None => None
      | Some i =>
          match pairs !! i with
          | None => None
          | Some pr =>
              match collectIndexValues rest pairs with
              | None => None
              | Some (vs, cs, fts) =>
                  Some (nvValue pr :: vs, nvCon pr :: cs,
                        nvColFieldType pr :: fts)
              end
          end
      end
  end.

(** [getIndexValues]; [None] is the triple of nil slices. *)
Definition getIndexValues (idxInfo : IndexInfo) (pairs : list nameValuePair)
  : option (list Datum * list (option Constant) * list (option FieldType)) :=
  if negb (Nat.eqb (length (idxColumns idxInfo)) (length pairs)) then None
  else if HasPrefixIndex idxInfo then None
  else
    match collectIndexValues (idxColumns idxInfo) pairs with
    | None => None
    | Some (vs, cs, fts) =>
        if Nat.ltb 0 (length vs) then Some (vs, cs, fts) else None
    end.

(** [findPKHandle]. *)
Definition findPKHandle (tblInfo : TableInfo) (pairs : list nameValuePair)
  : nameValuePair * option FieldType :=
  if negb (tblPKIsHandle tblInfo) then
    match findInPairs "_tidb_rowid" pairs with
    | Some rowIDIdx =>
        (default zeroPair (pairs !! rowIDIdx), Some (NewFieldType TypeLonglong))
    | None => (zeroPair, None)
    end
  else
    match List.find (fun col => HasPriKeyFlag (ftFlag (colFieldType col)))
                    (tblColumns tblInfo) with
    | Some col =>
        match findInPairs (L (colName col)) pairs with
        | None => (zeroPair, None)
        | Some i => (default zeroPair (pairs !! i), Some (colFieldType col))
        end
    | None => (zeroPair, None)
    end.

(** The closure [match] of [indexIsAvailableByHints]. *)
Definition hintNameMatches (idxInfo : option IndexInfo) (name : CIStr) : bool :=
  match idxInfo with
  | None => eqs (L name) "primary"
  | Some idx => eqs (L (idxName idx)) (L name)
  end.

(** The loop of [indexIsAvailableByHints]; [isIgnore] is the flag the
    source updates on the way. *)
Fixpoint hintsLoop (idxInfo : option IndexInfo) (hints : list IndexHint)
    (isIgnore : bool) : bool :=
  match hints with
  | [] => isIgnore
  | hint :: rest =>
      match hHintScope hint with
      | HintForScan =>
          let ignoreHere :=
            match hHintType hint, hIndexNames hint with
            | HintIgnore, Some _ => true
            | _, _ => false
            end in
          let names := default [] (hIndexNames hint) in
          if ignoreHere && existsb (hintNameMatches idxInfo) names then false
          else
            let isIgnore' := isIgnore || ignoreHere in
            let useHere :=
              match hHintType hint, hIndexNames hint with
              | HintForce, Some _ | HintUse, Some _ => true
              | _, _ => false
              end in
            if useHere && existsb (hintNameMatches idxInfo) names then true
            else hintsLoop idxInfo rest isIgnore'
      | _ => hintsLoop idxInfo rest isIgnore
      end
  end.

(** [indexIsAvailableByHints]; [idxInfo] is [None] for the primary key. *)
Definition indexIsAvailableByHints (idxInfo : option IndexInfo)
    (idxHints : list IndexHint) : bool :=
  match idxHints with
  | [] => true
  | _ => hintsLoop idxInfo idxHints false
  end.

(** [partitionNameInSet]. *)
Definition partitionNameInSet (name : CIStr) (pnames : list CIStr) : bool :=
  existsb (fun pname => eqs (L name) (L pname)) pnames.

(** [newPointGetPlan]. *)
Definition newPointGetPlan (dbName : string) (schema : list Column)
    (tbl : TableInfo) (names : list FieldName) : PointGetPlan :=
  {| pDbName := dbName; pSchema := schema; pTblInfo := tbl;
     pIndexInfo := None; pPartitionDef := None; pHandle := None;
     pHandleConstant := None; pHandleFieldType := None;
     pIndexValues := []; pIndexConstants := []; pColsFieldType := [];
     pUnsignedHandle := false; pIsTableDual := false; pLock := false;
     pOutputNames := names; pLockWaitTime := LockWaitTimeout ctx;
     pPartitionColumnPos := 0; pColumns := [] |}.

Definition setTableDual (p : PointGetPlan) : PointGetPlan :=
  {| pDbName := pDbName p; pSchema := pSchema p; pTblInfo := pTblInfo p;
     pIndexInfo := pIndexInfo p; pPartitionDef := pPartitionDef p;
     pHandle := pHandle p; pHandleConstant := pHandleConstant p;
     pHandleFieldType := pHandleFieldType p;
     pIndexValues := pIndexValues p; pIndexConstants := pIndexConstants p;
     pColsFieldType := pColsFieldType p;
     pUnsignedHandle := pUnsignedHandle p; pIsTableDual := true;
     pLock := pLock p; pOutputNames := pOutputNames p;
     pLockWaitTime := pLockWaitTime p;
     pPartitionColumnPos := pPartitionColumnPos p; pColumns := pColumns p |}.

Definition setLock (lk : bool * Z) (p : PointGetPlan) : PointGetPlan :=
  {| pDbName := pDbName p; pSchema := pSchema p; pTblInfo := pTblInfo p;
     pIndexInfo := pIndexInfo p; pPartitionDef := pPartitionDef p;
     pHandle := pHandle p; pHandleConstant := pHandleConstant p;
     pHandleFieldType := pHandleFieldType p;
     pIndexValues := pIndexValues p; pIndexConstants := pIndexConstants p;
     pColsFieldType := pColsFieldType p;
     pUnsignedHandle := pUnsignedHandle p; pIsTableDual := pIsTableDual p;
     pLock := fst lk; pOutputNames := pOutputNames p;
     pLockWaitTime := snd lk;
     pPartitionColumnPos := pPartitionColumnPos p; pColumns := pColumns p |}.

(** [colInfoToColumn]. *)
Definition colInfoToColumn (col : ColumnInfo) (idx : nat) : Column :=
  {| cRetType := colFieldType col; cID := colID col;
     cUniqueID := Z.of_nat (colOffset col); cIndex := idx;
     cOrigName := L (colName col) |}.

Definition ExtraHandleName : CIStr := NewCIStr "_tidb_rowid".
Definition ExtraRowChecksumID : Z := -4.
Definition TiDBRowChecksum : string := "tidb_row_checksum".

(** [findCol]. *)
Definition findCol (tbl : TableInfo) (colName : ColumnName) : option ColumnInfo :=
  if eqs (L (cnName colName)) (L ExtraHandleName) && negb (tblPKIsHandle tbl) then
    let c := NewExtraHandleColInfo ctx in
    Some {| colID := Model.colID c; colName := Model.colName c;
            colOffset := Nat.pred (length (tblColumns tbl));
            colFieldType := Model.colFieldType c; colState := Model.colState c;
            colGenerated := Model.colGenerated c |}
  else
    List.find (fun col => eqs (L (Model.colName col)) (L (cnName colName)))
              (tblColumns tbl).

(** [tryExtractRowChecksumColumn]. *)
Definition tryExtractRowChecksumColumn (field : SelectField) (idx : nat)
  : option (FieldName * Column) :=
  match sfExpr field with
  | Some (FuncCallExpr fnName []) =>
      if eqs (L fnName) TiDBRowChecksum then
        let origName := mkCIStr (O fnName ++ "()") (L fnName ++ "()") in
        let asName := if negb (eqs (L (sfAsName field)) "")
                      then sfAsName field else origName in
        Some ({| fnDBName := mkCIStr "" ""; fnOrigTblName := mkCIStr "" "";
                 fnTblName := mkCIStr "" ""; fnOrigColName := origName;
                 fnColName := asName |},
              {| cRetType := rowChecksumFieldType ctx; cID := ExtraRowChecksumID;
                 cUniqueID := ExtraRowChecksumID; cIndex := idx;
                 cOrigName := L origName |})
      else None
  | _ => None
  end.

(** The wildcard branch of [buildSchemaFromFields]: one name and one
    column for every column of the table. *)
Fixpoint appendAllColumns (dbName : CIStr) (tbl : TableInfo) (tblName : CIStr)
    (cols : list ColumnInfo) (columns : list Column) (names : list FieldName)
  : list Column * list FieldName :=
  match cols with
  | [] => (columns, names)
  | col :: rest =>
      appendAllColumns dbName tbl tblName rest
        (columns ++ [colInfoToColumn col (length columns)])%list
        (names ++ [{| fnDBName := dbName; fnOrigTblName := Model.tblName tbl;
                      fnTblName := tblName; fnOrigColName := mkCIStr "" "";
                      fnColName := Model.colName col |}])%list
  end.

(** The loop of [buildSchemaFromFields] over the select fields. *)
Fixpoint buildFromFields (dbName : CIStr) (tbl : TableInfo) (tblName : CIStr)
    (fields : list SelectField) (columns : list Column) (names : list FieldName)
  : option (list Column * list FieldName) :=
  match fields with
  | [] => Some (columns, names)
  | field :: rest =>
      match sfWildCard field with
      | Some wc =>
          if negb (eqs (L (wcTable wc)) "") && negb (eqs (L (wcTable wc)) (L tblName))
          then None
          else
            let '(columns', names') :=
              appendAllColumns dbName tbl tblName (tblColumns tbl) columns names in
            buildFromFields dbName tbl tblName rest columns' names'
      | None =>
          match tryExtractRowChecksumColumn field (length columns) with
          | Some (name, column) =>
              buildFromFields dbName tbl tblName rest
                (columns ++ [column])%list (names ++ [name])%list
          | None =>
              match sfExpr field with
              | Some (ColumnNameExpr cn) =>
                  if negb (eqs (L (cnTable cn)) "") &&
                     negb (eqs (L (cnTable cn)) (L tblName))
                  then None
                  else
                    match findCol tbl cn with
                    | None => None
                    | Some col =>
                        let asName := if negb (eqs (L (sfAsName field)) "")
                                      then sfAsName field else cnName cn in
                        buildFromFields dbName tbl tblName rest
                          (columns ++ [colInfoToColumn col (length columns)])%list
                          (names ++ [{| fnDBName := dbName;
                                        fnOrigTblName := Model.tblName tbl;
                                        fnTblName := tblName;
                                        fnOrigColName := Model.colName col;
                                        fnColName := asName |}])%list
                    end
              | _ => None
              end
          end
      end
  end.

(** [buildSchemaFromFields]; [None] is the pair of nils. *)
Definition buildSchemaFromFields (dbName : CIStr) (tbl : TableInfo)
    (tblName : CIStr) (fields : list SelectField)
  : option (list Column * list FieldName) :=
  match fields with
  | _ :: _ => buildFromFields dbName tbl tblName fields [] []
  | [] => Some (appendAllColumns dbName tbl tblName (tblColumns tbl) [] [])
  end.

(** [getSingleTableNameAndAlias]. *)
Definition getSingleTableNameAndAlias (tableRefs : option TableRefsClause)
  : option TableName * CIStr :=
  match tableRefs with
  | Some (mkTableRefsClause (Some (mkJoin lhs None))) =>
      match lhs with
      | TableSource (SrcTableName tblName) asName =>
          if eqs (L asName) "" then (Some tblName, tnName tblName)
          else (Some tblName, asName)
      | _ => (None, mkCIStr "" "")
      end
  | _ => (None, mkCIStr "" "")
  end.

(** [TableInfo.Cols] and [model.FindColumnInfo] of parser/model: the
    public columns, and the lookup of a column by lower-cased name. *)
Definition Cols (tbl : TableInfo) : list ColumnInfo :=
  List.filter (fun c => SchemaState_eqb (colState c) StatePublic) (tblColumns tbl).
Definition FindColumnInfo (cols : list ColumnInfo) (name : string)
  : option ColumnInfo :=
  List.find (fun c => eqs (L (Model.colName c)) name) cols.

Definition CollationBin : string := "binary".

(** [checkCanConvertInPointGet]. *)
Definition checkCanConvertInPointGet (col : ColumnInfo) (d : Datum) : bool :=
  let kind := Kind d in
  if isETString (EvalTypeOf ctx (colFieldType col)) &&
     match kind with
     | KindInt64 | KindUint64 | KindFloat32 | KindFloat64 | KindMysqlDecimal => true
     | _ => false
     end
  then false
  else if isTypeBit (ftTp (colFieldType col)) && DatumKind_eqb kind KindString
  then false
  else true.

(** The string datum takes the collation of a string column. *)
Definition setColumnCollation (col : ColumnInfo) (d : Datum) : Datum :=
  if isETString (EvalTypeOf ctx (colFieldType col)) &&
     (DatumKind_eqb (Kind d) KindString || DatumKind_eqb (Kind d) KindBinaryLiteral)
  then SetString d (GetString d) (ftCollate (colFieldType col))
  else d.

(** The type switch on the constant side of an equality in
    [getNameValuePairs]: the datum and the constant, or the error of the
    parameter marker.  Any other node leaves the zero datum. *)
Definition constantOperand (x : ExprNode) (needParam : bool)
  : error + (Datum * option Constant) :=
  match x with
  | ValueExpr d => inr (d, None)
  | ParamMarkerExpr order d0 =>
      match ParamMarkerExpression ctx order d0 needParam with
      | inl err => inl err
      | inr con =>
          match Eval ctx con with
          | inl err => inl err
          | inr d => inr (d, Some con)
          end
      end
  | _ => inr (zeroDatum, None)
  end.

(** The [opcode.EQ] branch of [getNameValuePairs]. *)
Definition equalityPair (tbl : TableInfo) (tblName : CIStr)
    (nvPairs : list nameValuePair) (l r : ExprNode)
  : option (list nameValuePair) * bool :=
  let operands :=
    match l with
    | ColumnNameExpr cn => Some (cn, r)
    | _ => match r with
           | ColumnNameExpr cn => Some (cn, l)
           | _ => None
           end
    end in
  match operands with
  | None => (None, false)
  | Some (colName, other) =>
      match constantOperand other false with
      | inl _ => (None, false)
      | inr (d, con) =>
          if IsNull d then (None, false)
          else if tblIsView tbl then (None, false)
          else if negb (eqs (L (cnTable colName)) "") &&
                  negb (eqs (L (cnTable colName)) (L tblName))
          then (None, false)
          else
            let name := L (cnName colName) in
            match FindColumnInfo (Cols tbl) name with
            | None =>
                (Some (nvPairs ++ [mkPair name (Some (NewFieldType TypeLonglong)) d con])%list,
                 false)
            | Some col =>
                let d := setColumnCollation col d in
                let ft := colFieldType col in
                if isTypeString (ftTp ft) && eqs (ftCollate ft) CollationBin then
                  (Some (nvPairs ++ [mkPair name (Some ft) d con])%list, false)
                else if negb (checkCanConvertInPointGet col d) then (None, false)
                else
                  let '(dVal, err) := ConvertTo ctx d ft in
                  let compared :=
                    match Compare ctx dVal d (ftCollate ft) with
                    | (_, Some _) => (None, false)
                    | (cmp, None) =>
                        if negb (cmp =? 0) then (None, false)
                        else (Some (nvPairs ++ [mkPair name (Some ft) dVal con])%list,
                              false)
                    end in
                  match err with
                  | Some e =>
                      if isErrOverflow e then
                        (Some (nvPairs ++ [mkPair name (Some ft) d con])%list, true)
                      else if negb (isErrTruncatedWrongVal e) then (None, false)
                      else compared
                  | None => compared
                  end
            end
      end
  end.

(** [getNameValuePairs] on a non-nil expression; the first component is
    [None] for a nil slice. *)
Fixpoint getNameValuePairsOf (tbl : TableInfo) (tblName : CIStr)
    (nvPairs : list nameValuePair) (expr : ExprNode)
  : option (list nameValuePair) * bool :=
  match expr with
  | BinaryOperationExpr LogicAnd l r =>
      match getNameValuePairsOf tbl tblName nvPairs l with
      | (Some nvPairs1, false) =>
          match getNameValuePairsOf tbl tblName nvPairs1 r with
          | (Some nvPairs2, false) => (Some nvPairs2, false)
          | (_, isTableDual) => (None, isTableDual)
          end
      | (_, isTableDual) => (None, isTableDual)
      end
  | BinaryOperationExpr EQ l r => equalityPair tbl tblName nvPairs l r
  | _ => (None, false)
  end.

(** [getNameValuePairs]. *)
Definition getNameValuePairs (tbl : TableInfo) (tblName : CIStr)
    (nvPairs : list nameValuePair) (expr : option ExprNode)
  : option (list nameValuePair) * bool :=
  match expr with
  | Some e => getNameValuePairsOf tbl tblName nvPairs e
  | None => (None, false)
  end.

(** [getPointGetValue]: the converted datum ([None] for nil) and the
    datum [d] points to, whose collation the call may have set. *)
Definition getPointGetValue (col : ColumnInfo) (d : Datum)
  : option Datum * Datum :=
  if negb (checkCanConvertInPointGet col d) then (None, d)
  else
    let d := setColumnCollation col d in
    match ConvertTo ctx d (colFieldType col) with
    | (_, Some _) => (None, d)
    | (dVal, None) =>
        match Compare ctx dVal d (ftCollate (colFieldType col)) with
        | (_, Some _) => (None, d)
        | (cmp, None) => if negb (cmp =? 0) then (None, d) else (Some dVal, d)
        end
    end.

(** [findColNameByColID]. *)
Definition findColNameByColID (cols : list ColumnInfo) (col : Column)
  : option ColumnInfo :=
  List.find (fun c => Model.colID c =? cID col) cols.

(** First pair on the column [name], with its position. *)
Definition firstPairOn (name : string) (pairs : list nameValuePair)
  : option (nat * nameValuePair) :=
  match findInPairs name pairs with
  | Some i => match pairs !! i with
              | Some pr => Some (i, pr)
              | None => None
              end
  | None => None
  end.

(** [sort.Search] of the Go library: binary search for the least index
    in [[0, n)] at which [f] holds. *)
Fixpoint searchLoop (fuel : nat) (f : nat -> bool) (i j : nat) : nat :=
  match fuel with
  | 0%nat => i
  | S fuel' =>
      if Nat.ltb i j then
        let h := Nat.div2 (i + j) in
        if negb (f h) then searchLoop fuel' f (S h) j
        else searchLoop fuel' f i h
      else i
  end.
Definition sortSearch (n : nat) (f : nat -> bool) : nat :=
  searchLoop (S n) f 0 n.

(** [&pi.Definitions[pos]]. *)
Definition definitionAt (pi : PartitionInfo) (pos : Z)
  : Res PartitionDefinition :=
  if pos <? 0 then Panic "index out of range"
  else match piDefinitions pi !! Z.to_nat pos with
       | Some def => Ok def
       | None => Panic "index out of range"
       end.

Definition noPartition : Res (option PartitionDefinition * nat * Z * bool) :=
  Ok (None, 0%nat, 0, false).

(** [getPartitionDef]: the partition, the position of the pair that
    decided it, the position of the partition, and the table-dual flag. *)
Definition getPartitionDef (tbl : TableInfo) (pairs : list nameValuePair)
  : Res (option PartitionDefinition * nat * Z * bool) :=
  match getPartitionExpr ctx tbl with
  | None => noPartition
  | Some partitionExpr =>
      match tblPartition tbl with
      | None => noPartition
      | Some pi =>
          match piType pi with
          | PartitionTypeHash =>
              match peOrigExpr partitionExpr with
              | Some (ColumnNameExpr partitionColName) =>
                  match firstPairOn (L (cnName partitionColName)) pairs with
                  | Some (i, pr) =>
                      let val := GetInt64 (nvValue pr) in
                      let n := toInt64 (piNum pi) in
                      if n =? 0 then Panic "integer divide by zero"
                      else
                        let pos := Z.abs (Z.rem val n) in
                        def <-? definitionAt pi pos ;;
                        Ok (Some def, i, pos, false)
                  | None => noPartition
                  end
              | _ => noPartition
              end
          | PartitionTypeKey =>
              if Nat.eqb (length (piColumns pi)) 1 then
                match peKeyPartCols partitionExpr, piColumns pi with
                | [], _ => Panic "index out of range"
                | _ :: _, c0 :: _ =>
                    match firstPairOn (L c0) pairs with
                    | Some (i, pr) =>
                        match peLocateKeyPartition partitionExpr (piNum pi)
                                [nvValue pr] with
                        | inl _ => noPartition
                        | inr pos =>
                            def <-? definitionAt pi pos ;;
                            Ok (Some def, i, pos, false)
                        end
                    | None => noPartition
                    end
                | _ :: _, [] => noPartition
                end
              else noPartition
          | PartitionTypeRange =>
              if Nat.eqb (length (piColumns pi)) 0 then
                match peExpr partitionExpr with
                | Some (ExprColumn col) =>
                    match pairs with
                    | [] => noPartition
                    | _ :: _ =>
                        match findColNameByColID (tblColumns tbl) col with
                        | None => Panic "nil pointer dereference"
                        | Some colInfo =>
                            match firstPairOn (L (Model.colName colInfo)) pairs with
                            | Some (i, pr) =>
                                let val := GetInt64 (nvValue pr) in
                                let unsigned := HasUnsignedFlag (ftFlag (cRetType col)) in
                                let ranges := peForRangePruning partitionExpr in
                                let length := frLessThanLen ranges in
                                let pos := sortSearch length
                                  (fun i => 0 <? frCompare ranges i val unsigned) in
                                if Nat.ltb pos length then
                                  def <-? definitionAt pi (Z.of_nat pos) ;;
                                  Ok (Some def, i, Z.of_nat pos, false)
                                else Ok (None, 0%nat, 0, true)
                            | None => noPartition
                            end
                        end
                    end
                | _ => noPartition
                end
              else noPartition
          | PartitionTypeList =>
              if flColPrunesNil (peForListPruning partitionExpr) then
                match flLocateExpr (peForListPruning partitionExpr) with
                | ExprColumn locateExpr =>
                    match pairs with
                    | [] => noPartition
                    | _ :: _ =>
                        match findColNameByColID (tblColumns tbl) locateExpr with
                        | None => Panic "nil pointer dereference"
                        | Some colInfo =>
                            match firstPairOn (L (Model.colName colInfo)) pairs with
                            | Some (i, pr) =>
                                let val := GetInt64 (nvValue pr) in
                                let pos := flLocatePartition
                                             (peForListPruning partitionExpr) val false in
                                if 0 <=? pos then
                                  def <-? definitionAt pi pos ;;
                                  Ok (Some def, i, pos, false)
                                else Ok (None, 0%nat, 0, true)
                            | None => noPartition
                            end
                        end
                    end
                | ExprOther => noPartition
                end
              else noPartition
          | PartitionTypeOther => noPartition
          end
      end
  end.

(** Position of the first index column called [name]. *)
Fixpoint indexColumnPos (i : nat) (name : string) (cols : list IndexColumn)
  : option nat :=
  match cols with
  | [] => None
  | c :: rest => if eqs (L (icName c)) name then Some i
                 else indexColumnPos (S i) name rest
  end.

(** [findPartitionIdx]. *)
Definition findPartitionIdx (idxInfo : IndexInfo) (pos : nat)
    (pairs : list nameValuePair) : Res Z :=
  match idxColumns idxInfo with
  | [] => Ok 0
  | _ :: _ =>
      match pairs !! pos with
      | None => Panic "index out of range"
      | Some pr =>
          Ok (match indexColumnPos 0 (nvColName pr) (idxColumns idxInfo) with
              | Some i => Z.of_nat i
              | None => 0
              end)
      end
  end.

(** [GlobalWithoutColumnPos]. *)
Definition GlobalWithoutColumnPos : Z := -1.

(** [getColumnPosInIndex], on a non-nil name. *)
Definition getColumnPosInIndex (idx : IndexInfo) (colName : CIStr) : Res Z :=
  match indexColumnPos 0 (L colName) (idxColumns idx) with
  | Some i => Ok (Z.of_nat i)
  | None =>
      if idxGlobal idx then Ok GlobalWithoutColumnPos
      else Panic "unique index must include all partition columns"
  end.

(** [getPartitionColumnPos]; [Ok None] is the error
    "unsupported partition type in BatchGet". *)
Definition getPartitionColumnPos (idx : IndexInfo)
    (partitionExpr : option PartitionExpr) (tbl : TableInfo) : Res (option Z) :=
  match partitionExpr with
  | None => Ok (Some 0)
  | Some pe =>
      match tblPartition tbl with
      | None => Ok (Some 0)
      | Some pi =>
          let viaColumn (col : Column) :=
            match findColNameByColID (tblColumns tbl) col with
            | None => Panic "nil pointer dereference"
            | Some colInfo =>
                pos <-? getColumnPosInIndex idx (Model.colName colInfo) ;;
                Ok (Some pos)
            end in
          match piType pi with
          | PartitionTypeHash =>
              match peOrigExpr pe with
              | Some (ColumnNameExpr col) =>
                  pos <-? getColumnPosInIndex idx (cnName col) ;; Ok (Some pos)
              | _ => Ok None
              end
          | PartitionTypeKey =>
              match peKeyPartCols pe with
              | [c] => viaColumn c
              | _ => Ok None
              end
          | PartitionTypeRange =>
              match peExpr pe with
              | Some (ExprColumn col) =>
                  if Nat.eqb (length (piColumns pi)) 0 then viaColumn col
                  else Ok None
              | _ => Ok None
              end
          | PartitionTypeList =>
              match flLocateExpr (peForListPruning pe) with
              | ExprColumn locateExpr =>
                  if flColPrunesNil (peForListPruning pe) then viaColumn locateExpr
                  else Ok None
              | ExprOther => Ok None
              end
          | PartitionTypeOther =>
              pos <-? getColumnPosInIndex idx (mkCIStr "" "") ;; Ok (Some pos)
          end
      end
  end.

(** The test every index goes through first in
    [checkTblIndexForPointPlan] and [newBatchPointGetPlan]. *)
Definition indexUsable (idxInfo : IndexInfo) (hints : list IndexHint) : bool :=
  negb (negb (idxUnique idxInfo) ||
        negb (SchemaState_eqb (idxState idxInfo) StatePublic) ||
        idxInvisible idxInfo || idxMVIndex idxInfo ||
        negb (indexIsAvailableByHints (Some idxInfo) hints)).

(** The check-mode refresh: [getLatestIndexInfo] is asked once, when
    [check] holds and no answer is at hand.  [None] when it fails. *)
Definition refreshLatest (tid : Z) (check : bool)
    (latestIndexes : option (gmap Z IndexInfo))
  : option (option (gmap Z IndexInfo) * bool) :=
  if check && match latestIndexes with None => true | Some _ => false end then
    match getLatestIndexInfo ctx tid with
    | (_, _, Some _) => None
    | (latest, check', None) => Some (latest, check')
    end
  else Some (latestIndexes, check).

(** The index is present and public in the latest schema. *)
Definition latestIsPublic (latestIndexes : option (gmap Z IndexInfo))
    (idxInfo : IndexInfo) : bool :=
  match latestIndexes with
  | Some m =>
      match m !! idxID idxInfo with
      | Some latestIndex => SchemaState_eqb (idxState latestIndex) StatePublic
      | None => false
      end
  | None => false
  end.

Definition indexPlan (dbName : string) (schema : list Column) (tbl : TableInfo)
    (names : list FieldName) (idxInfo : IndexInfo) (idxValues : list Datum)
    (idxConstant : list (option Constant)) (colsFieldType : list (option FieldType))
    (partitionDef : option PartitionDefinition) (partitionColumnPos : Z)
  : PointGetPlan :=
  let p := newPointGetPlan dbName schema tbl names in
  {| pDbName := pDbName p; pSchema := pSchema p; pTblInfo := pTblInfo p;
     pIndexInfo := Some idxInfo; pPartitionDef := partitionDef;
     pHandle := pHandle p; pHandleConstant := pHandleConstant p;
     pHandleFieldType := pHandleFieldType p;
     pIndexValues := idxValues; pIndexConstants := idxConstant;
     pColsFieldType := colsFieldType;
     pUnsignedHandle := pUnsignedHandle p; pIsTableDual := pIsTableDual p;
     pLock := pLock p; pOutputNames := pOutputNames p;
     pLockWaitTime := pLockWaitTime p;
     pPartitionColumnPos := partitionColumnPos; pColumns := pColumns p |}.

(** The loop of [checkTblIndexForPointPlan] over [tbl.Indices]. *)
Fixpoint checkIndexLoop (tblName : TableName) (tbl : TableInfo) (dbName : string)
    (schema : list Column) (names : list FieldName) (pairs : list nameValuePair)
    (partitionDef : option PartitionDefinition) (pos : nat)
    (globalIndexCheck isTableDual check : bool)
    (latestIndexes : option (gmap Z IndexInfo)) (indices : list IndexInfo)
  : Res (option PointGetPlan) :=
  match indices with
  | [] => Ok None
  | idxInfo :: rest =>
      if negb (indexUsable idxInfo (tnIndexHints tblName)) then
        checkIndexLoop tblName tbl dbName schema names pairs partitionDef pos
          globalIndexCheck isTableDual check latestIndexes rest
      else if globalIndexCheck && negb (idxGlobal idxInfo) then
        checkIndexLoop tblName tbl dbName schema names pairs partitionDef pos
          globalIndexCheck isTableDual check latestIndexes rest
      else if isTableDual then
        match refreshLatest (tblID tbl) check latestIndexes with
        | None => Ok None
        | Some (latest', check') =>
            if check' && negb (latestIsPublic latest' idxInfo) then
              checkIndexLoop tblName tbl dbName schema names pairs partitionDef pos
                globalIndexCheck isTableDual check' latest' rest
            else
              Ok (Some (setTableDual
                          (newPointGetPlan (O (tnSchema tblName)) schema tbl names)))
        end
      else
        match getIndexValues idxInfo pairs with
        | None =>
            checkIndexLoop tblName tbl dbName schema names pairs partitionDef pos
              globalIndexCheck isTableDual check latestIndexes rest
        | Some (idxValues, idxConstant, colsFieldType) =>
            match refreshLatest (tblID tbl) check latestIndexes with
            | None => Ok None
            | Some (latest', check') =>
                if check' && negb (latestIsPublic latest' idxInfo) then
                  checkIndexLoop tblName tbl dbName schema names pairs partitionDef
                    pos globalIndexCheck isTableDual check' latest' rest
                else
                  partitionColumnPos <-?
                    match partitionDef with
                    | Some _ => findPartitionIdx idxInfo pos pairs
                    | None => Ok 0
                    end ;;
                  Ok (Some (indexPlan dbName schema tbl names idxInfo idxValues
                              idxConstant colsFieldType partitionDef
                              partitionColumnPos))
            end
        end
  end.

(** [checkTblIndexForPointPlan]. *)
Definition checkTblIndexForPointPlan (tblName : TableName) (schema : list Column)
    (names : list FieldName) (pairs : list nameValuePair)
    (partitionDef : option PartitionDefinition) (pos : nat)
    (globalIndexCheck isTableDual check : bool) : Res (option PointGetPlan) :=
  stop <-?
    (if globalIndexCheck then
       if Nat.ltb 0 (length (tnPartitionNames tblName)) then Ok true
       else
         match tnTableInfo tblName with
         | None => Ok true
         | Some tbl =>
             match tblPartition tbl with
             | None => Panic "nil pointer dereference"
             | Some pi =>
                 Ok (Nat.ltb 0 (length (piAddingDefinitions pi)) ||
                     Nat.ltb 0 (length (piDroppingDefinitions pi)))
             end
         end
     else Ok false) ;;
  if (stop : bool) then Ok None
  else
    let check := (check || IsolationReadCommitted ctx) && (0 <? ConnectionID ctx) in
    match tnTableInfo tblName with
    | None => Panic "nil pointer dereference"
    | Some tbl =>
        let dbName := if eqs (L (tnSchema tblName)) "" then CurrentDB ctx
                      else L (tnSchema tblName) in
        checkIndexLoop tblName tbl dbName schema names pairs partitionDef pos
          globalIndexCheck isTableDual check None (tblIndices tbl)
    end.

Definition isSome {A} (o : option A) : bool :=
  match o with Some _ => true | None => false end.

(** The clause test opening [tryPointGetPlan]: HAVING, ORDER BY, and a
    LIMIT whose count is 0, whose offset is positive or that cannot be
    evaluated. *)
Definition pointGetClausesRefused (selStmt : SelectStmt) : bool :=
  if isSome (ssHaving selStmt) || isSome (ssOrderBy selStmt) then true
  else
    match ssLimit selStmt with
    | Some lim =>
        let '(count, offset, err) := extractLimitCountOffset ctx lim in
        isSome err || (count =? 0) || (0 <? offset)
    | None => false
    end.

Definition handlePlan (dbName : string) (schema : list Column) (tbl : TableInfo)
    (names : list FieldName) (handlePair : nameValuePair) (fieldType : FieldType)
    (partitionDef : option PartitionDefinition) : PointGetPlan :=
  let p := newPointGetPlan dbName schema tbl names in
  {| pDbName := pDbName p; pSchema := pSchema p; pTblInfo := pTblInfo p;
     pIndexInfo := pIndexInfo p; pPartitionDef := partitionDef;
     pHandle := Some (IntHandle (GetInt64 (nvValue handlePair)));
     pHandleConstant := nvCon handlePair;
     pHandleFieldType := Some fieldType;
     pIndexValues := pIndexValues p; pIndexConstants := pIndexConstants p;
     pColsFieldType := pColsFieldType p;
     pUnsignedHandle := HasUnsignedFlag (ftFlag fieldType);
     pIsTableDual := pIsTableDual p;
     pLock := pLock p; pOutputNames := pOutputNames p;
     pLockWaitTime := pLockWaitTime p;
     pPartitionColumnPos := pPartitionColumnPos p; pColumns := pColumns p |}.

(** [tryPointGetPlan], from [findPKHandle] on: the handle path, then the
    unique-index path. *)
Definition resolveKey (tblName : TableName) (tbl : TableInfo) (dbName : string)
    (schema : list Column) (names : list FieldName) (pairs : list nameValuePair)
    (partitionDef : option PartitionDefinition) (pairIdx : nat)
    (isTableDual check : bool) : Res (option PointGetPlan) :=
  let '(handlePair, fieldType) := findPKHandle tbl pairs in
  let hasHandle := negb (DatumKind_eqb (Kind (nvValue handlePair)) KindNull) in
  if hasHandle && Nat.eqb (length pairs) 1 &&
     indexIsAvailableByHints None (tnIndexHints tblName) then
    if isTableDual then
      Ok (Some (setTableDual (newPointGetPlan (O (tnSchema tblName)) schema tbl names)))
    else
      match fieldType with
      | None => Panic "nil pointer dereference"
      | Some ft =>
          Ok (Some (handlePlan dbName schema tbl names handlePair ft partitionDef))
      end
  else if hasHandle then Ok None
  else checkTblIndexForPointPlan tblName schema names pairs partitionDef pairIdx
         false isTableDual check.

(** [tryPointGetPlan]. *)
Definition tryPointGetPlan (selStmt : SelectStmt) (check : bool)
  : Res (option PointGetPlan) :=
  if pointGetClausesRefused selStmt then Ok None
  else
    match getSingleTableNameAndAlias (ssFrom selStmt) with
    | (None, _) => Ok None
    | (Some tblName, tblAlias) =>
        match tnTableInfo tblName with
        | None => Ok None
        | Some tbl =>
            if existsb (fun col => colGenerated col ||
                                   negb (SchemaState_eqb (colState col) StatePublic))
                       (tblColumns tbl)
            then Ok None
            else
              match buildSchemaFromFields (tnSchema tblName) tbl tblAlias
                      (ssFields selStmt) with
              | None => Ok None
              | Some (schema, names) =>
                  let dbName := if eqs (L (tnSchema tblName)) "" then CurrentDB ctx
                                else L (tnSchema tblName) in
                  let '(pairsOrNil, isTableDual) :=
                    getNameValuePairs tbl tblAlias [] (ssWhere selStmt) in
                  if negb (isSome pairsOrNil) && negb isTableDual then Ok None
                  else
                    let pairs := default [] pairsOrNil in
                    let dual := setTableDual
                                  (newPointGetPlan (O (tnSchema tblName)) schema tbl names) in
                    match tblPartition tbl with
                    | Some _ =>
                        r <-? getPartitionDef tbl pairs ;;
                        let '(partitionDef, pairIdx, _, isTableDual') := r in
                        if (isTableDual' : bool) then Ok (Some dual)
                        else
                          match partitionDef with
                          | None =>
                              checkTblIndexForPointPlan tblName schema names pairs
                                None pairIdx true isTableDual' check
                          | Some pd =>
                              if Nat.ltb 0 (length (tnPartitionNames tblName)) &&
                                 negb (partitionNameInSet (pdName pd)
                                         (tnPartitionNames tblName))
                              then Ok (Some dual)
                              else resolveKey tblName tbl dbName schema names pairs
                                     (Some pd) pairIdx isTableDual' check
                          end
                    | None =>
                        resolveKey tblName tbl dbName schema names pairs None 0%nat
                          isTableDual check
                    end
              end
        end
    end.

(** *** Batch point get *)

Definition unwrapParentheses (item : ExprNode) : ExprNode :=
  match item with
  | ParenthesesExpr e => e
  | _ => item
  end.

(** A literal or a parameter marker of the IN list, evaluated; [None]
    when the item is anything else or the marker cannot be evaluated. *)
Definition batchOperand (x : ExprNode) : option (Datum * option Constant) :=
  match x with
  | ValueExpr d => Some (d, None)
  | ParamMarkerExpr order d0 =>
      match ParamMarkerExpression ctx order d0 true with
      | inl _ => None
      | inr con =>
          match Eval ctx con with
          | inl _ => None
          | inr d => Some (d, Some con)
          end
      end
  | _ => None
  end.

(** The partition of one IN-list element: [Ok None] when the element is
    provably in no partition, else the entry to record, if any. *)
Definition itemPartition (tbl : TableInfo) (pairs : list nameValuePair)
  : Res (option (option (Z * PartitionDefinition))) :=
  match tblPartition tbl with
  | Some _ =>
      r <-? getPartitionDef tbl pairs ;;
      let '(tmpPartitionDefinition, _, pos, isTableDual) := r in
      if (isTableDual : bool) then Ok None
      else Ok (Some (option_map (fun def => (pos, def)) tmpPartitionDefinition))
  | None => Ok (Some None)
  end.

Definition recordPartition (entry : option (Z * PartitionDefinition))
    (m : gmap Z PartitionDefinition) : gmap Z PartitionDefinition :=
  match entry with
  | Some (pos, def) => <[pos := def]> m
  | None => m
  end.

(** The partition definitions ordered by position ([sort.Ints] over the
    keys of [pos2PartitionDefinition]); [None] when there is none. *)
Definition sortedPartitionDefs (m : gmap Z PartitionDefinition)
  : option (list PartitionDefinition) :=
  let posArr := merge_sort Z.le (List.map fst (map_to_list m)) in
  match omap (fun pos => m !! pos) posArr with
  | [] => None
  | defs => Some defs
  end.

(** Handle path, one element of the IN list: its handle, its parameter
    and its partition entry; [Ok None] when no plan can be built. *)
Definition handleItem (handleCol : ColumnInfo) (tbl : TableInfo) (item0 : ExprNode)
  : Res (option (Handle * option Constant * option (Z * PartitionDefinition))) :=
  let item := unwrapParentheses item0 in
  match batchOperand item with
  | None => Ok None
  | Some (d, con) =>
      if IsNull d then Ok None
      else
        match fst (getPointGetValue handleCol d) with
        | None => Ok None
        | Some intDatum =>
            let pairs := [mkPair (L (Model.colName handleCol))
                                 (Some (exprGetType ctx item)) intDatum con] in
            r <-? itemPartition tbl pairs ;;
            match r with
            | None => Ok None
            | Some entry => Ok (Some (IntHandle (GetInt64 intDatum), con, entry))
            end
        end
  end.

(** Handle path, the loop over [patternInExpr.List]: [handles[i]] and
    [handleParams[i]] are filled in the order of the list. *)
Fixpoint handleLoop (handleCol : ColumnInfo) (tbl : TableInfo)
    (items : list ExprNode) (handles : list Handle)
    (handleParams : list (option Constant)) (m : gmap Z PartitionDefinition)
  : Res (option (list Handle * list (option Constant) * gmap Z PartitionDefinition)) :=
  match items with
  | [] => Ok (Some (handles, handleParams, m))
  | item :: rest =>
      r <-? handleItem handleCol tbl item ;;
      match r with
      | None => Ok None
      | Some (h, con, entry) =>
          handleLoop handleCol tbl rest (handles ++ [h])%list
            (handleParams ++ [con])%list (recordPartition entry m)
      end
  end.

(** [colInfos[i]]: the last column of the table with that name. *)
Definition whereColInfo (tbl : TableInfo) (innerCol : string) : option ColumnInfo :=
  List.find (fun col => eqs (L (Model.colName col)) innerCol) (rev (tblColumns tbl)).

(** The inner loops matching the WHERE columns against one index;
    [permutations[whereColIndex]] is written on the way. *)
Fixpoint matchWhereCols (idxInfo : IndexInfo) (whereColIndex : nat)
    (names : list string) (permutations : list nat) : bool * list nat :=
  match names with
  | [] => (true, permutations)
  | innerCol :: rest =>
      match indexColumnPos 0 innerCol (idxColumns idxInfo) with
      | Some i =>
          matchWhereCols idxInfo (S whereColIndex) rest
            (<[whereColIndex := i]> permutations)
      | None => (false, permutations)
      end
  end.

(** The search of the unique index covering the WHERE columns. *)
Fixpoint findMatchIndex (indices : list IndexInfo) (indexHints : list IndexHint)
    (whereColNames : list string) (permutations : list nat)
  : option IndexInfo * list nat :=
  match indices with
  | [] => (None, permutations)
  | idxInfo :: rest =>
      if negb (indexUsable idxInfo indexHints) then
        findMatchIndex rest indexHints whereColNames permutations
      else if negb (Nat.eqb (length (idxColumns idxInfo)) (length whereColNames)) ||
              HasPrefixIndex idxInfo then
        findMatchIndex rest indexHints whereColNames permutations
      else
        let '(matched, permutations') :=
          matchWhereCols idxInfo 0 whereColNames permutations in
        if (matched : bool) then (Some idxInfo, permutations')
        else findMatchIndex rest indexHints whereColNames permutations'
  end.

(** State of the loop over the values of one row of the IN list. *)
Record RowAcc := mkRowAcc {
  raValues : list Datum;
  raParams : list (option Constant);
  raPairs : list nameValuePair;
  raTypes : list (option FieldType)
}.

(** Index path, the loop over [x.Values] of a [RowExpr]. *)
Fixpoint rowValuesLoop (whereColNames : list string)
    (colInfos : list (option ColumnInfo)) (permutations : list nat)
    (initTypes : bool) (index : nat) (inners : list ExprNode) (acc : RowAcc)
  : Res (option RowAcc) :=
  match inners with
  | [] => Ok (Some acc)
  | inner :: rest =>
      match permutations !! index, colInfos !! index, whereColNames !! index with
      | Some permIndex, Some colInfo, Some whereCol =>
          let inRange := Nat.ltb permIndex (length (raValues acc)) in
          match inner with
          | ValueExpr datum =>
              match colInfo with
              | None => Panic "nil pointer dereference"
              | Some col =>
                  match getPointGetValue col datum with
                  | (None, _) => Ok None
                  | (Some _, datum') =>
                      if negb inRange then Panic "index out of range"
                      else
                        rowValuesLoop whereColNames colInfos permutations initTypes
                          (S index) rest
                          (mkRowAcc (<[permIndex := datum']> (raValues acc))
                                    (raParams acc)
                                    (raPairs acc ++ [mkPair whereCol None datum' None])%list
                                    (raTypes acc))
                  end
              end
          | ParamMarkerExpr order datum =>
              match batchOperand inner with
              | None => Ok None
              | Some (d, con) =>
                  match colInfo with
                  | None => Panic "nil pointer dereference"
                  | Some col =>
                      match getPointGetValue col d with
                      | (None, _) => Ok None
                      | (Some _, _) =>
                          if negb inRange then Panic "index out of range"
                          else
                            rowValuesLoop whereColNames colInfos permutations
                              initTypes (S index) rest
                              (mkRowAcc
                                 (<[permIndex := datum]> (raValues acc))
                                 (<[permIndex := con]> (raParams acc))
                                 (raPairs acc ++ [mkPair whereCol None datum None])%list
                                 (if initTypes
                                  then <[permIndex := Some (colFieldType col)]> (raTypes acc)
                                  else raTypes acc))
                      end
                  end
              end
          | _ => Ok None
          end
      | _, _, _ => Panic "index out of range"
      end
  end.

(** Index path, one element of the IN list: its values (in the order of
    the index columns), their parameters, the pairs handed to the
    partition lookup and the state of [indexTypes]. *)
Definition indexItem (whereColNames : list string)
    (colInfos : list (option ColumnInfo)) (permutations : list nat)
    (indexTypes : option (list (option FieldType))) (item0 : ExprNode)
  : Res (option (list Datum * list (option Constant) * list nameValuePair *
                 option (list (option FieldType)))) :=
  let item := unwrapParentheses item0 in
  match item with
  | RowExpr xValues =>
      if negb (Nat.eqb (length xValues) (length whereColNames)) then Ok None
      else
        let n := length xValues in
        let initTypes := negb (isSome indexTypes) in
        let types0 := default (replicate n None) indexTypes in
        r <-? rowValuesLoop whereColNames colInfos permutations initTypes 0 xValues
                (mkRowAcc (replicate n zeroDatum) (replicate n None) [] types0) ;;
        match r with
        | None => Ok None
        | Some acc =>
            Ok (Some (raValues acc, raParams acc, raPairs acc, Some (raTypes acc)))
        end
  | ValueExpr datum =>
      if negb (Nat.eqb (length whereColNames) 1) then Ok None
      else
        match colInfos, whereColNames with
        | Some col :: _, whereCol :: _ =>
            match fst (getPointGetValue col datum) with
            | None => Ok None
            | Some dval =>
                Ok (Some ([dval], [None], [mkPair whereCol None dval None], indexTypes))
            end
        | None :: _, _ => Panic "nil pointer dereference"
        | _, _ => Panic "index out of range"
        end
  | ParamMarkerExpr _ _ =>
      if negb (Nat.eqb (length whereColNames) 1) then Ok None
      else
        match batchOperand item with
        | None => Ok None
        | Some (d, con) =>
            match colInfos, whereColNames with
            | Some col :: _, whereCol :: _ =>
                match fst (getPointGetValue col d) with
                | None => Ok None
                | Some dval =>
                    Ok (Some ([dval], [con], [mkPair whereCol None dval None],
                              match indexTypes with
                              | None => Some [Some (colFieldType col)]
                              | Some ts => Some ts
                              end))
                end
            | None :: _, _ => Panic "nil pointer dereference"
            | _, _ => Panic "index out of range"
            end
        end
  | _ => Ok None
  end.

(** Index path, the loop over [patternInExpr.List]: [indexValues[i]] and
    [indexValueParams[i]] are filled in the order of the list. *)
Fixpoint indexLoop (tbl : TableInfo) (whereColNames : list string)
    (colInfos : list (option ColumnInfo)) (permutations : list nat)
    (items : list ExprNode) (indexValues : list (list Datum))
    (indexValueParams : list (list (option Constant)))
    (indexTypes : option (list (option FieldType)))
    (m : gmap Z PartitionDefinition)
  : Res (option (list (list Datum) * list (list (option Constant)) *
                 option (list (option FieldType)) * gmap Z PartitionDefinition)) :=
  match items with
  | [] => Ok (Some (indexValues, indexValueParams, indexTypes, m))
  | item :: rest =>
      r <-? indexItem whereColNames colInfos permutations indexTypes item ;;
      match r with
      | None => Ok None
      | Some (values, valuesParams, pairs, indexTypes') =>
          e <-? itemPartition tbl pairs ;;
          match e with
          | None => Ok None
          | Some entry =>
              indexLoop tbl whereColNames colInfos permutations rest
                (indexValues ++ [values])%list
                (indexValueParams ++ [valuesParams])%list
                indexTypes' (recordPartition entry m)
          end
      end
  end.

(** The partition expression [newBatchPointGetPlan] starts from: [None]
    when no plan can be built. *)
Definition batchPartitionExpr (tbl : TableInfo) : option (option PartitionExpr) :=
  match tblPartition tbl with
  | Some _ =>
      match getPartitionExpr ctx tbl with
      | None => None
      | Some pe =>
          match peExpr pe with
          | Some (ExprColumn _) => Some (Some pe)
          | _ => None
          end
      end
  | None => Some None
  end.

(** [newBatchPointGetPlan]; [BatchPointGetPlan.Init] installs the
    statistics, the schema and the names. *)
Definition newBatchPointGetPlan (items : list ExprNode)
    (handleCol : option ColumnInfo) (tbl : TableInfo) (schema : list Column)
    (names : list FieldName) (whereColNames : list string)
    (indexHints : list IndexHint) : Res (option BatchPointGetPlan) :=
  match batchPartitionExpr tbl with
  | None => Ok None
  | Some partitionExpr =>
      match handleCol with
      | Some hc =>
          r <-? handleLoop hc tbl items [] [] ∅ ;;
          match r with
          | None => Ok None
          | Some (handles, handleParams, m) =>
              Ok (Some {| bDbName := ""; bSchema := schema; bNames := names;
                          bRowCount := length items; bTblInfo := tbl;
                          bIndexInfo := None;
                          bPartitionDefs := sortedPartitionDefs m;
                          bHandles := handles;
                          bHandleType := Some (colFieldType hc);
                          bHandleParams := handleParams;
                          bIndexValues := []; bIndexValueParams := [];
                          bIndexColTypes := None; bPartitionColPos := 0;
                          bPartitionExpr := partitionExpr;
                          bLock := false; bLockWaitTime := 0 |})
          end
      | None =>
          let colInfos := List.map (whereColInfo tbl) whereColNames in
          match findMatchIndex (tblIndices tbl) indexHints whereColNames
                  (replicate (length whereColNames) 0%nat) with
          | (None, _) => Ok None
          | (Some matchIdxInfo, permutations) =>
              pos <-? getPartitionColumnPos matchIdxInfo partitionExpr tbl ;;
              match pos with
              | None => Ok None
              | Some pos =>
                  r <-? indexLoop tbl whereColNames colInfos permutations items
                          [] [] None ∅ ;;
                  match r with
                  | None => Ok None
                  | Some (indexValues, indexValueParams, indexTypes, m) =>
                      Ok (Some {| bDbName := ""; bSchema := schema; bNames := names;
                                  bRowCount := length items; bTblInfo := tbl;
                                  bIndexInfo := Some matchIdxInfo;
                                  bPartitionDefs := sortedPartitionDefs m;
                                  bHandles := [];
                                  bHandleType := None;
                                  bHandleParams := [];
                                  bIndexValues := indexValues;
                                  bIndexValueParams := indexValueParams;
                                  bIndexColTypes := indexTypes;
                                  bPartitionColPos := pos;
                                  bPartitionExpr := partitionExpr;
                                  bLock := false; bLockWaitTime := 0 |})
                  end
              end
          end
      end
  end.

(** The clause test opening [tryWhereIn2BatchPointGet]. *)
Definition batchClausesRefused (selStmt : SelectStmt) : bool :=
  isSome (ssOrderBy selStmt) || isSome (ssGroupBy selStmt) ||
  isSome (ssLimit selStmt) || isSome (ssHaving selStmt) || ssDistinct selStmt ||
  Nat.ltb 0 (length (ssWindowSpecs selStmt)).

(** The column names of a row [(c1, ..., cn) IN ...]. *)
Fixpoint rowColumnNames (tblAlias : CIStr) (cols : list ExprNode)
  : option (list string) :=
  match cols with
  | [] => Some []
  | ColumnNameExpr c :: rest =>
      if negb (eqs (L (cnTable c)) "") && negb (eqs (L (cnTable c)) (L tblAlias))
      then None
      else
        match rowColumnNames tblAlias rest with
        | None => None
        | Some names => Some (L (cnName c) :: names)
        end
  | _ :: _ => None
  end.

Definition setBatchDbName (dbName : string) (p : BatchPointGetPlan)
  : BatchPointGetPlan :=
  {| bDbName := dbName; bSchema := bSchema p; bNames := bNames p;
     bRowCount := bRowCount p; bTblInfo := bTblInfo p;
     bIndexInfo := bIndexInfo p; bPartitionDefs := bPartitionDefs p;
     bHandles := bHandles p; bHandleType := bHandleType p;
     bHandleParams := bHandleParams p; bIndexValues := bIndexValues p;
     bIndexValueParams := bIndexValueParams p;
     bIndexColTypes := bIndexColTypes p;
     bPartitionColPos := bPartitionColPos p;
     bPartitionExpr := bPartitionExpr p;
     bLock := bLock p; bLockWaitTime := bLockWaitTime p |}.

Definition setBatchLock (lk : bool * Z) (p : BatchPointGetPlan)
  : BatchPointGetPlan :=
  {| bDbName := bDbName p; bSchema := bSchema p; bNames := bNames p;
     bRowCount := bRowCount p; bTblInfo := bTblInfo p;
     bIndexInfo := bIndexInfo p; bPartitionDefs := bPartitionDefs p;
     bHandles := bHandles p; bHandleType := bHandleType p;
     bHandleParams := bHandleParams p; bIndexValues := bIndexValues p;
     bIndexValueParams := bIndexValueParams p;
     bIndexColTypes := bIndexColTypes p;
     bPartitionColPos := bPartitionColPos p;
     bPartitionExpr := bPartitionExpr p;
     bLock := fst lk; bLockWaitTime := snd lk |}.

(** [tryWhereIn2BatchPointGet]. *)
Definition tryWhereIn2BatchPointGet (selStmt : SelectStmt)
  : Res (option BatchPointGetPlan) :=
  if batchClausesRefused selStmt then Ok None
  else
    match ssWhere selStmt with
    | Some (PatternInExpr inExpr inList inNot) =>
        if inNot || Nat.ltb (length inList) 1 then Ok None
        else
          match getSingleTableNameAndAlias (ssFrom selStmt) with
          | (None, _) => Ok None
          | (Some tblName, tblAlias) =>
              match tnTableInfo tblName with
              | None => Ok None
              | Some tbl =>
                  if Nat.ltb 0 (length (tnPartitionNames tblName)) then Ok None
                  else if existsb (fun col => colGenerated col ||
                                     negb (SchemaState_eqb (colState col) StatePublic))
                                  (tblColumns tbl)
                  then Ok None
                  else
                    match buildSchemaFromFields (tnSchema tblName) tbl tblAlias
                            (ssFields selStmt) with
                    | None => Ok None
                    | Some (schema, names) =>
                        let target : option (option ColumnInfo * list string) :=
                          match unwrapParentheses inExpr with
                          | ColumnNameExpr colName =>
                              if negb (eqs (L (cnTable colName)) "") &&
                                 negb (eqs (L (cnTable colName)) (L tblAlias))
                              then None
                              else
                                let handleCol :=
                                  if tblPKIsHandle tbl then
                                    List.find
                                      (fun col =>
                                         HasPriKeyFlag (ftFlag (colFieldType col)) &&
                                         eqs (L (Model.colName col)) (L (cnName colName)))
                                      (tblColumns tbl)
                                  else None in
                                match handleCol with
                                | Some col => Some (Some col, [L (Model.colName col)])
                                | None => Some (None, [L (cnName colName)])
                                end
                          | RowExpr cols =>
                              match rowColumnNames tblAlias cols with
                              | None => None
                              | Some whereColNames => Some (None, whereColNames)
                              end
                          | _ => None
                          end in
                        match target with
                        | None => Ok None
                        | Some (handleCol, whereColNames) =>
                            r <-? newBatchPointGetPlan inList handleCol tbl schema
                                    names whereColNames (tnIndexHints tblName) ;;
                            match r with
                            | None => Ok None
                            | Some p =>
                                Ok (Some (setBatchDbName
                                            (if eqs (L (tnSchema tblName)) ""
                                             then CurrentDB ctx
                                             else L (tnSchema tblName)) p))
                            end
                        end
                    end
              end
          end
    | _ => Ok None
    end.

(** [TryFastPlan] on a SELECT statement, with its deferred reset under
    [sql_select_limit]. *)
Definition TryFastPlan (x : SelectStmt) : Res (option Plan) :=
  if checkStableResultMode ctx then Ok None
  else
    let deferred (p : option Plan) : option Plan :=
      if negb (SelectLimitIsMax ctx) && isSome p then None else p in
    fp <-? tryWhereIn2BatchPointGet x ;;
    match fp with
    | Some fp =>
        if isSome (checkFastPlanPrivilege ctx (bDbName fp) (L (tblName (bTblInfo fp))))
        then Ok None
        else if IsMemDB ctx (bDbName fp) then Ok None
        else Ok (deferred (Some (PlanBatchPointGet
                                   (setBatchLock (getLockWaitTime (ssLockInfo x)) fp))))
    | None =>
        fp <-? tryPointGetPlan x (isForUpdateReadSelectLock ctx (ssLockInfo x)) ;;
        match fp with
        | Some fp =>
            if isSome (checkFastPlanPrivilege ctx (pDbName fp) (L (tblName (pTblInfo fp))))
            then Ok None
            else if IsMemDB ctx (pDbName fp) then Ok None
            else if pIsTableDual fp then
              Ok (deferred (Some (PlanTableDual (pSchema fp) (pOutputNames fp))))
            else Ok (deferred (Some (PlanPointGet
                                       (setLock (getLockWaitTime (ssLockInfo x)) fp))))
        | None => Ok None
        end
    end.

End Resolver.
End Planner.

(** ** Vocabulary of the executor's properties *)

Module PointGetSpec.
Import Model PointGet.

(** Events that read the value of [k]. *)
Definition isReadOf (k : string) (ev : Event) : Prop :=
  match ev with
  | EvMemBufferGet k' | EvLockCacheGet k' | EvSnapshotGet k'
  | EvMemCacheGet _ k' => k' = k
  | _ => False
  end.

Definition isLockEvent (ev : Event) : bool :=
  match ev with EvLock _ _ _ => true | _ => false end.

(** Events that consult the store proper (snapshot or table cache). *)
Definition isStoreRead (ev : Event) : bool :=
  match ev with EvSnapshotGet _ | EvMemCacheGet _ _ => true | _ => false end.

(** States that differ in the pessimistic-lock cache only. *)
Definition sameButCache (s s' : St) : Prop :=
  sExec s' = sExec s /\ sReq s' = sReq s /\ sDelta s' = sDelta s.

(** The trace of one locked or unlocked read of [key]. *)
Definition LockedReads (onlyIfExists lk : bool) (key : string)
    (t : list Event) : Prop :=
  if lk then
    t = [] \/
    exists w reads, t = EvLock key onlyIfExists w :: reads /\
                    Forall (isReadOf key) reads
  else Forall (isReadOf key) t.

(** The fields of the executor that [Init] sets and [Next] only reads. *)
Definition sameConfig (e e' : PointGetExecutor) : Prop :=
  schema e' = schema e /\ tblInfo e' = tblInfo e /\ idxInfo e' = idxInfo e /\
  partitionDef e' = partitionDef e /\ done e' = done e /\ lock e' = lock e /\
  lockWaitTime e' = lockWaitTime e /\ columns e' = columns e.

(** The [LockOnlyIfExists] flag of the isolation level: set under
    pessimistic read consistency (read committed). *)
Definition flag (env : Env) : bool := IsPessimisticReadConsistency env.

Definition tableID (s : St) : Z :=
  match partitionDef (sExec s) with
  | Some pd => pdID pd
  | None => tblID (tblInfo (sExec s))
  end.

(** The state once [Next] has reset the chunk, set [done] and recorded
    the table id. *)
Definition prologue (s : St) : St :=
  let s1 := with_exec (set_done true) (with_req (fun _ => []) s) in
  if lock (sExec s) then with_delta (fun l => (l ++ [tableID s])%list) s1 else s1.

Definition through {A} (pre : list Event) (r : A * St * list Event)
  : A * St * list Event :=
  (result r, state r, (pre ++ events r)%list).

(** The branch of [EncodeUniqueIndexValuesForKey] that casts: neither a
    string column nor an enum column given a string. *)
Definition castBranch (colInfo : ColumnInfo) (d : Datum) : bool :=
  let tp := ftTp (colFieldType colInfo) in
  negb (isTypeString tp || isTypeVarString tp || isTypeVarchar tp) &&
  negb (isTypeEnum tp && isStringKind (Kind d)).

End PointGetSpec.

(** ** Vocabulary of the planner's properties *)

Module PlannerSpec.
Import Model Planner.

(** The statement carries [LIMIT 0] or a positive [OFFSET]. *)
Definition limitZeroOrOffset (ctx : Ctx) (selStmt : SelectStmt) : bool :=
  match ssLimit selStmt with
  | Some lim =>
      let '(count, offset, _) := extractLimitCountOffset ctx lim in
      (count =? 0) || (0 <? offset)
  | None => false
  end.

(** The clauses the specification lists as disqualifying: [LIMIT 0], a
    non-zero [OFFSET], [ORDER BY], [GROUP BY], [HAVING], window
    specifications. *)
Definition listedClausePresent (ctx : Ctx) (selStmt : SelectStmt) : bool :=
  limitZeroOrOffset ctx selStmt || isSome (ssOrderBy selStmt) ||
  isSome (ssGroupBy selStmt) || isSome (ssHaving selStmt) ||
  Nat.ltb 0 (length (ssWindowSpecs selStmt)).

(** The conditions the specification lists for an index of the
    unique-secondary-index path: unique, public, visible, not
    multi-valued, without prefix column, not filtered out by the index
    hints, and a column set equal to that of the pairs in size and
    identity. *)
Definition sameColumnSet (idx : IndexInfo) (pairs : list nameValuePair) : bool :=
  Nat.eqb (length (idxColumns idx)) (length pairs) &&
  forallb (fun c => existsb (fun pr => eqs (nvColName pr) (L (icName c))) pairs)
          (idxColumns idx) &&
  forallb (fun pr => existsb (fun c => eqs (nvColName pr) (L (icName c)))
                             (idxColumns idx))
          pairs.

Definition qualifiesAsListed (hints : list IndexHint)
    (pairs : list nameValuePair) (idx : IndexInfo) : bool :=
  idxUnique idx && SchemaState_eqb (idxState idx) StatePublic &&
  negb (idxInvisible idx) && negb (idxMVIndex idx) &&
  negb (HasPrefixIndex idx) &&
  indexIsAvailableByHints (Some idx) hints &&
  sameColumnSet idx pairs.

(** The check mode in force in [checkTblIndexForPointPlan]. *)
Definition checkMode (ctx : Ctx) (check : bool) : bool :=
  (check || IsolationReadCommitted ctx) && (0 <? ConnectionID ctx).

(** The conditions under which the loop of [checkTblIndexForPointPlan]
    stops at an index, when the pairs are not flagged table-dual:
    the index passes the first test, is global when only global indexes
    are looked at, has a value for each of its columns, and, in check
    mode, is public in the latest schema ([latest], [check'] being the
    answer of [getLatestIndexInfo]). *)
Definition eligible (hints : list IndexHint) (pairs : list nameValuePair)
    (globalIndexCheck : bool) (checking : bool)
    (latest : option (gmap Z IndexInfo)) (check' : bool) (idx : IndexInfo)
  : bool :=
  indexUsable idx hints &&
  (negb globalIndexCheck || idxGlobal idx) &&
  isSome (getIndexValues idx pairs) &&
  negb (checking && check' && negb (latestIsPublic latest idx)).

(** The conditions under which the loop of [checkTblIndexForPointPlan]
    stops at an index when the pairs are flagged table-dual and every
    index is looked at: the index passes the first test and, in check
    mode, is public in the latest schema. *)
Definition eligibleDual (hints : list IndexHint) (checking : bool)
    (latest : option (gmap Z IndexInfo)) (check' : bool) (idx : IndexInfo)
  : bool :=
  indexUsable idx hints &&
  negb (checking && check' && negb (latestIsPublic latest idx)).

End PlannerSpec.

(** ** Concrete tables, statements and collaborators

    The table of the running scenario is
    [t(a int primary key, b int, unique key ib(b))]. *)

Module Examples.
Import Model.

Definition intType (flag : Z) : FieldType := mkFieldType TypeLong flag "binary" [].
Definition tinyType (flag : Z) : FieldType := mkFieldType TypeTiny flag "binary" [].

Definition colA : ColumnInfo :=
  mkColumnInfo 1 (NewCIStr "a") 0 (intType PriKeyFlag) StatePublic false.
Definition colB : ColumnInfo :=
  mkColumnInfo 2 (NewCIStr "b") 1 (intType 0) StatePublic false.

Definition idxB : IndexInfo :=
  mkIndexInfo 2 (NewCIStr "ib") [mkIndexColumn (NewCIStr "b") 1 UnspecifiedLength]
              StatePublic true false false false false.

Definition tblT : TableInfo :=
  mkTableInfo 1 (NewCIStr "t") [colA; colB] [idxB] true false None
              TempTableNone None false.

(** Toy codecs: keys are readable strings. *)
Definition encodeDatums (vals : list Datum) : string :=
  String.concat "," (List.map (fun d => pretty (dI d)) vals).
Definition indexKey (tid iid : Z) (enc : string) : string :=
  "t" ++ pretty tid ++ "_i" ++ pretty iid ++ "_" ++ enc.
Definition rowKey (tid : Z) (h : option Handle) : string :=
  "t" ++ pretty tid ++ "_r" ++
  match h with
  | Some (IntHandle v) => pretty v
  | Some (CommonHandle b) => b
  | None => ""
  end.

(** A store in which the index [ib] maps [b = 7] to the handle 9 and the
    row of handle 9 is missing, while the row of handle 5 exists. *)
Definition staleSnapshot (key : string) : string * option error :=
  if bool_decide (key = indexKey 1 2 "7") then ("9", None)
  else if bool_decide (key = rowKey 1 (Some (IntHandle 5))) then ("row5", None)
  else ("", Some ErrNotExist).

Definition staleEnv (rc weak : bool) : PointGet.Env :=
  {| PointGet.IsPessimisticReadConsistency := rc;
     PointGet.WeakConsistency := weak;
     PointGet.EnablePointGetCache := false;
     PointGet.txnErr := None;
     PointGet.txnScopeErr := None;
     PointGet.txnValid := true;
     PointGet.txnIsReadOnly := false;
     PointGet.memBufferGet := fun _ => ("", Some ErrNotExist);
     PointGet.snapshotGet := staleSnapshot;
     PointGet.unionGet := fun _ key => staleSnapshot key;
     PointGet.newLockCtx := fun _ => None;
     PointGet.doLockKeys := fun _ onlyIfExists key =>
       inr (if onlyIfExists
            then {[ key := PointGet.mkReturnedValue (fst (staleSnapshot key))
                             (negb (PointGet.isEmpty (fst (staleSnapshot key)))) false ]}
            else ∅);
     PointGet.ReportLookupInconsistent := fun _ _ _ _ _ => Some ErrLookupInconsistent;
     PointGet.isCommonHandleRead := fun tbl idx => tblIsCommonHandle tbl && idxPrimary idx;
     PointGet.CastValue := fun d col =>
       match ftTp (colFieldType col) with
       | TypeTiny => if (dI d <? -128) || (127 <? dI d)
                     then (d, Some ErrOverflow) else (d, None)
       | _ => (d, None)
       end;
     PointGet.ToString := fun d => (dB d, None);
     PointGet.ParseEnumName := fun _ _ _ => inl (ErrOther "no such element");
     PointGet.EncodeKey := fun vals => (encodeDatums vals, None);
     PointGet.EncodeIndexSeekKey := indexKey;
     PointGet.NewCommonHandle := fun b => inr (CommonHandle b);
     PointGet.DecodeHandleInUniqueIndexValue := fun hv _ =>
       if bool_decide (hv = "9") then inr (IntHandle 9)
       else inl (ErrOther "bad handle");
     PointGet.DecodePartitionID := fun _ => inl (ErrOther "no partition id");
     PointGet.EncodeRowKeyWithHandle := rowKey;
     PointGet.IsNewFormat := fun _ => true;
     PointGet.DecodeToChunk := fun val _ => inr [NewStringDatum val];
     PointGet.decodeOldRowValToChunk := fun _ _ _ val => inr [NewStringDatum val];
     PointGet.FillVirtualColumnValue := fun _ _ row => inr row |}.

Definition emptyPlan (tbl : TableInfo) : PointGetPlan :=
  {| pDbName := "test"; pSchema := []; pTblInfo := tbl;
     pIndexInfo := None; pPartitionDef := None; pHandle := None;
     pHandleConstant := None; pHandleFieldType := None;
     pIndexValues := []; pIndexConstants := []; pColsFieldType := [];
     pUnsignedHandle := false; pIsTableDual := false; pLock := false;
     pOutputNames := []; pLockWaitTime := 0;
     pPartitionColumnPos := 0; pColumns := [] |}.

(** The plan of [select * from t where b = v], with or without lock. *)
Definition planByB (v : Z) (lock : bool) : PointGetPlan :=
  {| pDbName := "test"; pSchema := []; pTblInfo := tblT;
     pIndexInfo := Some idxB; pPartitionDef := None; pHandle := None;
     pHandleConstant := None; pHandleFieldType := None;
     pIndexValues := [NewIntDatum v]; pIndexConstants := [None];
     pColsFieldType := [Some (intType 0)];
     pUnsignedHandle := false; pIsTableDual := false; pLock := lock;
     pOutputNames := []; pLockWaitTime := 50;
     pPartitionColumnPos := 0; pColumns := [colA; colB] |}.

(** The plan of [select * from t where a = v]. *)
Definition planByA (v : Z) (lock : bool) : PointGetPlan :=
  {| pDbName := "test"; pSchema := []; pTblInfo := tblT;
     pIndexInfo := None; pPartitionDef := None; pHandle := Some (IntHandle v);
     pHandleConstant := None; pHandleFieldType := Some (intType PriKeyFlag);
     pIndexValues := []; pIndexConstants := []; pColsFieldType := [];
     pUnsignedHandle := false; pIsTableDual := false; pLock := lock;
     pOutputNames := []; pLockWaitTime := 50;
     pPartitionColumnPos := 0; pColumns := [colA; colB] |}.

(** The state of a freshly built and initialised executor. *)
Definition initialState (p : PointGetPlan) : PointGet.St :=
  PointGet.mkSt (PointGet.Init (pSchema p) p (PointGet.newExecutor p)) ∅ [] [].

(** A session-local temporary table of the same shape, and the plan of
    [select * from tmp where a = v for update]. *)
Definition tblTemp : TableInfo :=
  mkTableInfo 5 (NewCIStr "tmp") [colA; colB] [idxB] true false None
              TempTableLocal None false.
Definition planTemp (v : Z) : PointGetPlan :=
  {| pDbName := "test"; pSchema := []; pTblInfo := tblTemp;
     pIndexInfo := None; pPartitionDef := None; pHandle := Some (IntHandle v);
     pHandleConstant := None; pHandleFieldType := Some (intType PriKeyFlag);
     pIndexValues := []; pIndexConstants := []; pColsFieldType := [];
     pUnsignedHandle := false; pIsTableDual := false; pLock := true;
     pOutputNames := []; pLockWaitTime := 50;
     pPartitionColumnPos := 0; pColumns := [colA; colB] |}.

(** *** Statements and planner collaborators *)

Import Planner.

Definition colTiny : ColumnInfo :=
  mkColumnInfo 1 (NewCIStr "a") 0 (tinyType PriKeyFlag) StatePublic false.

(** [t2(a tinyint primary key, b int, unique key ib(b))]. *)
Definition tblTiny : TableInfo :=
  mkTableInfo 2 (NewCIStr "t2") [colTiny; colB] [idxB] true false None
              TempTableNone None false.

(** Toy conversion: a tinyint column holds [-128 .. 127], every other
    integer fits; comparison looks at the integer payload. *)
Definition toyConvertTo (d : Datum) (ft : FieldType) : Datum * option error :=
  match ftTp ft with
  | TypeTiny => if (dI d <? -128) || (127 <? dI d)
                then (d, Some ErrOverflow) else (d, None)
  | _ => (d, None)
  end.

Definition toyCompare (a b : Datum) (collation : string) : Z * option error :=
  (match dI a ?= dI b with Eq => 0 | Lt => -1 | Gt => 1 end, None).

Definition toyEvalType (ft : FieldType) : EvalType :=
  match ftTp ft with
  | TypeString | TypeVarString | TypeVarchar | TypeEnum => ETString
  | _ => ETInt
  end.

Definition toyLimit (lim : Limit) : Z * Z * option error :=
  let num (e : option ExprNode) (dflt : Z) :=
    match e with
    | Some (ValueExpr d) => dI d
    | _ => dflt
    end in
  (num (lCount lim) 1, num (lOffset lim) 0, None).

Definition exCtx (partitionExprOf : TableInfo -> option PartitionExpr)
    (latest : Z -> option (gmap Z IndexInfo) * bool * option error)
    (readCommitted : bool) : Ctx :=
  {| CurrentDB := "test"; LockWaitTimeout := 50; IsAutocommit := true;
     InTxn := false; PessimisticAutoCommit := false; ConnectionID := 1;
     IsolationReadCommitted := readCommitted; SelectLimitIsMax := true;
     checkStableResultMode := false; LockNoWait := -1;
     checkFastPlanPrivilege := fun _ _ => None;
     IsMemDB := fun _ => false;
     isForUpdateReadSelectLock := fun li =>
       match li with
       | Some l => match liLockType l with
                   | SelectLockForUpdate | SelectLockForUpdateNoWait
                   | SelectLockForUpdateWaitN => true
                   | _ => false
                   end
       | None => false
       end;
     extractLimitCountOffset := toyLimit;
     getPartitionExpr := partitionExprOf;
     getLatestIndexInfo := latest;
     ParamMarkerExpression := fun order d _ => inr (mkConstant order d);
     Eval := fun con => inr (conValue con);
     EvalTypeOf := toyEvalType;
     ConvertTo := toyConvertTo;
     Compare := toyCompare;
     exprGetType := fun _ => NewFieldType TypeLonglong;
     rowChecksumFieldType := NewFieldType TypeString;
     NewExtraHandleColInfo :=
       mkColumnInfo (-1) (NewCIStr "_tidb_rowid") 0
                    (mkFieldType TypeLonglong PriKeyFlag "" []) StatePublic false |}.

Definition plainCtx : Ctx :=
  exCtx (fun _ => None) (fun _ => (None, false, None)) false.

Definition noName : CIStr := mkCIStr "" "".
Definition colExpr (name : string) : ExprNode :=
  ColumnNameExpr (mkColumnName noName noName (NewCIStr name)).
Definition intExpr (v : Z) : ExprNode := ValueExpr (NewIntDatum v).
Definition eqExpr (name : string) (v : Z) : ExprNode :=
  BinaryOperationExpr EQ (colExpr name) (intExpr v).
Definition star : SelectField :=
  mkSelectField (Some (mkWildCardField noName noName)) None noName.

Definition fromTable (tbl : TableInfo) (hints : list IndexHint)
    (partitions : list CIStr) : option TableRefsClause :=
  Some (mkTableRefsClause
          (Some (mkJoin (TableSource
                           (SrcTableName
                              (mkTableName noName (tblName tbl) (Some tbl)
                                           hints partitions))
                           noName)
                        None))).

(** [select * from tbl where cond]. *)
Definition selectWhere (tbl : TableInfo) (hints : list IndexHint)
    (partitions : list CIStr) (cond : ExprNode) : SelectStmt :=
  {| ssDistinct := false; ssFrom := fromTable tbl hints partitions;
     ssWhere := Some cond; ssFields := [star]; ssGroupBy := None;
     ssHaving := None; ssWindowSpecs := []; ssOrderBy := None;
     ssLimit := None; ssLockInfo := None |}.

(** [select * from t where a = 5 group by a]. *)
Definition selectGroupBy : SelectStmt :=
  {| ssDistinct := false; ssFrom := fromTable tblT [] [];
     ssWhere := Some (eqExpr "a" 5); ssFields := [star];
     ssGroupBy := Some [colExpr "a"];
     ssHaving := None; ssWindowSpecs := []; ssOrderBy := None;
     ssLimit := None; ssLockInfo := None |}.

(** [select * from t where a = 5 window w as (...)]. *)
Definition selectWindow : SelectStmt :=
  {| ssDistinct := false; ssFrom := fromTable tblT [] [];
     ssWhere := Some (eqExpr "a" 5); ssFields := [star];
     ssGroupBy := None;
     ssHaving := None; ssWindowSpecs := ["w"]; ssOrderBy := None;
     ssLimit := None; ssLockInfo := None |}.

(** [select * from t where a = 5 order by a]. *)
Definition selectOrderBy : SelectStmt :=
  {| ssDistinct := false; ssFrom := fromTable tblT [] [];
     ssWhere := Some (eqExpr "a" 5); ssFields := [star];
     ssGroupBy := None;
     ssHaving := None; ssWindowSpecs := []; ssOrderBy := Some [colExpr "a"];
     ssLimit := None; ssLockInfo := None |}.

(** The hint [use index (ib)]. *)
Definition useIb : IndexHint :=
  mkIndexHint (Some [NewCIStr "ib"]) HintUse HintForScan.

(** Hash-partitioned tables: [th(id int primary key) partition by
    hash(id) partitions n]. *)
Definition colId : ColumnInfo :=
  mkColumnInfo 1 (NewCIStr "id") 0 (intType PriKeyFlag) StatePublic false.
Definition partitionsOf (n : nat) : list PartitionDefinition :=
  List.map (fun i => mkPartitionDefinition (100 + Z.of_nat i)
                       (NewCIStr ("p" ++ pretty i)))
           (seq 0 n).
Definition hashInfo (n : nat) : PartitionInfo :=
  mkPartitionInfo PartitionTypeHash (Z.of_nat n) [] (partitionsOf n) [] [].
Definition tblHash (n : nat) : TableInfo :=
  mkTableInfo 3 (NewCIStr "th") [colId] [] true false (Some (hashInfo n))
              TempTableNone None false.

Definition noRangePruning : ForRangePruning := mkForRangePruning 0 (fun _ _ _ => 0).
Definition noListPruning : ForListPruning :=
  mkForListPruning ExprOther true (fun _ _ => -1).

(** The partition expression [hash(id)]. *)
Definition hashById : PartitionExpr :=
  {| peExpr := Some (ExprColumn (colInfoToColumn colId 0));
     peOrigExpr := Some (colExpr "id");
     peKeyPartCols := [];
     peForRangePruning := noRangePruning;
     peForListPruning := noListPruning;
     peLocateKeyPartition := fun _ _ => inl (ErrOther "not a key partition") |}.

Definition hashCtx : Ctx :=
  exCtx (fun _ => Some hashById) (fun _ => (None, false, None)) false.

(** [tp(a int, b int, unique key ia(a)) partition by hash(a + 1)
    partitions 4]: the partition expression is not a plain column. *)
Definition colA0 : ColumnInfo :=
  mkColumnInfo 1 (NewCIStr "a") 0 (intType 0) StatePublic false.
Definition idxA : IndexInfo :=
  mkIndexInfo 1 (NewCIStr "ia") [mkIndexColumn (NewCIStr "a") 0 UnspecifiedLength]
              StatePublic true false false false false.
Definition tblHashExpr : TableInfo :=
  mkTableInfo 4 (NewCIStr "tp") [colA0; colB] [idxA] false false
              (Some (hashInfo 4)) TempTableNone None false.
Definition hashByExpr : PartitionExpr :=
  {| peExpr := Some ExprOther;
     peOrigExpr := Some (BinaryOperationExpr (OpOther 1) (colExpr "a") (intExpr 1));
     peKeyPartCols := [];
     peForRangePruning := noRangePruning;
     peForListPruning := noListPruning;
     peLocateKeyPartition := fun _ _ => inl (ErrOther "not a key partition") |}.
Definition hashExprCtx : Ctx :=
  exCtx (fun _ => Some hashByExpr) (fun _ => (None, false, None)) false.

(** [t3(a tinyint, b int, unique key ia(a))] and the plan of
    [select * from t3 where a = v] through [ia]. *)
Definition colTiny0 : ColumnInfo :=
  mkColumnInfo 1 (NewCIStr "a") 0 (tinyType 0) StatePublic false.
Definition tblTinyKey : TableInfo :=
  mkTableInfo 6 (NewCIStr "t3") [colTiny0; colB] [idxA] false false None
              TempTableNone None false.
Definition planByTiny (v : Z) : PointGetPlan :=
  {| pDbName := "test"; pSchema := []; pTblInfo := tblTinyKey;
     pIndexInfo := Some idxA; pPartitionDef := None; pHandle := None;
     pHandleConstant := None; pHandleFieldType := None;
     pIndexValues := [NewIntDatum v]; pIndexConstants := [None];
     pColsFieldType := [Some (tinyType 0)];
     pUnsignedHandle := false; pIsTableDual := false; pLock := false;
     pOutputNames := []; pLockWaitTime := 50;
     pPartitionColumnPos := 0; pColumns := [colTiny0; colB] |}.

(** [select * from th where id in (v1, ..., vn)]. *)
Definition selectIn (tbl : TableInfo) (name : string) (vs : list Z) : SelectStmt :=
  selectWhere tbl [] [] (PatternInExpr (colExpr name) (List.map intExpr vs) false).

End Examples.

(** ** Vocabulary of the executor's further properties *)

Module ExecutorSpec.
Import Model PointGet PointGetSpec.

(** What [getAndLock] makes of the outcome of a read: a missing key is
    an empty value, any other error is passed on. *)
Definition absentAsEmpty (r : string * option error) : string * option error :=
  match r with
  | (_, Some err) => if isErrNotExist err then ("", None) else ("", Some err)
  | (val, None) => (val, None)
  end.

(** The error and the chunk [Next] ends with once the row value [val]
    has been read: the row is decoded, then its virtual columns are
    filled. *)
Definition decodedRow (env : Env) (e : PointGetExecutor) (val : string)
  : option error * list Row :=
  match DecodeRowValToChunk env (schema e) (tblInfo e) (handle e) val with
  | inl err => (Some err, [])
  | inr row =>
      match FillVirtualColumnValue env (schema e) (columns e) row with
      | inl err => (Some err, [row])
      | inr row' => (None, [row'])
      end
  end.

(** The error and the chunk [Next] ends with once the read of the row
    key has given [r], when no inconsistency can be reported. *)
Definition rowOutcome (env : Env) (e : PointGetExecutor)
    (r : string * option error) : option error * list Row :=
  match absentAsEmpty r with
  | (_, Some err) => (Some err, [])
  | (val, None) => if isEmpty val then (None, []) else decodedRow env e val
  end.

(** The lock request on [key] fails with [err]: the lock context cannot
    be built, or the lock manager refuses. *)
Definition lockFails (env : Env) (waitTime : Z) (onlyIfExists : bool)
    (key : string) (err : error) : Prop :=
  newLockCtx env waitTime = Some err \/
  (newLockCtx env waitTime = None /\
   doLockKeys env waitTime onlyIfExists key = inl err).

(** The lock cache once a lock request has been answered with [values]:
    the values not already locked are stored, then the index entry the
    executor holds, if any. *)
Definition cacheAfterLock (e : PointGetExecutor)
    (values : gmap string ReturnedValue) (cache : gmap string string)
  : gmap string string :=
  let c := cacheValuesNotLocked values cache in
  if negb (isEmpty (handleVal e)) then <[idxKey e := handleVal e]> c else c.

(** The first key [Next] asks for: the index key on the secondary-index
    path, the row key when the plan holds the handle. *)
Definition firstKey (env : Env) (s : St) : option string :=
  let e := sExec s in
  match idxInfo e with
  | None => Some (EncodeRowKeyWithHandle env (tableID s) (handle e))
  | Some idx =>
      if isCommonHandleRead env (tblInfo e) idx then None
      else
        match EncodeUniqueIndexKey env (tblInfo e) idx (idxVals e) (tableID s) with
        | (_, (key, None)) => Some key
        | (_, (_, Some _)) => None
        end
  end.

(** A string value that names no element of the enum column: its string
    cannot be obtained, or [ParseEnumName] rejects it. *)
Definition enumMiss (env : Env) (colInfo : ColumnInfo) (d : Datum) : Prop :=
  match ToString env d with
  | (_, Some _) => True
  | (str, None) =>
      exists err, ParseEnumName env (ftElems (colFieldType colInfo)) str
                    (ftCollate (colFieldType colInfo)) = inl err
  end.

(** The read of the row in a call of [Next] on [s] (point_get.go, lines
    310-347): the table or partition id [rtid] of the row key, the state
    [s2] in which the row key is asked for, and the calls [pre] made
    before.  With a handle in the plan the row is read at once; with a
    clustered primary key the handle is built from the index values
    first; with a secondary unique index the index entry is read first
    and must give a handle. *)
Definition rowRead (env : Env) (s : St) (rtid : Z) (s2 : St)
    (pre : list Event) : Prop :=
  let e := sExec s in
  match idxInfo e with
  | None => rtid = tableID s /\ s2 = prologue s /\ pre = []
  | Some idx =>
      if isCommonHandleRead env (tblInfo e) idx then
        exists vals' handleBytes h,
          EncodeUniqueIndexValuesForKey env (tblInfo e) idx (idxVals e) =
            (vals', (handleBytes, None)) /\
          NewCommonHandle env handleBytes = inr h /\
          rtid = tableID s /\
          s2 = with_exec (set_handle (Some h))
                 (with_exec (set_idxVals vals') (prologue s)) /\
          pre = []
      else
        exists vals' key err h,
          EncodeUniqueIndexKey env (tblInfo e) idx (idxVals e) (tableID s) =
            (vals', (key, err)) /\
          match err with
          | Some err => isErrNotExist err = true
          | None => True
          end /\
          let ri := readIndexEntry env
                      (with_exec (fun e => set_idxKey key (set_idxVals vals' e))
                         (prologue s)) in
          let hv := handleVal (sExec (state ri)) in
          result ri = None /\
          isEmpty hv = false /\
          DecodeHandleInUniqueIndexValue env hv (tblIsCommonHandle (tblInfo e)) =
            inr h /\
          (if idxGlobal idx then DecodePartitionID env hv = inr rtid
           else rtid = tableID s) /\
          s2 = with_exec (set_handle (Some h)) (state ri) /\
          pre = events ri
  end.

(** The reads that follow a lock request on [key] answered with
    [values], in the state [s'] the answer leaves (point_get.go, lines
    350-382 and 395-447): under read committed the value comes with the
    answer, and the key is read only when the answer says that it does
    not exist but is already locked; under repeatable read the key is
    read with [get]. *)
Definition lockedReads (env : Env) (values : gmap string ReturnedValue)
    (key : string) (s' : St) : list Event :=
  if IsPessimisticReadConsistency env then
    match values !! key with
    | Some rv =>
        if rvExists rv then []
        else if rvAlreadyLocked rv then events (get env key s') else []
    | None => []
    end
  else events (get env key s').

End ExecutorSpec.

(** ** Decoding of rows in the old format ([executor/point_get.go]) *)

Module RowDecode.
Import Model.
Import Planner.

(** What is appended to a column of the chunk: [AppendNull],
    [AppendInt64], or a datum ([AppendDatum], [Decoder.DecodeOne]). *)
Inductive Cell :=
| CellNull
| CellInt64 (v : Z)
| CellDatum (d : Datum).

(** The collaborators of the decoder, none of them defined in
    point_get.go: the table helpers, the row cutter, the column decoder
    and the handle.  [CutRowNew] answers [None] for a nil slice. *)
Record Codec := mkCodec {
  TryGetCommonPkColumnIds : TableInfo -> list Z;
  PrimaryPrefixColumnIDs : TableInfo -> list Z;
  CutRowNew : string -> gmap Z nat -> error + option (list string);
  isVirtual : Column -> bool;               (* col.VirtualExpr != nil *)
  NeedRestoredData : FieldType -> bool;
  DecodeOne : string -> FieldType -> error + Datum;
  IntValue : option Handle -> Res Z;
  EncodedCol : option Handle -> nat -> Res string;
  GetColOriginDefaultValue : option ColumnInfo -> error + Datum
}.

(** [model.ExtraHandleID]. *)
Definition ExtraHandleID : Z := -1.

(** [notPKPrefixCol]. *)
Fixpoint notPKPrefixCol (colID : Z) (prefixColIDs : list Z) : bool :=
  match prefixColIDs with
  | [] => true
  | pCol :: rest => if pCol =? colID then false else notPKPrefixCol colID rest
  end.

(** [getColInfoByID]. *)
Fixpoint getColInfoByIDIn (cols : list ColumnInfo) (colID : Z)
  : option ColumnInfo :=
  match cols with
  | [] => None
  | col :: rest =>
      if Model.colID col =? colID then Some col else getColInfoByIDIn rest colID
  end.
Definition getColInfoByID (tbl : TableInfo) (colID : Z) : option ColumnInfo :=
  getColInfoByIDIn (tblColumns tbl) colID.

Section Decoder.
Context (codec : Codec).

(** The loop of [tryDecodeFromHandle] over the columns of the clustered
    primary key. *)
Fixpoint decodeCommonHandleCol (i : nat) (pkCols : list Z) (col : Column)
    (handle : option Handle) (prefixColIDs : list Z)
  : Res (error + option Cell) :=
  match pkCols with
  | [] => Ok (inr None)
  | hid :: rest =>
      if (cID col =? hid) && notPKPrefixCol hid prefixColIDs then
        (b <-? EncodedCol codec handle i ;;
         match DecodeOne codec b (cRetType col) with
         | inl err => Ok (inl err)
         | inr d => Ok (inr (Some (CellDatum d)))
         end)
      else decodeCommonHandleCol (S i) rest col handle prefixColIDs
  end.

(** [tryDecodeFromHandle]: the cell appended to the column, if any. *)
Definition tryDecodeFromHandle (tblInfo : TableInfo) (col : Column)
    (handle : option Handle) (pkCols prefixColIDs : list Z)
  : Res (error + option Cell) :=
  if tblPKIsHandle tblInfo && HasPriKeyFlag (ftFlag (cRetType col)) then
    (v <-? IntValue codec handle ;; Ok (inr (Some (CellInt64 v))))
  else if cID col =? ExtraHandleID then
    (v <-? IntValue codec handle ;; Ok (inr (Some (CellInt64 v))))
  else if NeedRestoredData codec (cRetType col) then Ok (inr None)
  else if HasPriKeyFlag (ftFlag (cRetType col)) then
    decodeCommonHandleCol 0 pkCols col handle prefixColIDs
  else Ok (inr None).

(** The map [colID2CutPos]: each column id gets the number of distinct
    ids seen before it. *)
Fixpoint cutPositions (cols : list Column) (m : gmap Z nat) : gmap Z nat :=
  match cols with
  | [] => m
  | col :: rest =>
      cutPositions rest
        (match m !! cID col with
         | Some _ => m
         | None => <[cID col := size m]> m
         end)
  end.

(** One turn of the loop over [schema.Columns]. *)
Definition decodeColumn (tblInfo : TableInfo) (handle : option Handle)
    (pkCols prefixColIDs : list Z) (colID2CutPos : gmap Z nat)
    (cutVals : list string) (col : Column) : Res (error + Cell) :=
  if isVirtual codec col then Ok (inr CellNull)
  else
    r <-? tryDecodeFromHandle tblInfo col handle pkCols prefixColIDs ;;
    match r with
    | inl err => Ok (inl err)
    | inr (Some cell) => Ok (inr cell)
    | inr None =>
        (* a missing key reads as the zero value 0 *)
        let cutPos := default 0%nat (colID2CutPos !! cID col) in
        match cutVals !! cutPos with
        | None => Panic "index out of range"
        | Some b =>
            if Nat.eqb (String.length b) 0 then
              match GetColOriginDefaultValue codec (getColInfoByID tblInfo (cID col)) with
              | inl err1 => Ok (inl err1)
              | inr d => Ok (inr (CellDatum d))
              end
            else
              match DecodeOne codec b (cRetType col) with
              | inl err => Ok (inl err)
              | inr d => Ok (inr (CellDatum d))
              end
        end
    end.

(** The loop over [schema.Columns]: one cell per column. *)
Fixpoint decodeColumns (tblInfo : TableInfo) (handle : option Handle)
    (pkCols prefixColIDs : list Z) (colID2CutPos : gmap Z nat)
    (cutVals : list string) (cols : list Column) : Res (error + list Cell) :=
  match cols with
  | [] => Ok (inr [])
  | col :: rest =>
      r <-? decodeColumn tblInfo handle pkCols prefixColIDs colID2CutPos cutVals col ;;
      match r with
      | inl err => Ok (inl err)
      | inr cell =>
          rs <-? decodeColumns tblInfo handle pkCols prefixColIDs colID2CutPos
                   cutVals rest ;;
          match rs with
          | inl err => Ok (inl err)
          | inr cells => Ok (inr (cell :: cells))
          end
      end
  end.

(** [decodeOldRowValToChunk]: the cells appended to the columns of the
    chunk, in the order of the schema. *)
Definition decodeOldRowValToChunk (schema : list Column) (tblInfo : TableInfo)
    (handle : option Handle) (rowVal : string) : Res (error + list Cell) :=
  let pkCols := TryGetCommonPkColumnIds codec tblInfo in
  let prefixColIDs := PrimaryPrefixColumnIDs codec tblInfo in
  let colID2CutPos := cutPositions schema ∅ in
  match CutRowNew codec rowVal colID2CutPos with
  | inl err => Ok (inl err)
  | inr cut =>
      let cutVals := default (replicate (size colID2CutPos) "") cut in
      decodeColumns tblInfo handle pkCols prefixColIDs colID2CutPos cutVals schema
  end.

End Decoder.

(** The invariant of [colID2CutPos] while it is filled: the positions
    handed out so far are the numbers below the size of the map, each
    once. *)
Definition cutInvariant (m : gmap Z nat) : Prop :=
  (forall id p, m !! id = Some p -> (p < size m)%nat) /\
  (forall a b p, m !! a = Some p -> m !! b = Some p -> a = b).

End RowDecode.

(** ** Vocabulary of the planner's further properties *)

Module ResolverSpec.
Import Model Planner.

(** A hint that applies to scans, carries a name list and ignores the
    indexes it names. *)
Definition ignoresHint (h : IndexHint) : bool :=
  match hHintScope h, hHintType h, hIndexNames h with
  | HintForScan, HintIgnore, Some _ => true
  | _, _, _ => false
  end.

(** A hint that applies to scans, carries a name list and asks for the
    indexes it names ([USE INDEX], [FORCE INDEX]). *)
Definition usesHint (h : IndexHint) : bool :=
  match hHintScope h, hHintType h, hIndexNames h with
  | HintForScan, HintUse, Some _ | HintForScan, HintForce, Some _ => true
  | _, _, _ => false
  end.

(** The hint names the index (the primary key when [idxInfo] is
    [None]). *)
Definition hintNames (idxInfo : option IndexInfo) (h : IndexHint) : bool :=
  existsb (hintNameMatches idxInfo) (default [] (hIndexNames h)).

(** The hint settles the availability of the index. *)
Definition hintDecides (idxInfo : option IndexInfo) (h : IndexHint) : bool :=
  (ignoresHint h || usesHint h) && hintNames idxInfo h.

(** The conjuncts of a condition: the leaves of its tree of [AND]s, from
    left to right. *)
Fixpoint conjuncts (e : ExprNode) : list ExprNode :=
  match e with
  | BinaryOperationExpr LogicAnd l r => (conjuncts l ++ conjuncts r)%list
  | _ => [e]
  end.

(** The conjunct is an equality with the column [name] on one side. *)
Definition equalityOn (e : ExprNode) (name : string) : Prop :=
  exists cn other,
    (e = BinaryOperationExpr EQ (ColumnNameExpr cn) other \/
     e = BinaryOperationExpr EQ other (ColumnNameExpr cn)) /\
    L (cnName cn) = name.

(** The columns of a schema under construction are numbered by their
    position, and there is a name for each. *)
Definition numbered (columns : list Column) (names : list FieldName) : Prop :=
  length names = length columns /\
  forall i col, columns !! i = Some col -> cIndex col = i.

(** The three kinds of plan [tryPointGetPlan] builds. *)
Definition isDualPlan (p : PointGetPlan) : Prop :=
  pIsTableDual p = true /\ pHandle p = None /\ pIndexInfo p = None /\
  pPartitionDef p = None.

Definition isHandlePlan (pairs : list nameValuePair) (p : PointGetPlan) : Prop :=
  pIsTableDual p = false /\ pIndexInfo p = None /\ pIndexValues p = [] /\
  exists pr, pairs = [pr] /\
             pHandle p = Some (IntHandle (GetInt64 (nvValue pr))) /\
             pHandleConstant p = nvCon pr.

Definition isIndexPlan (tbl : TableInfo) (pairs : list nameValuePair)
    (p : PointGetPlan) : Prop :=
  pIsTableDual p = false /\ pHandle p = None /\
  exists idx, pIndexInfo p = Some idx /\ In idx (tblIndices tbl) /\
              getIndexValues idx pairs =
                Some (pIndexValues p, pIndexConstants p, pColsFieldType p).

(** The database name of a plan that reads: the schema of the table
    name in lower case, the current database when there is none. *)
Definition planDb (ctx : Ctx) (tblName : TableName) : string :=
  if eqs (L (tnSchema tblName)) "" then CurrentDB ctx else L (tnSchema tblName).

(** The lock flag and the wait time of a plan that reads rows. *)
Definition planLock (pl : Plan) : option (bool * Z) :=
  match pl with
  | PlanPointGet p => Some (pLock p, pLockWaitTime p)
  | PlanBatchPointGet p => Some (bLock p, bLockWaitTime p)
  | PlanTableDual _ _ => None
  end.

(** The statement asks for row locks and the session honours them: a
    locking clause of the FOR UPDATE family (FOR SHARE included), outside
    autocommit, inside a transaction, or with pessimistic auto-commit. *)
Definition locksRows (ctx : Ctx) (lockInfo : option SelectLockInfo) : bool :=
  match lockInfo with
  | Some li =>
      IsSelectForUpdateLockType (liLockType li) &&
      (negb (IsAutocommit ctx) || InTxn ctx || PessimisticAutoCommit ctx)
  | None => false
  end.

(** No column of the table is generated or in a non-public state. *)
Definition plainColumns (tbl : TableInfo) : bool :=
  negb (existsb (fun col => colGenerated col ||
                            negb (SchemaState_eqb (colState col) StatePublic))
                (tblColumns tbl)).

(** An element of the IN list makes the handle loop record the
    partition [def] at position [pos]. *)
Definition recordsPartition (ctx : Ctx) (handleCol : ColumnInfo) (tbl : TableInfo)
    (items : list ExprNode) (pos : Z) (def : PartitionDefinition) : Prop :=
  exists item h con,
    In item items /\
    handleItem ctx handleCol tbl item = Ok (Some (h, con, Some (pos, def))).

(** An element of the IN list, once evaluated and converted to the type
    of the handle column, is located by [getPartitionDef] in the
    partition [def], at position [pos]. *)
Definition hitsPartition (ctx : Ctx) (handleCol : ColumnInfo) (tbl : TableInfo)
    (items : list ExprNode) (pos : Z) (def : PartitionDefinition) : Prop :=
  exists item d con intDatum idx,
    In item items /\
    batchOperand ctx (unwrapParentheses item) = Some (d, con) /\
    fst (getPointGetValue ctx handleCol d) = Some intDatum /\
    getPartitionDef ctx tbl
      [mkPair (L (Model.colName handleCol))
              (Some (exprGetType ctx (unwrapParentheses item))) intDatum con] =
      Ok (Some def, idx, pos, false).

(** The value of a pair is one the column holds exactly: on a column of
    the table that is not a binary CHAR, it is the conversion to the
    column type of a datum the column can be compared with, and compares
    equal to that datum; a name that is no public column of the table
    ([_tidb_rowid]) is taken as a BIGINT. *)
Definition exactValue (ctx : Ctx) (tbl : TableInfo) (pr : nameValuePair) : Prop :=
  match FindColumnInfo (Cols tbl) (nvColName pr) with
  | None => nvColFieldType pr = Some (NewFieldType TypeLonglong)
  | Some col =>
      let ft := colFieldType col in
      nvColFieldType pr = Some ft /\
      (isTypeString (ftTp ft) && eqs (ftCollate ft) CollationBin = true \/
       exists d,
         checkCanConvertInPointGet ctx col d = true /\
         fst (ConvertTo ctx d ft) = nvValue pr /\
         Compare ctx (nvValue pr) d (ftCollate ft) = (0, None))
  end.

End ResolverSpec.

(** ** Vocabulary of the keys of a batch plan *)

Module BatchSpec.
Import Model Planner.

(** The datum and the constant of an element of the IN list: a literal
    gives its datum, a parameter marker the value of its constant. *)
Definition operandOf (ctx : Ctx) (x : ExprNode) (d : Datum)
    (con : option Constant) : Prop :=
  (x = ValueExpr d /\ con = None) \/
  (exists order d0 c,
     x = ParamMarkerExpr order d0 /\
     ParamMarkerExpression ctx order d0 true = inr c /\
     Eval ctx c = inr d /\ con = Some c).

(** Handle path: the handle and the parameter of an element of the IN
    list are those of its datum, which is not NULL, converted by
    [getPointGetValue] to the type of the handle column. *)
Definition handleOf (ctx : Ctx) (handleCol : ColumnInfo) (item : ExprNode)
    (h : Handle) (con : option Constant) : Prop :=
  exists d intDatum,
    operandOf ctx (unwrapParentheses item) d con /\ IsNull d = false /\
    fst (getPointGetValue ctx handleCol d) = Some intDatum /\
    h = IntHandle (GetInt64 intDatum).

(** Index path, one value of a row of the IN list: what is written to
    [values[permIndex]] is the datum of the literal once
    [getPointGetValue] has accepted it (and set its collation), or the
    datum the parameter marker carries once the value of its constant
    has been accepted. *)
Definition rowDatumOf (ctx : Ctx) (col : ColumnInfo) (inner : ExprNode)
    (out : Datum) : Prop :=
  (exists datum v,
     inner = ValueExpr datum /\ getPointGetValue ctx col datum = (Some v, out)) \/
  (exists order datum c d v x,
     inner = ParamMarkerExpr order datum /\
     ParamMarkerExpression ctx order datum true = inr c /\
     Eval ctx c = inr d /\ getPointGetValue ctx col d = (Some v, x) /\
     out = datum).

(** Index path: the values of an element of the IN list.  For a row,
    the value at position [index] is written at position
    [permutations[index]], the position of its column in the index (a
    later value written there replaces it); a single literal or
    parameter marker gives the one converted value. *)
Definition indexKeyOf (ctx : Ctx) (tbl : TableInfo) (whereColNames : list string)
    (permutations : list nat) (item : ExprNode) (values : list Datum) : Prop :=
  match unwrapParentheses item with
  | RowExpr xValues =>
      length xValues = length whereColNames /\
      length values = length xValues /\
      forall index inner, xValues !! index = Some inner ->
        exists permIndex name col out,
          permutations !! index = Some permIndex /\
          whereColNames !! index = Some name /\
          whereColInfo tbl name = Some col /\
          rowDatumOf ctx col inner out /\
          ((forall later, (index < later < length xValues)%nat ->
                          permutations !! later <> Some permIndex) ->
           values !! permIndex = Some out)
  | x =>
      exists name col d con dval,
        whereColNames = [name] /\ whereColInfo tbl name = Some col /\
        operandOf ctx x d con /\
        fst (getPointGetValue ctx col d) = Some dval /\ values = [dval]
  end.

End BatchSpec.

(** ** The fast path of DELETE *)

Module Dml.
Import Model.
Import Planner.

(** [ast.DeleteStmt], the fields [tryDeletePointPlan] reads. *)
Record DeleteStmt := mkDeleteStmt {
  dsIsMultiTable : bool;
  dsTableRefs : option TableRefsClause;
  dsWhere : option ExprNode;
  dsOrder : option (list ExprNode);
  dsLimit : option Limit
}.

(** [mysql.PrivilegeType], the privileges the fast path asks for. *)
Inductive PrivilegeType := SelectPriv | UpdatePriv | DeletePriv.

(** [HandleCols]: [IntHandleCols] on a column of the schema, or the
    columns of a clustered index as [NewCommonHandleCols] receives
    them. *)
Inductive HandleCols :=
| IntHandleCols (col : Column)
| CommonHandleCols (tblInfo : TableInfo) (pkIdx : option IndexInfo)
    (columns : list Column).

(** [TblColPosInfo]. *)
Record TblColPosInfo := mkTblColPosInfo {
  tcTblID : Z;
  tcStart : nat;
  tcEnd : nat;
  tcHandleCols : HandleCols
}.

(** [Delete], the plan of a DELETE.  The foreign-key checks and
    cascades that [buildOnDeleteFKTriggers] installs are not part of the
    record. *)
Record Delete := mkDelete {
  delSelectPlan : Plan;
  delTblColPosInfos : list TblColPosInfo
}.

(** The plans [tryDeletePointPlan] returns. *)
Inductive DeletePlan :=
| DeleteTableDual (names : list FieldName)
| DeleteRows (d : Delete).

(** The collaborators of the DELETE path that are not defined in
    point_get_plan.go. *)
Record Session := mkSession {
  IsPessimistic : bool;                 (* TxnCtx.IsPessimistic *)
  checkFastPlanPrivilegeFor :
    string -> string -> list PrivilegeType -> option error;
  FindPrimaryIndex : TableInfo -> option IndexInfo;
  TableByID : Z -> bool;                (* is.TableByID finds the table *)
  buildOnDeleteFKTriggers : Z -> option error
}.

(** [Schema()] of a physical plan, and the same plan once
    [schema.Append] has run on the schema it points to. *)
Definition planSchema (pl : Plan) : list Column :=
  match pl with
  | PlanPointGet p => pSchema p
  | PlanBatchPointGet p => bSchema p
  | PlanTableDual schema _ => schema
  end.

Definition setPointSchema (schema : list Column) (p : PointGetPlan) : PointGetPlan :=
  {| pDbName := pDbName p; pSchema := schema; pTblInfo := pTblInfo p;
     pIndexInfo := pIndexInfo p; pPartitionDef := pPartitionDef p;
     pHandle := pHandle p; pHandleConstant := pHandleConstant p;
     pHandleFieldType := pHandleFieldType p;
     pIndexValues := pIndexValues p; pIndexConstants := pIndexConstants p;
     pColsFieldType := pColsFieldType p;
     pUnsignedHandle := pUnsignedHandle p; pIsTableDual := pIsTableDual p;
     pLock := pLock p; pOutputNames := pOutputNames p;
     pLockWaitTime := pLockWaitTime p;
     pPartitionColumnPos := pPartitionColumnPos p; pColumns := pColumns p |}.

Definition setBatchSchema (schema : list Column) (p : BatchPointGetPlan)
  : BatchPointGetPlan :=
  {| bDbName := bDbName p; bSchema := schema; bNames := bNames p;
     bRowCount := bRowCount p; bTblInfo := bTblInfo p;
     bIndexInfo := bIndexInfo p; bPartitionDefs := bPartitionDefs p;
     bHandles := bHandles p; bHandleType := bHandleType p;
     bHandleParams := bHandleParams p; bIndexValues := bIndexValues p;
     bIndexValueParams := bIndexValueParams p;
     bIndexColTypes := bIndexColTypes p;
     bPartitionColPos := bPartitionColPos p;
     bPartitionExpr := bPartitionExpr p;
     bLock := bLock p; bLockWaitTime := bLockWaitTime p |}.

Definition setPlanSchema (schema : list Column) (pl : Plan) : Plan :=
  match pl with
  | PlanPointGet p => PlanPointGet (setPointSchema schema p)
  | PlanBatchPointGet p => PlanBatchPointGet (setBatchSchema schema p)
  | PlanTableDual _ names => PlanTableDual schema names
  end.

Section Fast.
Context (ctx : Ctx) (sess : Session).

(** The loop of [buildHandleCols] over [tbl.Columns]: the first column
    with the primary-key flag decides; [schema.Columns[i]] panics when
    the schema is shorter. *)
Fixpoint pkHandleCol (i : nat) (cols : list ColumnInfo) (schema : list Column)
  : option (Res HandleCols) :=
  match cols with
  | [] => None
  | col :: rest =>
      if HasPriKeyFlag (ftFlag (colFieldType col)) then
        Some (match schema !! i with
              | Some c => Ok (IntHandleCols c)
              | None => Panic "index out of range"
              end)
      else pkHandleCol (S i) rest schema
  end.

(** [buildHandleCols]: the handle columns and the schema as the call
    leaves it ([schema.Append] adds the [_tidb_rowid] column in
    place). *)
Definition buildHandleCols (tbl : TableInfo) (schema : list Column)
  : Res (HandleCols * list Column) :=
  match (if tblPKIsHandle tbl then pkHandleCol 0 (tblColumns tbl) schema
         else None) with
  | Some r => (h <-? r ;; Ok (h, schema))
  | None =>
      if tblIsCommonHandle tbl then
        Ok (CommonHandleCols tbl (FindPrimaryIndex sess tbl) schema, schema)
      else
        let handleCol := colInfoToColumn (NewExtraHandleColInfo ctx) (length schema) in
        Ok (IntHandleCols handleCol, (schema ++ [handleCol])%list)
  end.

(** [buildPointDeletePlan]. *)
Definition buildPointDeletePlan (pointPlan : Plan) (dbName : string)
    (tbl : TableInfo) : Res (option Delete) :=
  if isSome (checkFastPlanPrivilegeFor sess dbName (L (tblName tbl))
               [SelectPriv; DeletePriv])
  then Ok None
  else
    r <-? buildHandleCols tbl (planSchema pointPlan) ;;
    let '(handleCols, schema) := r in
    let delPlan :=
      {| delSelectPlan := setPlanSchema schema pointPlan;
         delTblColPosInfos :=
           [mkTblColPosInfo (tblID tbl) 0 (length schema) handleCols] |} in
    if TableByID sess (tblID tbl) then
      match buildOnDeleteFKTriggers sess (tblID tbl) with
      | Some _ => Ok None
      | None => Ok (Some delPlan)
      end
    else Ok (Some delPlan).

(** The SELECT statement [tryDeletePointPlan] hands to the planners of
    the read. *)
Definition selectOfDelete (delStmt : DeleteStmt) : SelectStmt :=
  {| ssDistinct := false; ssFrom := dsTableRefs delStmt;
     ssWhere := dsWhere delStmt; ssFields := []; ssGroupBy := None;
     ssHaving := None; ssWindowSpecs := []; ssOrderBy := dsOrder delStmt;
     ssLimit := dsLimit delStmt; ssLockInfo := None |}.

(** The lock and the wait time [getLockWaitTime] gives for
    [SelectLockForUpdate]. *)
Definition forUpdateLock : bool * Z :=
  getLockWaitTime ctx (Some (mkSelectLockInfo SelectLockForUpdate 0)).

(** [tryDeletePointPlan]. *)
Definition tryDeletePointPlan (delStmt : DeleteStmt) : Res (option DeletePlan) :=
  if dsIsMultiTable delStmt then Ok None
  else
    let selStmt := selectOfDelete delStmt in
    pg <-? tryPointGetPlan ctx selStmt true ;;
    match pg with
    | Some pointGet =>
        if pIsTableDual pointGet then
          Ok (Some (DeleteTableDual (pOutputNames pointGet)))
        else
          let pointGet :=
            if IsPessimistic sess then setLock forUpdateLock pointGet
            else pointGet in
          (d <-? buildPointDeletePlan (PlanPointGet pointGet) (pDbName pointGet)
                   (pTblInfo pointGet) ;;
           Ok (option_map DeleteRows d))
    | None =>
        bpg <-? tryWhereIn2BatchPointGet ctx selStmt ;;
        match bpg with
        | Some batchPointGet =>
            let batchPointGet :=
              if IsPessimistic sess then setBatchLock forUpdateLock batchPointGet
              else batchPointGet in
            (d <-? buildPointDeletePlan (PlanBatchPointGet batchPointGet)
                     (bDbName batchPointGet) (bTblInfo batchPointGet) ;;
             Ok (option_map DeleteRows d))
        | None => Ok None
        end
    end.

End Fast.

(** The table a plan reads. *)
Definition planTable (pl : Plan) : option TableInfo :=
  match pl with
  | PlanPointGet p => Some (pTblInfo p)
  | PlanBatchPointGet p => Some (bTblInfo p)
  | PlanTableDual _ _ => None
  end.

(** The handle columns sit in the schema: an integer handle column is
    the column of the schema at its own index, the columns of a
    clustered index are those of the schema. *)
Definition handleInSchema (schema : list Column) (h : HandleCols) : Prop :=
  match h with
  | IntHandleCols col => schema !! cIndex col = Some col
  | CommonHandleCols _ _ columns => columns = schema
  end.

(** The session locks the rows a statement asks to lock. *)
Definition sessionLocks (ctx : Ctx) : bool :=
  negb (IsAutocommit ctx) || InTxn ctx || PessimisticAutoCommit ctx.

(** The lock of the plan of the read, as [tryDeletePointPlan] leaves
    it. *)
Definition deleteLock (ctx : Ctx) (sess : Session) (lk : bool) (wt : Z) : Prop :=
  lk = IsPessimistic sess && sessionLocks ctx /\
  (lk = true -> wt = LockWaitTimeout ctx) /\
  (IsPessimistic sess = true -> lk = false -> wt = 0).

End Dml.

(** ** Further tables, statements and collaborators *)

Module Scenarios.
Import Model.

(** *** Stores and lock managers *)

(** The collaborators of [base] over another store, another lock
    manager and another parser of enum names. *)
Definition withStore (base : PointGet.Env)
    (snapshot : string -> string * option error)
    (locker : Z -> bool -> string -> error + gmap string PointGet.ReturnedValue)
    (parseEnum : list string -> string -> string -> error + (string * Z))
  : PointGet.Env :=
  {| PointGet.IsPessimisticReadConsistency := PointGet.IsPessimisticReadConsistency base;
     PointGet.WeakConsistency := PointGet.WeakConsistency base;
     PointGet.EnablePointGetCache := PointGet.EnablePointGetCache base;
     PointGet.txnErr := PointGet.txnErr base;
     PointGet.txnScopeErr := PointGet.txnScopeErr base;
     PointGet.txnValid := PointGet.txnValid base;
     PointGet.txnIsReadOnly := PointGet.txnIsReadOnly base;
     PointGet.memBufferGet := PointGet.memBufferGet base;
     PointGet.snapshotGet := snapshot;
     PointGet.unionGet := fun _ key => snapshot key;
     PointGet.newLockCtx := PointGet.newLockCtx base;
     PointGet.doLockKeys := locker;
     PointGet.ReportLookupInconsistent := PointGet.ReportLookupInconsistent base;
     PointGet.isCommonHandleRead := PointGet.isCommonHandleRead base;
     PointGet.CastValue := PointGet.CastValue base;
     PointGet.ToString := PointGet.ToString base;
     PointGet.ParseEnumName := parseEnum;
     PointGet.EncodeKey := PointGet.EncodeKey base;
     PointGet.EncodeIndexSeekKey := PointGet.EncodeIndexSeekKey base;
     PointGet.NewCommonHandle := PointGet.NewCommonHandle base;
     PointGet.DecodeHandleInUniqueIndexValue :=
       PointGet.DecodeHandleInUniqueIndexValue base;
     PointGet.DecodePartitionID := PointGet.DecodePartitionID base;
     PointGet.EncodeRowKeyWithHandle := PointGet.EncodeRowKeyWithHandle base;
     PointGet.IsNewFormat := PointGet.IsNewFormat base;
     PointGet.DecodeToChunk := PointGet.DecodeToChunk base;
     PointGet.decodeOldRowValToChunk := PointGet.decodeOldRowValToChunk base;
     PointGet.FillVirtualColumnValue := PointGet.FillVirtualColumnValue base |}.

(** A store in which the index [ib] maps [b = 7] to the handle 9 and
    the rows of the handles 5 and 9 exist. *)
Definition liveSnapshot (key : string) : string * option error :=
  if bool_decide (key = Examples.indexKey 1 2 "7") then ("9", None)
  else if bool_decide (key = Examples.rowKey 1 (Some (IntHandle 9))) then ("row9", None)
  else if bool_decide (key = Examples.rowKey 1 (Some (IntHandle 5))) then ("row5", None)
  else ("", Some ErrNotExist).

(** A lock manager that answers every request with the value of the
    key in the store. *)
Definition valueLocker (snapshot : string -> string * option error)
    (waitTime : Z) (onlyIfExists : bool) (key : string)
  : error + gmap string PointGet.ReturnedValue :=
  inr {[ key := PointGet.mkReturnedValue (fst (snapshot key))
                  (negb (PointGet.isEmpty (fst (snapshot key)))) false ]}.

(** A lock manager on which every request times out. *)
Definition busyLocker (waitTime : Z) (onlyIfExists : bool) (key : string)
  : error + gmap string PointGet.ReturnedValue :=
  inl (ErrOther "lock wait timeout").

(** Enum names are looked up in the element list, from 1. *)
Fixpoint enumIndex (elems : list string) (name : string) (i : Z) : option Z :=
  match elems with
  | [] => None
  | e :: rest => if bool_decide (e = name) then Some i else enumIndex rest name (i + 1)
  end.
Definition parseEnum (elems : list string) (name collation : string)
  : error + (string * Z) :=
  match enumIndex elems name 1 with
  | Some i => inr (name, i)
  | None => inl (ErrOther "no such element")
  end.

Definition liveEnv (rc : bool) : PointGet.Env :=
  withStore (Examples.staleEnv rc false) liveSnapshot (valueLocker liveSnapshot)
    parseEnum.

Definition busyEnv (rc : bool) : PointGet.Env :=
  withStore (Examples.staleEnv rc false) liveSnapshot busyLocker parseEnum.

(** [te(e enum('x','y'), b int, unique key ie(e))] and the plan of
    [select * from te where e = v]. *)
Definition colE : ColumnInfo :=
  mkColumnInfo 1 (NewCIStr "e") 0 (mkFieldType TypeEnum 0 "binary" ["x"; "y"])
               StatePublic false.
Definition idxE : IndexInfo :=
  mkIndexInfo 1 (NewCIStr "ie") [mkIndexColumn (NewCIStr "e") 0 UnspecifiedLength]
              StatePublic true false false false false.
Definition tblEnum : TableInfo :=
  mkTableInfo 7 (NewCIStr "te") [colE; Examples.colB] [idxE] false false None
              TempTableNone None false.
Definition planByEnum (v : string) : PointGetPlan :=
  {| pDbName := "test"; pSchema := []; pTblInfo := tblEnum;
     pIndexInfo := Some idxE; pPartitionDef := None; pHandle := None;
     pHandleConstant := None; pHandleFieldType := None;
     pIndexValues := [NewStringDatum v]; pIndexConstants := [None];
     pColsFieldType := [Some (colFieldType colE)];
     pUnsignedHandle := false; pIsTableDual := false; pLock := false;
     pOutputNames := []; pLockWaitTime := 50;
     pPartitionColumnPos := 0; pColumns := [colE; Examples.colB] |}.

(** *** Rows in the old format *)

Import Planner RowDecode.

(** A toy codec: a row value holds no column at all, the handle is an
    integer, a column defaults to the number of its offset. *)
Definition emptyRowCodec : Codec :=
  {| TryGetCommonPkColumnIds := fun _ => [];
     PrimaryPrefixColumnIDs := fun _ => [];
     CutRowNew := fun _ _ => inr None;
     isVirtual := fun col => cID col =? 3;
     NeedRestoredData := fun _ => false;
     DecodeOne := fun b _ => inr (NewStringDatum b);
     IntValue := fun h => match h with
                          | Some (IntHandle v) => Ok v
                          | _ => Panic "not an int handle"
                          end;
     EncodedCol := fun _ _ => Panic "not a common handle";
     GetColOriginDefaultValue := fun c =>
       match c with
       | Some col => inr (NewIntDatum (Z.of_nat (colOffset col)))
       | None => inl (ErrOther "no column")
       end |}.

(** The schema [a, b, c] of [t], with a virtual column [c] of id 3. *)
Definition colVirtual : Column :=
  colInfoToColumn
    (mkColumnInfo 3 (NewCIStr "c") 2 (Examples.intType 0) StatePublic true) 2.
Definition schemaT : list Column :=
  [colInfoToColumn Examples.colA 0; colInfoToColumn Examples.colB 1; colVirtual].

(** *** Statements and sessions *)

(** The session of [ctx] inside a transaction. *)
Definition inTxn (ctx : Ctx) : Ctx :=
  {| CurrentDB := CurrentDB ctx; LockWaitTimeout := LockWaitTimeout ctx;
     IsAutocommit := IsAutocommit ctx; InTxn := true;
     PessimisticAutoCommit := PessimisticAutoCommit ctx;
     ConnectionID := ConnectionID ctx;
     IsolationReadCommitted := IsolationReadCommitted ctx;
     SelectLimitIsMax := SelectLimitIsMax ctx;
     checkStableResultMode := checkStableResultMode ctx;
     LockNoWait := LockNoWait ctx;
     checkFastPlanPrivilege := checkFastPlanPrivilege ctx;
     IsMemDB := IsMemDB ctx;
     isForUpdateReadSelectLock := isForUpdateReadSelectLock ctx;
     extractLimitCountOffset := extractLimitCountOffset ctx;
     getPartitionExpr := getPartitionExpr ctx;
     getLatestIndexInfo := getLatestIndexInfo ctx;
     ParamMarkerExpression := ParamMarkerExpression ctx;
     Eval := Eval ctx;
     EvalTypeOf := EvalTypeOf ctx;
     ConvertTo := ConvertTo ctx;
     Compare := Compare ctx;
     exprGetType := exprGetType ctx;
     rowChecksumFieldType := rowChecksumFieldType ctx;
     NewExtraHandleColInfo := NewExtraHandleColInfo ctx |}.

(** [select * from t where a = 5 for update wait 3]. *)
Definition selectForUpdateWait : SelectStmt :=
  {| ssDistinct := false; ssFrom := Examples.fromTable Examples.tblT [] [];
     ssWhere := Some (Examples.eqExpr "a" 5); ssFields := [Examples.star];
     ssGroupBy := None; ssHaving := None; ssWindowSpecs := []; ssOrderBy := None;
     ssLimit := None;
     ssLockInfo := Some (mkSelectLockInfo SelectLockForUpdateWaitN 3) |}.

(** [tr(id int primary key) partition by range (id)] with the
    partitions [p0 < 10], [p1 < 20] and [p2 < 30]. *)
Definition tblRange : TableInfo :=
  mkTableInfo 8 (NewCIStr "tr") [Examples.colId] [] true false
    (Some (mkPartitionInfo PartitionTypeRange 3 [] (Examples.partitionsOf 3) [] []))
    TempTableNone None false.
Definition rangeById : PartitionExpr :=
  {| peExpr := Some (ExprColumn (colInfoToColumn Examples.colId 0));
     peOrigExpr := Some (Examples.colExpr "id");
     peKeyPartCols := [];
     peForRangePruning :=
       mkForRangePruning 3
         (fun i v _ => match 10 * (Z.of_nat i + 1) ?= v with
                       | Gt => 1 | Eq => 0 | Lt => -1
                       end);
     peForListPruning := Examples.noListPruning;
     peLocateKeyPartition := fun _ _ => inl (ErrOther "not a key partition") |}.
Definition rangeCtx : Ctx :=
  Examples.exCtx (fun _ => Some rangeById) (fun _ => (None, false, None)) false.

(** *** DELETE *)

(** A session in a pessimistic transaction, with every privilege and no
    foreign key. *)
Definition pessimistic : Dml.Session :=
  {| Dml.IsPessimistic := true;
     Dml.checkFastPlanPrivilegeFor := fun _ _ _ => None;
     Dml.FindPrimaryIndex := fun _ => None;
     Dml.TableByID := fun _ => true;
     Dml.buildOnDeleteFKTriggers := fun _ => None |}.

(** [delete from tbl where cond]. *)
Definition deleteWhere (tbl : TableInfo) (cond : ExprNode) : Dml.DeleteStmt :=
  {| Dml.dsIsMultiTable := false;
     Dml.dsTableRefs := Examples.fromTable tbl [] [];
     Dml.dsWhere := Some cond; Dml.dsOrder := None; Dml.dsLimit := None |}.

(** [delete from t where a = 5 order by a]. *)
Definition deleteOrderBy : Dml.DeleteStmt :=
  {| Dml.dsIsMultiTable := false;
     Dml.dsTableRefs := Examples.fromTable Examples.tblT [] [];
     Dml.dsWhere := Some (Examples.eqExpr "a" 5);
     Dml.dsOrder := Some [Examples.colExpr "a"]; Dml.dsLimit := None |}.

(** *** Global indexes *)

(** [tg(id int primary key, b int, unique key ib(b) global) partition by
    hash(id) partitions 4], and its name in
    [select * from tg partition (p0) where b = 7]. *)
Definition idxGlobalB : IndexInfo :=
  mkIndexInfo 2 (NewCIStr "ib") [mkIndexColumn (NewCIStr "b") 1 UnspecifiedLength]
              StatePublic true false false true false.
Definition tblGlobal : TableInfo :=
  mkTableInfo 9 (NewCIStr "tg") [Examples.colId; Examples.colB] [idxGlobalB]
              true false (Some (Examples.hashInfo 4)) TempTableNone None false.
Definition tgPartitionP0 : TableName :=
  mkTableName Examples.noName (NewCIStr "tg") (Some tblGlobal) [] [NewCIStr "p0"].

(** *** The recorded run of a batch point get

    tests/integrationtest/r/executor/batch_point_get.result, lines
    128-136: [t1 (id int, c varchar(128), primary key (id)) partition by
    hash (id) partitions 3] holds [(1, a)], [(11, b)] and [(21, c)];
    [select * from t1 where id in (1, 1, 11)] is explained as
    [Batch_Point_Get ... partition:p1,p2 handle:[1 1 11]] and prints the
    two rows below. *)
Definition colC : ColumnInfo :=
  mkColumnInfo 2 (NewCIStr "c") 1 (mkFieldType TypeVarchar 0 "utf8mb4_bin" [])
               StatePublic false.
Definition tblT1 : TableInfo :=
  mkTableInfo 10 (NewCIStr "t1") [Examples.colId; colC] [] true false
              (Some (Examples.hashInfo 3)) TempTableNone None false.
Definition recordedInList : list Z := [1; 1; 11].
Definition recordedRows : list (Z * string) := [(1, "a"); (11, "b")].

End Scenarios.

(** ** Properties of the executor *)

Module PointGetProofs.
Import Model PointGet PointGetSpec.



Ltac msimpl :=
  cbn [result state events getSt emit ret modify fst snd app].

Section Executor.
Context (env : Env).
Local Abbreviation flag := (PointGetSpec.flag env).

Lemma bind_result {A B} (m : M A) (k : A -> M B) s :
  result (bind m k s) = result (k (result (m s)) (state (m s))).
Proof.
  unfold bind, result, state. destruct (m s) as [[a s1] t1]. simpl.
  destruct (k a s1) as [[b s2] t2]. reflexivity.
Qed.

Lemma bind_state {A B} (m : M A) (k : A -> M B) s :
  state (bind m k s) = state (k (result (m s)) (state (m s))).
Proof.
  unfold bind, result, state. destruct (m s) as [[a s1] t1]. simpl.
  destruct (k a s1) as [[b s2] t2]. reflexivity.
Qed.

Lemma bind_events {A B} (m : M A) (k : A -> M B) s :
  events (bind m k s) =
  (events (m s) ++ events (k (result (m s)) (state (m s))))%list.
Proof.
  unfold bind, result, state, events. destruct (m s) as [[a s1] t1]. simpl.
  destruct (k a s1) as [[b s2] t2]. reflexivity.
Qed.

(** *** [get] *)

Lemma snapshotRead_state key s : state (snapshotRead env key s) = s.
Proof.
  unfold snapshotRead. rewrite bind_state; msimpl.
  match goal with |- context [if ?c then _ else _] => destruct c end.
  - rewrite bind_state; msimpl.
    destruct (unionGet env _ key) as [val [err|]]; reflexivity.
  - rewrite bind_state; msimpl. reflexivity.
Qed.

Lemma snapshotRead_events key s :
  events (snapshotRead env key s) = [EvSnapshotGet key] \/
  events (snapshotRead env key s) = [EvMemCacheGet (tblID (tblInfo (sExec s))) key].
Proof.
  unfold snapshotRead. rewrite bind_events; msimpl.
  match goal with |- context [if ?c then _ else _] => destruct c end.
  - right. rewrite bind_events; msimpl.
    destruct (unionGet env _ key) as [val [err|]]; reflexivity.
  - left. rewrite bind_events; msimpl. reflexivity.
Qed.

Lemma get_state key s : state (get env key s) = s.
Proof.
  unfold get.
  destruct (isEmpty key); [reflexivity|].
  destruct (txnValid env && negb (txnIsReadOnly env)); [|apply snapshotRead_state].
  rewrite bind_state; msimpl.
  destruct (memBufferGet env key) as [val [err|]]; [|reflexivity].
  destruct (negb (isErrNotExist err)); [reflexivity|].
  rewrite bind_state; msimpl.
  destruct (lock (sExec s)); [|apply snapshotRead_state].
  rewrite bind_state; msimpl.
  destruct (sLockCache s !! key); [reflexivity|apply snapshotRead_state].
Qed.

Lemma get_reads key s : Forall (isReadOf key) (events (get env key s)).
Proof.
  assert (Hsnap : forall s', Forall (isReadOf key) (events (snapshotRead env key s'))).
  { intros s'. destruct (snapshotRead_events key s') as [-> | ->];
      repeat constructor. }
  unfold get.
  destruct (isEmpty key); [constructor|].
  destruct (txnValid env && negb (txnIsReadOnly env)); [|apply Hsnap].
  rewrite bind_events; msimpl. constructor; [reflexivity|].
  destruct (memBufferGet env key) as [val [err|]]; [|constructor].
  destruct (negb (isErrNotExist err)); [constructor|].
  rewrite bind_events; msimpl.
  destruct (lock (sExec s)); [|apply Hsnap].
  rewrite bind_events; msimpl. constructor; [reflexivity|].
  destruct (sLockCache s !! key); [constructor|apply Hsnap].
Qed.

(** *** Locking *)


Lemma sameButCache_refl s : sameButCache s s.
Proof. repeat split. Qed.

Lemma sameButCache_trans s1 s2 s3 :
  sameButCache s1 s2 -> sameButCache s2 s3 -> sameButCache s1 s3.
Proof. unfold sameButCache. intuition congruence. Qed.

Lemma sameButCache_with_cache f s : sameButCache s (with_cache f s).
Proof. repeat split. Qed.


Lemma getValueFromLockCtx_state values key s :
  state (getValueFromLockCtx env values key s) = s.
Proof.
  unfold getValueFromLockCtx.
  destruct (values !! key) as [val|]; [|reflexivity].
  destruct (rvExists val); [reflexivity|].
  destruct (rvAlreadyLocked val); [|reflexivity].
  rewrite bind_state; msimpl. rewrite get_state.
  destruct (result (get env key s)) as [v [err|]];
    [destruct (negb (isErrNotExist err))|]; reflexivity.
Qed.

Lemma getValueFromLockCtx_reads values key s :
  Forall (isReadOf key) (events (getValueFromLockCtx env values key s)).
Proof.
  unfold getValueFromLockCtx.
  destruct (values !! key) as [val|]; [|constructor].
  destruct (rvExists val); [constructor|].
  destruct (rvAlreadyLocked val); [|constructor].
  rewrite bind_events; msimpl.
  apply Forall_app. split; [apply get_reads|].
  destruct (result (get env key s)) as [v [err|]];
    [destruct (negb (isErrNotExist err))|]; constructor.
Qed.

Lemma lockKeyBase_same key b s :
  sameButCache s (state (lockKeyBase env key b s)).
Proof.
  unfold lockKeyBase.
  destruct (isEmpty key); [apply sameButCache_refl|].
  rewrite bind_state; msimpl.
  destruct (lock (sExec s)); [|apply sameButCache_refl].
  destruct (newLockCtx env _); [apply sameButCache_refl|].
  rewrite bind_state; msimpl.
  destruct (doLockKeys env _ b key) as [err|values]; [apply sameButCache_refl|].
  rewrite bind_state; msimpl. rewrite bind_state; msimpl.
  match goal with
  | |- sameButCache _ (state (_ (state (?m ?s0)))) =>
      assert (Hm : sameButCache s (state (m s0)))
  end.
  { destruct (negb (isEmpty (handleVal (sExec s)))); msimpl;
      repeat split. }
  destruct b.
  - rewrite getValueFromLockCtx_state. exact Hm.
  - exact Hm.
Qed.

Lemma lockKeyBase_unlocked key b s :
  lock (sExec s) = false ->
  lockKeyBase env key b s = (("", None), s, []).
Proof.
  intros Hl. unfold lockKeyBase.
  destruct (isEmpty key); [reflexivity|].
  unfold bind, getSt. rewrite Hl. reflexivity.
Qed.

Lemma lockKeyBase_events key b s :
  events (lockKeyBase env key b s) = [] \/
  exists reads,
    events (lockKeyBase env key b s) =
      EvLock key b (lockWaitTime (sExec s)) :: reads /\
    Forall (isReadOf key) reads /\ (b = false -> reads = []).
Proof.
  unfold lockKeyBase.
  destruct (isEmpty key); [left; reflexivity|].
  rewrite bind_events; msimpl.
  destruct (lock (sExec s)); [|left; reflexivity].
  destruct (newLockCtx env _); [left; reflexivity|].
  right. rewrite bind_events; msimpl.
  destruct (doLockKeys env _ b key) as [err|values].
  { exists []. repeat split; auto. }
  rewrite bind_events; msimpl. rewrite bind_events; msimpl.
  match goal with
  | |- context [app (events (?m ?s0)) _] =>
      assert (Hm : events (m s0) = [])
  end.
  { destruct (negb (isEmpty (handleVal (sExec s)))); reflexivity. }
  rewrite Hm. cbn [app].
  destruct b.
  - eexists. split; [reflexivity|]. split; [|discriminate].
    apply getValueFromLockCtx_reads.
  - exists []. repeat split; auto.
Qed.

Lemma lockKeyBase_LockedReads key b s :
  LockedReads b (lock (sExec s)) key (events (lockKeyBase env key b s)).
Proof.
  unfold LockedReads. destruct (lock (sExec s)) eqn:Hl.
  - destruct (lockKeyBase_events key b s) as [H | (reads & H & Hr & _)].
    + left. exact H.
    + right. eauto.
  - rewrite lockKeyBase_unlocked by exact Hl. constructor.
Qed.

(** [lockKeyIfNeeded] only records the lock request. *)
Lemma lockKeyIfNeeded_events key s :
  events (lockKeyIfNeeded env key s) = [] \/
  events (lockKeyIfNeeded env key s) =
    [EvLock key false (lockWaitTime (sExec s))].
Proof.
  unfold lockKeyIfNeeded. rewrite bind_events; msimpl.
  rewrite app_nil_r.
  destruct (lockKeyBase_events key false s) as [H | (reads & H & _ & Hr)].
  - left. exact H.
  - right. rewrite H, (Hr eq_refl). reflexivity.
Qed.

(** Under a requested lock, no lock request leaves only when the key is
    empty or the lock context cannot be built. *)
Lemma lockKeyIfNeeded_silent key s :
  events (lockKeyIfNeeded env key s) = [] ->
  lock (sExec s) = true ->
  (isEmpty key = true /\ lockKeyIfNeeded env key s = (None, s, [])) \/
  (exists err, result (lockKeyIfNeeded env key s) = Some err).
Proof.
  intros He Hl. revert He. unfold lockKeyIfNeeded, lockKeyBase.
  destruct (isEmpty key) eqn:Hk.
  { intros _. left. split; reflexivity. }
  rewrite !bind_events, !bind_result, !bind_state; msimpl. rewrite Hl.
  destruct (newLockCtx env _) eqn:Hn.
  { intros _. right. eexists. reflexivity. }
  rewrite !bind_events; msimpl. discriminate.
Qed.

Lemma lockKeyIfNeeded_same key s :
  sameButCache s (state (lockKeyIfNeeded env key s)).
Proof.
  unfold lockKeyIfNeeded. rewrite bind_state; msimpl. apply lockKeyBase_same.
Qed.

Lemma lockKeyIfNeeded_unlocked key s :
  lock (sExec s) = false ->
  lockKeyIfNeeded env key s = (None, s, []).
Proof.
  intros Hl. unfold lockKeyIfNeeded, bind.
  rewrite lockKeyBase_unlocked by exact Hl. reflexivity.
Qed.

(** *** [getAndLock] *)

Lemma getAndLock_same key s :
  sameButCache s (state (getAndLock env key s)).
Proof.
  unfold getAndLock.
  destruct (IsPessimisticReadConsistency env).
  - rewrite bind_state; msimpl.
    destruct (lock (sExec s)).
    + rewrite bind_state; msimpl.
      destruct (result (lockKeyIfExists env key s)) as [v [err|]];
        apply lockKeyBase_same.
    + rewrite bind_state; msimpl. rewrite get_state.
      destruct (result (get env key s)) as [v [err|]];
        [destruct (negb (isErrNotExist err))|]; apply sameButCache_refl.
  - rewrite bind_state; msimpl.
    destruct (result (lockKeyIfNeeded env key s)) as [err|].
    + apply lockKeyIfNeeded_same.
    + rewrite bind_state; msimpl. rewrite get_state.
      destruct (result (get env key _)) as [v [err|]];
        [destruct (negb (isErrNotExist err))|]; apply lockKeyIfNeeded_same.
Qed.

Lemma getAndLock_LockedReads key s :
  LockedReads (IsPessimisticReadConsistency env) (lock (sExec s)) key
    (events (getAndLock env key s)).
Proof.
  unfold getAndLock.
  destruct (IsPessimisticReadConsistency env) eqn:Hrc.
  - rewrite bind_events; msimpl.
    destruct (lock (sExec s)) eqn:Hl.
    + rewrite bind_events; msimpl.
      assert (H := lockKeyBase_LockedReads key true s). rewrite Hl in H.
      unfold lockKeyIfExists.
      destruct (result (lockKeyBase env key true s)) as [v [err|]];
        msimpl; rewrite app_nil_r; exact H.
    + rewrite bind_events; msimpl. unfold LockedReads.
      apply Forall_app. split; [apply get_reads|].
      destruct (result (get env key s)) as [v [err|]];
        [destruct (negb (isErrNotExist err))|]; constructor.
  - rewrite bind_events; msimpl.
    assert (Hrest : Forall (isReadOf key)
              (events
                 (match result (lockKeyIfNeeded env key s) with
                  | Some err => ret ("", Some err)
                  | None =>
                      r <-- get env key ;;
                      match r with
                      | (_, Some err) =>
                          if negb (isErrNotExist err) then ret ("", Some err)
                          else ret ("", None)
                      | (val, None) => ret (val, None)
                      end
                  end (state (lockKeyIfNeeded env key s))))).
    { destruct (result (lockKeyIfNeeded env key s)) as [err|]; [constructor|].
      rewrite bind_events; msimpl.
      apply Forall_app. split; [apply get_reads|].
      destruct (result (get env key _)) as [v [err|]];
        [destruct (negb (isErrNotExist err))|]; constructor. }
    unfold LockedReads. destruct (lock (sExec s)) eqn:Hl.
    + destruct (lockKeyIfNeeded_events key s) as [He | He].
      * (* no lock request was sent: the key is empty or the lock
           context could not be built *)
        left. rewrite He. cbn [app].
        destruct (lockKeyIfNeeded_silent key s He Hl) as [[Hk ->] | [err ->]].
        -- msimpl. unfold get. rewrite Hk. reflexivity.
        -- reflexivity.
      * right. rewrite He. cbn [app]. eauto.
    + rewrite lockKeyIfNeeded_unlocked in * by exact Hl. exact Hrest.
Qed.

(** *** The read of the index entry *)


Lemma sameConfig_refl e : sameConfig e e.
Proof. repeat split. Qed.

Lemma sameConfig_trans e1 e2 e3 :
  sameConfig e1 e2 -> sameConfig e2 e3 -> sameConfig e1 e3.
Proof. unfold sameConfig. intuition congruence. Qed.

Lemma sameButCache_config s s' :
  sameButCache s s' -> sameConfig (sExec s) (sExec s').
Proof. intros (-> & _). apply sameConfig_refl. Qed.


(** What [readIndexEntry] does to the state and what it sends out. *)
Lemma readIndexEntry_spec s :
  let r := readIndexEntry env s in
  sameConfig (sExec s) (sExec (state r)) /\
  idxKey (sExec (state r)) = idxKey (sExec s) /\
  handle (sExec (state r)) = handle (sExec s) /\
  sReq (state r) = sReq s /\
  LockedReads flag (lock (sExec s)) (idxKey (sExec s)) (events r) /\
  (lock (sExec s) = true -> events r = [] ->
   result r <> None \/ handleVal (sExec (state r)) = "").
Proof.
  unfold readIndexEntry, flag. cbv zeta.
  rewrite bind_result, bind_state, bind_events; msimpl.
  set (k := idxKey (sExec s)).
  destruct (IsPessimisticReadConsistency env) eqn:Hrc; cbn [negb].
  - destruct (lock (sExec s)) eqn:Hl.
    + (* read committed, locking: lock only if the key exists *)
      rewrite !bind_result, !bind_state, !bind_events; msimpl.
      rewrite app_nil_r.
      destruct (lockKeyBase_same k true s) as (He & Hq & Hd).
      assert (Hev := lockKeyBase_LockedReads k true s). rewrite Hl in Hev.
      unfold lockKeyIfExists. cbn. rewrite He, Hq.
      repeat split; auto.
      intros _ Hnil. revert Hnil. unfold lockKeyBase.
      destruct (isEmpty k) eqn:Hk.
      { intros _. right. reflexivity. }
      rewrite !bind_result, !bind_events; msimpl. rewrite Hl.
      destruct (newLockCtx env _).
      { intros _. left. discriminate. }
      rewrite !bind_events; msimpl. discriminate.
    + (* read committed, no lock: plain read *)
      rewrite !bind_result, !bind_state, !bind_events; msimpl.
      rewrite get_state.
      assert (Hev := get_reads k s).
      destruct (get env k s) as [[[v err] s'] t] eqn:Hg. msimpl.
      cbn [result state events fst snd] in *.
      assert (Hend : forall (m : M (option error)),
                 (m = ret None \/ exists e, m = ret (Some e)) ->
                 events (m (with_exec (set_handleVal v) s)) = [] /\
                 state (m (with_exec (set_handleVal v) s)) =
                   with_exec (set_handleVal v) s).
      { intros m [-> | [e ->]]; split; reflexivity. }
      match goal with
      | |- context [events (?m _)] =>
          destruct (Hend m) as [E1 E2];
            [destruct err as [e|]; [destruct (negb (isErrNotExist e))|]; eauto|]
      end.
      rewrite E1, E2, app_nil_r. cbn.
      repeat split; auto; discriminate.
  - (* repeatable read: lock, then read *)
    rewrite !bind_result, !bind_state, !bind_events; msimpl.
    destruct (lockKeyIfNeeded_same k s) as (He & Hq & Hd).
    destruct (lockKeyIfNeeded env k s) as [[lerr s1] t1] eqn:Hlk.
    cbn [result state events fst snd] in *.
    assert (Hlev : t1 = events (lockKeyIfNeeded env k s)) by (rewrite Hlk; reflexivity).
    destruct lerr as [lerr|].
    + (* the lock failed *)
      msimpl. rewrite app_nil_r, He, Hq.
      assert (HLR : LockedReads false (lock (sExec s)) k t1).
      { unfold LockedReads. destruct (lock (sExec s)) eqn:Hl.
        - destruct (lockKeyIfNeeded_events k s) as [E | E]; rewrite Hlev, E.
          + left. reflexivity.
          + right. exists (lockWaitTime (sExec s)), []. split; auto.
        - rewrite lockKeyIfNeeded_unlocked in Hlk by exact Hl. discriminate. }
      repeat split; auto; intros _ _; left; discriminate.
    + rewrite !bind_result, !bind_state, !bind_events; msimpl.
      rewrite get_state.
      assert (Hev := get_reads k s1).
      destruct (get env k s1) as [[[v err] s'] t] eqn:Hg. msimpl.
      cbn [result state events fst snd] in *.
      assert (Hend : forall (m : M (option error)),
                 (m = ret None \/ exists e, m = ret (Some e)) ->
                 events (m (with_exec (set_handleVal v) s1)) = [] /\
                 state (m (with_exec (set_handleVal v) s1)) =
                   with_exec (set_handleVal v) s1).
      { intros m [-> | [e ->]]; split; reflexivity. }
      match goal with
      | |- context [events (?m _)] =>
          destruct (Hend m) as [E1 E2];
            [destruct err as [e|]; [destruct (negb (isErrNotExist e))|]; eauto|]
      end.
      rewrite E1, E2, !app_nil_r. cbn. rewrite He, Hq.
      assert (Hempty : lock (sExec s) = true -> t1 = [] -> v = "" /\ t = []).
      { intros Hl Ht1. rewrite Hlev in Ht1.
        destruct (lockKeyIfNeeded_silent k s Ht1 Hl) as [[Hk E'] | [e E']].
        - rewrite E' in Hlk. injection Hlk as <- <-.
          revert Hg. unfold get. rewrite Hk. unfold ret.
          intros [= <- <- <- <-]. split; reflexivity.
        - rewrite Hlk in E'. discriminate. }
      assert (HLR : LockedReads false (lock (sExec s)) k (t1 ++ t)).
      { unfold LockedReads. destruct (lock (sExec s)) eqn:Hl.
        - destruct (lockKeyIfNeeded_events k s) as [E | E].
          + rewrite <- Hlev in E.
            destruct (Hempty eq_refl E) as [_ ->]. rewrite E. left. reflexivity.
          + right. rewrite Hlev, E. cbn [app]. eauto.
        - rewrite lockKeyIfNeeded_unlocked in Hlk by exact Hl.
          injection Hlk as <- <-. exact Hev. }
      repeat split; auto.
      intros Hl Hnil. apply app_eq_nil in Hnil as [Ht1 Ht].
      right. apply (Hempty Hl Ht1).
Qed.

(** *** The read of the row *)

Lemma fillVirtualRows_length sch cols rows :
  length (fst (fillVirtualRows env sch cols rows)) = length rows.
Proof.
  induction rows as [|r rest IH]; [reflexivity|].
  cbn [fillVirtualRows].
  destruct (FillVirtualColumnValue env sch cols r) as [err|r']; [reflexivity|].
  destruct (fillVirtualRows env sch cols rest) as [rest' err] eqn:E.
  cbn in *. congruence.
Qed.

(** The outcomes of [readRow]: after the (possibly locked) read of the
    row key, an error, an inconsistency report, an empty result or one
    decoded row. *)
Lemma readRow_spec tid s :
  let r := readRow env tid s in
  let e := sExec s in
  let key := EncodeRowKeyWithHandle env tid (handle e) in
  let g := getAndLock env key s in
  sExec (state r) = sExec s /\
  ((exists err, result g = ("", Some err) /\ result r = Some err /\
                events r = events g /\ sReq (state r) = sReq s) \/
   (exists v, fst (result g) = v /\ snd (result g) = None /\ isEmpty v = true /\
      ((exists idx, idxInfo e = Some idx /\
                    isCommonHandleRead env (tblInfo e) idx = false /\
                    WeakConsistency env = false /\
                    result r = ReportLookupInconsistent env (tblInfo e) idx
                                 (handle e) key (idxKey e) /\
                    events r = (events g ++ [EvReport key (idxKey e)])%list) \/
       ((forall idx, idxInfo e = Some idx ->
                     isCommonHandleRead env (tblInfo e) idx = true \/
                     WeakConsistency env = true) /\
        result r = None /\ events r = events g)) /\
      sReq (state r) = sReq s) \/
   (exists v, fst (result g) = v /\ snd (result g) = None /\ isEmpty v = false /\
      events r = events g /\
      ((exists err, DecodeRowValToChunk env (schema e) (tblInfo e) (handle e) v = inl err /\
                    result r = Some err /\ sReq (state r) = sReq s) \/
       (exists row, DecodeRowValToChunk env (schema e) (tblInfo e) (handle e) v = inr row /\
                    length (sReq (state r)) = S (length (sReq s)) /\
                    result r = snd (fillVirtualRows env (schema e) (columns e)
                                      (sReq s ++ [row])))))).
Proof.
  cbv zeta. unfold readRow.
  rewrite bind_result, bind_state, bind_events; msimpl.
  rewrite bind_result, bind_state, bind_events; msimpl.
  set (key := EncodeRowKeyWithHandle env tid (handle (sExec s))).
  destruct (getAndLock_same key s) as (He & Hq & Hd).
  assert (Herr : forall err v, result (getAndLock env key s) = (v, Some err) -> v = "").
  { intros err v. unfold getAndLock.
    repeat first
      [ rewrite bind_result; msimpl
      | match goal with
        | |- context [if ?c then _ else _] => destruct c
        | |- context [match result ?x with _ => _ end] =>
            destruct (result x) as [? [?|]]
        | |- context [match ?x with Some _ => _ | None => _ end] => destruct x
        end ];
      try (intros [= <- <-]; reflexivity); try discriminate. }
  destruct (getAndLock env key s) as [[[v [err|]] s1] t1] eqn:Hg;
    cbn [result state events fst snd] in *.
  - (* the read failed *)
    rewrite (Herr err v eq_refl). split; [exact He|]. left.
    exists err. rewrite app_nil_r. auto.
  - destruct (isEmpty v) eqn:Hv.
    + (* no row *)
      split.
      * destruct (idxInfo (sExec s)) as [idx|]; [|exact He].
        destruct (negb (isCommonHandleRead env (tblInfo (sExec s)) idx) &&
                  negb (WeakConsistency env)); [|exact He].
        rewrite bind_state; exact He.
      * right. left. exists v. repeat split; auto.
        -- destruct (idxInfo (sExec s)) as [idx|].
           ++ destruct (isCommonHandleRead env (tblInfo (sExec s)) idx) eqn:Hc;
                destruct (WeakConsistency env) eqn:Hw; cbn [negb andb].
              ** right. msimpl. rewrite app_nil_r.
                 repeat split; auto; intros ? [= <-]; auto.
              ** right. msimpl. rewrite app_nil_r.
                 repeat split; auto; intros ? [= <-]; auto.
              ** right. msimpl. rewrite app_nil_r.
                 repeat split; auto; intros ? [= <-]; auto.
              ** left. exists idx. rewrite bind_result, bind_events; msimpl.
                 repeat split; auto.
           ++ right. msimpl. rewrite app_nil_r. repeat split; auto.
              intros idx [=].
        -- destruct (idxInfo (sExec s)) as [idx|]; [|exact Hq].
           destruct (negb (isCommonHandleRead env (tblInfo (sExec s)) idx) &&
                     negb (WeakConsistency env)); [|exact Hq].
           rewrite bind_state; exact Hq.
    + (* a row value *)
      destruct (DecodeRowValToChunk env (schema (sExec s)) (tblInfo (sExec s))
                  (handle (sExec s)) v) as [derr|row] eqn:Hdec.
      * split; [exact He|].
        right. right. exists v. msimpl. rewrite app_nil_r.
        repeat split; auto. left. exists derr. auto.
      * rewrite !bind_state, !bind_result, !bind_events; msimpl.
        cbn [with_req sReq sExec].
        destruct (fillVirtualRows env (schema (sExec s)) (columns (sExec s))
                    (sReq s1 ++ [row])) as [rows ferr] eqn:Hfill.
        rewrite !bind_state, !bind_result, !bind_events; msimpl.
        cbn [with_req sReq sExec].
        split; [exact He|].
        right. right. exists v. rewrite app_nil_r.
        repeat split; auto. right. exists row. split; [exact Hdec|].
        rewrite <- Hq, Hfill. split; [|reflexivity].
        assert (Hlen := fillVirtualRows_length (schema (sExec s)) (columns (sExec s))
                          (sReq s1 ++ [row])).
        rewrite Hfill in Hlen. cbn [fst] in Hlen. rewrite Hlen.
        rewrite length_app. cbn. lia.
Qed.

(** *** [Next] *)


Lemma through_nil {A} (r : A * St * list Event) : through [] r = r.
Proof. destruct r as [[a s] t]. reflexivity. Qed.

Lemma bind_through {A B} (m : M A) (k : A -> M B) s :
  bind m k s = through (events (m s)) (k (result (m s)) (state (m s))).
Proof.
  unfold bind, through, result, state, events.
  destruct (m s) as [[a s1] t1]. cbn.
  destruct (k a s1) as [[b s2] t2]. reflexivity.
Qed.

(** [Next] on a state that is already [done]. *)
Lemma Next_done s :
  done (sExec s) = true ->
  Next env s = (None, with_req (fun _ => []) s, []).
Proof.
  intros Hd. unfold Next. rewrite !bind_through; msimpl.
  cbn [with_req sExec]. rewrite Hd. reflexivity.
Qed.

(** [Next], path by path, on a state that is not [done]. *)
Lemma Next_unfold s :
  done (sExec s) = false ->
  Next env s =
  let e := sExec s in
  let tid := tableID s in
  let s0 := prologue s in
  match idxInfo e with
  | None => readRow env tid s0
  | Some idx =>
      if isCommonHandleRead env (tblInfo e) idx then
        match EncodeUniqueIndexValuesForKey env (tblInfo e) idx (idxVals e) with
        | (vals, (_, Some err)) =>
            (if isErrNotExist err then None else Some err,
             with_exec (set_idxVals vals) s0, [])
        | (vals, (handleBytes, None)) =>
            match NewCommonHandle env handleBytes with
            | inl err =>
                (Some err,
                 with_exec (set_handle None) (with_exec (set_idxVals vals) s0), [])
            | inr h =>
                readRow env tid
                  (with_exec (set_handle (Some h)) (with_exec (set_idxVals vals) s0))
            end
        end
      else
        match EncodeUniqueIndexKey env (tblInfo e) idx (idxVals e) tid with
        | (vals, (key, err)) =>
            let s1 := with_exec (fun e => set_idxKey key (set_idxVals vals e)) s0 in
            if match err with
               | Some err => negb (isErrNotExist err)
               | None => false
               end
            then (err, s1, [])
            else
              let ri := readIndexEntry env s1 in
              match result ri with
              | Some err => (Some err, state ri, events ri)
              | None =>
                  let hv := handleVal (sExec (state ri)) in
                  if isEmpty hv then (None, state ri, events ri)
                  else
                    match DecodeHandleInUniqueIndexValue env hv
                            (tblIsCommonHandle (tblInfo e)) with
                    | inl err => (Some err, state ri, events ri)
                    | inr iv =>
                        let s2 := with_exec (set_handle (Some iv)) (state ri) in
                        if idxGlobal idx then
                          match DecodePartitionID env hv with
                          | inl err => (Some err, s2, events ri)
                          | inr pid => through (events ri) (readRow env pid s2)
                          end
                        else through (events ri) (readRow env tid s2)
                    end
              end
        end
  end.
Proof.
  intros Hd. unfold Next. cbv zeta.
  rewrite !bind_through; msimpl. cbn [with_req sExec]. rewrite Hd.
  rewrite ?through_nil.
  rewrite ?bind_through; msimpl. rewrite ?through_nil.
  assert (Hpro : state ((if lock (sExec s)
                         then modify (with_delta (fun l => (l ++ [tableID s])%list))
                         else ret ())
                          (with_exec (set_done true) (with_req (fun _ => []) s)))
                 = prologue s).
  { unfold prologue. destruct (lock (sExec s)); reflexivity. }
  assert (Hev : events ((if lock (sExec s)
                         then modify (with_delta (fun l => (l ++ [tableID s])%list))
                         else ret ())
                          (with_exec (set_done true) (with_req (fun _ => []) s)))
                 = []).
  { destruct (lock (sExec s)); reflexivity. }
  fold (tableID s). rewrite Hpro, Hev, through_nil.
  destruct (idxInfo (sExec s)) as [idx|]; [|reflexivity].
  destruct (isCommonHandleRead env (tblInfo (sExec s)) idx).
  - destruct (EncodeUniqueIndexValuesForKey env _ idx _) as [vals [hb [err|]]].
    + rewrite bind_through; msimpl. rewrite through_nil.
      destruct (isErrNotExist err); reflexivity.
    + rewrite bind_through; msimpl. rewrite through_nil.
      destruct (NewCommonHandle env hb) as [err|h].
      * rewrite bind_through; msimpl. reflexivity.
      * rewrite bind_through; msimpl. rewrite through_nil. reflexivity.
  - destruct (EncodeUniqueIndexKey env _ idx _ _) as [vals [key err]].
    rewrite bind_through; msimpl. rewrite through_nil.
    match goal with |- context [if ?c then _ else _] => destruct c end;
      [reflexivity|].
    rewrite bind_through.
    destruct (result (readIndexEntry env _)) as [rerr|].
    { unfold through. msimpl. rewrite app_nil_r. reflexivity. }
    rewrite bind_through; msimpl. rewrite through_nil.
    destruct (isEmpty _).
    { unfold through. msimpl. rewrite app_nil_r. reflexivity. }
    destruct (DecodeHandleInUniqueIndexValue env _ _) as [derr|iv].
    { unfold through. msimpl. rewrite app_nil_r. reflexivity. }
    rewrite bind_through; msimpl. rewrite through_nil.
    destruct (idxGlobal idx); [|reflexivity].
    destruct (DecodePartitionID env _) as [perr|pid]; [|reflexivity].
    unfold through. msimpl. rewrite app_nil_r. reflexivity.
Qed.

Lemma readRow_trace tid s :
  let key := EncodeRowKeyWithHandle env tid (handle (sExec s)) in
  exists t3,
    events (readRow env tid s) = (events (getAndLock env key s) ++ t3)%list /\
    (t3 = [] \/
     (t3 = [EvReport key (idxKey (sExec s))] /\
      exists idx, idxInfo (sExec s) = Some idx /\
                  isCommonHandleRead env (tblInfo (sExec s)) idx = false /\
                  WeakConsistency env = false /\
                  result (readRow env tid s) =
                    ReportLookupInconsistent env (tblInfo (sExec s)) idx
                      (handle (sExec s)) key (idxKey (sExec s)))).
Proof.
  cbv zeta.
  destruct (readRow_spec tid s) as
    (_ & [(err & _ & _ & Hev & _)
         | [(v & _ & _ & _ & [(idx & Hi & Hc & Hw & Hr & Hev) | (_ & _ & Hev)] & _)
           | (v & _ & _ & _ & Hev & _)]]).
  - exists []. rewrite app_nil_r. auto.
  - eexists. split; [exact Hev|]. right. split; [reflexivity|]. eauto.
  - exists []. rewrite app_nil_r. auto.
  - exists []. rewrite app_nil_r. auto.
Qed.

Lemma readRow_chunk tid s :
  (length (sReq (state (readRow env tid s))) <= S (length (sReq s)))%nat.
Proof.
  destruct (readRow_spec tid s) as
    (_ & [(err & _ & _ & _ & ->)
         | [(v & _ & _ & _ & _ & ->)
           | (v & _ & _ & _ & _ & [(err & _ & _ & ->) | (row & _ & -> & _)])]]);
    lia.
Qed.

Lemma LockedReads_nil b lk k : LockedReads b lk k [].
Proof. destruct lk; cbn; auto. Qed.

Lemma prologue_config s :
  sameConfig (set_done true (sExec s)) (sExec (prologue s)) /\
  sReq (prologue s) = [] /\
  handle (sExec (prologue s)) = handle (sExec s) /\
  handleVal (sExec (prologue s)) = handleVal (sExec s) /\
  idxKey (sExec (prologue s)) = idxKey (sExec s) /\
  idxVals (sExec (prologue s)) = idxVals (sExec s).
Proof.
  unfold prologue. destruct (lock (sExec s)); cbn; repeat split.
Qed.

(** The shape of every trace of [Next]: the locked (or plain) read of one
    key, the same for a second key, and at most one report at the end. *)
Lemma Next_trace s :
  exists k1 k2 t1 t2 t3,
    events (Next env s) = (t1 ++ t2 ++ t3)%list /\
    LockedReads flag (lock (sExec s)) k1 t1 /\
    LockedReads flag (lock (sExec s)) k2 t2 /\
    (t3 = [] \/
     exists rk ik idx h,
       t3 = [EvReport rk ik] /\ idxInfo (sExec s) = Some idx /\
       isCommonHandleRead env (tblInfo (sExec s)) idx = false /\
       WeakConsistency env = false /\
       handleVal (sExec (state (Next env s))) <> "" /\
       result (Next env s) =
         ReportLookupInconsistent env (tblInfo (sExec s)) idx h rk ik).
Proof.
  assert (Hstop : forall r : option error * St * list Event,
            events r = [] ->
            exists k1 k2 t1 t2 t3,
              events r = (t1 ++ t2 ++ t3)%list /\
              LockedReads flag (lock (sExec s)) k1 t1 /\
              LockedReads flag (lock (sExec s)) k2 t2 /\
              (t3 = [] \/
               exists rk ik idx h,
                 t3 = [EvReport rk ik] /\ idxInfo (sExec s) = Some idx /\
                 isCommonHandleRead env (tblInfo (sExec s)) idx = false /\
                 WeakConsistency env = false /\
                 handleVal (sExec (state r)) <> "" /\
                 result r =
                   ReportLookupInconsistent env (tblInfo (sExec s)) idx h rk ik)).
  { intros r ->. exists "", "", [], [], [].
    repeat split; auto using LockedReads_nil. }
  destruct (done (sExec s)) eqn:Hd.
  { rewrite Next_done by exact Hd. apply Hstop. reflexivity. }
  rewrite Next_unfold by exact Hd. cbv zeta.
  destruct (prologue_config s) as (Hcfg & Hreq & Hh & Hhv & Hik & Hiv).
  assert (Hlk0 : lock (sExec (prologue s)) = lock (sExec s)) by apply Hcfg.
  assert (Hrow : forall tid sR pre k1,
            sameConfig (set_done true (sExec s)) (sExec sR) ->
            LockedReads flag (lock (sExec s)) k1 pre ->
            (forall idx, idxInfo (sExec s) = Some idx ->
                         isCommonHandleRead env (tblInfo (sExec s)) idx = false ->
                         handleVal (sExec sR) <> "") ->
            let r := through pre (readRow env tid sR) in
            exists k1 k2 t1 t2 t3,
              events r = (t1 ++ t2 ++ t3)%list /\
              LockedReads flag (lock (sExec s)) k1 t1 /\
              LockedReads flag (lock (sExec s)) k2 t2 /\
              (t3 = [] \/
               exists rk ik idx h,
                 t3 = [EvReport rk ik] /\ idxInfo (sExec s) = Some idx /\
                 isCommonHandleRead env (tblInfo (sExec s)) idx = false /\
                 WeakConsistency env = false /\
                 handleVal (sExec (state r)) <> "" /\
                 result r =
                   ReportLookupInconsistent env (tblInfo (sExec s)) idx h rk ik)).
  { intros tid sR pre k1 HsR Hpre Hhv'. cbv zeta.
    destruct (readRow_trace tid sR) as (t3 & Hev & Ht3).
    destruct (readRow_spec tid sR) as (HeR & _).
    destruct HsR as (_ & Htbl & Hidx & _ & _ & Hlk & _).
    cbn in Htbl, Hidx, Hlk.
    exists k1, (EncodeRowKeyWithHandle env tid (handle (sExec sR))), pre,
      (events (getAndLock env
                 (EncodeRowKeyWithHandle env tid (handle (sExec sR))) sR)), t3.
    unfold through. cbn [events result state fst snd]. rewrite Hev.
    split; [reflexivity|]. split; [exact Hpre|]. split.
    { rewrite <- Hlk. apply getAndLock_LockedReads. }
    destruct Ht3 as [-> | (-> & idx & Hi & Hc & Hw & Hr)]; [left; reflexivity|].
    right. do 2 eexists. exists idx, (handle (sExec sR)).
    rewrite <- Hidx, <- Htbl. repeat split; auto.
    rewrite HeR. apply (Hhv' idx); congruence. }
  destruct (idxInfo (sExec s)) as [idx|] eqn:Hidx.
  2:{ rewrite <- (through_nil (readRow env _ _)).
      apply (Hrow _ _ [] ""); auto using LockedReads_nil; discriminate. }
  destruct (isCommonHandleRead env (tblInfo (sExec s)) idx) eqn:Hc.
  - destruct (EncodeUniqueIndexValuesForKey env _ idx _) as [vals [hb [err|]]].
    + apply Hstop. reflexivity.
    + destruct (NewCommonHandle env hb) as [err|h].
      * apply Hstop. reflexivity.
      * rewrite <- (through_nil (readRow env _ _)).
        apply (Hrow _ _ [] ""); auto using LockedReads_nil.
        intros idx' [= <-]. congruence.
  - destruct (EncodeUniqueIndexKey env _ idx _ _) as [vals [key err]].
    cbv zeta.
    match goal with |- context [if ?c then _ else _] => destruct c end.
    { apply Hstop. reflexivity. }
    set (s1 := with_exec (fun e => set_idxKey key (set_idxVals vals e)) (prologue s)).
    destruct (readIndexEntry_spec s1) as (Hc1 & Hk1 & Hh1 & Hq1 & Hev1 & _).
    cbv zeta in *.
    assert (Hlk1 : lock (sExec s1) = lock (sExec s)).
    { unfold s1. cbn. exact Hlk0. }
    rewrite Hlk1 in Hev1.
    assert (Hpre : forall r : option error * St * list Event,
              events r = events (readIndexEntry env s1) ->
              exists k1 k2 t1 t2 t3,
                events r = (t1 ++ t2 ++ t3)%list /\
                LockedReads flag (lock (sExec s)) k1 t1 /\
                LockedReads flag (lock (sExec s)) k2 t2 /\
                (t3 = [] \/
                 exists rk ik idx0 h,
                   t3 = [EvReport rk ik] /\ Some idx = Some idx0 /\
                   isCommonHandleRead env (tblInfo (sExec s)) idx0 = false /\
                   WeakConsistency env = false /\
                   handleVal (sExec (state r)) <> "" /\
                   result r =
                     ReportLookupInconsistent env (tblInfo (sExec s)) idx0 h rk ik)).
    { intros r ->. exists (idxKey (sExec s1)), "", (events (readIndexEntry env s1)), [], [].
      rewrite !app_nil_r. repeat split; auto using LockedReads_nil. }
    assert (Hcfg1 : sameConfig (set_done true (sExec s)) (sExec s1)).
    { unfold s1. destruct Hcfg as (? & ? & ? & ? & ? & ? & ? & ?).
      repeat split; cbn; auto. }
    destruct (result (readIndexEntry env s1)) as [rerr|]; [apply Hpre; reflexivity|].
    destruct (isEmpty (handleVal (sExec (state (readIndexEntry env s1))))) eqn:Hhv1;
      [apply Hpre; reflexivity|].
    destruct (DecodeHandleInUniqueIndexValue env _ _) as [derr|iv];
      [apply Hpre; reflexivity|].
    assert (HsR : sameConfig (set_done true (sExec s))
                    (sExec (with_exec (set_handle (Some iv))
                              (state (readIndexEntry env s1))))).
    { eapply sameConfig_trans; [exact Hcfg1|].
      destruct Hc1 as (? & ? & ? & ? & ? & ? & ? & ?).
      repeat split; cbn; auto. }
    assert (Hne : handleVal (sExec (with_exec (set_handle (Some iv))
                                      (state (readIndexEntry env s1)))) <> "").
    { cbn [sExec with_exec set_handle handleVal].
      intros E. rewrite E in Hhv1. discriminate. }
    destruct (idxGlobal idx).
    + destruct (DecodePartitionID env _) as [perr|pid]; [apply Hpre; reflexivity|].
      eapply Hrow; eauto.
    + eapply Hrow; eauto.
Qed.

Lemma through_state {A} pre (r : A * St * list Event) :
  state (through pre r) = state r.
Proof. reflexivity. Qed.

(** What [Next] leaves behind: the configuration of the executor with
    [done] set, and a chunk of at most one row, which is empty when a
    secondary-index read found no index entry. *)
Lemma Next_state s :
  let r := Next env s in
  sameConfig (set_done true (sExec s)) (sExec (state r)) /\
  (length (sReq (state r)) <= 1)%nat /\
  (done (sExec s) = false ->
   forall idx, idxInfo (sExec s) = Some idx ->
     isCommonHandleRead env (tblInfo (sExec s)) idx = false ->
     handleVal (sExec (state r)) = "" -> sReq (state r) = []).
Proof.
  cbv zeta.
  destruct (done (sExec s)) eqn:Hd.
  { rewrite Next_done by exact Hd. cbn [state fst snd with_req sExec sReq].
    split; [|split; [cbn; lia|discriminate]].
    unfold sameConfig. cbn. repeat split; auto. }
  rewrite Next_unfold by exact Hd. cbv zeta.
  destruct (prologue_config s) as (Hcfg & Hreq & Hh & Hhv & Hik & Hiv).
  assert (Hstop : forall (r : option error * St * list Event),
            sameConfig (set_done true (sExec s)) (sExec (state r)) ->
            sReq (state r) = [] ->
            sameConfig (set_done true (sExec s)) (sExec (state r)) /\
            (length (sReq (state r)) <= 1)%nat /\
            (false = false ->
             forall idx0, idxInfo (sExec s) = Some idx0 ->
               isCommonHandleRead env (tblInfo (sExec s)) idx0 = false ->
               handleVal (sExec (state r)) = "" -> sReq (state r) = [])).
  { intros r Hc Hq. rewrite Hq. split; [exact Hc|]. split; [cbn; lia|auto]. }
  assert (Hrow : forall tid sR pre,
            sameConfig (set_done true (sExec s)) (sExec sR) ->
            sReq sR = [] ->
            (forall idx0, idxInfo (sExec s) = Some idx0 ->
               isCommonHandleRead env (tblInfo (sExec s)) idx0 = false ->
               handleVal (sExec sR) <> "") ->
            let r := through pre (readRow env tid sR) in
            sameConfig (set_done true (sExec s)) (sExec (state r)) /\
            (length (sReq (state r)) <= 1)%nat /\
            (false = false ->
             forall idx0, idxInfo (sExec s) = Some idx0 ->
               isCommonHandleRead env (tblInfo (sExec s)) idx0 = false ->
               handleVal (sExec (state r)) = "" -> sReq (state r) = [])).
  { intros tid sR pre HsR Hq Hne. cbv zeta. rewrite through_state.
    destruct (readRow_spec tid sR) as (HeR & _).
    assert (Hlen := readRow_chunk tid sR). rewrite Hq in Hlen.
    rewrite HeR. split; [exact HsR|]. split; [exact Hlen|].
    intros _ idx0 Hi Hc0 E. destruct (Hne idx0 Hi Hc0 E). }
  destruct (idxInfo (sExec s)) as [idx|] eqn:Hidx.
  2:{ rewrite <- (through_nil (readRow env _ _)).
      apply Hrow; auto; discriminate. }
  destruct (isCommonHandleRead env (tblInfo (sExec s)) idx) eqn:Hc.
  - destruct (EncodeUniqueIndexValuesForKey env _ idx _) as [vals [hb [err|]]].
    + apply Hstop; auto.
    + destruct (NewCommonHandle env hb) as [err|h].
      * apply Hstop; auto.
      * rewrite <- (through_nil (readRow env _ _)).
        apply Hrow; auto. intros idx' [= <-]. congruence.
  - destruct (EncodeUniqueIndexKey env _ idx _ _) as [vals [key err]].
    cbv zeta.
    set (s1 := with_exec (fun e => set_idxKey key (set_idxVals vals e)) (prologue s)).
    assert (Hcfg1 : sameConfig (set_done true (sExec s)) (sExec s1)).
    { unfold s1. destruct Hcfg as (? & ? & ? & ? & ? & ? & ? & ?).
      repeat split; cbn; auto. }
    match goal with |- context [if ?c then _ else _] => destruct c end.
    { apply Hstop; auto. }
    destruct (readIndexEntry_spec s1) as (Hc1 & Hk1 & Hh1 & Hq1 & Hev1 & _).
    cbv zeta in *.
    assert (Hcfg2 : sameConfig (set_done true (sExec s))
                      (sExec (state (readIndexEntry env s1)))).
    { eapply sameConfig_trans; eauto. }
    assert (Hq2 : sReq (state (readIndexEntry env s1)) = []).
    { rewrite Hq1. exact Hreq. }
    destruct (result (readIndexEntry env s1)) as [rerr|]; [apply Hstop; auto|].
    destruct (isEmpty (handleVal (sExec (state (readIndexEntry env s1))))) eqn:Hhv1;
      [apply Hstop; auto|].
    destruct (DecodeHandleInUniqueIndexValue env _ _) as [derr|iv];
      [apply Hstop; auto|].
    assert (HsR : sameConfig (set_done true (sExec s))
                    (sExec (with_exec (set_handle (Some iv))
                              (state (readIndexEntry env s1))))).
    { destruct Hcfg2 as (? & ? & ? & ? & ? & ? & ? & ?).
      repeat split; cbn; auto. }
    assert (Hne : handleVal (sExec (with_exec (set_handle (Some iv))
                                      (state (readIndexEntry env s1)))) <> "").
    { cbn [sExec with_exec set_handle handleVal].
      intros E. rewrite E in Hhv1. discriminate. }
    destruct (idxGlobal idx).
    + destruct (DecodePartitionID env _) as [perr|pid]; [apply Hstop; auto|].
      apply Hrow; auto.
    + apply Hrow; auto.
Qed.

Lemma Next_sets_done s : done (sExec (state (Next env s))) = true.
Proof. destruct (Next_state s) as ((_ & _ & _ & _ & H & _) & _). exact H. Qed.

Lemma Next_keeps_lock s :
  lock (sExec (state (Next env s))) = lock (sExec s).
Proof. destruct (Next_state s) as ((_ & _ & _ & _ & _ & H & _) & _). exact H. Qed.

(** With a requested lock, the first thing [Next] sends out is the lock
    request: on the index key on the secondary-index path, on the row key
    otherwise. *)
Lemma Next_first_lock s :
  done (sExec s) = false ->
  lock (sExec s) = true ->
  let t := events (Next env s) in
  let tid := tableID s in
  match idxInfo (sExec s) with
  | Some idx =>
      if isCommonHandleRead env (tblInfo (sExec s)) idx then
        t = [] \/
        exists h w rest,
          t = EvLock (EncodeRowKeyWithHandle env tid (Some h)) flag w :: rest
      else
        t = [] \/
        exists w rest,
          t = EvLock (fst (snd (EncodeUniqueIndexKey env (tblInfo (sExec s)) idx
                                  (idxVals (sExec s)) tid))) flag w :: rest
  | None =>
      t = [] \/
      exists w rest,
        t = EvLock (EncodeRowKeyWithHandle env tid (handle (sExec s))) flag w :: rest
  end.
Proof.
  intros Hd Hl. cbv zeta. rewrite Next_unfold by exact Hd. cbv zeta.
  destruct (prologue_config s) as (Hcfg & Hreq & Hh & Hhv & Hik & Hiv).
  assert (Hlk0 : lock (sExec (prologue s)) = true).
  { destruct Hcfg as (_ & _ & _ & _ & _ & -> & _). exact Hl. }
  assert (Hrow : forall tid sR,
            lock (sExec sR) = true ->
            (forall idx, idxInfo (sExec sR) = Some idx ->
                         isCommonHandleRead env (tblInfo (sExec sR)) idx = true) ->
            events (readRow env tid sR) = [] \/
            exists w rest,
              events (readRow env tid sR) =
                EvLock (EncodeRowKeyWithHandle env tid (handle (sExec sR))) flag w
                  :: rest).
  { intros tid sR HlR Hcommon.
    destruct (readRow_trace tid sR) as (t3 & -> & Ht3).
    assert (Hg := getAndLock_LockedReads
                    (EncodeRowKeyWithHandle env tid (handle (sExec sR))) sR).
    rewrite HlR in Hg. cbn in Hg.
    destruct Hg as [-> | (w & reads & -> & _)].
    - destruct Ht3 as [-> | (_ & idx & Hi & Hc & _)]; [left; reflexivity|].
      rewrite (Hcommon idx Hi) in Hc. discriminate.
    - right. eauto. }
  destruct (idxInfo (sExec s)) as [idx|] eqn:Hidx.
  2:{ rewrite <- Hh. apply Hrow; [exact Hlk0|].
      destruct Hcfg as (_ & _ & -> & _). cbn. rewrite Hidx. discriminate. }
  destruct (isCommonHandleRead env (tblInfo (sExec s)) idx) eqn:Hc.
  - destruct (EncodeUniqueIndexValuesForKey env _ idx _) as [vals [hb [err|]]].
    + left. reflexivity.
    + destruct (NewCommonHandle env hb) as [err|h]; [left; reflexivity|].
      match goal with
      | |- context [readRow env ?tid ?sR] =>
          destruct (Hrow tid sR) as [-> | (w & rest & ->)]
      end.
      * exact Hlk0.
      * destruct Hcfg as (_ & Ht & Hi & _). cbn in *. rewrite Ht, Hi, Hidx.
        intros idx' [= <-]. exact Hc.
      * left. reflexivity.
      * right. exists h. eauto.
  - destruct (EncodeUniqueIndexKey env _ idx _ _) as [vals [key err]].
    cbv zeta. cbn [fst snd].
    match goal with |- context [if ?c then _ else _] => destruct c end.
    { left. reflexivity. }
    set (s1 := with_exec (fun e => set_idxKey key (set_idxVals vals e)) (prologue s)).
    destruct (readIndexEntry_spec s1) as (Hc1 & Hk1 & Hh1 & Hq1 & Hev1 & Hsil).
    cbv zeta in *.
    assert (Hlk1 : lock (sExec s1) = true) by exact Hlk0.
    rewrite Hlk1 in Hev1. specialize (Hsil Hlk1).
    change (idxKey (sExec s1)) with key in Hev1.
    destruct Hev1 as [Hnil | (w & reads & Hev1 & _)].
    + (* nothing was sent: the entry is empty or the lock failed *)
      specialize (Hsil Hnil). rewrite Hnil.
      destruct (result (readIndexEntry env s1)) as [rerr|]; [left; reflexivity|].
      destruct Hsil as [Hsil | Hsil]; [congruence|].
      rewrite Hsil. left. reflexivity.
    + rewrite Hev1.
      assert (Hany : forall r : option error * St * list Event,
                events r = (EvLock key flag w :: reads)%list \/
                (exists r', r = through (EvLock key flag w :: reads) r') ->
                events r = [] \/
                exists w0 rest, events r = EvLock key flag w0 :: rest).
      { intros r [E | (r' & ->)]; right; eauto. }
      destruct (result (readIndexEntry env s1)) as [rerr|]; [apply Hany; auto|].
      destruct (isEmpty _); [apply Hany; auto|].
      destruct (DecodeHandleInUniqueIndexValue env _ _) as [derr|iv];
        [apply Hany; auto|].
      destruct (idxGlobal idx).
      * destruct (DecodePartitionID env _) as [perr|pid];
          apply Hany; eauto.
      * apply Hany; eauto.
Qed.

(** *** Repeated calls *)

Lemma NextTimes_done n s :
  done (sExec s) = true ->
  result (NextTimes env (S n) s) = replicate (S n) None /\
  events (NextTimes env (S n) s) = [] /\
  state (NextTimes env (S n) s) = with_req (fun _ => []) s.
Proof.
  revert s. induction n as [|n IH]; intros s Hd.
  - cbn [NextTimes]. rewrite Next_done by exact Hd. repeat split.
  - change (NextTimes env (S (S n)) s)
      with (let '(r, s1, t1) := Next env s in
            let '(rs, s2, t2) := NextTimes env (S n) s1 in
            (r :: rs, s2, (t1 ++ t2)%list)).
    rewrite Next_done by exact Hd.
    destruct (IH (with_req (fun _ => []) s) Hd) as (Hr & He & Hs).
    destruct (NextTimes env (S n) (with_req (fun _ => []) s)) as [[rs s2] t2].
    cbn [result state events fst snd] in *. subst. repeat split.
Qed.

Lemma NextTimes_events_Forall (P : Event -> Prop) (Q : St -> Prop) :
  (forall s, Q s -> Forall P (events (Next env s)) /\ Q (state (Next env s))) ->
  forall n s, Q s -> Forall P (events (NextTimes env n s)).
Proof.
  intros Hstep. induction n as [|n IH]; intros s Hq; [constructor|].
  cbn [NextTimes]. destruct (Hstep s Hq) as [Hev Hq'].
  destruct (Next env s) as [[r s1] t1]. specialize (IH s1 Hq').
  destruct (NextTimes env n s1) as [[rs s2] t2].
  cbn [events state fst snd] in *. apply Forall_app. auto.
Qed.

Lemma LockedReads_unlocked_no_lock b k t :
  LockedReads b false k t -> Forall (fun ev => isLockEvent ev = false) t.
Proof.
  cbn. intros H. eapply Forall_impl; [exact H|].
  intros [] Hx; try reflexivity. destruct Hx.
Qed.

(** Without a lock flag, [Next] sends no lock request. *)
Lemma Next_unlocked_no_lock s :
  lock (sExec s) = false ->
  Forall (fun ev => isLockEvent ev = false) (events (Next env s)).
Proof.
  intros Hl.
  destruct (Next_trace s) as (k1 & k2 & t1 & t2 & t3 & -> & H1 & H2 & H3).
  rewrite Hl in H1, H2.
  rewrite !Forall_app. repeat split.
  - eapply LockedReads_unlocked_no_lock; eauto.
  - eapply LockedReads_unlocked_no_lock; eauto.
  - destruct H3 as [-> | (rk & ik & idx & h & -> & _)]; repeat constructor.
Qed.

End Executor.

(** C9 (temporary tables never lock): when the table of the plan is a
    temporary table, [Init] sets the executor's lock flag to false and its
    lock wait time to 0 whatever the plan's [Lock] and [LockWaitTime]
    are, and no call of [Next] on that executor, however often repeated,
    sends a pessimistic lock request. *)
Theorem C9_temporary_table_never_locks (env : Env) (sch : list Column)
    (p : PointGetPlan) (e0 : PointGetExecutor) (s : St) (n : nat) :
  tblTempTableType (pTblInfo p) <> TempTableNone ->
  sExec s = Init sch p e0 ->
  lock (sExec s) = false /\
  lockWaitTime (sExec s) = 0 /\
  Forall (fun ev => isLockEvent ev = false) (events (NextTimes env n s)).
Proof.
  intros Htemp Hs.
  assert (Hl : lock (sExec s) = false /\ lockWaitTime (sExec s) = 0).
  { rewrite Hs. unfold Init. cbn.
    destruct (tblTempTableType (pTblInfo p)); [contradiction|auto|auto]. }
  destruct Hl as [Hl Hw]. split; [exact Hl|]. split; [exact Hw|].
  apply (NextTimes_events_Forall env _ (fun s => lock (sExec s) = false));
    [|exact Hl].
  intros s' Hl'. split.
  - apply Next_unlocked_no_lock. exact Hl'.
  - rewrite Next_keeps_lock. exact Hl'.
Qed.

(** C10 (read precedence inside [get]): an empty key gives the not-exist
    error without any call; with a valid transaction that is not
    read-only, the transaction's memory buffer is asked first and its
    value returned if it has one, any error of it other than not-found is
    returned at once, the pessimistic-lock cache is asked next and only
    when the executor locks, and the store (snapshot, or the table-lock
    read cache) is asked only when both missed; otherwise the store is
    asked directly.  The store is always the last one asked, and the
    state is never changed. *)
Theorem C10_get_read_precedence (env : Env) (key : string) (s : St) :
  let r := get env key s in
  state r = s /\
  (isEmpty key = true -> r = (("", Some ErrNotExist), s, [])) /\
  (isEmpty key = false ->
   if txnValid env && negb (txnIsReadOnly env) then
     match memBufferGet env key with
     | (val, None) => r = ((val, None), s, [EvMemBufferGet key])
     | (_, Some err) =>
         if isErrNotExist err then
           if lock (sExec s) then
             match sLockCache s !! key with
             | Some val =>
                 r = ((val, None), s, [EvMemBufferGet key; EvLockCacheGet key])
             | None =>
                 r = through [EvMemBufferGet key; EvLockCacheGet key]
                       (snapshotRead env key s)
             end
           else r = through [EvMemBufferGet key] (snapshotRead env key s)
         else r = (("", Some err), s, [EvMemBufferGet key])
     end
   else r = snapshotRead env key s) /\
  (forall i ev, events r !! i = Some ev -> isStoreRead ev = true ->
                S i = length (events r)).
Proof.
  cbv zeta. split; [apply get_state|].
  assert (Hsnap : forall pre,
            Forall (fun ev => isStoreRead ev = false) pre ->
            forall i ev,
              events (through pre (snapshotRead env key s)) !! i = Some ev ->
              isStoreRead ev = true ->
              S i = length (events (through pre (snapshotRead env key s)))).
  { intros pre Hpre i ev Hi Hst. unfold through in *. cbn [events snd] in *.
    rewrite length_app.
    destruct (snapshotRead_events env key s) as [E | E]; rewrite E in *;
      cbn [length]; apply lookup_app_Some in Hi as [Hi | [Hge Hi]].
    - rewrite Forall_forall in Hpre.
      apply list_elem_of_lookup_2 in Hi.
      rewrite (Hpre _ Hi) in Hst. discriminate.
    - destruct (i - length pre)%nat eqn:Hn; [lia|discriminate].
    - rewrite Forall_forall in Hpre.
      apply list_elem_of_lookup_2 in Hi.
      rewrite (Hpre _ Hi) in Hst. discriminate.
    - destruct (i - length pre)%nat eqn:Hn; [lia|discriminate]. }
  assert (Hnone : forall (a : string * option error) pre,
            Forall (fun ev => isStoreRead ev = false) pre ->
            forall i ev, events (a, s, pre) !! i = Some ev ->
                         isStoreRead ev = true ->
                         S i = length (events (a, s, pre))).
  { intros a pre Hpre i ev Hi Hst. cbn [events snd] in *.
    rewrite Forall_forall in Hpre.
    apply list_elem_of_lookup_2 in Hi.
    rewrite (Hpre _ Hi) in Hst. discriminate. }
  unfold get. destruct (isEmpty key) eqn:Hk.
  { split; [reflexivity|]. split; [discriminate|].
    intros i ev Hi. destruct i; discriminate. }
  split; [discriminate|].
  destruct (txnValid env && negb (txnIsReadOnly env)).
  2:{ split; [reflexivity|].
      rewrite <- (through_nil (snapshotRead env key s)). apply Hsnap. constructor. }
  rewrite bind_through; msimpl.
  destruct (memBufferGet env key) as [val [err|]].
  2:{ split; [reflexivity|]. apply Hnone. repeat constructor. }
  destruct (isErrNotExist err); cbn [negb].
  2:{ split; [reflexivity|]. apply Hnone. repeat constructor. }
  rewrite bind_through; msimpl. rewrite through_nil.
  destruct (lock (sExec s)).
  2:{ split; [reflexivity|]. apply Hsnap. repeat constructor. }
  rewrite bind_through; msimpl.
  destruct (sLockCache s !! key) as [val'|].
  { split; [reflexivity|]. apply Hnone. repeat constructor. }
  assert (E : through [EvMemBufferGet key]
                (through [EvLockCacheGet key] (snapshotRead env key s)) =
              through [EvMemBufferGet key; EvLockCacheGet key]
                (snapshotRead env key s)) by reflexivity.
  rewrite E. split; [reflexivity|]. apply Hsnap. repeat constructor.
Qed.

(** *** Lock before read *)

Lemma isReadOf_key k k' ev : isReadOf k ev -> isReadOf k' ev -> k' = k.
Proof. destruct ev; cbn; intros; subst; auto; contradiction. Qed.

Lemma LockedReads_flag b k t k' b' w :
  LockedReads b true k t -> In (EvLock k' b' w) t -> b' = b.
Proof.
  intros [-> | (w0 & reads & -> & Hr)] Hin; [destruct Hin|].
  destruct Hin as [[= _ <- _] | Hin]; [reflexivity|].
  rewrite Forall_forall in Hr. apply list_elem_of_In in Hin.
  destruct (Hr _ Hin).
Qed.

Lemma LockedReads_preceded b k t i ev k' :
  LockedReads b true k t ->
  t !! i = Some ev -> isReadOf k' ev ->
  (0 < i)%nat /\
  (exists w, t !! 0%nat = Some (EvLock k' b w)) /\
  forall m ev', (0 < m < i)%nat -> t !! m = Some ev' -> isReadOf k' ev'.
Proof.
  intros [-> | (w0 & reads & -> & Hr)] Hi Hread; [discriminate|].
  rewrite Forall_forall in Hr.
  destruct i as [|i]; cbn in Hi.
  { injection Hi as <-. destruct Hread. }
  assert (Hk : k' = k).
  { eapply isReadOf_key; [|exact Hread].
    apply Hr. eapply list_elem_of_lookup_2; eauto. }
  subst k'. split; [lia|]. split; [eauto|].
  intros [|m] ev' Hm Hev'; [lia|]. cbn in Hev'.
  apply Hr. eapply list_elem_of_lookup_2; eauto.
Qed.

(** With a requested lock, every lock request [Next] sends carries
    [LockOnlyIfExists] exactly under read-committed; every read of a key
    is preceded, in the same call, by the lock request on that key, with
    nothing but reads of that key in between; and the first call sent
    out is the lock request on the index key when a secondary unique
    index is read, on the row key otherwise. *)
Lemma Next_lock_order (env : Env) (s : St) :
  lock (sExec s) = true ->
  let t := events (Next env s) in
  let onlyIfExists := IsPessimisticReadConsistency env in
  let tid := tableID s in
  (forall k b w, In (EvLock k b w) t -> b = onlyIfExists) /\
  (forall i ev k,
     t !! i = Some ev -> isReadOf k ev ->
     exists j w,
       (j < i)%nat /\ t !! j = Some (EvLock k onlyIfExists w) /\
       forall m ev', (j < m < i)%nat -> t !! m = Some ev' -> isReadOf k ev') /\
  (done (sExec s) = false ->
   match idxInfo (sExec s) with
   | Some idx =>
       if isCommonHandleRead env (tblInfo (sExec s)) idx then
         t = [] \/
         exists h w rest,
           t = EvLock (EncodeRowKeyWithHandle env tid (Some h)) onlyIfExists w
                 :: rest
       else
         t = [] \/
         exists w rest,
           t = EvLock (fst (snd (EncodeUniqueIndexKey env (tblInfo (sExec s)) idx
                                   (idxVals (sExec s)) tid))) onlyIfExists w
                 :: rest
   | None =>
       t = [] \/
       exists w rest,
         t = EvLock (EncodeRowKeyWithHandle env tid (handle (sExec s)))
               onlyIfExists w :: rest
   end).
Proof.
  intros Hl. cbv zeta.
  split; [|split].
  - intros k b w Hin.
    destruct (Next_trace env s) as (k1 & k2 & t1 & t2 & t3 & E & H1 & H2 & H3).
    rewrite Hl in H1, H2. rewrite E in Hin. unfold flag in *.
    apply in_app_or in Hin as [Hin | Hin];
      [exact (LockedReads_flag _ _ _ _ _ _ H1 Hin)|].
    apply in_app_or in Hin as [Hin | Hin];
      [exact (LockedReads_flag _ _ _ _ _ _ H2 Hin)|].
    destruct H3 as [-> | (rk & ik & idx & h & -> & _)]; [destruct Hin|].
    destruct Hin as [[=] | []].
  - intros i ev k Hi Hread.
    destruct (Next_trace env s) as (k1 & k2 & t1 & t2 & t3 & E & H1 & H2 & H3).
    rewrite Hl in H1, H2. rewrite E in *. unfold flag in *.
    apply lookup_app_Some in Hi as [Hi | [Hge Hi]].
    + destruct (LockedReads_preceded _ _ _ _ _ _ H1 Hi Hread) as (Hpos & [w Hw] & Hb).
      exists 0%nat, w. split; [exact Hpos|]. split.
      * apply lookup_app_l_Some. exact Hw.
      * intros m ev' Hm Hev'. apply (Hb m ev' Hm).
        rewrite lookup_app_l in Hev'; [exact Hev'|].
        apply lookup_lt_Some in Hi. lia.
    + apply lookup_app_Some in Hi as [Hi | [Hge' Hi]].
      * destruct (LockedReads_preceded _ _ _ _ _ _ H2 Hi Hread)
          as (Hpos & [w Hw] & Hb).
        exists (length t1), w. split; [lia|]. split.
        -- rewrite lookup_app_r by lia. rewrite Nat.sub_diag.
           apply lookup_app_l_Some. exact Hw.
        -- intros m ev' Hm Hev'.
           rewrite lookup_app_r in Hev' by lia.
           apply (Hb (m - length t1)%nat ev'); [lia|].
           rewrite lookup_app_l in Hev'; [exact Hev'|].
           apply lookup_lt_Some in Hi. lia.
      * destruct H3 as [-> | (rk & ik & idx & h & -> & _)]; [discriminate|].
        destruct (i - length t1 - length t2)%nat; [|discriminate].
        injection Hi as <-. destruct Hread.
  - intros Hd. apply (Next_first_lock env s Hd Hl).
Qed.

(** *** Index entries without a row *)

Lemma LockedReads_no_report b lk k t rk ik :
  LockedReads b lk k t -> ~ In (EvReport rk ik) t.
Proof.
  intros H Hin.
  assert (Hr : forall reads, Forall (isReadOf k) reads -> ~ In (EvReport rk ik) reads).
  { intros reads Hr Hin'. rewrite Forall_forall in Hr.
    apply list_elem_of_In in Hin'. destruct (Hr _ Hin'). }
  destruct lk; cbn in H.
  - destruct H as [-> | (w & reads & -> & Hreads)]; [destruct Hin|].
    destruct Hin as [[=] | Hin]. exact (Hr _ Hreads Hin).
  - exact (Hr _ H Hin).
Qed.

(** C2 (index entry without a row): in the final row read, when an index
    that is not the clustered primary key was used and the read returns
    no value, the executor calls the consistency reporter and returns
    what it returns unless weak consistency is active, in which case it
    returns nil, an empty chunk and no report; over a whole [Next], a
    report is sent only without weak consistency, only after an index
    entry was found, and its outcome is the result of [Next]; and when no
    index entry was found the chunk is empty and nothing is reported. *)
Theorem C2_missing_row_is_reported (env : Env) :
  (forall (tid : Z) (s : St) (idx : IndexInfo),
     let e := sExec s in
     let key := EncodeRowKeyWithHandle env tid (handle e) in
     let g := getAndLock env key s in
     let r := readRow env tid s in
     idxInfo e = Some idx ->
     isCommonHandleRead env (tblInfo e) idx = false ->
     result g = ("", None) ->
     (WeakConsistency env = false ->
      result r =
        ReportLookupInconsistent env (tblInfo e) idx (handle e) key (idxKey e) /\
      events r = (events g ++ [EvReport key (idxKey e)])%list /\
      sReq (state r) = sReq s) /\
     (WeakConsistency env = true ->
      result r = None /\ events r = events g /\ sReq (state r) = sReq s)) /\
  (forall (s : St) (rk ik : string),
     let r := Next env s in
     In (EvReport rk ik) (events r) ->
     WeakConsistency env = false /\
     handleVal (sExec (state r)) <> "" /\
     exists idx h,
       idxInfo (sExec s) = Some idx /\
       isCommonHandleRead env (tblInfo (sExec s)) idx = false /\
       result r = ReportLookupInconsistent env (tblInfo (sExec s)) idx h rk ik) /\
  (forall (s : St) (idx : IndexInfo),
     let r := Next env s in
     done (sExec s) = false ->
     idxInfo (sExec s) = Some idx ->
     isCommonHandleRead env (tblInfo (sExec s)) idx = false ->
     handleVal (sExec (state r)) = "" ->
     sReq (state r) = [] /\ forall rk ik, ~ In (EvReport rk ik) (events r)).
Proof.
  assert (Hreport : forall (s : St) (rk ik : string),
            In (EvReport rk ik) (events (Next env s)) ->
            WeakConsistency env = false /\
            handleVal (sExec (state (Next env s))) <> "" /\
            exists idx h,
              idxInfo (sExec s) = Some idx /\
              isCommonHandleRead env (tblInfo (sExec s)) idx = false /\
              result (Next env s) =
                ReportLookupInconsistent env (tblInfo (sExec s)) idx h rk ik).
  { intros s rk ik Hin.
    destruct (Next_trace env s) as (k1 & k2 & t1 & t2 & t3 & E & H1 & H2 & H3).
    rewrite E in Hin.
    apply in_app_or in Hin as [Hin | Hin];
      [destruct (LockedReads_no_report _ _ _ _ _ _ H1 Hin)|].
    apply in_app_or in Hin as [Hin | Hin];
      [destruct (LockedReads_no_report _ _ _ _ _ _ H2 Hin)|].
    destruct H3 as [-> | (rk' & ik' & idx & h & -> & Hi & Hc & Hw & Hhv & Hr)];
      [destruct Hin|].
    destruct Hin as [[= <- <-] | []]. eauto 10. }
  split; [|split].
  - intros tid s idx. cbv zeta. intros Hi Hc Hg.
    destruct (readRow_spec env tid s) as
      (_ & [(err & Hg' & _)
           | [(v & Hv1 & Hv2 & Hv & Hcase & Hq)
             | (v & Hv1 & _ & Hv & _)]]).
    + rewrite Hg in Hg'. discriminate.
    + destruct Hcase as [(idx' & Hi' & Hc' & Hw' & Hr & Hev) | (Hno & Hr & Hev)].
      * rewrite Hi in Hi'. injection Hi' as <-.
        split; [auto|]. intros Hw. congruence.
      * destruct (Hno idx Hi) as [Hc' | Hw']; [congruence|].
        split; [intros Hw; congruence|]. auto.
    + rewrite Hg in Hv1. cbn in Hv1. subst v. discriminate.
  - exact Hreport.
  - intros s idx. cbv zeta. intros Hd Hi Hc Hhv.
    destruct (Next_state env s) as (_ & _ & Hq).
    split; [exact (Hq Hd idx Hi Hc Hhv)|].
    intros rk ik Hin. destruct (Hreport s rk ik Hin) as (_ & Hne & _).
    exact (Hne Hhv).
Qed.

(** *** Index values that cannot be in the index *)


Lemma encodeIndexValue_cast env colInfo d :
  castBranch colInfo d = true ->
  encodeIndexValue env colInfo d =
    match CastValue env d colInfo with
    | (d', Some err) =>
        if castErrMeansNotExist err then (d', Some ErrNotExist) else (d', Some err)
    | (d', None) => (d', None)
    end.
Proof.
  unfold castBranch, encodeIndexValue. cbv zeta.
  destruct (isTypeString _ || isTypeVarString _ || isTypeVarchar _);
    [discriminate|].
  destruct (isTypeEnum _ && isStringKind _); [discriminate|]. reflexivity.
Qed.

Lemma encodeIndexValues_stops env tbl idx pre :
  forall i d post pre' ic colInfo d' e,
    encodeIndexValues env tbl idx i pre = (pre', None) ->
    idxColumns idx !! (i + length pre)%nat = Some ic ->
    tblColumns tbl !! icOffset ic = Some colInfo ->
    encodeIndexValue env colInfo d = (d', Some e) ->
    encodeIndexValues env tbl idx i (pre ++ d :: post) =
      ((pre' ++ d' :: post)%list, Some e).
Proof.
  induction pre as [|x pre IH]; intros i d post pre' ic colInfo d' e Hpre Hic Hcol Henc.
  - cbn in Hpre. injection Hpre as <-. cbn [app length] in *.
    rewrite Nat.add_0_r in Hic. cbn [encodeIndexValues].
    rewrite Hic, Hcol, Henc. reflexivity.
  - cbn [app encodeIndexValues] in *.
    destruct (idxColumns idx !! i) as [ic0|]; [|discriminate].
    destruct (tblColumns tbl !! icOffset ic0) as [col0|]; [|discriminate].
    destruct (encodeIndexValue env col0 x) as [x' [ex|]]; [discriminate|].
    destruct (encodeIndexValues env tbl idx (S i) pre) as [rest' err] eqn:Hrest.
    injection Hpre as <- ->.
    rewrite (IH (S i) d post rest' ic colInfo d' e Hrest); auto.
    cbn [length] in Hic. rewrite <- Hic. f_equal. lia.
Qed.

Lemma readIndexEntry_empty_key env s :
  idxKey (sExec s) = "" ->
  readIndexEntry env s = (None, with_exec (set_handleVal "") s, []).
Proof.
  intros Hk. unfold readIndexEntry. rewrite bind_through; msimpl.
  rewrite through_nil, Hk.
  destruct (IsPessimisticReadConsistency env); cbn [negb].
  - destruct (lock (sExec s)); reflexivity.
  - reflexivity.
Qed.

(** When the encoding of the index values ends in the not-exist error,
    [Next] returns nil and an empty chunk and calls no collaborator. *)
Lemma Next_not_exist env s idx :
  done (sExec s) = false ->
  idxInfo (sExec s) = Some idx ->
  snd (snd (EncodeUniqueIndexValuesForKey env (tblInfo (sExec s)) idx
              (idxVals (sExec s)))) = Some ErrNotExist ->
  result (Next env s) = None /\
  sReq (state (Next env s)) = [] /\
  events (Next env s) = [].
Proof.
  intros Hd Hi Henc. rewrite Next_unfold by exact Hd. cbv zeta. rewrite Hi.
  destruct (prologue_config s) as (_ & Hreq & _).
  destruct (isCommonHandleRead env (tblInfo (sExec s)) idx).
  - destruct (EncodeUniqueIndexValuesForKey env _ idx _) as [vals [hb err]].
    cbn in Henc. subst err. cbn. auto.
  - unfold EncodeUniqueIndexKey.
    destruct (EncodeUniqueIndexValuesForKey env _ idx _) as [vals [hb err]].
    cbn in Henc. subst err. cbn [isErrNotExist negb].
    cbv zeta. rewrite readIndexEntry_empty_key by reflexivity.
    cbn. auto.
Qed.

(** *** Instances *)

(** C9 on the plan of [select * from tmp where a = 5 for update] over
    the local temporary table [tmp], run three times. *)
Lemma C9_temporary_table_witness :
  tblTempTableType (pTblInfo (Examples.planTemp 5)) <> TempTableNone /\
  pLock (Examples.planTemp 5) = true /\
  lock (sExec (Examples.initialState (Examples.planTemp 5))) = false /\
  Forall (fun ev => isLockEvent ev = false)
         (events (NextTimes (Examples.staleEnv false false) 3
                    (Examples.initialState (Examples.planTemp 5)))).
Proof.
  split; [discriminate|]. split; [reflexivity|].
  destruct (C9_temporary_table_never_locks (Examples.staleEnv false false) []
              (Examples.planTemp 5) (newExecutor (Examples.planTemp 5))
              (Examples.initialState (Examples.planTemp 5)) 3)
    as (Hl & _ & Hev); [discriminate|reflexivity|].
  split; [exact Hl|exact Hev].
Defined.

(** C2 on the stale store: [b = 7] has an index entry and no row, and is
    reported; [b = 8] has no index entry, and nothing is returned. *)
Lemma C2_missing_row_witness :
  let env := Examples.staleEnv false false in
  let s := Examples.initialState (Examples.planByB 7 true) in
  let s' := Examples.initialState (Examples.planByB 8 true) in
  In (EvReport "t1_r9" "t1_i2_7") (events (Next env s)) /\
  result (Next env s) = Some ErrLookupInconsistent /\
  handleVal (sExec (state (Next env s'))) = "" /\
  sReq (state (Next env s')) = [].
Proof.
  cbv zeta.
  destruct (C2_missing_row_is_reported (Examples.staleEnv false false))
    as (_ & Hreport & Hnone).
  assert (Hin : In (EvReport "t1_r9" "t1_i2_7")
                   (events (Next (Examples.staleEnv false false)
                              (Examples.initialState (Examples.planByB 7 true))))).
  { vm_compute. repeat ((left; reflexivity) || right). }
  split; [exact Hin|].
  destruct (Hreport _ _ _ Hin) as (_ & _ & idx & h & _ & _ & Hres).
  split; [rewrite Hres; reflexivity|].
  assert (Hhv : handleVal (sExec (state (Next (Examples.staleEnv false false)
                  (Examples.initialState (Examples.planByB 8 true))))) = "")
    by (vm_compute; reflexivity).
  split; [exact Hhv|].
  exact (proj1 (Hnone (Examples.initialState (Examples.planByB 8 true))
                  Examples.idxB eq_refl eq_refl eq_refl Hhv)).
Defined.

(** C10 on the empty key and on the index key of [b = 7]. *)
Lemma C10_get_read_precedence_witness :
  let env := Examples.staleEnv false false in
  let s := Examples.initialState (Examples.planByB 7 true) in
  get env "" s = (("", Some ErrNotExist), s, []) /\
  events (get env "t1_i2_7" s) =
    [EvMemBufferGet "t1_i2_7"; EvLockCacheGet "t1_i2_7"; EvSnapshotGet "t1_i2_7"].
Proof.
  cbv zeta. split.
  - exact (proj1 (proj2 (C10_get_read_precedence (Examples.staleEnv false false) ""
                           (Examples.initialState (Examples.planByB 7 true))))
                 eq_refl).
  - assert (H := proj1 (proj2 (proj2 (C10_get_read_precedence
                           (Examples.staleEnv false false) "t1_i2_7"
                           (Examples.initialState (Examples.planByB 7 true)))))
                       eq_refl).
    change (get (Examples.staleEnv false false) "t1_i2_7"
              (Examples.initialState (Examples.planByB 7 true)) =
            through [EvMemBufferGet "t1_i2_7"; EvLockCacheGet "t1_i2_7"]
              (snapshotRead (Examples.staleEnv false false) "t1_i2_7"
                 (Examples.initialState (Examples.planByB 7 true)))) in H.
    rewrite H. reflexivity.
Defined.

End PointGetProofs.

(** ** Properties of the planner *)

Module PlannerProofs.
Import Model Planner PlannerSpec BatchSpec.

(** *** Clauses that rule the fast path out *)


(** Counterexample to C6 as stated: [select * from t where a = 5 group by
    a] (and the same statement with a window specification instead)
    carries a listed clause, and [TryFastPlan] still builds the point-get
    plan on the handle 5. *)
Lemma C6_group_by_builds_point_get :
  ~ (forall ctx selStmt,
       listedClausePresent ctx selStmt = true ->
       TryFastPlan ctx selStmt = Ok None).
Proof.
  intros H.
  specialize (H Examples.plainCtx Examples.selectGroupBy eq_refl).
  vm_compute in H. discriminate.
Qed.

Lemma window_spec_builds_point_get :
  listedClausePresent Examples.plainCtx Examples.selectWindow = true /\
  exists p, TryFastPlan Examples.plainCtx Examples.selectWindow =
              Ok (Some (PlanPointGet p)) /\
            pHandle p = Some (IntHandle 5).
Proof. split; [reflexivity|]. eexists. split; vm_compute; reflexivity. Qed.

Lemma limitZeroOrOffset_refused ctx selStmt :
  limitZeroOrOffset ctx selStmt = true ->
  pointGetClausesRefused ctx selStmt = true /\ isSome (ssLimit selStmt) = true.
Proof.
  unfold limitZeroOrOffset, pointGetClausesRefused.
  destruct (ssLimit selStmt) as [lim|]; [|discriminate].
  destruct (extractLimitCountOffset ctx lim) as [[count offset] err].
  intros H. split; [|reflexivity].
  destruct (isSome (ssHaving selStmt) || isSome (ssOrderBy selStmt)); [reflexivity|].
  destruct (isSome err); [reflexivity|]. exact H.
Qed.

(** C6, amended: a SELECT with [HAVING], [ORDER BY], [LIMIT 0] or a
    positive [OFFSET] gets no fast plan at all; a SELECT with [GROUP BY]
    or a window specification gets no batch-point-get plan, while the
    single-row point-get builder does not look at these two clauses. *)
Theorem C6_clauses_refused (ctx : Ctx) (selStmt : SelectStmt) :
  (isSome (ssHaving selStmt) || isSome (ssOrderBy selStmt) ||
   limitZeroOrOffset ctx selStmt = true ->
   TryFastPlan ctx selStmt = Ok None /\
   tryPointGetPlan ctx selStmt
     (isForUpdateReadSelectLock ctx (ssLockInfo selStmt)) = Ok None /\
   tryWhereIn2BatchPointGet ctx selStmt = Ok None) /\
  (isSome (ssGroupBy selStmt) || Nat.ltb 0 (length (ssWindowSpecs selStmt)) = true ->
   tryWhereIn2BatchPointGet ctx selStmt = Ok None /\
   forall p, TryFastPlan ctx selStmt <> Ok (Some (PlanBatchPointGet p))).
Proof.
  split.
  - intros H.
    assert (Hp : pointGetClausesRefused ctx selStmt = true /\
                 batchClausesRefused selStmt = true).
    { unfold batchClausesRefused.
      destruct (isSome (ssHaving selStmt)) eqn:Hh.
      { unfold pointGetClausesRefused. rewrite Hh.
        split; [reflexivity|]. rewrite !orb_true_r. reflexivity. }
      destruct (isSome (ssOrderBy selStmt)) eqn:Ho.
      { unfold pointGetClausesRefused. rewrite Hh, Ho.
        split; reflexivity. }
      cbn in H. destruct (limitZeroOrOffset_refused ctx selStmt H) as [H1 H2].
      rewrite H1, H2. cbn. split; [reflexivity|].
      destruct (isSome (ssGroupBy selStmt)); reflexivity. }
    destruct Hp as [Hp Hb].
    assert (Ep : forall check, tryPointGetPlan ctx selStmt check = Ok None).
    { intros check. unfold tryPointGetPlan. rewrite Hp. reflexivity. }
    assert (Eb : tryWhereIn2BatchPointGet ctx selStmt = Ok None).
    { unfold tryWhereIn2BatchPointGet. rewrite Hb. reflexivity. }
    split; [|split; [apply Ep|exact Eb]].
    unfold TryFastPlan. rewrite Eb, Ep. cbn.
    destruct (checkStableResultMode ctx); reflexivity.
  - intros H.
    assert (Hb : batchClausesRefused selStmt = true).
    { unfold batchClausesRefused.
      destruct (isSome (ssGroupBy selStmt)); cbn in *.
      - rewrite orb_true_r. reflexivity.
      - rewrite H, !orb_true_r. reflexivity. }
    assert (Eb : tryWhereIn2BatchPointGet ctx selStmt = Ok None).
    { unfold tryWhereIn2BatchPointGet. rewrite Hb. reflexivity. }
    split; [exact Eb|].
    intros p. unfold TryFastPlan. rewrite Eb. cbn.
    destruct (checkStableResultMode ctx); [discriminate|].
    destruct (tryPointGetPlan ctx selStmt _) as [[fp|]|]; cbn; try discriminate.
    destruct (isSome (checkFastPlanPrivilege ctx _ _)); [discriminate|].
    destruct (IsMemDB ctx _); [discriminate|].
    destruct (pIsTableDual fp);
      destruct (negb (SelectLimitIsMax ctx)); cbn; discriminate.
Qed.

(** *** Hash partitions *)

Lemma abs_rem_mod v n : 0 < n -> Z.abs (Z.rem v n) = Z.abs v mod n.
Proof.
  intros Hn. rewrite <- Z.rem_abs_l by lia.
  apply Z.rem_mod_nonneg; lia.
Qed.

Lemma toInt64_small n : 0 <= n < 2 ^ 63 -> toInt64 n = n.
Proof.
  intros H. unfold toInt64. destruct (n <? 2 ^ 63) eqn:E; [reflexivity|].
  apply Z.ltb_ge in E. lia.
Qed.

(** C7 (hash partitions): on a table partitioned by hash on a column,
    with [N] partitions, the first equality pair on the partitioning
    column, of integer value [v], selects the partition at position
    [|v rem N|], which is [|v| mod N]; and when the statement names
    partitions and that partition is not among them, the resolver returns
    a table-dual plan, not an error. *)
Theorem C7_hash_partition_position (ctx : Ctx) (selStmt : SelectStmt)
    (check : bool) (tblName : TableName) (tblAlias : CIStr) (tbl : TableInfo)
    (pi : PartitionInfo) (pe : PartitionExpr) (cn : ColumnName)
    (schema : list Column) (names : list FieldName)
    (pairs : list nameValuePair) (dual : bool) (i : nat) (pr : nameValuePair)
    (def : PartitionDefinition) :
  let v := GetInt64 (nvValue pr) in
  let N := piNum pi in
  let pos := Z.abs (Z.rem v N) in
  tblPartition tbl = Some pi ->
  piType pi = PartitionTypeHash ->
  getPartitionExpr ctx tbl = Some pe ->
  peOrigExpr pe = Some (ColumnNameExpr cn) ->
  firstPairOn (L (cnName cn)) pairs = Some (i, pr) ->
  0 < N < 2 ^ 63 ->
  piDefinitions pi !! Z.to_nat pos = Some def ->
  pos = Z.abs v mod N /\
  getPartitionDef ctx tbl pairs = Ok (Some def, i, pos, false) /\
  (pointGetClausesRefused ctx selStmt = false ->
   getSingleTableNameAndAlias (ssFrom selStmt) = (Some tblName, tblAlias) ->
   tnTableInfo tblName = Some tbl ->
   existsb (fun col => colGenerated col ||
                       negb (SchemaState_eqb (colState col) StatePublic))
           (tblColumns tbl) = false ->
   buildSchemaFromFields ctx (tnSchema tblName) tbl tblAlias (ssFields selStmt) =
     Some (schema, names) ->
   getNameValuePairs ctx tbl tblAlias [] (ssWhere selStmt) = (Some pairs, dual) ->
   tnPartitionNames tblName <> [] ->
   partitionNameInSet (pdName def) (tnPartitionNames tblName) = false ->
   exists p, tryPointGetPlan ctx selStmt check = Ok (Some p) /\
             pIsTableDual p = true).
Proof.
  cbv zeta. intros Hpi Hty Hpe Horig Hpair HN Hdef.
  assert (Hget : getPartitionDef ctx tbl pairs =
                 Ok (Some def, i, Z.abs (Z.rem (GetInt64 (nvValue pr)) (piNum pi)),
                     false)).
  { unfold getPartitionDef. rewrite Hpe, Hpi, Hty, Horig, Hpair.
    rewrite toInt64_small by lia.
    destruct (piNum pi =? 0) eqn:E; [apply Z.eqb_eq in E; lia|].
    unfold definitionAt.
    destruct (Z.abs _ <? 0) eqn:E'; [apply Z.ltb_lt in E'; lia|].
    rewrite Hdef. reflexivity. }
  split; [apply abs_rem_mod; lia|]. split; [exact Hget|].
  intros Hcl Hfrom Htbl Hcols Hsch Hpairs Hnames Hnot.
  unfold tryPointGetPlan.
  rewrite Hcl, Hfrom, Htbl, Hcols, Hsch, Hpairs. cbn [isSome negb andb].
  change (default [] (Some pairs)) with pairs.
  rewrite Hpi, Hget. cbn [rbind].
  destruct (tnPartitionNames tblName) as [|n0 ns] eqn:En; [contradiction|].
  cbn [length Nat.ltb Nat.leb andb]. rewrite Hnot. cbn [negb].
  eexists. split; reflexivity.
Qed.

(** *** Batch point get: one key per element of the IN list *)

Lemma handleLoop_spec ctx hc tbl items :
  forall handles handleParams m handles' handleParams' m',
    handleLoop ctx hc tbl items handles handleParams m =
      Ok (Some (handles', handleParams', m')) ->
    exists hs ps,
      handles' = (handles ++ hs)%list /\
      handleParams' = (handleParams ++ ps)%list /\
      Forall2 (fun item hp =>
                 exists entry,
                   handleItem ctx hc tbl item = Ok (Some (fst hp, snd hp, entry)))
              items (zip hs ps) /\
      length hs = length items /\ length ps = length items.
Proof.
  induction items as [|item rest IH];
    intros handles handleParams m handles' handleParams' m' H.
  - cbn in H. injection H as <- <- <-.
    exists [], []. rewrite !app_nil_r. repeat split. constructor.
  - cbn [handleLoop] in H.
    destruct (handleItem ctx hc tbl item) as [[[[h con] entry]|]|msg] eqn:Hitem;
      cbn [rbind] in H; try discriminate.
    destruct (IH _ _ _ _ _ _ H) as (hs & ps & -> & -> & Hall & Hl1 & Hl2).
    exists (h :: hs), (con :: ps).
    rewrite <- !app_assoc. cbn [app]. repeat split; cbn; auto.
    constructor; [|exact Hall]. exists entry. exact Hitem.
Qed.

Lemma indexLoop_spec ctx tbl whereColNames colInfos permutations items :
  forall indexValues indexValueParams indexTypes m
         indexValues' indexValueParams' indexTypes' m',
    indexLoop ctx tbl whereColNames colInfos permutations items
      indexValues indexValueParams indexTypes m =
      Ok (Some (indexValues', indexValueParams', indexTypes', m')) ->
    exists vs,
      indexValues' = (indexValues ++ vs)%list /\
      Forall2 (fun item values =>
                 exists types params pairs types',
                   indexItem ctx whereColNames colInfos permutations types item =
                     Ok (Some (values, params, pairs, types')))
              items vs /\
      length vs = length items.
Proof.
  induction items as [|item rest IH];
    intros indexValues indexValueParams indexTypes m
           indexValues' indexValueParams' indexTypes' m' H.
  - cbn in H. injection H as <- <- <- <-.
    exists []. rewrite app_nil_r. repeat split. constructor.
  - cbn [indexLoop] in H.
    destruct (indexItem ctx whereColNames colInfos permutations indexTypes item)
      as [[[[[values params] pairs] types']|]|msg] eqn:Hitem;
      cbn [rbind] in H; try discriminate.
    destruct (itemPartition ctx tbl pairs) as [[entry|]|msg]; cbn [rbind] in H;
      try discriminate.
    destruct (IH _ _ _ _ _ _ _ _ H) as (vs & -> & Hall & Hl).
    exists (values :: vs).
    rewrite <- !app_assoc. cbn [app]. repeat split; cbn; auto.
    constructor; [|exact Hall]. eauto.
Qed.

(** *** The unique-secondary-index path *)

Lemma eqs_true a b : eqs a b = true <-> a = b.
Proof. unfold eqs. apply bool_decide_eq_true. Qed.

Lemma findInPairsFrom_spec name pairs :
  forall k i,
    findInPairsFrom k name pairs = Some i ->
    exists j pr, i = (k + j)%nat /\ pairs !! j = Some pr /\ nvColName pr = name.
Proof.
  induction pairs as [|pr rest IH]; intros k i H; [discriminate|].
  cbn [findInPairsFrom] in H.
  destruct (eqs (nvColName pr) name) eqn:E.
  - injection H as <-. exists 0%nat, pr. rewrite Nat.add_0_r.
    repeat split. apply eqs_true. exact E.
  - destruct (IH _ _ H) as (j & pr' & -> & Hj & Hn).
    exists (S j), pr'. split; [lia|]. split; [exact Hj|exact Hn].
Qed.

Lemma collectIndexValues_spec cols pairs vs cs fts :
  collectIndexValues cols pairs = Some (vs, cs, fts) ->
  length vs = length cols /\
  forall c, In c cols -> exists pr, In pr pairs /\ nvColName pr = L (icName c).
Proof.
  revert vs cs fts. induction cols as [|c rest IH]; intros vs cs fts H.
  - injection H as <- <- <-. split; [reflexivity|]. intros c [].
  - cbn [collectIndexValues] in H.
    destruct (findInPairs (L (icName c)) pairs) as [i|] eqn:Hf; [|discriminate].
    destruct (pairs !! i) as [pr|] eqn:Hp; [|discriminate].
    destruct (collectIndexValues rest pairs) as [[[vs' cs'] fts']|] eqn:Hr;
      [|discriminate].
    injection H as <- <- <-.
    destruct (IH _ _ _ eq_refl) as [Hl Hall].
    split; [cbn; congruence|].
    intros c' [<- | Hin]; [|auto].
    destruct (findInPairsFrom_spec _ _ _ _ Hf) as (j & pr' & -> & Hj & Hn).
    cbn in Hp. rewrite Hj in Hp. injection Hp as <-.
    exists pr'. split; [|exact Hn].
    apply list_elem_of_In. eapply list_elem_of_lookup_2; eauto.
Qed.

Lemma getIndexValues_Some idx pairs r :
  getIndexValues idx pairs = Some r ->
  length (idxColumns idx) = length pairs /\
  HasPrefixIndex idx = false /\
  (forall c, In c (idxColumns idx) ->
             exists pr, In pr pairs /\ nvColName pr = L (icName c)).
Proof.
  unfold getIndexValues.
  destruct (Nat.eqb (length (idxColumns idx)) (length pairs)) eqn:El;
    cbn [negb]; [|discriminate].
  destruct (HasPrefixIndex idx); [discriminate|].
  destruct (collectIndexValues (idxColumns idx) pairs) as [[[vs cs] fts]|] eqn:Hc;
    [|discriminate].
  intros _. apply Nat.eqb_eq in El.
  destruct (collectIndexValues_spec _ _ _ _ _ Hc) as [_ Hall]. auto.
Qed.

(** With distinct index columns, the columns of the index and of the
    pairs are the same up to order. *)
Lemma exact_column_match idx pairs :
  length (idxColumns idx) = length pairs ->
  (forall c, In c (idxColumns idx) ->
             exists pr, In pr pairs /\ nvColName pr = L (icName c)) ->
  NoDup (List.map (fun c => L (icName c)) (idxColumns idx)) ->
  Permutation (List.map (fun c => L (icName c)) (idxColumns idx))
              (List.map nvColName pairs).
Proof.
  intros Hlen Hall Hnd.
  apply submseteq_length_Permutation.
  - apply NoDup_submseteq; [exact Hnd|].
    intros name Hin. apply list_elem_of_In in Hin.
    apply in_map_iff in Hin as (c & <- & Hc).
    destruct (Hall c Hc) as (pr & Hpr & <-).
    apply list_elem_of_In. apply in_map. exact Hpr.
  - rewrite !length_map. lia.
Qed.

Lemma indexUsable_true idx hints :
  indexUsable idx hints = true ->
  idxUnique idx = true /\ idxState idx = StatePublic /\
  idxInvisible idx = false /\ idxMVIndex idx = false /\
  indexIsAvailableByHints (Some idx) hints = true.
Proof.
  unfold indexUsable.
  destruct (idxUnique idx), (idxInvisible idx), (idxMVIndex idx),
    (indexIsAvailableByHints (Some idx) hints), (idxState idx);
    cbn; intros H; try discriminate; auto.
Qed.

(** Whatever index the loop selects passed every test on the way. *)
Lemma checkIndexLoop_selected ctx tblName tbl dbName schema names pairs
    partitionDef pos g dual p idx :
  forall indices check latest,
    checkIndexLoop ctx tblName tbl dbName schema names pairs partitionDef pos
      g dual check latest indices = Ok (Some p) ->
    pIndexInfo p = Some idx ->
    In idx indices /\ indexUsable idx (tnIndexHints tblName) = true /\
    (g = true -> idxGlobal idx = true) /\
    isSome (getIndexValues idx pairs) = true /\ dual = false.
Proof.
  induction indices as [|i0 rest IH]; intros check latest H Hp; [discriminate|].
  cbn [checkIndexLoop] in H.
  assert (Hrec : forall c l,
            checkIndexLoop ctx tblName tbl dbName schema names pairs partitionDef
              pos g dual c l rest = Ok (Some p) ->
            In idx (i0 :: rest) /\ indexUsable idx (tnIndexHints tblName) = true /\
            (g = true -> idxGlobal idx = true) /\
            isSome (getIndexValues idx pairs) = true /\ dual = false).
  { intros c l H'. destruct (IH c l H' Hp) as (Hin & Hrest). split; [right|]; auto. }
  destruct (indexUsable i0 (tnIndexHints tblName)) eqn:Hu; cbn [negb] in H;
    [|eauto].
  destruct (g && negb (idxGlobal i0)) eqn:Hg; [eauto|].
  destruct dual.
  - destruct (refreshLatest ctx (tblID tbl) check latest) as [[l' c']|];
      [|discriminate].
    destruct (c' && negb (latestIsPublic l' i0)); [eauto|].
    injection H as <-. cbn in Hp. discriminate.
  - destruct (getIndexValues i0 pairs) as [[[vs cs] fts]|] eqn:Hv; [|eauto].
    destruct (refreshLatest ctx (tblID tbl) check latest) as [[l' c']|];
      [|discriminate].
    destruct (c' && negb (latestIsPublic l' i0)); [eauto|].
    destruct (match partitionDef with
              | Some _ => findPartitionIdx i0 pos pairs
              | None => Ok 0
              end) as [pcp|msg]; cbn [rbind] in H; [|discriminate].
    injection H as <-. cbn in Hp. injection Hp as <-.
    split; [left; reflexivity|]. split; [exact Hu|]. split.
    + intros ->. cbn in Hg. destruct (idxGlobal i0); [reflexivity|discriminate].
    + rewrite Hv. auto.
Qed.

(** [getLatestIndexInfo] is called at most once in the loop: before the
    call the check mode is the one at entry and nothing is cached; after
    it, check mode and cache are its answer.  In both states the
    freshness test of the loop gives the same verdict. *)
Lemma refreshLatest_settles ctx tbl checking latest check' :
  getLatestIndexInfo ctx (tblID tbl) = (latest, check', None) ->
  forall check_cur latest_cur,
    ((check_cur = checking /\ latest_cur = None) \/
     (checking = true /\ check_cur = check' /\ latest_cur = latest)) ->
    exists l' c',
      refreshLatest ctx (tblID tbl) check_cur latest_cur = Some (l', c') /\
      (forall i0, c' && negb (latestIsPublic l' i0) =
                  checking && check' && negb (latestIsPublic latest i0)) /\
      ((c' = checking /\ l' = None) \/
       (checking = true /\ c' = check' /\ l' = latest)).
Proof.
  intros Hlatest check_cur latest_cur [[-> ->] | (Hc & -> & ->)];
    unfold refreshLatest.
  - destruct checking; cbn [andb].
    + rewrite Hlatest. exists latest, check'. repeat split; auto.
    + exists None, false. repeat split; auto.
  - subst checking. destruct check'; cbn [andb].
    + destruct latest as [m|].
      * exists (Some m), true. repeat split; auto.
      * rewrite Hlatest. exists None, true. repeat split; auto.
    + exists latest, false. repeat split; auto.
Qed.

(** The loop stops at the first eligible index. *)
Lemma checkIndexLoop_first ctx tblName tbl dbName schema names pairs
    partitionDef pos g checking latest check' :
  getLatestIndexInfo ctx (tblID tbl) = (latest, check', None) ->
  (partitionDef = None \/ (pos < length pairs)%nat) ->
  forall indices check_cur latest_cur,
    ((check_cur = checking /\ latest_cur = None) \/
     (checking = true /\ check_cur = check' /\ latest_cur = latest)) ->
    match List.find (eligible (tnIndexHints tblName) pairs g checking latest check')
                    indices with
    | Some idx =>
        exists p,
          checkIndexLoop ctx tblName tbl dbName schema names pairs partitionDef
            pos g false check_cur latest_cur indices = Ok (Some p) /\
          pIndexInfo p = Some idx /\ pIsTableDual p = false /\
          pPartitionDef p = partitionDef
    | None =>
        checkIndexLoop ctx tblName tbl dbName schema names pairs partitionDef
          pos g false check_cur latest_cur indices = Ok None
    end.
Proof.
  intros Hlatest Hpos.
  assert (Hrefresh := refreshLatest_settles ctx tbl checking latest check' Hlatest).
  induction indices as [|i0 rest IH]; intros check_cur latest_cur Hinv.
  { reflexivity. }
  cbn [List.find checkIndexLoop]. unfold eligible at 1.
  destruct (indexUsable i0 (tnIndexHints tblName)) eqn:Hu; cbn [negb andb];
    [|apply IH; exact Hinv].
  destruct (idxGlobal i0) eqn:Hgl; destruct g; cbn [negb andb orb];
    try (apply IH; exact Hinv).
  all: destruct (getIndexValues i0 pairs) as [[[vs cs] fts]|] eqn:Hv;
    cbn [isSome andb]; [|apply IH; exact Hinv].
  all: destruct (Hrefresh check_cur latest_cur Hinv) as (l' & c' & -> & Heq & Hinv').
  all: rewrite Heq.
  all: destruct (checking && check' && negb (latestIsPublic latest i0));
    cbn [negb]; [apply IH; exact Hinv'|].
  all: assert (Hfp : exists pcp,
                 match partitionDef with
                 | Some _ => findPartitionIdx i0 pos pairs
                 | None => Ok 0
                 end = Ok pcp).
  all: try (destruct partitionDef as [pd|]; [|eexists; reflexivity];
            destruct Hpos as [Hpos | Hpos]; [discriminate|];
            unfold findPartitionIdx;
            destruct (idxColumns i0); [eexists; reflexivity|];
            destruct (lookup_lt_is_Some_2 pairs pos Hpos) as [pr ->];
            eexists; reflexivity).
  all: destruct Hfp as [pcp ->]; cbn [rbind].
  all: eexists; split; [reflexivity|]; cbn; auto.
Qed.

Lemma findInPairsFrom_found name pairs :
  forall k, existsb (fun pr => eqs (nvColName pr) name) pairs = true ->
            exists j pr, findInPairsFrom k name pairs = Some (k + j)%nat /\
                         pairs !! j = Some pr.
Proof.
  induction pairs as [|pr rest IH]; intros k H; [discriminate|].
  cbn [existsb findInPairsFrom] in *.
  destruct (eqs (nvColName pr) name).
  - exists 0%nat, pr. rewrite Nat.add_0_r. split; reflexivity.
  - destruct (IH (S k) H) as (j & pr' & Hf & Hj).
    exists (S j), pr'. split; [|exact Hj]. rewrite Hf. f_equal. lia.
Qed.

Lemma collectIndexValues_found cols pairs :
  forallb (fun c => existsb (fun pr => eqs (nvColName pr) (L (icName c))) pairs)
          cols = true ->
  exists vs cs fts, collectIndexValues cols pairs = Some (vs, cs, fts) /\
                    length vs = length cols.
Proof.
  induction cols as [|c rest IH]; intros H.
  - exists [], [], []. split; reflexivity.
  - cbn [forallb] in H. apply andb_true_iff in H as [Hc Hrest].
    destruct (IH Hrest) as (vs & cs & fts & Hr & Hl).
    destruct (findInPairsFrom_found _ _ 0%nat Hc) as (j & pr & Hf & Hj).
    cbn [collectIndexValues]. unfold findInPairs. rewrite Hf. cbn [Nat.add].
    rewrite Hj, Hr. do 3 eexists. split; [reflexivity|]. cbn. congruence.
Qed.

(** For an index with at least one column and distinct column names,
    [getIndexValues] succeeds exactly when the index has no prefix column
    and its column set is that of the pairs. *)
Lemma getIndexValues_listed idx pairs :
  idxColumns idx <> [] ->
  NoDup (List.map (fun c => L (icName c)) (idxColumns idx)) ->
  isSome (getIndexValues idx pairs) =
  negb (HasPrefixIndex idx) && sameColumnSet idx pairs.
Proof.
  intros Hne Hnd.
  destruct (isSome (getIndexValues idx pairs)) eqn:Hv.
  - destruct (getIndexValues idx pairs) as [r|] eqn:Hg; [|discriminate].
    destruct (getIndexValues_Some _ _ _ Hg) as (Hlen & Hpre & Hall).
    rewrite Hpre. cbn [negb andb]. symmetry. unfold sameColumnSet.
    rewrite Hlen, Nat.eqb_refl. cbn [andb].
    assert (Hperm := exact_column_match idx pairs Hlen Hall Hnd).
    apply andb_true_iff. split.
    + apply forallb_forall. intros c Hc.
      destruct (Hall c Hc) as (pr & Hpr & Hn).
      apply existsb_exists. exists pr. split; [exact Hpr|]. apply eqs_true. exact Hn.
    + apply forallb_forall. intros pr Hpr.
      assert (Hin : In (nvColName pr)
                       (List.map (fun c => L (icName c)) (idxColumns idx))).
      { apply list_elem_of_In. rewrite Hperm. apply list_elem_of_In.
        apply in_map. exact Hpr. }
      apply in_map_iff in Hin as (c & Hn & Hc).
      apply existsb_exists. exists c. split; [exact Hc|]. apply eqs_true. auto.
  - symmetry. apply not_true_iff_false. intros H.
    apply andb_true_iff in H as [Hpre Hsame].
    unfold sameColumnSet in Hsame.
    apply andb_true_iff in Hsame as [Hsame _].
    apply andb_true_iff in Hsame as [Hlen Hall].
    destruct (collectIndexValues_found _ _ Hall) as (vs & cs & fts & Hc & Hl).
    unfold getIndexValues in Hv. rewrite Hlen in Hv. cbn [negb] in Hv.
    destruct (HasPrefixIndex idx); [discriminate|].
    rewrite Hc in Hv.
    destruct (idxColumns idx) as [|c0 cols]; [contradiction|].
    destruct vs; [discriminate|]. cbn in Hv. discriminate.
Qed.

(** Counterexample to C5 as stated: on
    [tp(a int, b int, unique key ia(a)) partition by hash(a + 1)],
    [select * from tp where a = 1] extracts the pair [a = 1]; [ia] meets
    every listed condition and is the first (and only) such index, but
    the partition cannot be resolved from the pair, only global indexes
    are then considered, and no plan is built. *)
Lemma C5_listed_index_not_selected :
  let stmt := Examples.selectWhere Examples.tblHashExpr [] [] (Examples.eqExpr "a" 1) in
  let pairs := [mkPair "a" (Some (Examples.intType 0)) (NewIntDatum 1) None] in
  getNameValuePairs Examples.hashExprCtx Examples.tblHashExpr
    (tblName Examples.tblHashExpr) [] (ssWhere stmt) = (Some pairs, false) /\
  List.find (qualifiesAsListed [] pairs) (tblIndices Examples.tblHashExpr) =
    Some Examples.idxA /\
  tryPointGetPlan Examples.hashExprCtx stmt false = Ok None.
Proof. cbv zeta. repeat split; vm_compute; reflexivity. Qed.

(** With table-dual pairs the loop stops at the first index that passes
    the first test and the freshness test, whatever its columns. *)
Lemma checkIndexLoop_dual ctx tblName tbl dbName schema names pairs
    partitionDef pos checking latest check' :
  getLatestIndexInfo ctx (tblID tbl) = (latest, check', None) ->
  forall indices check_cur latest_cur,
    ((check_cur = checking /\ latest_cur = None) \/
     (checking = true /\ check_cur = check' /\ latest_cur = latest)) ->
    checkIndexLoop ctx tblName tbl dbName schema names pairs partitionDef pos
      false true check_cur latest_cur indices =
    if isSome (List.find (eligibleDual (tnIndexHints tblName) checking latest check')
                         indices)
    then Ok (Some (setTableDual
                     (newPointGetPlan ctx (O (tnSchema tblName)) schema tbl names)))
    else Ok None.
Proof.
  intros Hlatest.
  assert (Hrefresh := refreshLatest_settles ctx tbl checking latest check' Hlatest).
  induction indices as [|i0 rest IH]; intros check_cur latest_cur Hinv.
  { reflexivity. }
  cbn [List.find checkIndexLoop]. unfold eligibleDual at 1.
  destruct (indexUsable i0 (tnIndexHints tblName)) eqn:Hu; cbn [negb andb];
    [|apply IH; exact Hinv].
  destruct (Hrefresh check_cur latest_cur Hinv) as (l' & c' & -> & Heq & Hinv').
  rewrite Heq.
  destruct (checking && check' && negb (latestIsPublic latest i0));
    cbn [negb]; [apply IH; exact Hinv'|reflexivity].
Qed.

(** *** The keys of a batch plan *)

Lemma batchOperand_operandOf ctx x d con :
  batchOperand ctx x = Some (d, con) -> operandOf ctx x d con.
Proof.
  unfold batchOperand, operandOf. destruct x; try discriminate.
  - intros [= <- <-]. left. auto.
  - destruct (ParamMarkerExpression ctx order d0 true) as [e|c] eqn:Hc;
      [discriminate|].
    destruct (Eval ctx c) as [e|d'] eqn:He; [discriminate|].
    intros [= <- <-]. right. exists order, d0, c. auto.
Qed.

Lemma handleItem_handleOf ctx hc tbl item h con entry :
  handleItem ctx hc tbl item = Ok (Some (h, con, entry)) ->
  handleOf ctx hc item h con.
Proof.
  unfold handleItem. cbv zeta. intros H.
  destruct (batchOperand ctx (unwrapParentheses item)) as [[d c]|] eqn:Hop;
    [|discriminate].
  destruct (IsNull d) eqn:Hn; [discriminate|].
  destruct (fst (getPointGetValue ctx hc d)) as [intDatum|] eqn:Hv; [|discriminate].
  match type of H with
  | rbind ?c _ = _ => destruct c as [[e|]|msg]; cbn [rbind] in H; try discriminate
  end.
  injection H as <- <- _.
  exists d, intDatum. split; [exact (batchOperand_operandOf _ _ _ _ Hop)|]. auto.
Qed.

Lemma rowValuesLoop_spec ctx whereColNames colInfos permutations initTypes :
  forall inners index acc acc',
    rowValuesLoop ctx whereColNames colInfos permutations initTypes index inners acc =
      Ok (Some acc') ->
    length (raValues acc') = length (raValues acc) /\
    (forall q,
       (forall k, (k < length inners)%nat ->
                  permutations !! (index + k)%nat <> Some q) ->
       raValues acc' !! q = raValues acc !! q) /\
    forall k inner, inners !! k = Some inner ->
      exists permIndex name col out,
        permutations !! (index + k)%nat = Some permIndex /\
        whereColNames !! (index + k)%nat = Some name /\
        colInfos !! (index + k)%nat = Some (Some col) /\
        rowDatumOf ctx col inner out /\
        ((forall later, (k < later < length inners)%nat ->
                        permutations !! (index + later)%nat <> Some permIndex) ->
         raValues acc' !! permIndex = Some out).
Proof.
  induction inners as [|inner rest IH]; intros index acc acc' H.
  { cbn in H. injection H as <-. split; [reflexivity|]. split; [reflexivity|].
    intros k inner Hk. rewrite lookup_nil in Hk. discriminate. }
  cbn [rowValuesLoop] in H.
  destruct (permutations !! index) as [permIndex|] eqn:Hperm; [|discriminate].
  destruct (colInfos !! index) as [colInfo|] eqn:Hcol; [|discriminate].
  destruct (whereColNames !! index) as [whereCol|] eqn:Hname; [|discriminate].
  assert (Hstep : forall out params pairs types col,
            colInfo = Some col ->
            rowDatumOf ctx col inner out ->
            Nat.ltb permIndex (length (raValues acc)) = true ->
            rowValuesLoop ctx whereColNames colInfos permutations initTypes
              (S index) rest
              (mkRowAcc (<[permIndex := out]> (raValues acc)) params pairs types) =
              Ok (Some acc') ->
            length (raValues acc') = length (raValues acc) /\
            (forall q,
               (forall k, (k < length (inner :: rest))%nat ->
                          permutations !! (index + k)%nat <> Some q) ->
               raValues acc' !! q = raValues acc !! q) /\
            forall k inner0, (inner :: rest) !! k = Some inner0 ->
              exists permIndex0 name col0 out0,
                permutations !! (index + k)%nat = Some permIndex0 /\
                whereColNames !! (index + k)%nat = Some name /\
                colInfos !! (index + k)%nat = Some (Some col0) /\
                rowDatumOf ctx col0 inner0 out0 /\
                ((forall later, (k < later < length (inner :: rest))%nat ->
                                permutations !! (index + later)%nat <> Some permIndex0) ->
                 raValues acc' !! permIndex0 = Some out0)).
  { intros out params pairs types col -> Hout Hin Hrest.
    apply Nat.ltb_lt in Hin.
    destruct (IH _ _ _ Hrest) as (Hlen & Hframe & Hall).
    cbn [raValues] in Hlen, Hframe. rewrite length_insert in Hlen.
    split; [exact Hlen|]. split.
    - intros q Hq. rewrite Hframe.
      + apply list_lookup_insert_ne. intros ->.
        apply (Hq 0%nat); [cbn; lia|]. rewrite Nat.add_0_r. exact Hperm.
      + intros k Hk. replace (S index + k)%nat with (index + S k)%nat by lia.
        apply Hq. cbn [length]. lia.
    - intros [|k] inner0 Hk.
      + cbn in Hk. injection Hk as <-. rewrite Nat.add_0_r.
        exists permIndex, whereCol, col, out.
        split; [exact Hperm|]. split; [exact Hname|]. split; [exact Hcol|].
        split; [exact Hout|]. intros Hlater. rewrite Hframe.
        * apply list_lookup_insert_eq. exact Hin.
        * intros k Hk. replace (S index + k)%nat with (index + S k)%nat by lia.
          apply Hlater. cbn [length]. lia.
      + cbn in Hk. destruct (Hall k inner0 Hk)
          as (p0 & name & col0 & out0 & H1 & H2 & H3 & H4 & H5).
        replace (S index + k)%nat with (index + S k)%nat in H1, H2, H3 by lia.
        exists p0, name, col0, out0. repeat split; auto.
        intros Hlater. apply H5. intros later Hl.
        replace (S index + later)%nat with (index + S later)%nat by lia.
        apply Hlater. cbn [length]. lia. }
  destruct inner; try discriminate.
  - destruct colInfo as [col|]; [|discriminate].
    destruct (getPointGetValue ctx col d) as [[v|] datum'] eqn:Hv; [|discriminate].
    destruct (Nat.ltb permIndex (length (raValues acc))) eqn:Hin; cbn [negb] in H;
      [|discriminate].
    eapply Hstep; [reflexivity| |reflexivity|exact H].
    left. exists d, v. auto.
  - destruct (batchOperand ctx (ParamMarkerExpr order d)) as [[d' con]|] eqn:Hop;
      [|discriminate].
    destruct colInfo as [col|]; [|discriminate].
    destruct (getPointGetValue ctx col d') as [[v|] x] eqn:Hv; [|discriminate].
    destruct (Nat.ltb permIndex (length (raValues acc))) eqn:Hin; cbn [negb] in H;
      [|discriminate].
    eapply Hstep; [reflexivity| |reflexivity|exact H].
    right. cbn [batchOperand] in Hop.
    destruct (ParamMarkerExpression ctx order d true) as [e|c] eqn:Hc;
      [discriminate|].
    destruct (Eval ctx c) as [e|d''] eqn:He; [discriminate|].
    injection Hop as <- <-.
    exists order, d, c, d'', v, x. auto.
Qed.

Lemma rowValuesLoop_values ctx whereColNames colInfos permutations :
  forall inners index acc1 acc2 it1 it2 a b,
    raValues acc1 = raValues acc2 ->
    rowValuesLoop ctx whereColNames colInfos permutations it1 index inners acc1 =
      Ok (Some a) ->
    rowValuesLoop ctx whereColNames colInfos permutations it2 index inners acc2 =
      Ok (Some b) ->
    raValues a = raValues b.
Proof.
  induction inners as [|inner rest IH]; intros index acc1 acc2 it1 it2 a b Hv H1 H2.
  { cbn in H1, H2. injection H1 as <-. injection H2 as <-. exact Hv. }
  cbn [rowValuesLoop] in H1, H2.
  destruct (permutations !! index) as [permIndex|]; [|discriminate].
  destruct (colInfos !! index) as [colInfo|]; [|discriminate].
  destruct (whereColNames !! index) as [whereCol|]; [|discriminate].
  rewrite <- Hv in H2.
  destruct inner; try discriminate.
  - destruct colInfo as [col|]; [|discriminate].
    destruct (getPointGetValue ctx col d) as [[v|] datum']; [|discriminate].
    destruct (Nat.ltb permIndex (length (raValues acc1))); cbn [negb] in H1, H2;
      [|discriminate].
    eapply IH; [|exact H1|exact H2]. cbn [raValues]. rewrite Hv. reflexivity.
  - destruct (batchOperand ctx (ParamMarkerExpr order d)) as [[d' con]|];
      [|discriminate].
    destruct colInfo as [col|]; [|discriminate].
    destruct (getPointGetValue ctx col d') as [[v|] x]; [|discriminate].
    destruct (Nat.ltb permIndex (length (raValues acc1))); cbn [negb] in H1, H2;
      [|discriminate].
    eapply IH; [|exact H1|exact H2]. cbn [raValues]. rewrite Hv. reflexivity.
Qed.

(** The values of an element do not depend on the state of
    [indexTypes]. *)
Lemma indexItem_values ctx whereColNames colInfos permutations t1 t2 item
    v1 p1 pr1 t1' v2 p2 pr2 t2' :
  indexItem ctx whereColNames colInfos permutations t1 item =
    Ok (Some (v1, p1, pr1, t1')) ->
  indexItem ctx whereColNames colInfos permutations t2 item =
    Ok (Some (v2, p2, pr2, t2')) ->
  v1 = v2.
Proof.
  unfold indexItem. cbv zeta. destruct (unwrapParentheses item); try discriminate.
  - destruct (negb (Nat.eqb (length whereColNames) 1)); [discriminate|].
    destruct colInfos as [|[col|] ?]; try discriminate.
    destruct whereColNames as [|whereCol ?]; try discriminate.
    destruct (fst (getPointGetValue ctx col d)); [|discriminate].
    intros [= <- _ _ _] [= <- _ _ _]. reflexivity.
  - destruct (negb (Nat.eqb (length whereColNames) 1)); [discriminate|].
    destruct (batchOperand ctx (ParamMarkerExpr order d)) as [[d' con]|];
      [|discriminate].
    destruct colInfos as [|[col|] ?]; try discriminate.
    destruct whereColNames as [|whereCol ?]; try discriminate.
    destruct (fst (getPointGetValue ctx col d')); [|discriminate].
    intros [= <- _ _ _] [= <- _ _ _]. reflexivity.
  - destruct (negb (Nat.eqb (length values) (length whereColNames)));
      [discriminate|].
    intros H1 H2.
    match type of H1 with
    | rbind ?c _ = _ => destruct c as [[a|]|m1] eqn:E1; cbn [rbind] in H1;
                        try discriminate
    end.
    match type of H2 with
    | rbind ?c _ = _ => destruct c as [[b|]|m2] eqn:E2; cbn [rbind] in H2;
                        try discriminate
    end.
    injection H1 as <- _ _ _. injection H2 as <- _ _ _.
    eapply rowValuesLoop_values; [|exact E1|exact E2]. reflexivity.
Qed.

Lemma indexItem_keyOf ctx tbl whereColNames permutations types item
    values params pairs types' :
  indexItem ctx whereColNames (List.map (whereColInfo tbl) whereColNames)
    permutations types item = Ok (Some (values, params, pairs, types')) ->
  indexKeyOf ctx tbl whereColNames permutations item values.
Proof.
  unfold indexItem, indexKeyOf. cbv zeta.
  destruct (unwrapParentheses item) eqn:Hitem; try discriminate.
  - destruct (Nat.eqb (length whereColNames) 1) eqn:Hn; cbn [negb]; [|discriminate].
    destruct whereColNames as [|whereCol [|? ?]]; try discriminate.
    cbn [List.map].
    destruct (whereColInfo tbl whereCol) as [col|] eqn:Hcol; [|discriminate].
    destruct (fst (getPointGetValue ctx col d)) as [dval|] eqn:Hv; [|discriminate].
    intros [= <- _ _ _].
    exists whereCol, col, d, None, dval. repeat split; auto. left. auto.
  - destruct (Nat.eqb (length whereColNames) 1) eqn:Hn; cbn [negb]; [|discriminate].
    destruct (batchOperand ctx (ParamMarkerExpr order d)) as [[d' con]|] eqn:Hop;
      [|discriminate].
    destruct whereColNames as [|whereCol [|? ?]]; try discriminate.
    cbn [List.map].
    destruct (whereColInfo tbl whereCol) as [col|] eqn:Hcol; [|discriminate].
    destruct (fst (getPointGetValue ctx col d')) as [dval|] eqn:Hv; [|discriminate].
    intros [= <- _ _ _].
    exists whereCol, col, d', con, dval. repeat split; auto.
    exact (batchOperand_operandOf _ _ _ _ Hop).
  - destruct (Nat.eqb (length values0) (length whereColNames)) eqn:Hn; cbn [negb];
      [|discriminate].
    apply Nat.eqb_eq in Hn. intros H.
    match type of H with
    | rbind ?c _ = _ => destruct c as [[a|]|m1] eqn:E1; cbn [rbind] in H;
                        try discriminate
    end.
    injection H as <- _ _ _.
    destruct (rowValuesLoop_spec _ _ _ _ _ _ _ _ _ E1) as (Hlen & _ & Hall).
    cbn [raValues] in Hlen. rewrite length_replicate in Hlen.
    split; [exact Hn|]. split; [exact Hlen|].
    intros index inner Hi.
    destruct (Hall index inner Hi) as (p0 & name & col & out & H1 & H2 & H3 & H4 & H5).
    cbn [Nat.add] in *.
    exists p0, name, col, out. split; [exact H1|]. split; [exact H2|]. split.
    { change (List.map (whereColInfo tbl) whereColNames)
        with (whereColInfo tbl <$> whereColNames) in H3.
      rewrite list_lookup_fmap, H2 in H3. cbn in H3. injection H3 as H3. exact H3. }
    split; [exact H4|exact H5].
Qed.



(** *** The gates of the index path *)

(** The freshness test without a check mode never asks for the latest
    schema. *)
Lemma refreshLatest_unchecked ctx tbl latest check' :
  forall check_cur latest_cur,
    ((check_cur = false /\ latest_cur = None) \/
     (false = true /\ check_cur = check' /\ latest_cur = latest)) ->
    exists l' c',
      refreshLatest ctx (tblID tbl) check_cur latest_cur = Some (l', c') /\
      (forall i0, c' && negb (latestIsPublic l' i0) =
                  false && check' && negb (latestIsPublic latest i0)) /\
      ((c' = false /\ l' = None) \/
       (false = true /\ c' = check' /\ l' = latest)).
Proof.
  intros check_cur latest_cur [[-> ->] | (Hc & _)]; [|discriminate].
  exists None, false. unfold refreshLatest. cbn. repeat split; auto.
Qed.

Lemma checkIndexLoop_first_under ctx tblName tbl dbName schema names pairs
    partitionDef pos g checking latest check' :
  (forall check_cur latest_cur,
     ((check_cur = checking /\ latest_cur = None) \/
      (checking = true /\ check_cur = check' /\ latest_cur = latest)) ->
     exists l' c',
       refreshLatest ctx (tblID tbl) check_cur latest_cur = Some (l', c') /\
       (forall i0, c' && negb (latestIsPublic l' i0) =
                   checking && check' && negb (latestIsPublic latest i0)) /\
       ((c' = checking /\ l' = None) \/
        (checking = true /\ c' = check' /\ l' = latest))) ->
  (partitionDef = None \/ (pos < length pairs)%nat) ->
  forall indices check_cur latest_cur,
    ((check_cur = checking /\ latest_cur = None) \/
     (checking = true /\ check_cur = check' /\ latest_cur = latest)) ->
    match List.find (eligible (tnIndexHints tblName) pairs g checking latest check')
                    indices with
    | Some idx =>
        exists p,
          checkIndexLoop ctx tblName tbl dbName schema names pairs partitionDef
            pos g false check_cur latest_cur indices = Ok (Some p) /\
          pIndexInfo p = Some idx /\ pIsTableDual p = false /\
          pPartitionDef p = partitionDef
    | None =>
        checkIndexLoop ctx tblName tbl dbName schema names pairs partitionDef
          pos g false check_cur latest_cur indices = Ok None
    end.
Proof.
  intros Hrefresh Hpos.
  induction indices as [|i0 rest IH]; intros check_cur latest_cur Hinv.
  { reflexivity. }
  cbn [List.find checkIndexLoop]. unfold eligible at 1.
  destruct (indexUsable i0 (tnIndexHints tblName)) eqn:Hu; cbn [negb andb];
    [|apply IH; exact Hinv].
  destruct (idxGlobal i0) eqn:Hgl; destruct g; cbn [negb andb orb];
    try (apply IH; exact Hinv).
  all: destruct (getIndexValues i0 pairs) as [[[vs cs] fts]|] eqn:Hv;
    cbn [isSome andb]; [|apply IH; exact Hinv].
  all: destruct (Hrefresh check_cur latest_cur Hinv) as (l' & c' & -> & Heq & Hinv').
  all: rewrite Heq.
  all: destruct (checking && check' && negb (latestIsPublic latest i0));
    cbn [negb]; [apply IH; exact Hinv'|].
  all: assert (Hfp : exists pcp,
                 match partitionDef with
                 | Some _ => findPartitionIdx i0 pos pairs
                 | None => Ok 0
                 end = Ok pcp).
  all: try (destruct partitionDef as [pd|]; [|eexists; reflexivity];
            destruct Hpos as [Hpos | Hpos]; [discriminate|];
            unfold findPartitionIdx;
            destruct (idxColumns i0); [eexists; reflexivity|];
            destruct (lookup_lt_is_Some_2 pairs pos Hpos) as [pr ->];
            eexists; reflexivity).
  all: destruct Hfp as [pcp ->]; cbn [rbind].
  all: eexists; split; [reflexivity|]; cbn; auto.
Qed.

(** When the latest schema cannot be read in check mode, the loop ends
    without a plan. *)
Lemma checkIndexLoop_unreadable ctx tblName tbl dbName schema names pairs
    partitionDef pos g dual latest check' err :
  getLatestIndexInfo ctx (tblID tbl) = (latest, check', Some err) ->
  forall indices,
    checkIndexLoop ctx tblName tbl dbName schema names pairs partitionDef pos
      g dual true None indices = Ok None.
Proof.
  intros Hlatest. induction indices as [|i0 rest IH]; [reflexivity|].
  cbn [checkIndexLoop].
  destruct (negb (indexUsable i0 (tnIndexHints tblName))); [exact IH|].
  destruct (g && negb (idxGlobal i0)); [exact IH|].
  assert (Hr : refreshLatest ctx (tblID tbl) true None = None).
  { unfold refreshLatest. cbn. rewrite Hlatest. reflexivity. }
  destruct dual.
  - rewrite Hr. reflexivity.
  - destruct (getIndexValues i0 pairs) as [[[vs cs] fts]|]; [|exact IH].
    rewrite Hr. reflexivity.
Qed.

(** With pairs flagged table-dual the loop builds table-dual plans
    only, without index. *)
Lemma checkIndexLoop_dual_plan ctx tblName tbl dbName schema names pairs
    partitionDef pos g p :
  forall indices check latest,
    checkIndexLoop ctx tblName tbl dbName schema names pairs partitionDef pos
      g true check latest indices = Ok (Some p) ->
    pIndexInfo p = None /\ pIsTableDual p = true.
Proof.
  induction indices as [|i0 rest IH]; intros check latest H; [discriminate|].
  cbn [checkIndexLoop] in H.
  destruct (negb (indexUsable i0 (tnIndexHints tblName))); [eauto|].
  destruct (g && negb (idxGlobal i0)); [eauto|].
  destruct (refreshLatest ctx (tblID tbl) check latest) as [[l' c']|];
    [|discriminate].
  destruct (c' && negb (latestIsPublic l' i0)); [eauto|].
  injection H as <-. split; reflexivity.
Qed.

(** C5, amended.  (1) The index of a plan built by the
    unique-secondary-index path is an index of the table that is unique,
    public, visible, not multi-valued, without prefix column, not
    filtered out by the index hints, with as many columns as there are
    pairs and a pair for each of its columns (so, its column names being
    distinct, the same column set as the pairs), and the pairs are then
    not flagged table-dual.  (2) When the pairs are not flagged
    table-dual, the path selects the first index, in declaration order,
    that is eligible, and builds no plan when there is none.  (3) An
    index is eligible when it meets the conditions listed in (1), is a
    global index when the partition could not be resolved, and, in check
    mode, is public in the latest schema.  (4) When the partition could
    not be resolved and the statement names partitions, or the table has
    partitions being added or dropped, no plan is built.  (5) In check
    mode no plan is built when the latest schema cannot be read.  (6) A
    plan built from pairs flagged table-dual is a table-dual plan,
    without index. *)
Theorem C5_unique_index_selection (ctx : Ctx) (tblName : TableName)
    (schema : list Column) (names : list FieldName) (pairs : list nameValuePair)
    (partitionDef : option PartitionDefinition) (pos : nat)
    (globalIndexCheck check : bool) :
  (forall isTableDual p idx,
     checkTblIndexForPointPlan ctx tblName schema names pairs partitionDef pos
       globalIndexCheck isTableDual check = Ok (Some p) ->
     pIndexInfo p = Some idx ->
     isTableDual = false /\
     exists tbl,
       tnTableInfo tblName = Some tbl /\ In idx (tblIndices tbl) /\
       idxUnique idx = true /\ idxState idx = StatePublic /\
       idxInvisible idx = false /\ idxMVIndex idx = false /\
       HasPrefixIndex idx = false /\
       indexIsAvailableByHints (Some idx) (tnIndexHints tblName) = true /\
       length (idxColumns idx) = length pairs /\
       (forall c, In c (idxColumns idx) ->
                  exists pr, In pr pairs /\ nvColName pr = L (icName c)) /\
       (NoDup (List.map (fun c => L (icName c)) (idxColumns idx)) ->
        Permutation (List.map (fun c => L (icName c)) (idxColumns idx))
                    (List.map nvColName pairs))) /\
  (forall tbl latest check',
     tnTableInfo tblName = Some tbl ->
     (checkMode ctx check = true ->
      getLatestIndexInfo ctx (tblID tbl) = (latest, check', None)) ->
     (globalIndexCheck = true ->
      tnPartitionNames tblName = [] /\
      exists pi, tblPartition tbl = Some pi /\
                 piAddingDefinitions pi = [] /\ piDroppingDefinitions pi = []) ->
     (partitionDef = None \/ (pos < length pairs)%nat) ->
     match List.find (eligible (tnIndexHints tblName) pairs globalIndexCheck
                        (checkMode ctx check) latest check')
                     (tblIndices tbl) with
     | Some idx =>
         exists p,
           checkTblIndexForPointPlan ctx tblName schema names pairs partitionDef
             pos globalIndexCheck false check = Ok (Some p) /\
           pIndexInfo p = Some idx /\ pIsTableDual p = false
     | None =>
         checkTblIndexForPointPlan ctx tblName schema names pairs partitionDef
           pos globalIndexCheck false check = Ok None
     end) /\
  (forall latest check' idx,
     idxColumns idx <> [] ->
     NoDup (List.map (fun c => L (icName c)) (idxColumns idx)) ->
     eligible (tnIndexHints tblName) pairs globalIndexCheck
       (checkMode ctx check) latest check' idx =
     qualifiesAsListed (tnIndexHints tblName) pairs idx &&
     (negb globalIndexCheck || idxGlobal idx) &&
     negb (checkMode ctx check && check' && negb (latestIsPublic latest idx))) /\
  (forall tbl pi isTableDual,
     globalIndexCheck = true ->
     tnTableInfo tblName = Some tbl -> tblPartition tbl = Some pi ->
     tnPartitionNames tblName <> [] \/ piAddingDefinitions pi <> [] \/
       piDroppingDefinitions pi <> [] ->
     checkTblIndexForPointPlan ctx tblName schema names pairs partitionDef pos
       globalIndexCheck isTableDual check = Ok None) /\
  (forall tbl latest check' err isTableDual,
     tnTableInfo tblName = Some tbl ->
     (globalIndexCheck = true -> tblPartition tbl <> None) ->
     checkMode ctx check = true ->
     getLatestIndexInfo ctx (tblID tbl) = (latest, check', Some err) ->
     checkTblIndexForPointPlan ctx tblName schema names pairs partitionDef pos
       globalIndexCheck isTableDual check = Ok None) /\
  (forall p,
     checkTblIndexForPointPlan ctx tblName schema names pairs partitionDef pos
       globalIndexCheck true check = Ok (Some p) ->
     pIndexInfo p = None /\ pIsTableDual p = true).
Proof.
  split; [|split; [|split; [|split; [|split]]]].
  - intros isTableDual p idx H Hp.
    unfold checkTblIndexForPointPlan in H.
    match type of H with
    | rbind ?c _ = _ => destruct c as [stop|msg]; cbn [rbind] in H;
                        [|discriminate]
    end.
    destruct stop; [discriminate|].
    destruct (tnTableInfo tblName) as [tbl|]; [|discriminate].
    destruct (checkIndexLoop_selected _ _ _ _ _ _ _ _ _ _ _ _ _ _ _ _ H Hp)
      as (Hin & Hu & _ & Hv & Hdual).
    split; [exact Hdual|].
    destruct (indexUsable_true _ _ Hu) as (H1 & H2 & H3 & H4 & H5).
    destruct (getIndexValues idx pairs) as [r|] eqn:Hg; [|discriminate].
    destruct (getIndexValues_Some _ _ _ Hg) as (Hlen & Hpre & Hall).
    exists tbl. repeat split; auto.
    apply exact_column_match; auto.
  - intros tbl latest check' Htbl Hlatest Hglobal Hpos.
    assert (Hrefresh : forall check_cur latest_cur,
              ((check_cur = checkMode ctx check /\ latest_cur = None) \/
               (checkMode ctx check = true /\ check_cur = check' /\
                latest_cur = latest)) ->
              exists l' c',
                refreshLatest ctx (tblID tbl) check_cur latest_cur = Some (l', c') /\
                (forall i0, c' && negb (latestIsPublic l' i0) =
                            checkMode ctx check && check' &&
                            negb (latestIsPublic latest i0)) /\
                ((c' = checkMode ctx check /\ l' = None) \/
                 (checkMode ctx check = true /\ c' = check' /\ l' = latest))).
    { destruct (checkMode ctx check) eqn:Hc.
      - exact (refreshLatest_settles ctx tbl true latest check' (Hlatest eq_refl)).
      - exact (refreshLatest_unchecked ctx tbl latest check'). }
    assert (Hloop := checkIndexLoop_first_under ctx tblName tbl
                       (if eqs (L (tnSchema tblName)) "" then CurrentDB ctx
                        else L (tnSchema tblName))
                       schema names pairs partitionDef pos globalIndexCheck
                       (checkMode ctx check) latest check' Hrefresh Hpos
                       (tblIndices tbl) (checkMode ctx check) None
                       (or_introl (conj eq_refl eq_refl))).
    assert (E : checkTblIndexForPointPlan ctx tblName schema names pairs
                  partitionDef pos globalIndexCheck false check =
                checkIndexLoop ctx tblName tbl
                  (if eqs (L (tnSchema tblName)) "" then CurrentDB ctx
                   else L (tnSchema tblName))
                  schema names pairs partitionDef pos globalIndexCheck false
                  (checkMode ctx check) None (tblIndices tbl)).
    { unfold checkTblIndexForPointPlan, checkMode. rewrite Htbl.
      destruct globalIndexCheck; [|reflexivity].
      destruct (Hglobal eq_refl) as (-> & pi & -> & -> & ->). reflexivity. }
    rewrite E.
    destruct (List.find _ (tblIndices tbl)) as [idx|].
    + destruct Hloop as (p & Hp & Hi & Hd & _). eauto.
    + exact Hloop.
  - intros latest check' idx Hne Hnd.
    unfold eligible, qualifiesAsListed.
    rewrite (getIndexValues_listed idx pairs Hne Hnd).
    unfold indexUsable.
    destruct (idxUnique idx), (SchemaState_eqb (idxState idx) StatePublic),
      (idxInvisible idx), (idxMVIndex idx), (HasPrefixIndex idx),
      (indexIsAvailableByHints (Some idx) (tnIndexHints tblName)),
      (sameColumnSet idx pairs), (negb globalIndexCheck || idxGlobal idx);
      reflexivity.
  - intros tbl pi isTableDual -> Htbl Hpi Hgate.
    unfold checkTblIndexForPointPlan. rewrite Htbl, Hpi.
    destruct (tnPartitionNames tblName) as [|n ns]; cbn [length Nat.ltb Nat.leb];
      [|reflexivity].
    destruct (piAddingDefinitions pi) as [|a adding];
      destruct (piDroppingDefinitions pi) as [|d dropping]; try reflexivity.
    destruct Hgate as [Hg | [Hg | Hg]]; contradiction.
  - intros tbl latest check' err isTableDual Htbl Hpart Hcheck Hlatest.
    unfold checkTblIndexForPointPlan. rewrite Htbl.
    unfold checkMode in Hcheck. rewrite Hcheck.
    assert (Hstop : forall stop : bool,
              (if stop then Ok None
               else checkIndexLoop ctx tblName tbl
                      (if eqs (L (tnSchema tblName)) "" then CurrentDB ctx
                       else L (tnSchema tblName))
                      schema names pairs partitionDef pos globalIndexCheck
                      isTableDual true None (tblIndices tbl)) = Ok None).
    { intros [|]; [reflexivity|].
      exact (checkIndexLoop_unreadable _ _ _ _ _ _ _ _ _ _ _ _ _ _ Hlatest _). }
    destruct globalIndexCheck; cbn [rbind]; [|apply (Hstop false)].
    destruct (Nat.ltb 0 (length (tnPartitionNames tblName))); cbn [rbind];
      [reflexivity|].
    destruct (tblPartition tbl) as [pi|]; [|exfalso; exact (Hpart eq_refl eq_refl)].
    cbn [rbind]. apply Hstop.
  - intros p H. unfold checkTblIndexForPointPlan in H.
    match type of H with
    | rbind ?c _ = _ => destruct c as [stop|msg]; cbn [rbind] in H;
                        [|discriminate]
    end.
    destruct stop; [discriminate|].
    destruct (tnTableInfo tblName) as [tbl|]; [|discriminate].
    exact (checkIndexLoop_dual_plan _ _ _ _ _ _ _ _ _ _ _ _ _ _ H).
Qed.

(** *** Instances *)

(** C6 on [select * from t where a = 5 order by a] and on
    [select * from t where a = 5 group by a]. *)
Lemma C6_clauses_refused_witness :
  isSome (ssOrderBy Examples.selectOrderBy) = true /\
  TryFastPlan Examples.plainCtx Examples.selectOrderBy = Ok None /\
  isSome (ssGroupBy Examples.selectGroupBy) = true /\
  tryWhereIn2BatchPointGet Examples.plainCtx Examples.selectGroupBy = Ok None.
Proof.
  split; [reflexivity|]. split.
  - exact (proj1 (proj1 (C6_clauses_refused Examples.plainCtx Examples.selectOrderBy)
                        eq_refl)).
  - split; [reflexivity|].
    exact (proj1 (proj2 (C6_clauses_refused Examples.plainCtx Examples.selectGroupBy)
                        eq_refl)).
Defined.

(** C7 on [select * from th partition (p0) where id = -13] with four
    hash partitions: the row is in [p1], which is not selected. *)
Lemma C7_hash_partition_position_witness :
  let stmt := Examples.selectWhere (Examples.tblHash 4) [] [NewCIStr "p0"]
                (Examples.eqExpr "id" (-13)) in
  getPartitionDef Examples.hashCtx (Examples.tblHash 4)
    [mkPair "id" (Some (Examples.intType PriKeyFlag)) (NewIntDatum (-13)) None] =
    Ok (Some (mkPartitionDefinition 101 (NewCIStr "p1")), 0%nat, 1, false) /\
  exists p, tryPointGetPlan Examples.hashCtx stmt false = Ok (Some p) /\
            pIsTableDual p = true.
Proof.
  cbv zeta.
  epose proof (C7_hash_partition_position Examples.hashCtx
               (Examples.selectWhere (Examples.tblHash 4) [] [NewCIStr "p0"]
                  (Examples.eqExpr "id" (-13)))
               false
               (mkTableName Examples.noName (tblName (Examples.tblHash 4))
                  (Some (Examples.tblHash 4)) [] [NewCIStr "p0"])
               (tblName (Examples.tblHash 4)) (Examples.tblHash 4)
               (Examples.hashInfo 4) Examples.hashById
               (mkColumnName Examples.noName Examples.noName (NewCIStr "id"))
               _ _
               [mkPair "id" (Some (Examples.intType PriKeyFlag)) (NewIntDatum (-13)) None]
               false 0%nat
               (mkPair "id" (Some (Examples.intType PriKeyFlag)) (NewIntDatum (-13)) None)
               (mkPartitionDefinition 101 (NewCIStr "p1")))
    as H.
  cbv zeta in H.
  specialize (H eq_refl eq_refl eq_refl eq_refl eq_refl ltac:(cbn; lia) eq_refl).
  destruct H as (_ & Hdef & Hplan).
  split; [exact Hdef|].
  apply Hplan; try reflexivity. discriminate.
Defined.



(** C5 on [select * from t where b = 7]: the index [ib] is selected;
    and on [select * from tg partition (p0) where b = 7], where the
    global index [ib] is eligible and no plan is built, since the
    statement names a partition. *)
Lemma C5_unique_index_selection_witness :
  let tn := mkTableName Examples.noName (tblName Examples.tblT)
              (Some Examples.tblT) [] [] in
  let pairs := [mkPair "b" (Some (Examples.intType 0)) (NewIntDatum 7) None] in
  (exists p,
    checkTblIndexForPointPlan Examples.plainCtx tn [] [] pairs None 0%nat
      false false false = Ok (Some p) /\
    pIndexInfo p = Some Examples.idxB /\ pIsTableDual p = false /\
    idxUnique Examples.idxB = true) /\
  eligible [] pairs true false None false Scenarios.idxGlobalB = true /\
  checkTblIndexForPointPlan Examples.hashCtx Scenarios.tgPartitionP0 [] [] pairs
    None 0%nat true false false = Ok None.
Proof.
  cbv zeta. split; [|split; [reflexivity|]].
  - destruct (C5_unique_index_selection Examples.plainCtx
                (mkTableName Examples.noName (tblName Examples.tblT)
                   (Some Examples.tblT) [] [])
                [] [] [mkPair "b" (Some (Examples.intType 0)) (NewIntDatum 7) None]
                None 0%nat false false) as (Honly & Hfirst & _).
    specialize (Hfirst Examples.tblT None false eq_refl ltac:(discriminate)
                  ltac:(discriminate) (or_introl eq_refl)).
    change (exists p,
              checkTblIndexForPointPlan Examples.plainCtx
                (mkTableName Examples.noName (tblName Examples.tblT)
                   (Some Examples.tblT) [] [])
                [] [] [mkPair "b" (Some (Examples.intType 0)) (NewIntDatum 7) None]
                None 0%nat false false false = Ok (Some p) /\
              pIndexInfo p = Some Examples.idxB /\ pIsTableDual p = false)
      in Hfirst.
    destruct Hfirst as (p & Hp & Hi & Hd).
    exists p. split; [exact Hp|]. split; [exact Hi|]. split; [exact Hd|].
    destruct (Honly false p Examples.idxB Hp Hi) as (_ & tbl & _ & _ & Hu & _).
    exact Hu.
  - destruct (C5_unique_index_selection Examples.hashCtx Scenarios.tgPartitionP0 [] []
                [mkPair "b" (Some (Examples.intType 0)) (NewIntDatum 7) None]
                None 0%nat true false) as (_ & _ & _ & Hgate & _).
    apply (Hgate Scenarios.tblGlobal (Examples.hashInfo 4) false eq_refl eq_refl
             eq_refl).
    left. discriminate.
Defined.

End PlannerProofs.

(** ** Values that overflow the column type *)

Module OverflowProofs.
Import Model PointGet PointGetSpec Planner PlannerSpec.

(** Counterexample to C3 as stated: on
    [t2(a tinyint primary key, b int, unique key ib(b))] the constant of
    [select * from t2 use index (ib) where a = 1000] overflows the type
    of the handle column and the pair is flagged table-dual, but the
    hint rules the primary key out and no plan is built. *)
Lemma C3_overflow_falls_back :
  let stmt := Examples.selectWhere Examples.tblTiny [Examples.useIb] []
                (Examples.eqExpr "a" 1000) in
  ConvertTo Examples.plainCtx (NewIntDatum 1000) (colFieldType Examples.colTiny) =
    (NewIntDatum 1000, Some ErrOverflow) /\
  getNameValuePairs Examples.plainCtx Examples.tblTiny (tblName Examples.tblTiny)
    [] (ssWhere stmt) =
    (Some [mkPair "a" (Some (Examples.tinyType PriKeyFlag)) (NewIntDatum 1000) None],
     true) /\
  tryPointGetPlan Examples.plainCtx stmt false = Ok None.
Proof. cbv zeta. repeat split; vm_compute; reflexivity. Qed.

(** C3, amended: an equality between a column and a literal whose
    conversion to the column's type overflows yields the pair flagged
    table-dual.  For a table that is not partitioned, a statement whose
    pairs are flagged table-dual gets the table-dual plan when the pairs
    hold a single pair, on the handle, and the hints leave the primary
    key available, or when they hold no handle pair and some index passes
    the first test of the index loop and its freshness test; otherwise
    no plan is built.  At execution, when the cast of an index value to
    its column type fails with overflow, data-too-long, truncated or
    truncated-wrong-value, the encoding returns the not-exist error,
    and [Next] then returns nil with an empty chunk without reading or
    locking anything. *)
Theorem C3_overflow_means_no_row :
  (forall (ctx : Ctx) (tbl : TableInfo) (tblName : CIStr)
          (nvPairs : list nameValuePair) (cn : ColumnName) (d : Datum)
          (col : ColumnInfo) (dVal : Datum) (e : error),
     IsNull d = false -> tblIsView tbl = false ->
     eqs (L (cnTable cn)) "" || eqs (L (cnTable cn)) (L tblName) = true ->
     FindColumnInfo (Cols tbl) (L (cnName cn)) = Some col ->
     isTypeString (ftTp (colFieldType col)) &&
       eqs (ftCollate (colFieldType col)) CollationBin = false ->
     checkCanConvertInPointGet ctx col (setColumnCollation ctx col d) = true ->
     ConvertTo ctx (setColumnCollation ctx col d) (colFieldType col) =
       (dVal, Some e) ->
     isErrOverflow e = true ->
     getNameValuePairs ctx tbl tblName nvPairs
       (Some (BinaryOperationExpr EQ (ColumnNameExpr cn) (ValueExpr d))) =
     (Some (nvPairs ++ [mkPair (L (cnName cn)) (Some (colFieldType col))
                               (setColumnCollation ctx col d) None])%list,
      true)) /\
  (forall (ctx : Ctx) (selStmt : SelectStmt) (check : bool) (tblName : TableName)
          (tblAlias : CIStr) (tbl : TableInfo) (schema : list Column)
          (names : list FieldName) (pairs : option (list nameValuePair))
          (latest : option (gmap Z IndexInfo)) (check' : bool),
     pointGetClausesRefused ctx selStmt = false ->
     getSingleTableNameAndAlias (ssFrom selStmt) = (Some tblName, tblAlias) ->
     tnTableInfo tblName = Some tbl ->
     existsb (fun col => colGenerated col ||
                         negb (SchemaState_eqb (colState col) StatePublic))
             (tblColumns tbl) = false ->
     buildSchemaFromFields ctx (tnSchema tblName) tbl tblAlias (ssFields selStmt) =
       Some (schema, names) ->
     getNameValuePairs ctx tbl tblAlias [] (ssWhere selStmt) = (pairs, true) ->
     tblPartition tbl = None ->
     getLatestIndexInfo ctx (tblID tbl) = (latest, check', None) ->
     let dual := setTableDual
                   (newPointGetPlan ctx (O (tnSchema tblName)) schema tbl names) in
     let handlePair := fst (findPKHandle tbl (default [] pairs)) in
     pIsTableDual dual = true /\
     tryPointGetPlan ctx selStmt check =
       if negb (DatumKind_eqb (Kind (nvValue handlePair)) KindNull) then
         if Nat.eqb (length (default [] pairs)) 1 &&
            indexIsAvailableByHints None (tnIndexHints tblName)
         then Ok (Some dual) else Ok None
       else if isSome (List.find (eligibleDual (tnIndexHints tblName)
                                    (checkMode ctx check) latest check')
                                 (tblIndices tbl))
       then Ok (Some dual) else Ok None) /\
  (forall (env : Env) (tbl : TableInfo) (idx : IndexInfo)
          (pre post pre' : list Datum) (d d' : Datum) (ic : IndexColumn)
          (colInfo : ColumnInfo) (err : error),
     encodeIndexValues env tbl idx 0 pre = (pre', None) ->
     idxColumns idx !! length pre = Some ic ->
     tblColumns tbl !! icOffset ic = Some colInfo ->
     castBranch colInfo d = true ->
     CastValue env d colInfo = (d', Some err) ->
     castErrMeansNotExist err = true ->
     EncodeUniqueIndexValuesForKey env tbl idx (pre ++ d :: post) =
       ((pre' ++ d' :: post)%list, ("", Some ErrNotExist)) /\
     forall s : St,
       done (sExec s) = false -> idxInfo (sExec s) = Some idx ->
       tblInfo (sExec s) = tbl -> idxVals (sExec s) = (pre ++ d :: post)%list ->
       result (Next env s) = None /\ sReq (state (Next env s)) = [] /\
       events (Next env s) = []).
Proof.
  split; [|split].
  - intros ctx tbl tblName nvPairs cn d col dVal e Hnull Hview Htbl Hcol Hbin
      Hconv Hcvt Hov.
    cbn [getNameValuePairs getNameValuePairsOf]. unfold equalityPair.
    cbn [constantOperand]. rewrite Hnull, Hview.
    destruct (eqs (L (cnTable cn)) ""), (eqs (L (cnTable cn)) (L tblName));
      try discriminate; cbn [negb andb]; rewrite Hcol; cbv zeta;
      rewrite Hbin, Hconv; cbn [negb]; rewrite Hcvt, Hov; reflexivity.
  - intros ctx selStmt check tblName tblAlias tbl schema names pairs latest check'
      Hclauses Hfrom Htbl Hcols Hschema Hpairs Hpart Hlatest dual handlePair.
    split; [reflexivity|].
    unfold tryPointGetPlan.
    rewrite Hclauses, Hfrom, Htbl, Hcols, Hschema, Hpairs, Hpart.
    rewrite andb_false_r. unfold resolveKey.
    subst handlePair.
    destruct (findPKHandle tbl (default [] pairs)) as [hp ft]. cbn [fst].
    destruct (negb (DatumKind_eqb (Kind (nvValue hp)) KindNull)); cbn [andb].
    + destruct (Nat.eqb (length (default [] pairs)) 1 &&
                indexIsAvailableByHints None (tnIndexHints tblName)); reflexivity.
    + unfold checkTblIndexForPointPlan. cbn [rbind]. rewrite Htbl.
      apply (PlannerProofs.checkIndexLoop_dual ctx tblName tbl _ schema names
               (default [] pairs) None 0%nat (checkMode ctx check) latest check'
               Hlatest (tblIndices tbl) (checkMode ctx check) None).
      left. split; reflexivity.
  - intros env tbl idx pre post pre' d d' ic colInfo err Hpre Hic Hcol Hbranch
      Hcast Herr.
    assert (Henc : encodeIndexValue env colInfo d = (d', Some ErrNotExist)).
    { rewrite (PointGetProofs.encodeIndexValue_cast env colInfo d Hbranch).
      rewrite Hcast, Herr. reflexivity. }
    assert (E : EncodeUniqueIndexValuesForKey env tbl idx (pre ++ d :: post) =
                ((pre' ++ d' :: post)%list, ("", Some ErrNotExist))).
    { unfold EncodeUniqueIndexValuesForKey.
      rewrite (PointGetProofs.encodeIndexValues_stops env tbl idx pre 0%nat d post
                 pre' ic colInfo d' ErrNotExist Hpre Hic Hcol Henc).
      reflexivity. }
    split; [exact E|].
    intros s Hd Hi Ht Hv.
    apply (PointGetProofs.Next_not_exist env s idx Hd Hi).
    rewrite Ht, Hv, E. reflexivity.
Qed.

(** *** Instances *)

(** C3 on [select * from t2 where a = 1000] and on the executor of
    [select * from t3 where a = 1000], [a] being a tinyint. *)
Lemma C3_overflow_means_no_row_witness :
  let cond := Examples.eqExpr "a" 1000 in
  let stmt := Examples.selectWhere Examples.tblTiny [] [] cond in
  let env := Examples.staleEnv false false in
  let s := Examples.initialState (Examples.planByTiny 1000) in
  getNameValuePairs Examples.plainCtx Examples.tblTiny (tblName Examples.tblTiny)
    [] (Some cond) =
    (Some [mkPair "a" (Some (Examples.tinyType PriKeyFlag)) (NewIntDatum 1000) None],
     true) /\
  (exists p, tryPointGetPlan Examples.plainCtx stmt false = Ok (Some p) /\
             pIsTableDual p = true) /\
  result (Next env s) = None /\ sReq (state (Next env s)) = [] /\
  events (Next env s) = [].
Proof.
  cbv zeta.
  destruct C3_overflow_means_no_row as (Hpair & Hplan & Hexec).
  split; [|split].
  - exact (Hpair Examples.plainCtx Examples.tblTiny (tblName Examples.tblTiny) []
             (mkColumnName Examples.noName Examples.noName (NewCIStr "a"))
             (NewIntDatum 1000) Examples.colTiny (NewIntDatum 1000) ErrOverflow
             eq_refl eq_refl eq_refl eq_refl eq_refl eq_refl eq_refl eq_refl).
  - epose proof (Hplan Examples.plainCtx
                   (Examples.selectWhere Examples.tblTiny [] []
                      (Examples.eqExpr "a" 1000))
                   false
                   (mkTableName Examples.noName (tblName Examples.tblTiny)
                      (Some Examples.tblTiny) [] [])
                   (tblName Examples.tblTiny) Examples.tblTiny _ _
                   (Some [mkPair "a" (Some (Examples.tinyType PriKeyFlag))
                            (NewIntDatum 1000) None])
                   None false eq_refl eq_refl eq_refl eq_refl eq_refl eq_refl
                   eq_refl eq_refl) as H.
    cbv zeta in H. destruct H as [Hdual Hres].
    eexists. split; [exact Hres|exact Hdual].
  - destruct (Hexec (Examples.staleEnv false false) Examples.tblTinyKey
                Examples.idxA [] [] [] (NewIntDatum 1000) (NewIntDatum 1000)
                (mkIndexColumn (NewCIStr "a") 0 UnspecifiedLength)
                Examples.colTiny0 ErrOverflow
                eq_refl eq_refl eq_refl eq_refl eq_refl eq_refl)
      as [_ Hnext].
    exact (Hnext (Examples.initialState (Examples.planByTiny 1000))
             eq_refl eq_refl eq_refl eq_refl).
Defined.

End OverflowProofs.

(** ** The executor, path by path *)

Module PointGetPaths.
Import Model PointGet PointGetSpec ExecutorSpec.
Import PointGetProofs.

Section Executor.
Context (env : Env).

(** [readRow], path by path. *)
Lemma readRow_unfold tid s :
  readRow env tid s =
  let e := sExec s in
  let key := EncodeRowKeyWithHandle env tid (handle e) in
  let g := getAndLock env key s in
  match result g with
  | (_, Some err) => (Some err, state g, events g)
  | (val, None) =>
      if isEmpty val then
        match idxInfo e with
        | Some idx =>
            if negb (isCommonHandleRead env (tblInfo e) idx) &&
               negb (WeakConsistency env)
            then (ReportLookupInconsistent env (tblInfo e) idx (handle e) key
                    (idxKey e),
                  state g, (events g ++ [EvReport key (idxKey e)])%list)
            else (None, state g, events g)
        | None => (None, state g, events g)
        end
      else
        match DecodeRowValToChunk env (schema e) (tblInfo e) (handle e) val with
        | inl err => (Some err, state g, events g)
        | inr row =>
            let filled := fillVirtualRows env (schema e) (columns e)
                            (sReq (state g) ++ [row]) in
            (snd filled, with_req (fun _ => fst filled) (state g), events g)
        end
  end.
Proof.
  unfold readRow. cbv zeta.
  rewrite bind_through; msimpl. rewrite through_nil.
  rewrite bind_through.
  set (g := getAndLock env _ s).
  destruct (result g) as [val [err|]].
  { unfold through; msimpl. rewrite app_nil_r. reflexivity. }
  destruct (isEmpty val).
  { destruct (idxInfo (sExec s)) as [idx|].
    - destruct (negb _ && negb _).
      + rewrite bind_through; msimpl. unfold through; msimpl. reflexivity.
      + unfold through; msimpl. rewrite app_nil_r. reflexivity.
    - unfold through; msimpl. rewrite app_nil_r. reflexivity. }
  destruct (DecodeRowValToChunk env _ _ _ val) as [err|row].
  { unfold through; msimpl. rewrite app_nil_r. reflexivity. }
  rewrite bind_through; msimpl. rewrite through_nil.
  rewrite bind_through; msimpl. rewrite through_nil.
  cbn [with_req sReq].
  destruct (fillVirtualRows env _ _ _) as [rows ferr].
  rewrite bind_through; msimpl. unfold through; msimpl.
  rewrite app_nil_r. destruct (state g); reflexivity.
Qed.

(** The executor state matters to [get] through its lock flag, its table
    and the lock cache only. *)
Lemma get_congr key s s' :
  lock (sExec s') = lock (sExec s) -> tblInfo (sExec s') = tblInfo (sExec s) ->
  sLockCache s' = sLockCache s ->
  result (get env key s') = result (get env key s) /\
  events (get env key s') = events (get env key s).
Proof.
  intros Hl Ht Hc.
  assert (Hsnap : result (snapshotRead env key s') = result (snapshotRead env key s) /\
                  events (snapshotRead env key s') = events (snapshotRead env key s)).
  { unfold snapshotRead. rewrite !bind_result, !bind_events; msimpl. rewrite Ht.
    destruct (match tblLock (tblInfo (sExec s)) with
              | Some TableLockRead | Some TableLockReadOnly =>
                  EnablePointGetCache env
              | _ => false
              end).
    - rewrite !bind_result, !bind_events; msimpl.
      destruct (unionGet env _ key) as [v [err|]]; split; reflexivity.
    - rewrite !bind_result, !bind_events; msimpl. split; reflexivity. }
  unfold get. destruct (isEmpty key); [split; reflexivity|].
  destruct (txnValid env && negb (txnIsReadOnly env)); [|exact Hsnap].
  rewrite !bind_result, !bind_events; msimpl.
  destruct (memBufferGet env key) as [v [err|]]; [|split; reflexivity].
  destruct (negb (isErrNotExist err)); [split; reflexivity|].
  rewrite !bind_result, !bind_events; msimpl. rewrite Hl.
  destruct (lock (sExec s)); [|destruct Hsnap as [-> ->]; split; reflexivity].
  rewrite !bind_result, !bind_events; msimpl. rewrite Hc.
  destruct (sLockCache s !! key); [split; reflexivity|].
  destruct Hsnap as [-> ->]. split; reflexivity.
Qed.

Lemma get_eq key s :
  get env key s = (result (get env key s), s, events (get env key s)).
Proof.
  rewrite <- (get_state env key s) at 3.
  destruct (get env key s) as [[r s'] t]. reflexivity.
Qed.

(** Without a lock flag, [getAndLock] is a plain read. *)
Lemma getAndLock_unlocked key s :
  lock (sExec s) = false ->
  getAndLock env key s =
    (absentAsEmpty (result (get env key s)), s, events (get env key s)).
Proof.
  intros Hl. unfold getAndLock.
  assert (Hget : bind (get env key)
                   (fun r => match r with
                             | (_, Some err) =>
                                 if negb (isErrNotExist err) then ret ("", Some err)
                                 else ret ("", None)
                             | (val, None) => ret (val, None)
                             end) s =
                 (absentAsEmpty (result (get env key s)), s,
                  events (get env key s))).
  { rewrite bind_through. rewrite (get_state env key s).
    destruct (result (get env key s)) as [v [err|]]; cbn [absentAsEmpty].
    - destruct (isErrNotExist err); unfold through; msimpl;
        rewrite app_nil_r; reflexivity.
    - unfold through; msimpl. rewrite app_nil_r. reflexivity. }
  destruct (IsPessimisticReadConsistency env).
  - rewrite bind_through; msimpl. rewrite through_nil, Hl. exact Hget.
  - rewrite bind_through.
    rewrite (lockKeyIfNeeded_unlocked env key s Hl). msimpl.
    rewrite through_nil. exact Hget.
Qed.

Lemma fillVirtualRows_one sch cols row :
  fillVirtualRows env sch cols [row] =
    match FillVirtualColumnValue env sch cols row with
    | inl err => ([row], Some err)
    | inr row' => ([row'], None)
    end.
Proof.
  cbn. destruct (FillVirtualColumnValue env sch cols row); reflexivity.
Qed.

(** X1: point get by handle, without lock.  The first [Next] makes the
    calls of one [get] on the row key and nothing else: a missing key or
    an empty value gives an empty chunk and no error, any other error of
    the read is returned, and a value is decoded into one row whose
    virtual columns are then filled.  The lock cache, the session's
    delta and the handle stay as they were. *)
Theorem Next_by_handle_unlocked (s : St) :
  done (sExec s) = false ->
  idxInfo (sExec s) = None ->
  lock (sExec s) = false ->
  let e := sExec s in
  let key := EncodeRowKeyWithHandle env (tableID s) (handle e) in
  let g := get env key s in
  let r := Next env s in
  events r = events g /\
  (result r, sReq (state r)) = rowOutcome env e (result g) /\
  sLockCache (state r) = sLockCache s /\
  sDelta (state r) = sDelta s /\
  handle (sExec (state r)) = handle e.
Proof.
  intros Hd Hi Hl. cbv zeta.
  rewrite (Next_unfold env s Hd). cbv zeta. rewrite Hi.
  rewrite readRow_unfold. cbv zeta.
  assert (Hp : prologue s = with_exec (set_done true) (with_req (fun _ => []) s)).
  { unfold prologue. rewrite Hl. reflexivity. }
  assert (Hl' : lock (sExec (prologue s)) = false) by (rewrite Hp; exact Hl).
  rewrite (getAndLock_unlocked _ _ Hl'). msimpl.
  assert (Hh : handle (sExec (prologue s)) = handle (sExec s)) by (rewrite Hp; reflexivity).
  rewrite Hh.
  destruct (get_congr (EncodeRowKeyWithHandle env (tableID s) (handle (sExec s)))
              s (prologue s)) as [Hr He];
    [rewrite Hp; reflexivity|rewrite Hp; reflexivity|rewrite Hp; reflexivity|].
  rewrite Hr, He. unfold rowOutcome.
  destruct (absentAsEmpty _) as [val [err|]].
  { rewrite Hp. repeat split. }
  destruct (isEmpty val).
  { rewrite Hp. cbn. rewrite Hi. repeat split. }
  unfold decodedRow.
  replace (schema (sExec (prologue s))) with (schema (sExec s)) by (rewrite Hp; reflexivity).
  replace (tblInfo (sExec (prologue s))) with (tblInfo (sExec s)) by (rewrite Hp; reflexivity).
  replace (columns (sExec (prologue s))) with (columns (sExec s)) by (rewrite Hp; reflexivity).
  destruct (DecodeRowValToChunk env _ _ _ val) as [err|row].
  { rewrite Hp. repeat split. }
  replace (sReq (prologue s)) with (@nil Row) by (rewrite Hp; reflexivity).
  cbn [app]. rewrite fillVirtualRows_one.
  destruct (FillVirtualColumnValue env _ _ row); rewrite Hp; repeat split.
Qed.

(** Without a lock flag, the read of the index entry is a plain read
    under both isolation levels. *)
Lemma readIndexEntry_unlocked s :
  lock (sExec s) = false ->
  readIndexEntry env s =
    let g := get env (idxKey (sExec s)) s in
    (snd (absentAsEmpty (result g)),
     with_exec (set_handleVal (fst (result g))) s, events g).
Proof.
  intros Hl. unfold readIndexEntry. cbv zeta.
  rewrite bind_through; msimpl. rewrite through_nil.
  assert (Hget : bind (get env (idxKey (sExec s)))
                   (fun r =>
                      bind (modify (with_exec (set_handleVal (fst r))))
                        (fun _ => match snd r with
                                  | Some err =>
                                      if negb (isErrNotExist err) then ret (Some err)
                                      else ret None
                                  | None => ret None
                                  end)) s =
                 (snd (absentAsEmpty (result (get env (idxKey (sExec s)) s))),
                  with_exec (set_handleVal (fst (result (get env (idxKey (sExec s)) s)))) s,
                  events (get env (idxKey (sExec s)) s))).
  { rewrite bind_through. rewrite (get_state env _ s).
    rewrite bind_through; msimpl. rewrite through_nil.
    destruct (result (get env (idxKey (sExec s)) s)) as [v [err|]];
      cbn [absentAsEmpty fst snd].
    - destruct (isErrNotExist err); unfold through; msimpl;
        rewrite app_nil_r; reflexivity.
    - unfold through; msimpl. rewrite app_nil_r. reflexivity. }
  destruct (IsPessimisticReadConsistency env); cbn [negb].
  - rewrite Hl. exact Hget.
  - rewrite bind_through.
    rewrite (lockKeyIfNeeded_unlocked env _ s Hl). msimpl.
    rewrite through_nil. exact Hget.
Qed.

(** X2: point get through a unique index, without lock: the index entry
    gives the handle, the handle gives the row. *)
Theorem Next_by_index_unlocked (s : St) (idx : IndexInfo) (vals' : list Datum)
    (ikey hv val : string) (h : Handle) (rtid : Z) :
  let e := sExec s in
  done e = false ->
  idxInfo e = Some idx ->
  isCommonHandleRead env (tblInfo e) idx = false ->
  lock e = false ->
  EncodeUniqueIndexKey env (tblInfo e) idx (idxVals e) (tableID s) =
    (vals', (ikey, None)) ->
  result (get env ikey s) = (hv, None) ->
  isEmpty hv = false ->
  DecodeHandleInUniqueIndexValue env hv (tblIsCommonHandle (tblInfo e)) = inr h ->
  (if idxGlobal idx then DecodePartitionID env hv else inr (tableID s)) = inr rtid ->
  let rkey := EncodeRowKeyWithHandle env rtid (Some h) in
  absentAsEmpty (result (get env rkey s)) = (val, None) ->
  isEmpty val = false ->
  let r := Next env s in
  events r = (events (get env ikey s) ++ events (get env rkey s))%list /\
  (result r, sReq (state r)) = decodedRow env (set_handle (Some h) e) val /\
  handle (sExec (state r)) = Some h /\
  handleVal (sExec (state r)) = hv /\
  idxKey (sExec (state r)) = ikey /\
  sLockCache (state r) = sLockCache s /\
  sDelta (state r) = sDelta s.
Proof.
  cbv zeta. intros Hd Hi Hc Hl Henc Hg1 Hhv Hdec Hrt Hg2 Hval.
  rewrite (Next_unfold env s Hd). cbv zeta. rewrite Hi, Hc, Henc.
  assert (Hp : prologue s = with_exec (set_done true) (with_req (fun _ => []) s)).
  { unfold prologue. rewrite Hl. reflexivity. }
  set (s1 := with_exec (fun e => set_idxKey ikey (set_idxVals vals' e)) (prologue s)).
  assert (Hl1 : lock (sExec s1) = false) by (unfold s1; rewrite Hp; exact Hl).
  rewrite (readIndexEntry_unlocked s1 Hl1). cbv zeta. msimpl.
  change (idxKey (sExec s1)) with ikey.
  destruct (get_congr ikey s s1) as [Hr1 He1];
    [unfold s1; rewrite Hp; reflexivity|unfold s1; rewrite Hp; reflexivity|
     unfold s1; rewrite Hp; reflexivity|].
  rewrite Hr1, He1, Hg1. cbn [absentAsEmpty fst snd].
  cbn [with_exec sExec set_handleVal handleVal]. rewrite Hhv.
  replace (tblInfo (sExec (prologue s))) with (tblInfo (sExec s))
    by (rewrite Hp; reflexivity).
  rewrite Hdec.
  set (s2 := with_exec (set_handle (Some h)) (with_exec (set_handleVal hv) s1)).
  assert (Hrow : through (events (get env ikey s)) (readRow env rtid s2) =
                 (fst (decodedRow env (set_handle (Some h) (sExec s)) val),
                  with_req (fun _ => snd (decodedRow env (set_handle (Some h) (sExec s)) val)) s2,
                  (events (get env ikey s) ++
                   events (get env (EncodeRowKeyWithHandle env rtid (Some h)) s))%list)).
  { rewrite readRow_unfold. cbv zeta.
    assert (Hl2 : lock (sExec s2) = false) by (unfold s2, s1; rewrite Hp; exact Hl).
    change (handle (sExec s2)) with (Some h).
    rewrite (getAndLock_unlocked _ _ Hl2). msimpl.
    destruct (get_congr (EncodeRowKeyWithHandle env rtid (Some h)) s s2) as [Hr2 He2];
      [unfold s2, s1; rewrite Hp; reflexivity|unfold s2, s1; rewrite Hp; reflexivity|
       unfold s2, s1; rewrite Hp; reflexivity|].
    rewrite Hr2, He2, Hg2, Hval. unfold decodedRow.
    change (schema (sExec s2)) with (schema (sExec (prologue s))).
    change (tblInfo (sExec s2)) with (tblInfo (sExec (prologue s))).
    change (columns (sExec s2)) with (columns (sExec (prologue s))).
    change (sReq s2) with (sReq (prologue s)).
    rewrite Hp.
    cbn [with_exec with_req sExec sReq set_done set_handle schema tblInfo columns handle app].
    destruct (DecodeRowValToChunk env _ _ _ val) as [err|row].
    { unfold through; msimpl. unfold s2, s1. rewrite Hp. reflexivity. }
    rewrite fillVirtualRows_one.
    destruct (FillVirtualColumnValue env _ _ row);
      unfold through; msimpl; reflexivity. }
  assert (Hfinal : (if idxGlobal idx
                    then match DecodePartitionID env hv with
                         | inl err => (Some err, s2, events (get env ikey s))
                         | inr pid => through (events (get env ikey s))
                                        (readRow env pid s2)
                         end
                    else through (events (get env ikey s))
                           (readRow env (tableID s) s2)) =
                   through (events (get env ikey s)) (readRow env rtid s2)).
  { destruct (idxGlobal idx).
    - rewrite Hrt. reflexivity.
    - injection Hrt as <-. reflexivity. }
  fold s2. rewrite Hfinal, Hrow. msimpl.
  destruct (decodedRow env (set_handle (Some h) (sExec s)) val) as [er rows].
  cbn [fst snd]. unfold s2, s1. rewrite Hp. repeat split.
Qed.

(** [lockKeyBase] on an executor that locks, path by path. *)
Lemma lockKeyBase_locked key b s :
  isEmpty key = false ->
  lock (sExec s) = true ->
  lockKeyBase env key b s =
    let w := lockWaitTime (sExec s) in
    match newLockCtx env w with
    | Some err => (("", Some err), s, [])
    | None =>
        match doLockKeys env w b key with
        | inl err => (("", Some err), s, [EvLock key b w])
        | inr values =>
            let s' := with_cache (cacheAfterLock (sExec s) values) s in
            if b then through [EvLock key b w] (getValueFromLockCtx env values key s')
            else (("", None), s', [EvLock key b w])
        end
    end.
Proof.
  intros Hk Hl. unfold lockKeyBase. rewrite Hk. cbv zeta.
  rewrite bind_through; msimpl. rewrite through_nil, Hl.
  destruct (newLockCtx env _); [reflexivity|].
  rewrite bind_through; msimpl.
  destruct (doLockKeys env _ b key) as [err|values]; [reflexivity|].
  rewrite bind_through; msimpl. rewrite through_nil.
  rewrite bind_through.
  assert (Hs : forall s0 : St,
            (if negb (isEmpty (handleVal (sExec s)))
             then modify (with_cache (fun c => <[idxKey (sExec s) := handleVal (sExec s)]> c))
             else ret ()) (with_cache (cacheValuesNotLocked values) s0) =
            ((), with_cache (cacheAfterLock (sExec s) values) s0, [])).
  { intros s0. unfold cacheAfterLock.
    destruct (negb (isEmpty (handleVal (sExec s)))); destruct s0; reflexivity. }
  rewrite Hs. msimpl. rewrite through_nil.
  destruct b; [reflexivity|]. reflexivity.
Qed.

(** A failed lock request ends [getAndLock] before any read. *)
Lemma getAndLock_lock_failure key s err :
  isEmpty key = false ->
  lock (sExec s) = true ->
  lockFails env (lockWaitTime (sExec s)) (IsPessimisticReadConsistency env) key err ->
  result (getAndLock env key s) = ("", Some err) /\
  state (getAndLock env key s) = s /\
  (events (getAndLock env key s) = [] \/
   events (getAndLock env key s) =
     [EvLock key (IsPessimisticReadConsistency env) (lockWaitTime (sExec s))]).
Proof.
  intros Hk Hl Hfail. unfold getAndLock.
  destruct (IsPessimisticReadConsistency env) eqn:Hrc.
  - rewrite bind_through; msimpl. rewrite through_nil, Hl.
    rewrite bind_through. unfold lockKeyIfExists.
    rewrite (lockKeyBase_locked key true s Hk Hl). cbv zeta.
    destruct Hfail as [-> | [-> ->]]; unfold through; msimpl; auto.
  - rewrite bind_through. unfold lockKeyIfNeeded.
    rewrite bind_through.
    rewrite (lockKeyBase_locked key false s Hk Hl). cbv zeta.
    destruct Hfail as [-> | [-> ->]]; unfold through; msimpl; auto.
Qed.

(** X3: a failed lock request ends [Next] with that error before anything
    is read. *)
Theorem Next_lock_failure (s : St) (key : string) (err : error) :
  done (sExec s) = false ->
  lock (sExec s) = true ->
  firstKey env s = Some key ->
  isEmpty key = false ->
  lockFails env (lockWaitTime (sExec s)) (IsPessimisticReadConsistency env) key err ->
  let r := Next env s in
  result r = Some err /\ sReq (state r) = [] /\
  sLockCache (state r) = sLockCache s /\
  (events r = [] \/
   events r = [EvLock key (IsPessimisticReadConsistency env)
                 (lockWaitTime (sExec s))]).
Proof.
  intros Hd Hl Hfirst Hk Hfail. cbv zeta.
  rewrite (Next_unfold env s Hd). cbv zeta.
  assert (Hp : prologue s =
               with_delta (fun l => (l ++ [tableID s])%list)
                 (with_exec (set_done true) (with_req (fun _ => []) s))).
  { unfold prologue. rewrite Hl. reflexivity. }
  unfold firstKey in Hfirst.
  destruct (idxInfo (sExec s)) as [idx|] eqn:Hi.
  - destruct (isCommonHandleRead env (tblInfo (sExec s)) idx); [discriminate|].
    destruct (EncodeUniqueIndexKey env _ idx _ _) as [vals [ikey [e0|]]];
      [discriminate|].
    injection Hfirst as ->. cbv zeta.
    set (s1 := with_exec (fun e => set_idxKey key (set_idxVals vals e)) (prologue s)).
    assert (Hl1 : lock (sExec s1) = true) by (unfold s1; rewrite Hp; exact Hl).
    assert (Hw1 : lockWaitTime (sExec s1) = lockWaitTime (sExec s))
      by (unfold s1; rewrite Hp; reflexivity).
    assert (Hri : result (readIndexEntry env s1) = Some err /\
                  sReq (state (readIndexEntry env s1)) = sReq s1 /\
                  sLockCache (state (readIndexEntry env s1)) = sLockCache s1 /\
                  (events (readIndexEntry env s1) = [] \/
                   events (readIndexEntry env s1) =
                     [EvLock key (IsPessimisticReadConsistency env)
                        (lockWaitTime (sExec s))])).
    { unfold readIndexEntry. cbv zeta.
      rewrite bind_through; msimpl. rewrite through_nil.
      change (idxKey (sExec s1)) with key.
      destruct (IsPessimisticReadConsistency env) eqn:Hrc; cbn [negb].
      - rewrite Hl1. rewrite bind_through. unfold lockKeyIfExists.
        rewrite (lockKeyBase_locked key true s1 Hk Hl1). cbv zeta. rewrite Hw1.
        destruct Hfail as [-> | [-> ->]]; msimpl;
          rewrite bind_through; unfold through; msimpl; auto.
      - rewrite bind_through. unfold lockKeyIfNeeded. rewrite bind_through.
        rewrite (lockKeyBase_locked key false s1 Hk Hl1). cbv zeta. rewrite Hw1.
        destruct Hfail as [-> | [-> ->]]; unfold through; msimpl; auto. }
    destruct Hri as (Hr & Hq & Hc & He). rewrite Hr.
    msimpl. split; [reflexivity|].
    split; [rewrite Hq; unfold s1; rewrite Hp; reflexivity|].
    split; [rewrite Hc; unfold s1; rewrite Hp; reflexivity|exact He].
  - injection Hfirst as <-.
    rewrite readRow_unfold. cbv zeta.
    assert (Hl1 : lock (sExec (prologue s)) = true) by (rewrite Hp; exact Hl).
    assert (Hh : handle (sExec (prologue s)) = handle (sExec s))
      by (rewrite Hp; reflexivity).
    rewrite Hh.
    destruct (getAndLock_lock_failure _ (prologue s) err Hk Hl1) as (Hr & Hs & He).
    { rewrite Hp. exact Hfail. }
    rewrite Hr, Hs. msimpl.
    split; [reflexivity|]. split; [rewrite Hp; reflexivity|].
    split; [rewrite Hp; reflexivity|].
    replace (lockWaitTime (sExec (prologue s))) with (lockWaitTime (sExec s)) in He
      by (rewrite Hp; reflexivity).
    exact He.
Qed.

(** X4: under read committed with a lock, the value of a key comes with
    the answer to the lock request, sent with [LockOnlyIfExists]: the
    value of the answer when the key exists, a [get] when the answer
    says the key does not exist but is already locked, the empty value
    otherwise.  The lock cache takes the values not already locked and
    the index entry the executor holds. *)
Theorem getAndLock_lock_only_if_exists (key : string) (s : St)
    (values : gmap string ReturnedValue) :
  let w := lockWaitTime (sExec s) in
  let s' := with_cache (cacheAfterLock (sExec s) values) s in
  let g := getAndLock env key s in
  IsPessimisticReadConsistency env = true ->
  lock (sExec s) = true ->
  isEmpty key = false ->
  newLockCtx env w = None ->
  doLockKeys env w true key = inr values ->
  state g = s' /\
  match values !! key with
  | Some rv =>
      if rvExists rv then
        result g = (rvValue rv, None) /\ events g = [EvLock key true w]
      else if rvAlreadyLocked rv then
        result g = absentAsEmpty (result (get env key s')) /\
        events g = EvLock key true w :: events (get env key s')
      else result g = ("", None) /\ events g = [EvLock key true w]
  | None => result g = ("", None) /\ events g = [EvLock key true w]
  end.
Proof.
  cbv zeta. intros Hrc Hl Hk Hctx Hlock.
  unfold getAndLock. rewrite Hrc.
  rewrite bind_through; msimpl. rewrite through_nil, Hl.
  rewrite bind_through. unfold lockKeyIfExists.
  rewrite (lockKeyBase_locked key true s Hk Hl). cbv zeta.
  rewrite Hctx, Hlock.
  set (s' := with_cache (cacheAfterLock (sExec s) values) s).
  unfold getValueFromLockCtx.
  destruct (values !! key) as [rv|].
  - destruct (rvExists rv).
    + unfold through; msimpl. repeat split.
    + destruct (rvAlreadyLocked rv).
      * rewrite bind_through. rewrite (get_state env key s').
        destruct (result (get env key s')) as [v [err|]]; cbn [absentAsEmpty].
        -- destruct (isErrNotExist err); unfold through; msimpl;
             rewrite !app_nil_r; repeat split.
        -- unfold through; msimpl. rewrite !app_nil_r. repeat split.
      * unfold through; msimpl. repeat split.
  - unfold through; msimpl. repeat split.
Qed.

(** What the lock cache holds once the values of a lock response that
    were not already locked have been stored. *)
Lemma cacheValuesNotLocked_lookup values cache k :
  cacheValuesNotLocked values cache !! k =
    match values !! k with
    | Some rv => if rvAlreadyLocked rv then cache !! k else Some (rvValue rv)
    | None => cache !! k
    end.
Proof.
  unfold cacheValuesNotLocked.
  apply (map_fold_weak_ind
           (fun (c : gmap string string) (m : gmap string ReturnedValue) =>
              c !! k = match m !! k with
                       | Some rv => if rvAlreadyLocked rv then cache !! k
                                    else Some (rvValue rv)
                       | None => cache !! k
                       end)).
  - rewrite lookup_empty. reflexivity.
  - intros i x m c Hi IH.
    destruct (decide (i = k)) as [->|Hne].
    + rewrite lookup_insert_eq.
      destruct (rvAlreadyLocked x).
      * rewrite IH, Hi. reflexivity.
      * rewrite lookup_insert_eq. reflexivity.
    + rewrite (lookup_insert_ne m i k x Hne).
      destruct (rvAlreadyLocked x); [exact IH|].
      rewrite lookup_insert_ne by exact Hne. exact IH.
Qed.

(** X5: under repeatable read with a lock, the key is locked first and
    the value the lock response carries is then read from the lock
    cache, not from the store. *)
Theorem getAndLock_reads_locked_value (key : string) (s : St)
    (values : gmap string ReturnedValue) (rv : ReturnedValue) (v0 : string)
    (err : error) :
  let w := lockWaitTime (sExec s) in
  let g := getAndLock env key s in
  IsPessimisticReadConsistency env = false ->
  lock (sExec s) = true ->
  isEmpty key = false ->
  newLockCtx env w = None ->
  doLockKeys env w false key = inr values ->
  values !! key = Some rv ->
  rvAlreadyLocked rv = false ->
  isEmpty (handleVal (sExec s)) = true \/ idxKey (sExec s) <> key ->
  txnValid env && negb (txnIsReadOnly env) = true ->
  memBufferGet env key = (v0, Some err) ->
  isErrNotExist err = true ->
  result g = (rvValue rv, None) /\
  events g = [EvLock key false w; EvMemBufferGet key; EvLockCacheGet key] /\
  sLockCache (state g) !! key = Some (rvValue rv).
Proof.
  cbv zeta. intros Hrc Hl Hk Hctx Hlock Hv Hal Hidx Htxn Hmem Hne.
  unfold getAndLock. rewrite Hrc.
  rewrite bind_through. unfold lockKeyIfNeeded. rewrite bind_through.
  rewrite (lockKeyBase_locked key false s Hk Hl). cbv zeta.
  rewrite Hctx, Hlock. cbn [through result state events ret fst snd app].
  set (s' := with_cache (cacheAfterLock (sExec s) values) s).
  assert (Hcache : sLockCache s' !! key = Some (rvValue rv)).
  { unfold s', cacheAfterLock. cbn [with_cache sLockCache].
    assert (Hc : cacheValuesNotLocked values (sLockCache s) !! key =
                 Some (rvValue rv)).
    { rewrite cacheValuesNotLocked_lookup, Hv, Hal. reflexivity. }
    destruct Hidx as [He | Hne'].
    - rewrite He. exact Hc.
    - destruct (negb (isEmpty (handleVal (sExec s)))); [|exact Hc].
      rewrite lookup_insert_ne by exact Hne'. exact Hc. }
  assert (Hget : get env key s' =
                 ((rvValue rv, None), s', [EvMemBufferGet key; EvLockCacheGet key])).
  { unfold get. rewrite Hk, Htxn.
    rewrite bind_through; msimpl. rewrite Hmem, Hne. cbn [negb].
    rewrite bind_through; msimpl. rewrite through_nil.
    change (lock (sExec s')) with (lock (sExec s)). rewrite Hl.
    rewrite bind_through; msimpl. rewrite Hcache. reflexivity. }
  rewrite bind_through, Hget. cbn [through result state events ret fst snd app].
  repeat split. exact Hcache.
Qed.

(** *** What a call leaves in the session *)

Lemma readRow_delta tid s : sDelta (state (readRow env tid s)) = sDelta s.
Proof.
  rewrite readRow_unfold. cbv zeta.
  set (g := getAndLock env _ s).
  assert (Hg : sDelta (state g) = sDelta s).
  { destruct (getAndLock_same env (EncodeRowKeyWithHandle env tid (handle (sExec s))) s)
      as (_ & _ & H). exact H. }
  destruct (result g) as [val [err|]]; [exact Hg|].
  destruct (isEmpty val).
  { destruct (idxInfo (sExec s)) as [idx|]; [|exact Hg].
    destruct (negb _ && negb _); exact Hg. }
  destruct (DecodeRowValToChunk env _ _ _ val); exact Hg.
Qed.

Lemma readIndexEntry_delta s :
  sDelta (state (readIndexEntry env s)) = sDelta s.
Proof.
  unfold readIndexEntry. cbv zeta.
  rewrite bind_state; msimpl.
  destruct (IsPessimisticReadConsistency env); cbn [negb].
  - destruct (lock (sExec s)).
    + rewrite !bind_state; msimpl. cbn [with_exec sDelta].
      destruct (lockKeyBase_same env (idxKey (sExec s)) true s) as (_ & _ & H).
      exact H.
    + rewrite !bind_state; msimpl. rewrite get_state.
      destruct (snd (result (get env (idxKey (sExec s)) s))) as [err|].
      * destruct (negb (isErrNotExist err)); reflexivity.
      * reflexivity.
  - rewrite bind_state.
    destruct (lockKeyIfNeeded_same env (idxKey (sExec s)) s) as (_ & _ & Hd).
    destruct (result (lockKeyIfNeeded env (idxKey (sExec s)) s)) as [err|].
    + exact Hd.
    + rewrite !bind_state; msimpl. rewrite get_state.
      destruct (snd (result (get env (idxKey (sExec s)) _))) as [err|].
      * destruct (negb (isErrNotExist err)); exact Hd.
      * exact Hd.
Qed.

(** The first call records the table id once, when the executor locks;
    nothing else touches the list. *)
Lemma Next_delta s :
  sDelta (state (Next env s)) =
    if done (sExec s) then sDelta s else sDelta (prologue s).
Proof.
  destruct (done (sExec s)) eqn:Hd.
  { rewrite (Next_done env s Hd). reflexivity. }
  rewrite (Next_unfold env s Hd). cbv zeta.
  destruct (idxInfo (sExec s)) as [idx|]; [|apply readRow_delta].
  destruct (isCommonHandleRead env (tblInfo (sExec s)) idx).
  - destruct (EncodeUniqueIndexValuesForKey env _ idx _) as [vals [hb [err|]]];
      [reflexivity|].
    destruct (NewCommonHandle env hb); [reflexivity|].
    rewrite readRow_delta. reflexivity.
  - destruct (EncodeUniqueIndexKey env _ idx _ _) as [vals [key err]]. cbv zeta.
    match goal with |- context [if ?c then _ else _] => destruct c end;
      [reflexivity|].
    set (s1 := with_exec _ (prologue s)).
    assert (Hri : sDelta (state (readIndexEntry env s1)) = sDelta (prologue s)).
    { rewrite readIndexEntry_delta. reflexivity. }
    destruct (result (readIndexEntry env s1)); [exact Hri|].
    destruct (isEmpty _); [exact Hri|].
    destruct (DecodeHandleInUniqueIndexValue env _ _) as [e0|iv]; [exact Hri|].
    destruct (idxGlobal idx).
    + destruct (DecodePartitionID env _) as [e0|pid]; [exact Hri|].
      rewrite through_state, readRow_delta. exact Hri.
    + rewrite through_state, readRow_delta. exact Hri.
Qed.

Lemma NextTimes_S n s :
  NextTimes env (S n) s =
    (result (Next env s) :: result (NextTimes env n (state (Next env s))),
     state (NextTimes env n (state (Next env s))),
     (events (Next env s) ++ events (NextTimes env n (state (Next env s))))%list).
Proof.
  cbn [NextTimes]. destruct (Next env s) as [[r s1] t1].
  cbn [result state events fst snd].
  destruct (NextTimes env n s1) as [[rs s2] t2]. reflexivity.
Qed.

(** X6: over any number of calls, the table id is recorded for the
    session's delta exactly once, and only by an executor that locks. *)
Theorem NextTimes_delta_once (s : St) (n : nat) :
  done (sExec s) = false ->
  sDelta (state (NextTimes env (S n) s)) =
    (sDelta s ++ if lock (sExec s) then [tableID s] else [])%list.
Proof.
  intros Hd. rewrite NextTimes_S. msimpl.
  assert (H1 : sDelta (state (Next env s)) =
               (sDelta s ++ if lock (sExec s) then [tableID s] else [])%list).
  { rewrite Next_delta, Hd. unfold prologue.
    destruct (lock (sExec s)); cbn; [reflexivity|rewrite app_nil_r; reflexivity]. }
  destruct n as [|n]; [exact H1|].
  destruct (NextTimes_done env n (state (Next env s)) (Next_sets_done env s))
    as (_ & _ & ->).
  exact H1.
Qed.

Lemma readRow_cache_unlocked tid s :
  lock (sExec s) = false ->
  sLockCache (state (readRow env tid s)) = sLockCache s.
Proof.
  intros Hl. rewrite readRow_unfold. cbv zeta.
  rewrite (getAndLock_unlocked _ _ Hl). msimpl.
  destruct (absentAsEmpty _) as [val [err|]]; [reflexivity|].
  destruct (isEmpty val).
  { destruct (idxInfo (sExec s)) as [idx|]; [|reflexivity].
    destruct (negb _ && negb _); reflexivity. }
  destruct (DecodeRowValToChunk env _ _ _ val); reflexivity.
Qed.

Lemma Next_cache_unlocked s :
  lock (sExec s) = false ->
  sLockCache (state (Next env s)) = sLockCache s.
Proof.
  intros Hl. destruct (done (sExec s)) eqn:Hd.
  { rewrite (Next_done env s Hd). reflexivity. }
  rewrite (Next_unfold env s Hd). cbv zeta.
  assert (Hp : prologue s = with_exec (set_done true) (with_req (fun _ => []) s)).
  { unfold prologue. rewrite Hl. reflexivity. }
  destruct (idxInfo (sExec s)) as [idx|].
  2:{ rewrite readRow_cache_unlocked; rewrite Hp; [reflexivity|exact Hl]. }
  destruct (isCommonHandleRead env (tblInfo (sExec s)) idx).
  - destruct (EncodeUniqueIndexValuesForKey env _ idx _) as [vals [hb [err|]]];
      [rewrite Hp; reflexivity|].
    destruct (NewCommonHandle env hb); [rewrite Hp; reflexivity|].
    rewrite readRow_cache_unlocked; rewrite Hp; [reflexivity|exact Hl].
  - destruct (EncodeUniqueIndexKey env _ idx _ _) as [vals [key err]]. cbv zeta.
    match goal with |- context [if ?c then _ else _] => destruct c end;
      [rewrite Hp; reflexivity|].
    set (s1 := with_exec _ (prologue s)).
    assert (Hl1 : lock (sExec s1) = false) by (unfold s1; rewrite Hp; exact Hl).
    rewrite (readIndexEntry_unlocked s1 Hl1). cbv zeta. msimpl.
    assert (Hc1 : sLockCache s1 = sLockCache s) by (unfold s1; rewrite Hp; reflexivity).
    destruct (snd (absentAsEmpty _)); [exact Hc1|].
    destruct (isEmpty _); [exact Hc1|].
    destruct (DecodeHandleInUniqueIndexValue env _ _) as [e0|iv]; [exact Hc1|].
    destruct (idxGlobal idx).
    + destruct (DecodePartitionID env _) as [e0|pid]; [exact Hc1|].
      rewrite through_state, readRow_cache_unlocked; [exact Hc1|exact Hl1].
    + rewrite through_state, readRow_cache_unlocked; [exact Hc1|exact Hl1].
Qed.

(** X7: an executor that does not lock never writes the session's
    pessimistic-lock cache, however often it is called. *)
Theorem NextTimes_unlocked_keeps_cache (s : St) (n : nat) :
  lock (sExec s) = false ->
  sLockCache (state (NextTimes env n s)) = sLockCache s /\
  lock (sExec (state (NextTimes env n s))) = false.
Proof.
  revert s. induction n as [|n IH]; intros s Hl; [split; [reflexivity|exact Hl]|].
  rewrite NextTimes_S. msimpl.
  assert (Hl' : lock (sExec (state (Next env s))) = false).
  { rewrite Next_keeps_lock. exact Hl. }
  destruct (IH _ Hl') as [Hc Hk]. rewrite Hc, Next_cache_unlocked by exact Hl.
  split; [reflexivity|exact Hk].
Qed.

(** *** Encoding of the index values *)

Lemma encodeIndexValues_ok tbl idx :
  forall vals i vals',
    encodeIndexValues env tbl idx i vals = (vals', None) ->
    length vals' = length vals /\
    (length vals = 0 \/ i + length vals <= length (idxColumns idx))%nat /\
    forall j d, vals !! j = Some d ->
      exists ic colInfo d',
        idxColumns idx !! (i + j)%nat = Some ic /\
        tblColumns tbl !! icOffset ic = Some colInfo /\
        encodeIndexValue env colInfo d = (d', None) /\
        vals' !! j = Some d'.
Proof.
  induction vals as [|d rest IH]; intros i vals' H.
  - cbn in H. injection H as <-. split; [reflexivity|].
    split; [left; reflexivity|].
    intros j d Hj. rewrite lookup_nil in Hj. discriminate.
  - cbn [encodeIndexValues] in H.
    destruct (idxColumns idx !! i) as [ic|] eqn:Hic; [|discriminate].
    destruct (tblColumns tbl !! icOffset ic) as [colInfo|] eqn:Hcol; [|discriminate].
    destruct (encodeIndexValue env colInfo d) as [d' [e0|]] eqn:Hd; [discriminate|].
    destruct (encodeIndexValues env tbl idx (S i) rest) as [rest' err] eqn:Hrest.
    injection H as <- ->.
    destruct (IH (S i) rest' Hrest) as (Hlen & Hbound & Hall).
    split; [cbn; congruence|].
    split.
    { right. apply lookup_lt_Some in Hic. cbn [length]. lia. }
    intros [|j] x Hj.
    + injection Hj as <-. rewrite Nat.add_0_r.
      exists ic, colInfo, d'. repeat split; auto.
    + destruct (Hall j x Hj) as (ic' & c' & x' & H1 & H2 & H3 & H4).
      exists ic', c', x'. replace (i + S j)%nat with (S i + j)%nat by lia. auto.
Qed.

(** X8: a successful encoding converted each value by the column of the
    index at its own position; there are never more values than index
    columns. *)
Theorem EncodeUniqueIndexValuesForKey_success (tbl : TableInfo) (idx : IndexInfo)
    (vals vals' : list Datum) (enc : string) :
  EncodeUniqueIndexValuesForKey env tbl idx vals = (vals', (enc, None)) ->
  length vals' = length vals /\
  (length vals <= length (idxColumns idx))%nat /\
  EncodeKey env vals' = (enc, None) /\
  forall j d, vals !! j = Some d ->
    exists ic colInfo d',
      idxColumns idx !! j = Some ic /\
      tblColumns tbl !! icOffset ic = Some colInfo /\
      encodeIndexValue env colInfo d = (d', None) /\
      vals' !! j = Some d'.
Proof.
  unfold EncodeUniqueIndexValuesForKey. intros H.
  destruct (encodeIndexValues env tbl idx 0 vals) as [vs [e0|]] eqn:Hvs;
    [discriminate|].
  destruct (EncodeKey env vs) as [enc0 [e0|]] eqn:Hkey; [discriminate|].
  injection H as <- <-.
  destruct (encodeIndexValues_ok tbl idx vals 0%nat vs Hvs) as (Hlen & Hb & Hall).
  repeat split; auto. lia.
Qed.

Lemma encodeIndexValue_enum_miss colInfo d :
  ftTp (colFieldType colInfo) = TypeEnum ->
  isStringKind (Kind d) = true ->
  enumMiss env colInfo d ->
  encodeIndexValue env colInfo d = (d, Some ErrNotExist).
Proof.
  intros Ht Hk Hmiss. unfold encodeIndexValue, enumMiss in *. cbv zeta.
  rewrite Ht, Hk. cbn [isTypeString isTypeVarString isTypeVarchar isTypeEnum orb andb].
  destruct (ToString env d) as [str [e0|]]; [reflexivity|].
  destruct Hmiss as [err ->]. reflexivity.
Qed.

(** X9: a string that names no element of an enum column of the index
    means the row cannot exist: [Next] returns nothing and reads
    nothing. *)
Theorem Next_unknown_enum_value (s : St) (idx : IndexInfo)
    (pre post pre' : list Datum) (d : Datum) (ic : IndexColumn)
    (colInfo : ColumnInfo) :
  let e := sExec s in
  done e = false ->
  idxInfo e = Some idx ->
  idxVals e = (pre ++ d :: post)%list ->
  encodeIndexValues env (tblInfo e) idx 0 pre = (pre', None) ->
  idxColumns idx !! length pre = Some ic ->
  tblColumns (tblInfo e) !! icOffset ic = Some colInfo ->
  ftTp (colFieldType colInfo) = TypeEnum ->
  isStringKind (Kind d) = true ->
  enumMiss env colInfo d ->
  result (Next env s) = None /\ sReq (state (Next env s)) = [] /\
  events (Next env s) = [].
Proof.
  cbv zeta. intros Hd Hi Hv Hpre Hic Hcol Ht Hk Hmiss.
  apply (Next_not_exist env s idx Hd Hi).
  rewrite Hv. unfold EncodeUniqueIndexValuesForKey.
  rewrite (encodeIndexValues_stops env _ idx pre 0%nat d post pre' ic colInfo d
             ErrNotExist Hpre Hic Hcol
             (encodeIndexValue_enum_miss colInfo d Ht Hk Hmiss)).
  reflexivity.
Qed.

End Executor.
(** *** Instances *)

(** X1 on [select * from t where a = 5] over the live store. *)
Lemma Next_by_handle_unlocked_witness :
  let env := Scenarios.liveEnv false in
  let s := Examples.initialState (Examples.planByA 5 false) in
  events (Next env s) = [EvMemBufferGet "t1_r5"; EvSnapshotGet "t1_r5"] /\
  result (Next env s) = None /\
  sReq (state (Next env s)) = [[NewStringDatum "row5"]].
Proof.
  cbv zeta.
  destruct (Next_by_handle_unlocked (Scenarios.liveEnv false)
              (Examples.initialState (Examples.planByA 5 false))
              eq_refl eq_refl eq_refl) as (He & Hr & _).
  split; [rewrite He; vm_compute; reflexivity|].
  assert (Hv : rowOutcome (Scenarios.liveEnv false)
                 (sExec (Examples.initialState (Examples.planByA 5 false)))
                 (result (get (Scenarios.liveEnv false)
                            (EncodeRowKeyWithHandle (Scenarios.liveEnv false)
                               (tableID (Examples.initialState (Examples.planByA 5 false)))
                               (handle (sExec (Examples.initialState
                                                 (Examples.planByA 5 false)))))
                            (Examples.initialState (Examples.planByA 5 false)))) =
               (None, [[NewStringDatum "row5"]])) by (vm_compute; reflexivity).
  rewrite Hv in Hr. split; [exact (f_equal fst Hr)|exact (f_equal snd Hr)].
Defined.

(** X2 on [select * from t where b = 7] over the live store: the entry
    of [ib] gives the handle 9. *)
Lemma Next_by_index_unlocked_witness :
  let env := Scenarios.liveEnv false in
  let s := Examples.initialState (Examples.planByB 7 false) in
  events (Next env s) =
    [EvMemBufferGet "t1_i2_7"; EvSnapshotGet "t1_i2_7";
     EvMemBufferGet "t1_r9"; EvSnapshotGet "t1_r9"] /\
  result (Next env s) = None /\
  sReq (state (Next env s)) = [[NewStringDatum "row9"]] /\
  handle (sExec (state (Next env s))) = Some (IntHandle 9).
Proof.
  cbv zeta.
  epose proof (Next_by_index_unlocked (Scenarios.liveEnv false)
                 (Examples.initialState (Examples.planByB 7 false))
                 Examples.idxB [NewIntDatum 7] "t1_i2_7" "9" "row9" (IntHandle 9) 1)
    as H.
  cbv zeta in H.
  specialize (H eq_refl eq_refl eq_refl eq_refl eq_refl eq_refl eq_refl eq_refl
                eq_refl eq_refl eq_refl).
  destruct H as (He & Hr & Hh & _).
  split; [rewrite He; vm_compute; reflexivity|].
  split; [exact (f_equal fst Hr)|]. split; [exact (f_equal snd Hr)|exact Hh].
Defined.

(** X3 on [select * from t where b = 7 for update] when every lock
    request times out. *)
Lemma Next_lock_failure_witness :
  let env := Scenarios.busyEnv false in
  let s := Examples.initialState (Examples.planByB 7 true) in
  result (Next env s) = Some (ErrOther "lock wait timeout") /\
  sReq (state (Next env s)) = [] /\
  sLockCache (state (Next env s)) = ∅.
Proof.
  cbv zeta.
  destruct (Next_lock_failure (Scenarios.busyEnv false)
              (Examples.initialState (Examples.planByB 7 true))
              "t1_i2_7" (ErrOther "lock wait timeout")
              eq_refl eq_refl eq_refl eq_refl
              (or_intror (conj eq_refl eq_refl))) as (Hr & Hq & Hc & _).
  split; [exact Hr|]. split; [exact Hq|exact Hc].
Defined.

(** X4 on the row key of handle 5 under read committed. *)
Lemma getAndLock_lock_only_if_exists_witness :
  let env := Scenarios.liveEnv true in
  let s := Examples.initialState (Examples.planByA 5 true) in
  result (getAndLock env "t1_r5" s) = ("row5", None) /\
  events (getAndLock env "t1_r5" s) = [EvLock "t1_r5" true 50].
Proof.
  cbv zeta.
  epose proof (getAndLock_lock_only_if_exists (Scenarios.liveEnv true) "t1_r5"
                 (Examples.initialState (Examples.planByA 5 true))
                 {[ "t1_r5" := mkReturnedValue "row5" true false ]}) as H.
  cbv zeta in H.
  specialize (H eq_refl eq_refl eq_refl eq_refl eq_refl).
  destruct H as (_ & H).
  rewrite lookup_singleton_eq in H. exact H.
Defined.

(** X5 on the row key of handle 5 under repeatable read. *)
Lemma getAndLock_reads_locked_value_witness :
  let env := Scenarios.liveEnv false in
  let s := Examples.initialState (Examples.planByA 5 true) in
  result (getAndLock env "t1_r5" s) = ("row5", None) /\
  events (getAndLock env "t1_r5" s) =
    [EvLock "t1_r5" false 50; EvMemBufferGet "t1_r5"; EvLockCacheGet "t1_r5"].
Proof.
  cbv zeta.
  epose proof (getAndLock_reads_locked_value (Scenarios.liveEnv false) "t1_r5"
                 (Examples.initialState (Examples.planByA 5 true))
                 {[ "t1_r5" := mkReturnedValue "row5" true false ]}
                 (mkReturnedValue "row5" true false) "" ErrNotExist) as H.
  cbv zeta in H.
  specialize (H eq_refl eq_refl eq_refl eq_refl eq_refl
                (lookup_singleton_eq _ _) eq_refl (or_introl eq_refl) eq_refl
                eq_refl eq_refl).
  destruct H as (Hr & He & _). split; [exact Hr|exact He].
Defined.

(** X6 on three calls of [Next], with and without lock. *)
Lemma NextTimes_delta_once_witness :
  let env := Scenarios.liveEnv false in
  sDelta (state (NextTimes env 3 (Examples.initialState (Examples.planByA 5 true)))) = [1] /\
  sDelta (state (NextTimes env 3 (Examples.initialState (Examples.planByA 5 false)))) = [].
Proof.
  cbv zeta. split.
  - exact (NextTimes_delta_once (Scenarios.liveEnv false)
             (Examples.initialState (Examples.planByA 5 true)) 2 eq_refl).
  - exact (NextTimes_delta_once (Scenarios.liveEnv false)
             (Examples.initialState (Examples.planByA 5 false)) 2 eq_refl).
Defined.

(** X7 on four calls of [Next] without lock. *)
Lemma NextTimes_unlocked_keeps_cache_witness :
  let env := Scenarios.liveEnv true in
  sLockCache (state (NextTimes env 4 (Examples.initialState (Examples.planByB 7 false)))) = ∅.
Proof.
  cbv zeta.
  exact (proj1 (NextTimes_unlocked_keeps_cache (Scenarios.liveEnv true)
                  (Examples.initialState (Examples.planByB 7 false)) 4 eq_refl)).
Defined.

(** X8 on the value 7 of the index [ib]. *)
Lemma EncodeUniqueIndexValuesForKey_success_witness :
  let env := Scenarios.liveEnv false in
  EncodeUniqueIndexValuesForKey env Examples.tblT Examples.idxB [NewIntDatum 7] =
    ([NewIntDatum 7], ("7", None)) /\
  exists ic colInfo,
    idxColumns Examples.idxB !! 0%nat = Some ic /\
    tblColumns Examples.tblT !! icOffset ic = Some colInfo /\
    encodeIndexValue env colInfo (NewIntDatum 7) = (NewIntDatum 7, None).
Proof.
  cbv zeta.
  assert (H : EncodeUniqueIndexValuesForKey (Scenarios.liveEnv false) Examples.tblT
                Examples.idxB [NewIntDatum 7] = ([NewIntDatum 7], ("7", None)))
    by (vm_compute; reflexivity).
  split; [exact H|].
  destruct (EncodeUniqueIndexValuesForKey_success (Scenarios.liveEnv false)
              Examples.tblT Examples.idxB [NewIntDatum 7] [NewIntDatum 7] "7" H)
    as (_ & _ & _ & Hall).
  destruct (Hall 0%nat (NewIntDatum 7) eq_refl) as (ic & colInfo & d' & H1 & H2 & H3 & H4).
  injection H4 as <-. exists ic, colInfo. auto.
Defined.

(** X9 on [select * from te where e = 'z'], [z] being no element of the enum. *)
Lemma Next_unknown_enum_value_witness :
  let env := Scenarios.liveEnv false in
  let s := Examples.initialState (Scenarios.planByEnum "z") in
  result (Next env s) = None /\ sReq (state (Next env s)) = [] /\
  events (Next env s) = [].
Proof.
  cbv zeta.
  epose proof (Next_unknown_enum_value (Scenarios.liveEnv false)
                 (Examples.initialState (Scenarios.planByEnum "z"))
                 Scenarios.idxE [] [] [] (NewStringDatum "z")
                 (mkIndexColumn (NewCIStr "e") 0 UnspecifiedLength)
                 Scenarios.colE) as H.
  cbv zeta in H.
  apply H; try reflexivity.
  vm_compute. eexists. reflexivity.
Defined.

End PointGetPaths.

(** ** The first call: the row, and the order of lock and read *)

Module NextProofs.
Import Model PointGet PointGetSpec ExecutorSpec.
Import PointGetProofs PointGetPaths.

Section Executor.
Context (env : Env).

(** [Next] ends with the read of the row, when there is one. *)
Lemma Next_rowRead s rtid s2 pre :
  done (sExec s) = false ->
  rowRead env s rtid s2 pre ->
  Next env s = through pre (readRow env rtid s2).
Proof.
  intros Hd Hrow. rewrite Next_unfold by exact Hd. cbv zeta.
  unfold rowRead in Hrow. cbv zeta in Hrow.
  destruct (idxInfo (sExec s)) as [idx|].
  2:{ destruct Hrow as (-> & -> & ->). rewrite through_nil. reflexivity. }
  destruct (isCommonHandleRead env (tblInfo (sExec s)) idx).
  { destruct Hrow as (vals' & hb & h & He & Hh & -> & -> & ->).
    rewrite He, Hh, through_nil. reflexivity. }
  destruct Hrow as (vals' & key & err & h & He & Herr & Hr & Hhv & Hdec & Hp & -> & ->).
  rewrite He.
  assert (Hgo : match err with
                | Some err => negb (isErrNotExist err)
                | None => false
                end = false).
  { destruct err as [err|]; [rewrite Herr|]; reflexivity. }
  rewrite Hgo, Hr, Hhv, Hdec.
  destruct (idxGlobal idx).
  - rewrite Hp. reflexivity.
  - rewrite Hp. reflexivity.
Qed.

(** The read of the row starts from an empty chunk, with the lock flag
    and the wait time of the plan. *)
Lemma rowRead_state s rtid s2 pre :
  rowRead env s rtid s2 pre ->
  sReq s2 = [] /\ lock (sExec s2) = lock (sExec s) /\
  lockWaitTime (sExec s2) = lockWaitTime (sExec s) /\
  idxInfo (sExec s2) = idxInfo (sExec s) /\
  tblInfo (sExec s2) = tblInfo (sExec s).
Proof.
  intros Hrow. unfold rowRead in Hrow. cbv zeta in Hrow.
  destruct (prologue_config s) as (Hcfg & Hreq & _).
  destruct Hcfg as (_ & Ht & Hi & _ & _ & Hl & Hw & _).
  destruct (idxInfo (sExec s)) as [idx|] eqn:Hidx.
  2:{ destruct Hrow as (-> & -> & ->). rewrite Hl, Hw, Hi, Ht. auto. }
  destruct (isCommonHandleRead env (tblInfo (sExec s)) idx).
  { destruct Hrow as (vals' & hb & h & He & Hh & -> & -> & ->).
    cbn [with_exec sReq sExec set_handle set_idxVals lock lockWaitTime idxInfo tblInfo].
    rewrite Hl, Hw, Hi, Ht. auto. }
  destruct Hrow as (vals' & key & err & h & He & Herr & Hr & Hhv & Hdec & Hp & -> & ->).
  set (s1 := with_exec _ (prologue s)).
  destruct (readIndexEntry_spec env s1) as (Hc1 & _ & _ & Hq1 & _).
  destruct Hc1 as (_ & Ht1 & Hi1 & _ & _ & Hl1 & Hw1 & _).
  cbn [with_exec sReq sExec set_handle lock lockWaitTime idxInfo tblInfo].
  rewrite Hq1, Hl1, Hw1, Hi1, Ht1. unfold s1.
  cbn [with_exec sReq sExec set_idxKey set_idxVals lock lockWaitTime idxInfo tblInfo].
  rewrite Hl, Hw, Hi, Ht. auto.
Qed.

(** The calls made before the read of the row: none, or the locked read
    of the index key. *)
Lemma rowRead_pre s rtid s2 pre :
  rowRead env s rtid s2 pre ->
  (pre = [] /\
   forall idx, idxInfo (sExec s) = Some idx ->
               isCommonHandleRead env (tblInfo (sExec s)) idx = true) \/
  (exists idx, idxInfo (sExec s) = Some idx /\
               isCommonHandleRead env (tblInfo (sExec s)) idx = false /\
               LockedReads (flag env) (lock (sExec s)) (idxKey (sExec s2)) pre).
Proof.
  intros Hrow. unfold rowRead in Hrow. cbv zeta in Hrow.
  destruct (idxInfo (sExec s)) as [idx|] eqn:Hidx.
  2:{ destruct Hrow as (-> & -> & ->). left. split; [reflexivity|discriminate]. }
  destruct (isCommonHandleRead env (tblInfo (sExec s)) idx) eqn:Hc.
  { destruct Hrow as (vals' & hb & h & He & Hh & -> & -> & ->).
    left. split; [reflexivity|]. intros idx' [= <-]. exact Hc. }
  destruct Hrow as (vals' & key & err & h & He & Herr & Hr & Hhv & Hdec & Hp & -> & ->).
  right. exists idx. split; [reflexivity|]. split; [exact Hc|].
  set (s1 := with_exec _ (prologue s)).
  destruct (readIndexEntry_spec env s1) as (Hc1 & Hk1 & _ & _ & Hev & _).
  cbn [with_exec sExec set_handle idxKey]. rewrite Hk1.
  replace (lock (sExec s)) with (lock (sExec s1)); [exact Hev|].
  unfold s1. destruct (prologue_config s) as ((_ & _ & _ & _ & _ & Hl & _) & _).
  cbn [with_exec sExec set_idxKey set_idxVals lock]. exact Hl.
Qed.

(** A call of [Next] that reads no row leaves an empty chunk, and its
    trace is the locked read of at most one key. *)
Lemma Next_cases s :
  done (sExec s) = false ->
  (exists rtid s2 pre, rowRead env s rtid s2 pre) \/
  (sReq (state (Next env s)) = [] /\
   exists k, LockedReads (flag env) (lock (sExec s)) k (events (Next env s))).
Proof.
  intros Hd. unfold rowRead. cbv zeta.
  rewrite Next_unfold by exact Hd. cbv zeta.
  destruct (prologue_config s) as (Hcfg & Hreq & _).
  destruct (idxInfo (sExec s)) as [idx|] eqn:Hidx.
  2:{ left. eauto 6. }
  destruct (isCommonHandleRead env (tblInfo (sExec s)) idx).
  { destruct (EncodeUniqueIndexValuesForKey env _ idx _) as [vals' [hb [err|]]].
    - right. msimpl. split; [exact Hreq|]. exists "". apply LockedReads_nil.
    - destruct (NewCommonHandle env hb) as [err|h] eqn:Hh.
      + right. msimpl. split; [exact Hreq|]. exists "". apply LockedReads_nil.
      + left. exists (tableID s). eexists. eexists. exists vals', hb, h.
        repeat split; eauto. }
  destruct (EncodeUniqueIndexKey env _ idx _ _) as [vals' [key err]].
  set (s1 := with_exec _ (prologue s)).
  destruct (match err with
            | Some err0 => negb (isErrNotExist err0)
            | None => false
            end) eqn:Hgo.
  { right. msimpl. split; [exact Hreq|]. exists "". apply LockedReads_nil. }
  destruct (readIndexEntry_spec env s1) as (Hc1 & Hk1 & _ & Hq1 & Hev & _).
  assert (Hl1 : lock (sExec s1) = lock (sExec s)).
  { unfold s1. destruct Hcfg as (_ & _ & _ & _ & _ & Hl & _).
    cbn [with_exec sExec set_idxKey set_idxVals lock]. exact Hl. }
  rewrite Hl1 in Hev.
  assert (Hq : sReq (state (readIndexEntry env s1)) = []).
  { rewrite Hq1. exact Hreq. }
  assert (Hstop : forall r : option error,
            sReq (state (r, state (readIndexEntry env s1),
                         events (readIndexEntry env s1))) = [] /\
            exists k, LockedReads (flag env) (lock (sExec s)) k
                        (events (r, state (readIndexEntry env s1),
                                 events (readIndexEntry env s1)))).
  { intros r. msimpl. split; [exact Hq|]. eauto. }
  destruct (result (readIndexEntry env s1)) as [e1|] eqn:Hr; [right; apply Hstop|].
  destruct (isEmpty (handleVal (sExec (state (readIndexEntry env s1))))) eqn:Hhv;
    [right; apply Hstop|].
  destruct (DecodeHandleInUniqueIndexValue env _ _) as [e1|h] eqn:Hdec;
    [right; apply Hstop|].
  assert (Herr : match err with
                 | Some err0 => isErrNotExist err0 = true
                 | None => True
                 end).
  { destruct err as [err0|]; [|exact I].
    destruct (isErrNotExist err0); [reflexivity|discriminate]. }
  destruct (idxGlobal idx) eqn:Hg.
  - destruct (DecodePartitionID env _) as [e1|pid] eqn:Hpid.
    + right. msimpl. split; [exact Hq|]. eauto.
    + left. exists pid. eexists. eexists. exists vals', key, err, h.
      fold s1. repeat split; eauto.
  - left. exists (tableID s). eexists. eexists. exists vals', key, err, h.
    fold s1. repeat split; eauto.
Qed.

(** *** Reads after a granted lock *)

Lemma get_events_nonempty key s :
  isEmpty key = false -> events (get env key s) <> [].
Proof.
  intros Hk. unfold get. rewrite Hk.
  assert (Hsnap : forall pre, events (through pre (snapshotRead env key s)) <> []).
  { intros pre. unfold through. msimpl.
    destruct (snapshotRead_events env key s) as [-> | ->];
      intros H; apply app_eq_nil in H as [_ H]; discriminate. }
  destruct (txnValid env && negb (txnIsReadOnly env)).
  2:{ rewrite <- (through_nil (snapshotRead env key s)). apply Hsnap. }
  rewrite bind_events. msimpl. discriminate.
Qed.

Lemma lockedReads_reads values key s' :
  Forall (isReadOf key) (lockedReads env values key s').
Proof.
  unfold lockedReads.
  destruct (IsPessimisticReadConsistency env); [|apply get_reads].
  destruct (values !! key) as [rv|]; [|constructor].
  destruct (rvExists rv); [constructor|].
  destruct (rvAlreadyLocked rv); [apply get_reads|constructor].
Qed.

Lemma lockedReads_nonempty values key s' :
  IsPessimisticReadConsistency env = false ->
  isEmpty key = false ->
  lockedReads env values key s' <> [].
Proof.
  intros Hrc Hk. unfold lockedReads. rewrite Hrc.
  apply get_events_nonempty. exact Hk.
Qed.

Lemma getValueFromLockCtx_trace values key s' :
  state (getValueFromLockCtx env values key s') = s' /\
  events (getValueFromLockCtx env values key s') =
    match values !! key with
    | Some rv =>
        if rvExists rv then []
        else if rvAlreadyLocked rv then events (get env key s') else []
    | None => []
    end.
Proof.
  unfold getValueFromLockCtx.
  destruct (values !! key) as [rv|]; [|split; reflexivity].
  destruct (rvExists rv); [split; reflexivity|].
  destruct (rvAlreadyLocked rv); [|split; reflexivity].
  rewrite bind_through. rewrite (get_state env key s').
  destruct (result (get env key s')) as [v [err|]].
  - destruct (negb (isErrNotExist err)); unfold through; msimpl;
      rewrite app_nil_r; split; reflexivity.
  - unfold through; msimpl. rewrite app_nil_r. split; reflexivity.
Qed.

(** A granted lock request on a key is followed by the reads of that
    key, in the state the answer leaves. *)
Lemma getAndLock_granted key s values :
  let w := lockWaitTime (sExec s) in
  let s' := with_cache (cacheAfterLock (sExec s) values) s in
  lock (sExec s) = true ->
  isEmpty key = false ->
  newLockCtx env w = None ->
  doLockKeys env w (IsPessimisticReadConsistency env) key = inr values ->
  state (getAndLock env key s) = s' /\
  events (getAndLock env key s) =
    EvLock key (IsPessimisticReadConsistency env) w :: lockedReads env values key s'.
Proof.
  cbv zeta. intros Hl Hk Hctx Hlock.
  unfold getAndLock, lockedReads.
  destruct (IsPessimisticReadConsistency env) eqn:Hrc.
  - rewrite bind_through; msimpl. rewrite through_nil, Hl.
    rewrite bind_through. unfold lockKeyIfExists.
    rewrite (lockKeyBase_locked env key true s Hk Hl). cbv zeta.
    rewrite Hctx, Hlock.
    set (s' := with_cache (cacheAfterLock (sExec s) values) s).
    destruct (getValueFromLockCtx_trace values key s') as [Hs He].
    set (v := getValueFromLockCtx env values key s') in *.
    destruct (result (through [EvLock key true (lockWaitTime (sExec s))] v))
      as [val [err|]];
      unfold through; msimpl; rewrite app_nil_r, Hs, He; split; reflexivity.
  - rewrite bind_through. unfold lockKeyIfNeeded. rewrite bind_through.
    rewrite (lockKeyBase_locked env key false s Hk Hl). cbv zeta.
    rewrite Hctx, Hlock. cbn [through result state events ret fst snd app].
    set (s' := with_cache (cacheAfterLock (sExec s) values) s).
    rewrite bind_through. rewrite (get_state env key s').
    destruct (result (get env key s')) as [v [err|]].
    + destruct (negb (isErrNotExist err)); unfold through; msimpl;
        rewrite !app_nil_r; split; reflexivity.
    + unfold through; msimpl. rewrite !app_nil_r. split; reflexivity.
Qed.

(** The same for the index key. *)
Lemma readIndexEntry_granted s values :
  let w := lockWaitTime (sExec s) in
  let key := idxKey (sExec s) in
  let s' := with_cache (cacheAfterLock (sExec s) values) s in
  lock (sExec s) = true ->
  isEmpty key = false ->
  newLockCtx env w = None ->
  doLockKeys env w (IsPessimisticReadConsistency env) key = inr values ->
  events (readIndexEntry env s) =
    EvLock key (IsPessimisticReadConsistency env) w :: lockedReads env values key s'.
Proof.
  cbv zeta. intros Hl Hk Hctx Hlock.
  unfold readIndexEntry, lockedReads. cbv zeta.
  rewrite bind_through; msimpl. rewrite through_nil.
  destruct (IsPessimisticReadConsistency env) eqn:Hrc; cbn [negb].
  - rewrite Hl. rewrite bind_through. unfold lockKeyIfExists.
    rewrite (lockKeyBase_locked env _ true s Hk Hl). cbv zeta.
    rewrite Hctx, Hlock.
    set (s' := with_cache (cacheAfterLock (sExec s) values) s).
    destruct (getValueFromLockCtx_trace values (idxKey (sExec s)) s') as [Hs He].
    rewrite bind_through. unfold through; msimpl.
    rewrite !app_nil_r, He. reflexivity.
  - rewrite bind_through. unfold lockKeyIfNeeded. rewrite bind_through.
    rewrite (lockKeyBase_locked env _ false s Hk Hl). cbv zeta.
    rewrite Hctx, Hlock. cbn [through result state events ret fst snd app].
    set (s' := with_cache (cacheAfterLock (sExec s) values) s).
    rewrite bind_through. rewrite (get_state env _ s').
    rewrite bind_through. msimpl.
    destruct (snd (result (get env (idxKey (sExec s)) s'))) as [err|].
    + destruct (negb (isErrNotExist err)); unfold through; msimpl;
        rewrite !app_nil_r; reflexivity.
    + unfold through; msimpl. rewrite !app_nil_r. reflexivity.
Qed.

Lemma LockedReads_lock_at b k t j k' b' w :
  LockedReads b true k t -> t !! j = Some (EvLock k' b' w) ->
  j = 0%nat /\ k' = k.
Proof.
  intros [-> | (w0 & reads & -> & Hr)] Hj; [discriminate|].
  destruct j as [|j]; cbn in Hj.
  { injection Hj as <- _ _. auto. }
  rewrite Forall_forall in Hr.
  destruct (Hr _ (list_elem_of_lookup_2 _ _ _ Hj)).
Qed.

Lemma LockedReads_read_at b k t i ev k' :
  LockedReads b true k t -> t !! i = Some ev -> isReadOf k' ev -> k' = k.
Proof.
  intros H Hi Hread.
  destruct (LockedReads_preceded _ _ _ _ _ _ H Hi Hread) as (_ & [w Hw] & _).
  exact (proj2 (LockedReads_lock_at _ _ _ _ _ _ _ H Hw)).
Qed.

(** What the first call leaves in the chunk: the decoded row, when the
    read of the row gives a value. *)
Lemma Next_row s rtid s2 pre val :
  done (sExec s) = false ->
  rowRead env s rtid s2 pre ->
  result (getAndLock env (EncodeRowKeyWithHandle env rtid (handle (sExec s2))) s2) =
    (val, None) ->
  isEmpty val = false ->
  (result (Next env s), sReq (state (Next env s))) = decodedRow env (sExec s2) val.
Proof.
  intros Hd Hrow Hres Hval.
  rewrite (Next_rowRead s rtid s2 pre Hd Hrow).
  unfold through. msimpl. rewrite readRow_unfold. cbv zeta.
  rewrite Hres, Hval.
  destruct (rowRead_state s rtid s2 pre Hrow) as (Hq & _).
  destruct (getAndLock_same env (EncodeRowKeyWithHandle env rtid (handle (sExec s2))) s2)
    as (_ & Hq' & _).
  unfold decodedRow.
  destruct (DecodeRowValToChunk env _ _ _ val) as [err|row].
  { msimpl. rewrite Hq', Hq. reflexivity. }
  rewrite Hq', Hq. cbn [app]. rewrite fillVirtualRows_one.
  destruct (FillVirtualColumnValue env _ _ row); reflexivity.
Qed.

(** A row in the chunk comes from the read of the row. *)
Lemma Next_row_inv s :
  sReq (state (Next env s)) <> [] ->
  done (sExec s) = false /\
  exists rtid s2 pre val row,
    rowRead env s rtid s2 pre /\
    result (getAndLock env (EncodeRowKeyWithHandle env rtid (handle (sExec s2))) s2) =
      (val, None) /\
    isEmpty val = false /\
    sReq (state (Next env s)) = [row] /\
    (result (Next env s), [row]) = decodedRow env (sExec s2) val.
Proof.
  intros Hne.
  destruct (done (sExec s)) eqn:Hd.
  { rewrite Next_done in Hne by exact Hd. destruct Hne. reflexivity. }
  split; [reflexivity|].
  destruct (Next_cases s Hd) as [(rtid & s2 & pre & Hrow) | (Hq & _)];
    [|contradiction].
  exists rtid, s2, pre.
  destruct (rowRead_state s rtid s2 pre Hrow) as (Hq & _).
  destruct (getAndLock_same env (EncodeRowKeyWithHandle env rtid (handle (sExec s2))) s2)
    as (_ & Hq' & _).
  rewrite Hq in Hq'.
  destruct (result (getAndLock env (EncodeRowKeyWithHandle env rtid (handle (sExec s2))) s2))
    as [val oerr] eqn:Hres.
  assert (Hnext := Next_rowRead s rtid s2 pre Hd Hrow).
  rewrite readRow_unfold in Hnext. cbv zeta in Hnext. rewrite Hres in Hnext.
  destruct oerr as [err|].
  { exfalso. apply Hne. rewrite Hnext. exact Hq'. }
  destruct (isEmpty val) eqn:Hval.
  { exfalso. apply Hne. rewrite Hnext.
    destruct (idxInfo (sExec s2)) as [idx|];
      [destruct (negb _ && negb _)|]; exact Hq'. }
  exists val.
  assert (Hdec := Next_row s rtid s2 pre val Hd Hrow Hres Hval).
  unfold decodedRow in Hdec |- *.
  destruct (DecodeRowValToChunk env _ _ _ val) as [err|row].
  { exfalso. apply Hne. exact (f_equal snd Hdec). }
  destruct (FillVirtualColumnValue env _ _ row) as [err|row'].
  - exists row. repeat split; auto. exact (f_equal snd Hdec).
    rewrite <- Hdec. f_equal. symmetry. exact (f_equal snd Hdec).
  - exists row'. repeat split; auto. exact (f_equal snd Hdec).
    rewrite <- Hdec. f_equal. symmetry. exact (f_equal snd Hdec).
Qed.

(** A lock request that follows a read is the one on the row key, sent
    once the reads of the index key are over. *)
Lemma Next_lock_after_read s i j ev k k' b w' :
  lock (sExec s) = true ->
  (i < j)%nat ->
  events (Next env s) !! i = Some ev -> isReadOf k ev ->
  events (Next env s) !! j = Some (EvLock k' b w') ->
  exists idx rtid s2 pre,
    idxInfo (sExec s) = Some idx /\
    isCommonHandleRead env (tblInfo (sExec s)) idx = false /\
    rowRead env s rtid s2 pre /\
    j = length pre /\
    k = idxKey (sExec s2) /\
    k' = EncodeRowKeyWithHandle env rtid (handle (sExec s2)).
Proof.
  intros Hl Hij Hi Hread Hj.
  destruct (done (sExec s)) eqn:Hd.
  { rewrite Next_done in Hi by exact Hd. discriminate. }
  destruct (Next_cases s Hd) as [(rtid & s2 & pre & Hrow) | (_ & k0 & Hlr)].
  2:{ rewrite Hl in Hlr.
      destruct (LockedReads_lock_at _ _ _ _ _ _ _ Hlr Hj) as [-> _]. lia. }
  rewrite (Next_rowRead s rtid s2 pre Hd Hrow) in Hi, Hj.
  unfold through in Hi, Hj. cbn [events snd] in Hi, Hj.
  destruct (readRow_trace env rtid s2) as (t3 & E & H3). cbv zeta in E.
  rewrite E in Hi, Hj.
  destruct (rowRead_state s rtid s2 pre Hrow) as (_ & Hl2 & _).
  assert (Hg := getAndLock_LockedReads env
                  (EncodeRowKeyWithHandle env rtid (handle (sExec s2))) s2).
  rewrite Hl2, Hl in Hg.
  assert (Hno3 : forall m, t3 !! m <> Some (EvLock k' b w')).
  { intros m Hm. destruct H3 as [-> | [-> _]]; [discriminate|].
    destruct m; [discriminate|discriminate]. }
  destruct (rowRead_pre s rtid s2 pre Hrow)
    as [[-> _] | (idx & Hidx & Hc & Hpre)].
  { cbn [app] in Hj.
    apply lookup_app_Some in Hj as [Hj | [_ Hj]]; [|destruct (Hno3 _ Hj)].
    destruct (LockedReads_lock_at _ _ _ _ _ _ _ Hg Hj) as [-> _]. lia. }
  rewrite Hl in Hpre.
  apply lookup_app_Some in Hj as [Hj | [Hge Hj]].
  { destruct (LockedReads_lock_at _ _ _ _ _ _ _ Hpre Hj) as [-> _]. lia. }
  apply lookup_app_Some in Hj as [Hj | [_ Hj]]; [|destruct (Hno3 _ Hj)].
  destruct (LockedReads_lock_at _ _ _ _ _ _ _ Hg Hj) as [Hj0 ->].
  assert (Hjl : j = length pre) by lia.
  exists idx, rtid, s2, pre. repeat split; auto.
  rewrite lookup_app_l in Hi by lia.
  exact (LockedReads_read_at _ _ _ _ _ _ Hpre Hi Hread).
Qed.

(** Once the lock on the row key is granted, the trace of [Next] holds
    the lock request and the reads of the row key. *)
Lemma Next_row_lock s rtid s2 pre values :
  let w := lockWaitTime (sExec s) in
  let rk := EncodeRowKeyWithHandle env rtid (handle (sExec s2)) in
  let s2' := with_cache (cacheAfterLock (sExec s2) values) s2 in
  lock (sExec s) = true ->
  done (sExec s) = false ->
  rowRead env s rtid s2 pre ->
  isEmpty rk = false ->
  newLockCtx env w = None ->
  doLockKeys env w (IsPessimisticReadConsistency env) rk = inr values ->
  exists t3,
    events (Next env s) =
      (pre ++ EvLock rk (IsPessimisticReadConsistency env) w
              :: lockedReads env values rk s2' ++ t3)%list /\
    (t3 = [] \/ t3 = [EvReport rk (idxKey (sExec s2))]).
Proof.
  cbv zeta. intros Hl Hd Hrow Hk Hctx Hlock.
  rewrite (Next_rowRead s rtid s2 pre Hd Hrow).
  unfold through. cbn [events snd].
  destruct (readRow_trace env rtid s2) as (t3 & E & H3). cbv zeta in E.
  destruct (rowRead_state s rtid s2 pre Hrow) as (_ & Hl2 & Hw2 & _).
  rewrite Hl in Hl2.
  destruct (getAndLock_granted _ s2 values Hl2 Hk) as [_ Hev];
    [rewrite Hw2; exact Hctx|rewrite Hw2; exact Hlock|].
  rewrite Hw2 in Hev. rewrite Hev in E.
  exists t3. split; [rewrite E; reflexivity|].
  destruct H3 as [-> | [-> _]]; auto.
Qed.

(** Once the lock on the index key is granted, the trace of [Next]
    starts with the lock request and the reads of the index key. *)
Lemma Next_index_lock s idx vals' ik values :
  let e := sExec s in
  let w := lockWaitTime e in
  let s1 := with_exec (fun e => set_idxKey ik (set_idxVals vals' e)) (prologue s) in
  let s1' := with_cache (cacheAfterLock (sExec s1) values) s1 in
  let seg := EvLock ik (IsPessimisticReadConsistency env) w
               :: lockedReads env values ik s1' in
  lock e = true ->
  done e = false ->
  idxInfo e = Some idx ->
  isCommonHandleRead env (tblInfo e) idx = false ->
  EncodeUniqueIndexKey env (tblInfo e) idx (idxVals e) (tableID s) =
    (vals', (ik, None)) ->
  isEmpty ik = false ->
  newLockCtx env w = None ->
  doLockKeys env w (IsPessimisticReadConsistency env) ik = inr values ->
  (exists rest, events (Next env s) = (seg ++ rest)%list) /\
  (forall rtid s2 pre, rowRead env s rtid s2 pre -> pre = seg).
Proof.
  cbv zeta. intros Hl Hd Hidx Hc He Hk Hctx Hlock.
  set (s1 := with_exec (fun e => set_idxKey ik (set_idxVals vals' e)) (prologue s)).
  destruct (prologue_config s) as ((_ & _ & _ & _ & _ & Hl0 & Hw0 & _) & _).
  assert (Hl1 : lock (sExec s1) = true) by (unfold s1; cbn; rewrite Hl0; exact Hl).
  assert (Hw1 : lockWaitTime (sExec s1) = lockWaitTime (sExec s))
    by (unfold s1; cbn; exact Hw0).
  assert (Hev : events (readIndexEntry env s1) =
                EvLock ik (IsPessimisticReadConsistency env) (lockWaitTime (sExec s))
                  :: lockedReads env values ik
                       (with_cache (cacheAfterLock (sExec s1) values) s1)).
  { rewrite <- Hw1.
    apply (readIndexEntry_granted s1 values Hl1 Hk);
      rewrite Hw1; assumption. }
  split.
  - rewrite Next_unfold by exact Hd. cbv zeta. rewrite Hidx, Hc, He.
    fold s1. rewrite <- Hev.
    assert (Hstop : forall (r : option error) st,
              exists rest, events (r, st, events (readIndexEntry env s1)) =
                           (events (readIndexEntry env s1) ++ rest)%list).
    { intros r st. exists []. rewrite app_nil_r. reflexivity. }
    destruct (result (readIndexEntry env s1)); [apply Hstop|].
    destruct (isEmpty (handleVal _)); [apply Hstop|].
    destruct (DecodeHandleInUniqueIndexValue env _ _); [apply Hstop|].
    destruct (idxGlobal idx).
    + destruct (DecodePartitionID env _); [apply Hstop|].
      eexists. reflexivity.
    + eexists. reflexivity.
  - intros rtid s2 pre Hrow. unfold rowRead in Hrow. cbv zeta in Hrow.
    rewrite Hidx, Hc in Hrow.
    destruct Hrow as (vals2 & key2 & err2 & h & He2 & _ & _ & _ & _ & _ & _ & ->).
    rewrite He in He2. injection He2 as <- <- <-.
    fold s1. exact Hev.
Qed.

End Executor.

(** C4 (idempotence of [Next]): the first call of [Next] produces the
    row, and at most one: when the read of the row gives a value, the
    call ends with the row decoded from that value in the chunk, and a
    row in the chunk is always such a row; every later call on the same
    executor (no [Close] in between) returns a nil error and an empty
    chunk, calls no collaborator at all, and leaves the executor as it
    was. *)
Theorem C4_next_idempotent_after_first_call (env : Env) (s : St) (n : nat) :
  let first := Next env s in
  let later := NextTimes env (S n) (state first) in
  (length (sReq (state first)) <= 1)%nat /\
  result later = replicate (S n) None /\
  events later = [] /\
  sReq (state later) = [] /\
  sExec (state later) = sExec (state first) /\
  Next env (state later) = (None, state later, []) /\
  (forall rtid s2 pre val,
     done (sExec s) = false ->
     rowRead env s rtid s2 pre ->
     result (getAndLock env (EncodeRowKeyWithHandle env rtid (handle (sExec s2))) s2) =
       (val, None) ->
     isEmpty val = false ->
     (result first, sReq (state first)) = decodedRow env (sExec s2) val) /\
  (sReq (state first) <> [] ->
   done (sExec s) = false /\
   exists rtid s2 pre val row,
     rowRead env s rtid s2 pre /\
     result (getAndLock env (EncodeRowKeyWithHandle env rtid (handle (sExec s2))) s2) =
       (val, None) /\
     isEmpty val = false /\
     sReq (state first) = [row] /\
     (result first, [row]) = decodedRow env (sExec s2) val).
Proof.
  cbv zeta.
  destruct (Next_state env s) as (_ & Hlen & _).
  assert (Hd := Next_sets_done env s).
  destruct (NextTimes_done env n (state (Next env s)) Hd) as (Hr & He & Hs).
  rewrite Hr, He, Hs.
  split; [exact Hlen|]. split; [reflexivity|]. split; [reflexivity|].
  split; [reflexivity|]. split; [reflexivity|].
  split; [rewrite Next_done by exact Hd; reflexivity|].
  split.
  - intros rtid s2 pre val. apply Next_row.
  - apply Next_row_inv.
Qed.

(** C1 (lock, then read): whenever locking is requested, every lock
    request [Next] sends carries [LockOnlyIfExists] exactly under
    read-committed (pessimistic read consistency), so that under
    repeatable read the key is locked whether it exists or not and under
    read committed a non-existent key is never locked; every read of a
    key is preceded, in the same call, by the lock request on that key,
    with nothing but reads of that key in between; the first call sent
    out is the lock request on the index key when a secondary unique
    index is read, on the row key otherwise; a lock request that follows
    a read is the one on the row key, sent once the reads of the index
    key are over, so that no key is locked after it has been read unless
    the index key and the row key are the same; once the lock manager
    grants the lock on the index key, the trace starts with that request
    followed by the reads of the index key, and once it grants the lock
    on the row key, the trace goes on with that request followed by the
    reads of the row key, then at most the inconsistency report; under
    repeatable read the reads after a granted lock are never empty, and
    under read committed the key is read only when the answer says that
    it does not exist but is already locked. *)
Theorem C1_lock_precedes_read (env : Env) (s : St) :
  lock (sExec s) = true ->
  let t := events (Next env s) in
  let onlyIfExists := IsPessimisticReadConsistency env in
  let tid := tableID s in
  let w := lockWaitTime (sExec s) in
  (forall k b w', In (EvLock k b w') t -> b = onlyIfExists) /\
  (forall i ev k,
     t !! i = Some ev -> isReadOf k ev ->
     exists j w',
       (j < i)%nat /\ t !! j = Some (EvLock k onlyIfExists w') /\
       forall m ev', (j < m < i)%nat -> t !! m = Some ev' -> isReadOf k ev') /\
  (done (sExec s) = false ->
   match idxInfo (sExec s) with
   | Some idx =>
       if isCommonHandleRead env (tblInfo (sExec s)) idx then
         t = [] \/
         exists h w' rest,
           t = EvLock (EncodeRowKeyWithHandle env tid (Some h)) onlyIfExists w'
                 :: rest
       else
         t = [] \/
         exists w' rest,
           t = EvLock (fst (snd (EncodeUniqueIndexKey env (tblInfo (sExec s)) idx
                                   (idxVals (sExec s)) tid))) onlyIfExists w'
                 :: rest
   | None =>
       t = [] \/
       exists w' rest,
         t = EvLock (EncodeRowKeyWithHandle env tid (handle (sExec s)))
               onlyIfExists w' :: rest
   end) /\
  (forall i j ev k k' b w',
     (i < j)%nat ->
     t !! i = Some ev -> isReadOf k ev ->
     t !! j = Some (EvLock k' b w') ->
     exists idx rtid s2 pre,
       idxInfo (sExec s) = Some idx /\
       isCommonHandleRead env (tblInfo (sExec s)) idx = false /\
       rowRead env s rtid s2 pre /\
       j = length pre /\
       k = idxKey (sExec s2) /\
       k' = EncodeRowKeyWithHandle env rtid (handle (sExec s2))) /\
  (forall rtid s2 pre values,
     let rk := EncodeRowKeyWithHandle env rtid (handle (sExec s2)) in
     let reads :=
       lockedReads env values rk (with_cache (cacheAfterLock (sExec s2) values) s2) in
     done (sExec s) = false ->
     rowRead env s rtid s2 pre ->
     isEmpty rk = false ->
     newLockCtx env w = None ->
     doLockKeys env w onlyIfExists rk = inr values ->
     (exists t3,
        t = (pre ++ EvLock rk onlyIfExists w :: reads ++ t3)%list /\
        (t3 = [] \/ t3 = [EvReport rk (idxKey (sExec s2))])) /\
     Forall (isReadOf rk) reads /\
     (onlyIfExists = false -> reads <> [])) /\
  (forall idx vals' ik values,
     let s1 := with_exec (fun e => set_idxKey ik (set_idxVals vals' e)) (prologue s) in
     let reads :=
       lockedReads env values ik (with_cache (cacheAfterLock (sExec s1) values) s1) in
     done (sExec s) = false ->
     idxInfo (sExec s) = Some idx ->
     isCommonHandleRead env (tblInfo (sExec s)) idx = false ->
     EncodeUniqueIndexKey env (tblInfo (sExec s)) idx (idxVals (sExec s)) tid =
       (vals', (ik, None)) ->
     isEmpty ik = false ->
     newLockCtx env w = None ->
     doLockKeys env w onlyIfExists ik = inr values ->
     (exists rest, t = (EvLock ik onlyIfExists w :: reads ++ rest)%list) /\
     (forall rtid s2 pre,
        rowRead env s rtid s2 pre -> pre = EvLock ik onlyIfExists w :: reads) /\
     Forall (isReadOf ik) reads /\
     (onlyIfExists = false -> reads <> [])) /\
  (onlyIfExists = true ->
   forall values key s',
     lockedReads env values key s' =
       match values !! key with
       | Some rv =>
           if rvExists rv then []
           else if rvAlreadyLocked rv then events (get env key s') else []
       | None => []
       end).
Proof.
  intros Hl. cbv zeta.
  destruct (Next_lock_order env s Hl) as (H1 & H2 & H3).
  split; [exact H1|]. split; [exact H2|]. split; [exact H3|].
  split; [|split; [|split]].
  - intros i j ev k k' b w'. apply Next_lock_after_read. exact Hl.
  - intros rtid s2 pre values Hd Hrow Hk Hctx Hlock.
    split; [|split].
    + exact (Next_row_lock env s rtid s2 pre values Hl Hd Hrow Hk Hctx Hlock).
    + apply lockedReads_reads.
    + intros Hrc. apply lockedReads_nonempty; assumption.
  - intros idx vals' ik values Hd Hidx Hc He Hk Hctx Hlock.
    destruct (Next_index_lock env s idx vals' ik values Hl Hd Hidx Hc He Hk Hctx Hlock)
      as [Hrest Hpre].
    split; [exact Hrest|]. split; [exact Hpre|]. split.
    + apply lockedReads_reads.
    + intros Hrc. apply lockedReads_nonempty; assumption.
  - intros Hrc values key s'. unfold lockedReads. rewrite Hrc. reflexivity.
Qed.

(** *** Instances *)

(** C4 on [select * from t where b = 7 for update] over the live store,
    under repeatable read: the first call leaves the row of handle 9 in
    the chunk, the next three calls nothing. *)
Lemma C4_next_idempotent_after_first_call_witness :
  let env := Scenarios.liveEnv false in
  let s := Examples.initialState (Examples.planByB 7 true) in
  let first := Next env s in
  (result first, sReq (state first)) = (None, [[NewStringDatum "row9"]]) /\
  result (NextTimes env 3 (state first)) = [None; None; None] /\
  events (NextTimes env 3 (state first)) = [] /\
  sReq (state (NextTimes env 3 (state first))) = [].
Proof.
  cbv zeta.
  set (env := Scenarios.liveEnv false).
  set (s := Examples.initialState (Examples.planByB 7 true)).
  destruct (C4_next_idempotent_after_first_call env s 2)
    as (_ & Hr & He & Hq & _ & _ & Hrow & _).
  split; [|split; [exact Hr|split; [exact He|exact Hq]]].
  set (s1 := with_exec (fun e => set_idxKey "t1_i2_7" (set_idxVals [NewIntDatum 7] e))
               (prologue s)).
  assert (Hrr : rowRead env s 1
                  (with_exec (set_handle (Some (IntHandle 9)))
                     (state (readIndexEntry env s1)))
                  (events (readIndexEntry env s1))).
  { exists [NewIntDatum 7], "t1_i2_7", None, (IntHandle 9).
    repeat split; vm_compute; reflexivity. }
  rewrite (Hrow _ _ _ "row9" eq_refl Hrr); [reflexivity|vm_compute; reflexivity|reflexivity].
Defined.

(** C1 on [select * from t where b = 7 for update] over the live store:
    under repeatable read the index key is locked, then read, and the
    row key is locked, then read; under read committed both lock
    requests carry [LockOnlyIfExists] and no read follows. *)
Lemma C1_lock_precedes_read_witness :
  let s := Examples.initialState (Examples.planByB 7 true) in
  lock (sExec s) = true /\
  (exists t3,
     events (Next (Scenarios.liveEnv false) s) =
       ([EvLock "t1_i2_7" false 50; EvMemBufferGet "t1_i2_7";
         EvLockCacheGet "t1_i2_7";
         EvLock "t1_r9" false 50; EvMemBufferGet "t1_r9";
         EvLockCacheGet "t1_r9"] ++ t3)%list) /\
  (exists t3,
     events (Next (Scenarios.liveEnv true) s) =
       ([EvLock "t1_i2_7" true 50; EvLock "t1_r9" true 50] ++ t3)%list) /\
  (forall k b w,
     In (EvLock k b w) (events (Next (Scenarios.liveEnv false) s)) -> b = false).
Proof.
  cbv zeta.
  set (s := Examples.initialState (Examples.planByB 7 true)).
  assert (Hl : lock (sExec s) = true) by reflexivity.
  set (s1 := with_exec (fun e => set_idxKey "t1_i2_7" (set_idxVals [NewIntDatum 7] e))
               (prologue s)).
  assert (Hshape : forall rc,
            exists t3,
              events (Next (Scenarios.liveEnv rc) s) =
                ((EvLock "t1_i2_7" rc 50
                    :: lockedReads (Scenarios.liveEnv rc)
                         {[ "t1_i2_7" := mkReturnedValue "9" true false ]} "t1_i2_7"
                         (with_cache
                            (cacheAfterLock (sExec s1)
                               {[ "t1_i2_7" := mkReturnedValue "9" true false ]}) s1))
                 ++ EvLock "t1_r9" rc 50
                    :: lockedReads (Scenarios.liveEnv rc)
                         {[ "t1_r9" := mkReturnedValue "row9" true false ]} "t1_r9"
                         (with_cache
                            (cacheAfterLock
                               (sExec (with_exec (set_handle (Some (IntHandle 9)))
                                         (state (readIndexEntry (Scenarios.liveEnv rc) s1))))
                               {[ "t1_r9" := mkReturnedValue "row9" true false ]})
                            (with_exec (set_handle (Some (IntHandle 9)))
                               (state (readIndexEntry (Scenarios.liveEnv rc) s1))))
                    ++ t3)%list).
  { intros rc.
    destruct (C1_lock_precedes_read (Scenarios.liveEnv rc) s Hl)
      as (_ & _ & _ & _ & Hrow & Hidx & _).
    assert (Hrr : rowRead (Scenarios.liveEnv rc) s 1
                    (with_exec (set_handle (Some (IntHandle 9)))
                       (state (readIndexEntry (Scenarios.liveEnv rc) s1)))
                    (events (readIndexEntry (Scenarios.liveEnv rc) s1))).
    { exists [NewIntDatum 7], "t1_i2_7", None, (IntHandle 9).
      destruct rc; repeat split; vm_compute; reflexivity. }
    destruct (Hidx Examples.idxB [NewIntDatum 7] "t1_i2_7"
                {[ "t1_i2_7" := mkReturnedValue "9" true false ]}
                eq_refl eq_refl eq_refl eq_refl eq_refl eq_refl eq_refl)
      as (_ & Hpre & _).
    destruct (Hrow _ _ _ {[ "t1_r9" := mkReturnedValue "row9" true false ]}
                eq_refl Hrr eq_refl eq_refl eq_refl) as ((t3 & E & _) & _).
    exists t3. rewrite E, (Hpre _ _ _ Hrr). reflexivity. }
  split; [exact Hl|]. split; [|split].
  - destruct (Hshape false) as (t3 & E). exists t3. rewrite E. reflexivity.
  - destruct (Hshape true) as (t3 & E). exists t3. rewrite E. reflexivity.
  - exact (proj1 (C1_lock_precedes_read (Scenarios.liveEnv false) s Hl)).
Defined.

End NextProofs.

(** ** Properties of the row decoder *)

Module RowDecodeProofs.
Import Model Planner RowDecode.

Lemma cutInvariant_empty : cutInvariant ∅.
Proof.
  split; intros *; rewrite lookup_empty; discriminate.
Qed.

Lemma cutInvariant_step m k :
  cutInvariant m ->
  cutInvariant (match m !! k with
                | Some _ => m
                | None => <[k := size m]> m
                end).
Proof.
  intros [Hlt Hinj]. destruct (m !! k) eqn:Hid; [split; assumption|].
  split.
  - intros a p. rewrite map_size_insert_None by exact Hid.
    destruct (decide (k = a)) as [<-|Hne].
    + rewrite lookup_insert_eq. intros [= <-]. lia.
    + rewrite lookup_insert_ne by exact Hne. intros H. apply Hlt in H. lia.
  - intros a b p.
    destruct (decide (k = a)) as [<-|Ha], (decide (k = b)) as [<-|Hb];
      rewrite ?lookup_insert_eq, ?lookup_insert_ne by assumption.
    + reflexivity.
    + intros [= <-] H. apply Hlt in H. lia.
    + intros H [= <-]. apply Hlt in H. lia.
    + apply Hinj.
Qed.

Lemma cutPositions_grows cols :
  forall m id p, m !! id = Some p -> cutPositions cols m !! id = Some p.
Proof.
  induction cols as [|col rest IH]; intros m id p H; [exact H|].
  cbn [cutPositions]. apply IH.
  destruct (m !! cID col) eqn:Hc; [exact H|].
  rewrite lookup_insert_ne; [exact H|]. intros E. rewrite E in Hc. congruence.
Qed.

Lemma cutPositions_invariant cols :
  forall m, cutInvariant m ->
    cutInvariant (cutPositions cols m) /\
    (forall col, In col cols -> is_Some (cutPositions cols m !! cID col)) /\
    (size (cutPositions cols m) <= size m + length cols)%nat /\
    (forall id, is_Some (cutPositions cols m !! id) ->
                is_Some (m !! id) \/ exists col, In col cols /\ cID col = id).
Proof.
  induction cols as [|col rest IH]; intros m Hm.
  - cbn. split; [exact Hm|]. split; [intros ? []|]. split; [lia|]. auto.
  - cbn [cutPositions].
    set (m' := match m !! cID col with
               | Some _ => m
               | None => <[cID col := size m]> m
               end).
    destruct (IH m' (cutInvariant_step m (cID col) Hm)) as (Hinv & Hall & Hsize & Hback).
    split; [exact Hinv|].
    assert (Hcol : is_Some (m' !! cID col)).
    { unfold m'. destruct (m !! cID col) eqn:Hc; [rewrite Hc; eauto|].
      rewrite lookup_insert_eq. eauto. }
    split.
    { intros c [<- | Hin]; [|exact (Hall c Hin)].
      destruct Hcol as [p Hp]. exists p. apply cutPositions_grows. exact Hp. }
    split.
    { assert (size m' <= S (size m))%nat.
      { unfold m'. destruct (m !! cID col) eqn:Hc; [lia|].
        rewrite map_size_insert_None by exact Hc. lia. }
      cbn [length]. lia. }
    intros id Hid. destruct (Hback id Hid) as [Hm' | (c & Hin & Hc)].
    + unfold m' in Hm'. destruct (m !! cID col) eqn:Hc; [left; exact Hm'|].
      destruct (decide (cID col = id)) as [<-|Hne].
      * right. exists col. split; [left; reflexivity|reflexivity].
      * rewrite lookup_insert_ne in Hm' by exact Hne. left. exact Hm'.
    + right. exists c. split; [right; exact Hin|exact Hc].
Qed.

(** X10: [colID2CutPos] numbers the distinct column ids of the schema:
    every column has a position below the size of the map, two ids never
    share a position, and only ids of the schema are in the map. *)
Theorem cutPositions_numbering (schema : list Column) :
  let m := cutPositions schema ∅ in
  (forall col, In col schema ->
     exists p, m !! cID col = Some p /\ (p < size m)%nat) /\
  (forall a b p, m !! a = Some p -> m !! b = Some p -> a = b) /\
  (forall id, is_Some (m !! id) -> exists col, In col schema /\ cID col = id) /\
  (size m <= length schema)%nat.
Proof.
  cbv zeta.
  destruct (cutPositions_invariant schema ∅ cutInvariant_empty)
    as ([Hlt Hinj] & Hall & Hsize & Hback).
  split.
  { intros col Hin. destruct (Hall col Hin) as [p Hp]. exists p.
    split; [exact Hp|exact (Hlt _ _ Hp)]. }
  split; [exact Hinj|]. split.
  { intros id Hid. destruct (Hback id Hid) as [H | H]; [|exact H].
    rewrite lookup_empty in H. destruct H; discriminate. }
  rewrite map_size_empty in Hsize. lia.
Qed.

Section Decoder.
Context (codec : Codec).

Lemma decodeColumns_spec tbl handle pkCols prefixColIDs m cutVals :
  forall cols cells,
    decodeColumns codec tbl handle pkCols prefixColIDs m cutVals cols =
      Ok (inr cells) ->
    Forall2 (fun col cell =>
               decodeColumn codec tbl handle pkCols prefixColIDs m cutVals col =
                 Ok (inr cell))
            cols cells.
Proof.
  induction cols as [|col rest IH]; intros cells H.
  - cbn in H. injection H as <-. constructor.
  - cbn [decodeColumns] in H.
    destruct (decodeColumn codec tbl handle pkCols prefixColIDs m cutVals col)
      as [[err|cell]|msg] eqn:Hc; cbn [rbind] in H; try discriminate.
    destruct (decodeColumns codec tbl handle pkCols prefixColIDs m cutVals rest)
      as [[err|cs]|msg] eqn:Hr; cbn [rbind] in H; try discriminate.
    injection H as <-. constructor; [exact Hc|]. apply IH. reflexivity.
Qed.

(** X11: a decoded row has one cell for each column of the schema, in
    order: NULL for a virtual column, and the integer value of the
    handle for the primary-key column of a table whose primary key is
    the handle and for the [_tidb_rowid] column. *)
Theorem decodeOldRowValToChunk_cells (schema : list Column) (tbl : TableInfo)
    (handle : option Handle) (rowVal : string) (cells : list Cell) :
  decodeOldRowValToChunk codec schema tbl handle rowVal = Ok (inr cells) ->
  length cells = length schema /\
  forall i col, schema !! i = Some col ->
    (isVirtual codec col = true -> cells !! i = Some CellNull) /\
    (isVirtual codec col = false ->
     tblPKIsHandle tbl && HasPriKeyFlag (ftFlag (cRetType col)) ||
       (cID col =? ExtraHandleID) = true ->
     exists v, IntValue codec handle = Ok v /\ cells !! i = Some (CellInt64 v)).
Proof.
  unfold decodeOldRowValToChunk. cbv zeta. intros H.
  destruct (CutRowNew codec rowVal _) as [err|cut]; [discriminate|].
  apply decodeColumns_spec in H.
  split; [symmetry; exact (Forall2_length _ _ _ H)|].
  intros i col Hi.
  destruct (Forall2_lookup_l _ _ _ _ _ H Hi) as (cell & Hcell & Hdec).
  rewrite Hcell. unfold decodeColumn in Hdec. split.
  - intros Hv. rewrite Hv in Hdec. congruence.
  - intros Hv Hh. rewrite Hv in Hdec. unfold tryDecodeFromHandle in Hdec.
    destruct (tblPKIsHandle tbl && HasPriKeyFlag (ftFlag (cRetType col))).
    + destruct (IntValue codec handle) as [v|msg]; cbn [rbind] in Hdec;
        [|discriminate].
      exists v. split; [reflexivity|]. congruence.
    + cbn [orb] in Hh. rewrite Hh in Hdec.
      destruct (IntValue codec handle) as [v|msg]; cbn [rbind] in Hdec;
        [|discriminate].
      exists v. split; [reflexivity|]. congruence.
Qed.

(** X12: when the row value holds none of the columns ([CutRowNew] gives
    nil), a column that is neither virtual nor read from the handle gets
    the original default value of the table column with its id, never an
    index out of range. *)
Theorem decodeOldRowValToChunk_defaults (schema : list Column) (tbl : TableInfo)
    (handle : option Handle) (rowVal : string) (i : nat) (col : Column) :
  let m := cutPositions schema ∅ in
  let cutVals := replicate (size m) "" in
  CutRowNew codec rowVal m = inr None ->
  schema !! i = Some col ->
  isVirtual codec col = false ->
  tryDecodeFromHandle codec tbl col handle (TryGetCommonPkColumnIds codec tbl)
    (PrimaryPrefixColumnIDs codec tbl) = Ok (inr None) ->
  decodeColumn codec tbl handle (TryGetCommonPkColumnIds codec tbl)
    (PrimaryPrefixColumnIDs codec tbl) m cutVals col =
    match GetColOriginDefaultValue codec (getColInfoByID tbl (cID col)) with
    | inl err => Ok (inl err)
    | inr d => Ok (inr (CellDatum d))
    end /\
  forall cells,
    decodeOldRowValToChunk codec schema tbl handle rowVal = Ok (inr cells) ->
    exists d, GetColOriginDefaultValue codec (getColInfoByID tbl (cID col)) = inr d /\
              cells !! i = Some (CellDatum d).
Proof.
  cbv zeta. intros Hcut Hi Hv Hh.
  assert (Hcol : decodeColumn codec tbl handle (TryGetCommonPkColumnIds codec tbl)
                   (PrimaryPrefixColumnIDs codec tbl) (cutPositions schema ∅)
                   (replicate (size (cutPositions schema ∅)) "") col =
                 match GetColOriginDefaultValue codec (getColInfoByID tbl (cID col)) with
                 | inl err => Ok (inl err)
                 | inr d => Ok (inr (CellDatum d))
                 end).
  { unfold decodeColumn. rewrite Hv, Hh. cbn [rbind].
    destruct (cutPositions_invariant schema ∅ cutInvariant_empty)
      as ([Hlt _] & Hall & _).
    destruct (Hall col) as [p Hp].
    { apply list_elem_of_In. eapply list_elem_of_lookup_2. exact Hi. }
    specialize (Hlt _ _ Hp).
    rewrite Hp. cbn [default].
    rewrite lookup_replicate_2 by exact Hlt. reflexivity. }
  split; [exact Hcol|].
  intros cells H. unfold decodeOldRowValToChunk in H. cbv zeta in H.
  rewrite Hcut in H. cbn [default] in H.
  apply decodeColumns_spec in H.
  destruct (Forall2_lookup_l _ _ _ _ _ H Hi) as (cell & Hcell & Hdec).
  rewrite Hcol in Hdec.
  destruct (GetColOriginDefaultValue codec _) as [err|d]; [discriminate|].
  exists d. split; [reflexivity|]. congruence.
Qed.

End Decoder.

(** [getColInfoByID] returns the first column of the table with the
    id, and nil exactly when no column has it. *)
Lemma getColInfoByID_first (tbl : TableInfo) (colID : Z) :
  match getColInfoByID tbl colID with
  | Some col =>
      exists pre post,
        tblColumns tbl = (pre ++ col :: post)%list /\ Model.colID col = colID /\
        Forall (fun c => Model.colID c <> colID) pre
  | None => Forall (fun c => Model.colID c <> colID) (tblColumns tbl)
  end.
Proof.
  unfold getColInfoByID. induction (tblColumns tbl) as [|c rest IH].
  - constructor.
  - cbn [getColInfoByIDIn]. destruct (Model.colID c =? colID) eqn:E.
    + apply Z.eqb_eq in E. exists [], rest. repeat split; auto.
    + apply Z.eqb_neq in E.
      destruct (getColInfoByIDIn rest colID) as [col|].
      * destruct IH as (pre & post & -> & Hid & Hpre).
        exists (c :: pre), post. repeat split; auto.
      * constructor; assumption.
Qed.

Lemma notPKPrefixCol_spec colID prefixColIDs :
  notPKPrefixCol colID prefixColIDs = true <-> ~ In colID prefixColIDs.
Proof.
  induction prefixColIDs as [|p rest IH]; cbn.
  - tauto.
  - destruct (p =? colID) eqn:E.
    + apply Z.eqb_eq in E. split; [discriminate|]. intros H. exfalso. auto.
    + apply Z.eqb_neq in E. rewrite IH. tauto.
Qed.

(** *** Instances *)

(** X11 on the schema [a, b, c] of [t], [c] virtual, and the handle 5. *)
Lemma decodeOldRowValToChunk_cells_witness :
  decodeOldRowValToChunk Scenarios.emptyRowCodec Scenarios.schemaT Examples.tblT
    (Some (IntHandle 5)) "" =
    Ok (inr [CellInt64 5; CellDatum (NewIntDatum 1); CellNull]) /\
  length [CellInt64 5; CellDatum (NewIntDatum 1); CellNull] =
    length Scenarios.schemaT.
Proof.
  assert (H : decodeOldRowValToChunk Scenarios.emptyRowCodec Scenarios.schemaT
                Examples.tblT (Some (IntHandle 5)) "" =
              Ok (inr [CellInt64 5; CellDatum (NewIntDatum 1); CellNull]))
    by (vm_compute; reflexivity).
  split; [exact H|].
  exact (proj1 (decodeOldRowValToChunk_cells Scenarios.emptyRowCodec
                  Scenarios.schemaT Examples.tblT (Some (IntHandle 5)) "" _ H)).
Defined.

(** X12 on the column [b] of a row value that holds no column. *)
Lemma decodeOldRowValToChunk_defaults_witness :
  exists cells d,
    decodeOldRowValToChunk Scenarios.emptyRowCodec Scenarios.schemaT Examples.tblT
      (Some (IntHandle 5)) "" = Ok (inr cells) /\
    GetColOriginDefaultValue Scenarios.emptyRowCodec
      (getColInfoByID Examples.tblT 2) = inr d /\
    cells !! 1%nat = Some (CellDatum d).
Proof.
  epose proof (decodeOldRowValToChunk_defaults Scenarios.emptyRowCodec
                 Scenarios.schemaT Examples.tblT (Some (IntHandle 5)) "" 1%nat
                 (colInfoToColumn Examples.colB 1)) as H.
  cbv zeta in H.
  specialize (H eq_refl eq_refl eq_refl eq_refl).
  destruct H as (_ & H).
  destruct (H [CellInt64 5; CellDatum (NewIntDatum 1); CellNull])
    as (d & Hd & Hc); [vm_compute; reflexivity|].
  exists [CellInt64 5; CellDatum (NewIntDatum 1); CellNull], d.
  split; [vm_compute; reflexivity|]. split; [exact Hd|exact Hc].
Defined.

End RowDecodeProofs.

(** ** Properties of the key resolver and of the plans *)

Module ResolverProofs.
Import Model Planner PlannerSpec ResolverSpec.

(** *** Index hints *)

Lemma hintsLoop_spec idxInfo hints :
  forall isIgnore,
    hintsLoop idxInfo hints isIgnore =
      match List.find (hintDecides idxInfo) hints with
      | Some h => usesHint h
      | None => isIgnore || existsb ignoresHint hints
      end.
Proof.
  induction hints as [|h rest IH]; intros isIgnore.
  - cbn. rewrite orb_false_r. reflexivity.
  - destruct h as [[names|] [] []];
      cbn [hintsLoop List.find existsb hintDecides hintNames ignoresHint usesHint
           hHintScope hHintType hIndexNames andb orb default id];
      try (rewrite IH; destruct (List.find _ rest);
           rewrite ?orb_false_r, ?orb_true_r; reflexivity);
      destruct (existsb (hintNameMatches idxInfo) names); try reflexivity;
      rewrite IH; destruct (List.find _ rest);
      rewrite ?orb_false_r, ?orb_true_r; reflexivity.
Qed.

(** X13: with a non-empty hint list, the first scan hint ([USE], [FORCE]
    or [IGNORE INDEX] with a name list) that names the index decides:
    the index is available after [USE] or [FORCE], not after [IGNORE];
    an index no hint names is available exactly when the list holds an
    [IGNORE INDEX] scan hint.  Without hints every index is
    available. *)
Theorem indexIsAvailableByHints_decided (idxInfo : option IndexInfo)
    (hints : list IndexHint) :
  indexIsAvailableByHints idxInfo hints =
    match hints with
    | [] => true
    | _ :: _ =>
        match List.find (hintDecides idxInfo) hints with
        | Some h => usesHint h
        | None => existsb ignoresHint hints
        end
    end.
Proof.
  unfold indexIsAvailableByHints. destruct hints as [|h rest]; [reflexivity|].
  rewrite hintsLoop_spec. reflexivity.
Qed.

(** *** Pairs and index values *)

Lemma findInPairsFrom_first name pairs :
  forall k,
    match findInPairsFrom k name pairs with
    | Some i =>
        exists j pr, i = (k + j)%nat /\ pairs !! j = Some pr /\
                     nvColName pr = name /\
                     forall j' pr', (j' < j)%nat -> pairs !! j' = Some pr' ->
                                    nvColName pr' <> name
    | None => Forall (fun pr => nvColName pr <> name) pairs
    end.
Proof.
  induction pairs as [|pr rest IH]; intros k; cbn [findInPairsFrom].
  - constructor.
  - unfold eqs. destruct (bool_decide (nvColName pr = name)) eqn:E.
    + apply bool_decide_eq_true in E. exists 0%nat, pr.
      rewrite Nat.add_0_r. repeat split; auto. intros j' pr' Hlt. lia.
    + apply bool_decide_eq_false in E. specialize (IH (S k)).
      destruct (findInPairsFrom (S k) name rest) as [i|].
      * destruct IH as (j & pr0 & -> & Hj & Hn & Hfirst).
        exists (S j), pr0. split; [lia|]. split; [exact Hj|]. split; [exact Hn|].
        intros [|j'] pr' Hlt Hp.
        -- injection Hp as <-. exact E.
        -- apply (Hfirst j' pr'); [lia|exact Hp].
      * constructor; assumption.
Qed.

(** [findInPairs] gives the position of the first pair on the
    column, and -1 exactly when no pair is on it. *)
Lemma findInPairs_first (name : string) (pairs : list nameValuePair) :
  match findInPairs name pairs with
  | Some i =>
      exists pr, pairs !! i = Some pr /\ nvColName pr = name /\
                 forall j pr', (j < i)%nat -> pairs !! j = Some pr' ->
                               nvColName pr' <> name
  | None => Forall (fun pr => nvColName pr <> name) pairs
  end.
Proof.
  unfold findInPairs. assert (H := findInPairsFrom_first name pairs 0%nat).
  destruct (findInPairsFrom 0 name pairs) as [i|]; [|exact H].
  destruct H as (j & pr & -> & Hj & Hn & Hfirst). exists pr. auto.
Qed.

Lemma collectIndexValues_aligned cols pairs :
  forall vs cs fts,
    collectIndexValues cols pairs = Some (vs, cs, fts) ->
    length vs = length cols /\ length cs = length cols /\
    length fts = length cols /\
    forall j c, cols !! j = Some c ->
      exists i pr,
        findInPairs (L (icName c)) pairs = Some i /\ pairs !! i = Some pr /\
        vs !! j = Some (nvValue pr) /\ cs !! j = Some (nvCon pr) /\
        fts !! j = Some (nvColFieldType pr).
Proof.
  induction cols as [|c rest IH]; intros vs cs fts H.
  - injection H as <- <- <-. repeat split. intros j c Hj.
    rewrite lookup_nil in Hj. discriminate.
  - cbn [collectIndexValues] in H.
    destruct (findInPairs (L (icName c)) pairs) as [i|] eqn:Hf; [|discriminate].
    destruct (pairs !! i) as [pr|] eqn:Hp; [|discriminate].
    destruct (collectIndexValues rest pairs) as [[[vs' cs'] fts']|] eqn:Hr;
      [|discriminate].
    injection H as <- <- <-.
    destruct (IH _ _ _ eq_refl) as (H1 & H2 & H3 & Hall).
    repeat split; cbn [length]; try congruence.
    intros [|j] c' Hj.
    + injection Hj as <-. exists i, pr. repeat split; auto.
    + exact (Hall j c' Hj).
Qed.

(** X14: the index values come in the order of the index columns: the
    value, constant and type at position [j] are those of the first
    pair on the column at position [j] of the index; nothing is
    returned unless the index has as many columns as there are pairs,
    at least one, and no prefix column. *)
Theorem getIndexValues_aligned (idx : IndexInfo) (pairs : list nameValuePair)
    (vs : list Datum) (cs : list (option Constant))
    (fts : list (option FieldType)) :
  getIndexValues idx pairs = Some (vs, cs, fts) ->
  length (idxColumns idx) = length pairs /\ (0 < length pairs)%nat /\
  HasPrefixIndex idx = false /\
  length vs = length pairs /\ length cs = length pairs /\
  length fts = length pairs /\
  forall j c, idxColumns idx !! j = Some c ->
    exists i pr,
      findInPairs (L (icName c)) pairs = Some i /\ pairs !! i = Some pr /\
      nvColName pr = L (icName c) /\
      vs !! j = Some (nvValue pr) /\ cs !! j = Some (nvCon pr) /\
      fts !! j = Some (nvColFieldType pr).
Proof.
  unfold getIndexValues.
  destruct (Nat.eqb (length (idxColumns idx)) (length pairs)) eqn:El;
    cbn [negb]; [|discriminate].
  apply Nat.eqb_eq in El.
  destruct (HasPrefixIndex idx); [discriminate|].
  destruct (collectIndexValues (idxColumns idx) pairs) as [[[vs0 cs0] fts0]|] eqn:Hc;
    [|discriminate].
  destruct (Nat.ltb 0 (length vs0)) eqn:Hpos; [|discriminate].
  intros [= <- <- <-]. apply Nat.ltb_lt in Hpos.
  destruct (collectIndexValues_aligned _ _ _ _ _ Hc) as (H1 & H2 & H3 & Hall).
  repeat split; try lia.
  intros j c Hj. destruct (Hall j c Hj) as (i & pr & Hf & Hp & Hv & Hcn & Hft).
  exists i, pr. repeat split; auto.
  assert (Hfirst := findInPairsFrom_first (L (icName c)) pairs 0%nat).
  unfold findInPairs in Hf. rewrite Hf in Hfirst.
  destruct Hfirst as (j' & pr' & -> & Hp' & Hn & _). cbn in Hp.
  congruence.
Qed.

(** *** Range partitions *)

(** The invariant of the binary search of [sort.Search]: everything
    examined below [i] failed the test, everything examined from [j] on
    passed it. *)
Lemma searchLoop_spec (f : nat -> bool) (n : nat) :
  forall fuel i j,
    (i <= j <= n)%nat -> (j - i < fuel)%nat ->
    (i = 0%nat \/ f (Nat.pred i) = false) ->
    (j = n \/ f j = true) ->
    let p := searchLoop fuel f i j in
    (p <= n)%nat /\ (p = 0%nat \/ f (Nat.pred p) = false) /\
    (p = n \/ f p = true).
Proof.
  induction fuel as [|fuel IH]; intros i j Hij Hfuel Hi Hj; [lia|].
  cbn [searchLoop]. destruct (Nat.ltb i j) eqn:Hlt.
  - apply Nat.ltb_lt in Hlt.
    assert (Hh : (i <= Nat.div2 (i + j) < j)%nat).
    { rewrite Nat.div2_div. split.
      - apply Nat.div_le_lower_bound; lia.
      - apply Nat.Div0.div_lt_upper_bound; lia. }
    destruct (f (Nat.div2 (i + j))) eqn:Hf; cbn [negb].
    + apply IH; [lia|lia|exact Hi|right; exact Hf].
    + apply IH; [lia|lia|right; exact Hf|exact Hj].
  - apply Nat.ltb_ge in Hlt. cbv zeta. assert (i = j) by lia. subst j.
    split; [lia|]. split; assumption.
Qed.

Lemma sortSearch_spec (f : nat -> bool) (n : nat) :
  let p := sortSearch n f in
  (p <= n)%nat /\ (p = 0%nat \/ f (Nat.pred p) = false) /\ (p = n \/ f p = true).
Proof.
  unfold sortSearch. apply searchLoop_spec; auto; lia.
Qed.

(** X15: on a table partitioned by range on a column, the partition
    chosen for the value of the first pair on that column is one whose
    upper bound exceeds the value while the bound before it does not;
    when no bound exceeds the value the pairs are flagged table-dual.
    When the bounds are increasing the position is the least one. *)
Theorem getPartitionDef_range (ctx : Ctx) (tbl : TableInfo)
    (pairs : list nameValuePair) (pe : PartitionExpr) (pi : PartitionInfo)
    (col : Column) (colInfo : ColumnInfo) (i : nat) (pr : nameValuePair) :
  let exceeds (k : nat) :=
    0 <? frCompare (peForRangePruning pe) k (GetInt64 (nvValue pr))
           (HasUnsignedFlag (ftFlag (cRetType col))) in
  let n := frLessThanLen (peForRangePruning pe) in
  getPartitionExpr ctx tbl = Some pe ->
  tblPartition tbl = Some pi ->
  piType pi = PartitionTypeRange ->
  piColumns pi = [] ->
  peExpr pe = Some (ExprColumn col) ->
  findColNameByColID (tblColumns tbl) col = Some colInfo ->
  firstPairOn (L (Model.colName colInfo)) pairs = Some (i, pr) ->
  exists pos : nat,
    (pos <= n)%nat /\
    (pos = 0%nat \/ exceeds (Nat.pred pos) = false) /\
    ((forall a b, (a <= b)%nat -> exceeds a = true -> exceeds b = true) ->
     forall k, (k < pos)%nat -> exceeds k = false) /\
    if Nat.ltb pos n then
      exceeds pos = true /\
      getPartitionDef ctx tbl pairs =
        match piDefinitions pi !! pos with
        | Some def => Ok (Some def, i, Z.of_nat pos, false)
        | None => Panic "index out of range"
        end
    else getPartitionDef ctx tbl pairs = Ok (None, 0%nat, 0, true).
Proof.
  cbv zeta. intros Hpe Hpi Hty Hcols Hexpr Hcol Hpair.
  set (f := fun k => 0 <? frCompare (peForRangePruning pe) k (GetInt64 (nvValue pr))
                           (HasUnsignedFlag (ftFlag (cRetType col)))).
  set (n := frLessThanLen (peForRangePruning pe)).
  destruct (sortSearch_spec f n) as (Hle & Hprev & Hat).
  exists (sortSearch n f).
  split; [exact Hle|]. split; [exact Hprev|]. split.
  { intros Hmono k Hk.
    destruct Hprev as [H0 | Hprev]; [lia|].
    destruct (f k) eqn:Hfk; [|reflexivity].
    rewrite (Hmono k (Nat.pred (sortSearch n f))) in Hprev; [discriminate|lia|exact Hfk]. }
  assert (Hne : pairs <> []).
  { intros ->. discriminate. }
  assert (Hget : getPartitionDef ctx tbl pairs =
                 if Nat.ltb (sortSearch n f) n then
                   rbind (definitionAt pi (Z.of_nat (sortSearch n f)))
                     (fun def => Ok (Some def, i, Z.of_nat (sortSearch n f), false))
                 else Ok (None, 0%nat, 0, true)).
  { unfold getPartitionDef. rewrite Hpe, Hpi, Hty, Hcols, Hexpr. cbn [length Nat.eqb].
    destruct pairs as [|p0 rest]; [contradiction|].
    rewrite Hcol, Hpair. reflexivity. }
  rewrite Hget. destruct (Nat.ltb (sortSearch n f) n) eqn:Hlt; [|reflexivity].
  apply Nat.ltb_lt in Hlt. split.
  { destruct Hat as [Hat | Hat]; [lia|exact Hat]. }
  unfold definitionAt.
  destruct (Z.of_nat (sortSearch n f) <? 0) eqn:E; [apply Z.ltb_lt in E; lia|].
  rewrite Nat2Z.id. destruct (piDefinitions pi !! sortSearch n f); reflexivity.
Qed.

(** *** Position of the partition column in an index *)

Lemma indexColumnPos_spec name cols :
  forall k,
    match indexColumnPos k name cols with
    | Some i =>
        exists j c, i = (k + j)%nat /\ cols !! j = Some c /\ L (icName c) = name /\
                    forall j' c', (j' < j)%nat -> cols !! j' = Some c' ->
                                  L (icName c') <> name
    | None => Forall (fun c => L (icName c) <> name) cols
    end.
Proof.
  induction cols as [|c rest IH]; intros k; cbn [indexColumnPos].
  - constructor.
  - unfold eqs. destruct (bool_decide (L (icName c) = name)) eqn:E.
    + apply bool_decide_eq_true in E. exists 0%nat, c.
      rewrite Nat.add_0_r. repeat split; auto. intros j' c' Hlt. lia.
    + apply bool_decide_eq_false in E. specialize (IH (S k)).
      destruct (indexColumnPos (S k) name rest) as [i|].
      * destruct IH as (j & c0 & -> & Hj & Hn & Hfirst).
        exists (S j), c0. split; [lia|]. split; [exact Hj|]. split; [exact Hn|].
        intros [|j'] c' Hlt Hp.
        -- injection Hp as <-. exact E.
        -- apply (Hfirst j' c'); [lia|exact Hp].
      * constructor; assumption.
Qed.

(** X16: the position of a column in an index is that of the first index
    column of that name; when the index has none, it is
    [GlobalWithoutColumnPos] for a global index and a panic for any
    other index. *)
Theorem getColumnPosInIndex_spec (idx : IndexInfo) (colName : CIStr) :
  match getColumnPosInIndex idx colName with
  | Ok pos =>
      (exists j c, pos = Z.of_nat j /\ idxColumns idx !! j = Some c /\
                   L (icName c) = L colName /\
                   forall j' c', (j' < j)%nat -> idxColumns idx !! j' = Some c' ->
                                 L (icName c') <> L colName) \/
      (pos = GlobalWithoutColumnPos /\ idxGlobal idx = true /\
       Forall (fun c => L (icName c) <> L colName) (idxColumns idx))
  | Panic _ =>
      idxGlobal idx = false /\
      Forall (fun c => L (icName c) <> L colName) (idxColumns idx)
  end.
Proof.
  unfold getColumnPosInIndex.
  assert (H := indexColumnPos_spec (L colName) (idxColumns idx) 0%nat).
  destruct (indexColumnPos 0 (L colName) (idxColumns idx)) as [i|].
  - destruct H as (j & c & -> & Hj & Hn & Hfirst). left. exists j, c. auto.
  - destruct (idxGlobal idx); [right|]; auto.
Qed.

(** *** Extraction of the pairs *)

Ltac finish_pair colName other Hop :=
  eexists; split; [reflexivity|];
  exists colName, other; split; [exact Hop|reflexivity].

Lemma equalityPair_spec ctx tbl tblName nvPairs l r pairs dual :
  equalityPair ctx tbl tblName nvPairs l r = (Some pairs, dual) ->
  exists pr, pairs = (nvPairs ++ [pr])%list /\
             equalityOn (BinaryOperationExpr EQ l r) (nvColName pr).
Proof.
  unfold equalityPair.
  set (operands := match l with
                   | ColumnNameExpr cn => Some (cn, r)
                   | _ => match r with
                          | ColumnNameExpr cn => Some (cn, l)
                          | _ => None
                          end
                   end).
  assert (Hop : forall cn other, operands = Some (cn, other) ->
            BinaryOperationExpr EQ l r = BinaryOperationExpr EQ (ColumnNameExpr cn) other \/
            BinaryOperationExpr EQ l r = BinaryOperationExpr EQ other (ColumnNameExpr cn)).
  { unfold operands. intros cn other H.
    destruct l; try (destruct r; try discriminate; injection H as <- <-; right;
                     reflexivity).
    injection H as <- <-. left. reflexivity. }
  destruct operands as [[colName other]|]; [|discriminate].
  specialize (Hop colName other eq_refl).
  destruct (constantOperand ctx other false) as [e|[d con]]; [discriminate|].
  destruct (IsNull d); [discriminate|].
  destruct (tblIsView tbl); [discriminate|].
  destruct (negb _ && negb _); [discriminate|].
  cbv zeta.
  destruct (FindColumnInfo (Cols tbl) (L (cnName colName))) as [col|].
  2:{ intros H; injection H as <- <-; finish_pair colName other Hop. }
  destruct (isTypeString _ && eqs _ _).
  { intros H; injection H as <- <-; finish_pair colName other Hop. }
  destruct (negb (checkCanConvertInPointGet ctx col _)); [discriminate|].
  destruct (ConvertTo ctx _ _) as [dVal err].
  assert (Hcmp : forall pairs' dual',
            match Compare ctx dVal (setColumnCollation ctx col d)
                    (ftCollate (colFieldType col)) with
            | (_, Some _) => (None, false)
            | (cmp, None) =>
                if negb (cmp =? 0) then (None, false)
                else (Some (nvPairs ++ [mkPair (L (cnName colName))
                                          (Some (colFieldType col)) dVal con])%list,
                      false)
            end = (Some pairs', dual') ->
            exists pr, pairs' = (nvPairs ++ [pr])%list /\
                       equalityOn (BinaryOperationExpr EQ l r) (nvColName pr)).
  { intros pairs' dual'.
    destruct (Compare ctx _ _ _) as [cmp [e|]]; [discriminate|].
    destruct (negb (cmp =? 0)); [discriminate|].
    intros H; injection H as <- <-; finish_pair colName other Hop. }
  destruct err as [e|]; [|apply Hcmp].
  destruct (isErrOverflow e).
  { intros H; injection H as <- <-; finish_pair colName other Hop. }
  destruct (negb (isErrTruncatedWrongVal e)); [discriminate|apply Hcmp].
Qed.

Lemma getNameValuePairsOf_spec ctx tbl tblName :
  forall e nvPairs pairs,
    getNameValuePairsOf ctx tbl tblName nvPairs e = (Some pairs, false) ->
    exists new, pairs = (nvPairs ++ new)%list /\
                Forall2 (fun c pr => equalityOn c (nvColName pr)) (conjuncts e) new.
Proof.
  induction e as [| | |op l IHl r IHr| | | | | |]; intros nvPairs pairs H;
    try discriminate.
  destruct op; try discriminate.
  - cbn [getNameValuePairsOf] in H.
    destruct (getNameValuePairsOf ctx tbl tblName nvPairs l) as [[p1|] [|]] eqn:Hl;
      try discriminate.
    destruct (getNameValuePairsOf ctx tbl tblName p1 r) as [[p2|] [|]] eqn:Hr;
      try discriminate.
    injection H as <-.
    destruct (IHl _ _ Hl) as (n1 & -> & H1).
    destruct (IHr _ _ Hr) as (n2 & -> & H2).
    exists (n1 ++ n2)%list. split; [rewrite app_assoc; reflexivity|].
    cbn [conjuncts]. apply Forall2_app; assumption.
  - cbn [getNameValuePairsOf] in H.
    destruct (equalityPair_spec _ _ _ _ _ _ _ _ H) as (pr & -> & Heq).
    exists [pr]. split; [reflexivity|]. cbn [conjuncts].
    constructor; [exact Heq|constructor].
Qed.

(** X17: the pairs extracted from a condition are those handed in
    followed by one pair for each conjunct of the condition, in order,
    each conjunct being an equality with the column of its pair on one
    side; a condition with any other conjunct gives no pairs.  When the
    pairs come flagged table-dual, the condition is a single equality
    and its pair is the last one. *)
Theorem getNameValuePairs_conjuncts (ctx : Ctx) (tbl : TableInfo) (tblName : CIStr)
    (nvPairs pairs : list nameValuePair) (expr : option ExprNode) (dual : bool) :
  getNameValuePairs ctx tbl tblName nvPairs expr = (Some pairs, dual) ->
  exists e new,
    expr = Some e /\ pairs = (nvPairs ++ new)%list /\
    Forall2 (fun c pr => equalityOn c (nvColName pr)) (conjuncts e) new /\
    (dual = true -> exists l r, e = BinaryOperationExpr EQ l r).
Proof.
  unfold getNameValuePairs. destruct expr as [e|]; [|discriminate].
  intros H. destruct dual.
  - destruct e as [| | |op l r| | | | | |]; try discriminate.
    destruct op; try discriminate.
    + cbn [getNameValuePairsOf] in H.
      destruct (getNameValuePairsOf ctx tbl tblName nvPairs l) as [[p1|] [|]];
        try discriminate.
      destruct (getNameValuePairsOf ctx tbl tblName p1 r) as [[p2|] [|]];
        discriminate.
    + cbn [getNameValuePairsOf] in H.
      destruct (equalityPair_spec _ _ _ _ _ _ _ _ H) as (pr & -> & Heq).
      exists (BinaryOperationExpr EQ l r), [pr]. repeat split.
      * cbn [conjuncts]. constructor; [exact Heq|constructor].
      * intros _. eauto.
  - destruct (getNameValuePairsOf_spec _ _ _ _ _ _ H) as (new & -> & Hall).
    exists e, new. repeat split; auto. discriminate.
Qed.

Lemma equalityPair_exact ctx tbl tblName nvPairs l r pairs :
  equalityPair ctx tbl tblName nvPairs l r = (Some pairs, false) ->
  exists pr, pairs = (nvPairs ++ [pr])%list /\ exactValue ctx tbl pr.
Proof.
  unfold equalityPair.
  match goal with
  | |- context [match ?o with Some _ => _ | None => _ end = _ -> _] =>
      destruct o as [[colName other]|]; [|discriminate]
  end.
  destruct (constantOperand ctx other false) as [e|[d con]]; [discriminate|].
  destruct (IsNull d); [discriminate|].
  destruct (tblIsView tbl); [discriminate|].
  destruct (negb _ && negb _); [discriminate|].
  cbv zeta. unfold exactValue.
  destruct (FindColumnInfo (Cols tbl) (L (cnName colName))) as [col|] eqn:Hcol.
  2:{ intros H; injection H as <-. eexists. split; [reflexivity|].
      cbn [nvColName]. rewrite Hcol. reflexivity. }
  destruct (isTypeString _ && eqs _ _) eqn:Hbin.
  { intros H; injection H as <-. eexists. split; [reflexivity|].
    cbn [nvColName]. rewrite Hcol. cbv zeta. split; [reflexivity|left; exact Hbin]. }
  destruct (checkCanConvertInPointGet ctx col _) eqn:Hcan; cbn [negb];
    [|discriminate].
  destruct (ConvertTo ctx _ _) as [dVal err] eqn:Hconv.
  assert (Hcmp : forall pairs',
            match Compare ctx dVal (setColumnCollation ctx col d)
                    (ftCollate (colFieldType col)) with
            | (_, Some _) => (None, false)
            | (cmp, None) =>
                if negb (cmp =? 0) then (None, false)
                else (Some (nvPairs ++ [mkPair (L (cnName colName))
                                          (Some (colFieldType col)) dVal con])%list,
                      false)
            end = (Some pairs', false) ->
            exists pr, pairs' = (nvPairs ++ [pr])%list /\
              match FindColumnInfo (Cols tbl) (nvColName pr) with
              | None => nvColFieldType pr = Some (NewFieldType TypeLonglong)
              | Some col =>
                  nvColFieldType pr = Some (colFieldType col) /\
                  (isTypeString (ftTp (colFieldType col)) &&
                     eqs (ftCollate (colFieldType col)) CollationBin = true \/
                   exists d,
                     checkCanConvertInPointGet ctx col d = true /\
                     fst (ConvertTo ctx d (colFieldType col)) = nvValue pr /\
                     Compare ctx (nvValue pr) d (ftCollate (colFieldType col)) =
                       (0, None))
              end).
  { intros pairs'.
    destruct (Compare ctx _ _ _) as [cmp [e|]] eqn:Hc; [discriminate|].
    destruct (cmp =? 0) eqn:Hz; cbn [negb]; [|discriminate].
    apply Z.eqb_eq in Hz. subst cmp.
    intros H; injection H as <-. eexists. split; [reflexivity|].
    cbn [nvColName nvColFieldType nvValue]. rewrite Hcol.
    split; [reflexivity|]. right. exists (setColumnCollation ctx col d).
    rewrite Hconv. auto. }
  destruct err as [e|]; [|apply Hcmp].
  destruct (isErrOverflow e); [discriminate|].
  destruct (negb (isErrTruncatedWrongVal e)); [discriminate|apply Hcmp].
Qed.

Lemma getNameValuePairsOf_exact ctx tbl tblName :
  forall e nvPairs pairs,
    getNameValuePairsOf ctx tbl tblName nvPairs e = (Some pairs, false) ->
    exists new, pairs = (nvPairs ++ new)%list /\ Forall (exactValue ctx tbl) new.
Proof.
  induction e as [| | |op l IHl r IHr| | | | | |]; intros nvPairs pairs H;
    try discriminate.
  destruct op; try discriminate.
  - cbn [getNameValuePairsOf] in H.
    destruct (getNameValuePairsOf ctx tbl tblName nvPairs l) as [[p1|] [|]] eqn:Hl;
      try discriminate.
    destruct (getNameValuePairsOf ctx tbl tblName p1 r) as [[p2|] [|]] eqn:Hr;
      try discriminate.
    injection H as <-.
    destruct (IHl _ _ Hl) as (n1 & -> & H1).
    destruct (IHr _ _ Hr) as (n2 & -> & H2).
    exists (n1 ++ n2)%list. split; [rewrite app_assoc; reflexivity|].
    apply Forall_app. split; assumption.
  - cbn [getNameValuePairsOf] in H.
    destruct (equalityPair_exact _ _ _ _ _ _ _ H) as (pr & -> & Hex).
    exists [pr]. split; [reflexivity|]. constructor; [exact Hex|constructor].
Qed.

(** X18: a key value is one the column holds exactly.  Every pair
    added for a condition that is not flagged table-dual carries the
    field type of its column and, unless the column is a binary CHAR,
    the conversion to the column type of a datum that
    [checkCanConvertInPointGet] accepts, and that conversion compares
    equal to the datum; a name that is no public column of the table
    is taken as a BIGINT. *)
Theorem getNameValuePairs_exact_values (ctx : Ctx) (tbl : TableInfo)
    (tblName : CIStr) (nvPairs pairs : list nameValuePair)
    (expr : option ExprNode) :
  getNameValuePairs ctx tbl tblName nvPairs expr = (Some pairs, false) ->
  exists new, pairs = (nvPairs ++ new)%list /\ Forall (exactValue ctx tbl) new.
Proof.
  unfold getNameValuePairs. destruct expr as [e|]; [|discriminate].
  apply getNameValuePairsOf_exact.
Qed.

(** *** Schema of the plan *)

Lemma appendAllColumns_keeps dbName tbl tblName cols :
  forall columns names,
    (forall k x, columns !! k = Some x ->
       fst (appendAllColumns dbName tbl tblName cols columns names) !! k = Some x) /\
    (forall k x, names !! k = Some x ->
       snd (appendAllColumns dbName tbl tblName cols columns names) !! k = Some x).
Proof.
  induction cols as [|c rest IH]; intros columns names; [split; auto|].
  cbn [appendAllColumns].
  destruct (IH (columns ++ [colInfoToColumn c (length columns)])%list
              (names ++ [{| fnDBName := dbName; fnOrigTblName := Model.tblName tbl;
                            fnTblName := tblName; fnOrigColName := mkCIStr "" "";
                            fnColName := Model.colName c |}])%list) as [H1 H2].
  split; intros k x H; [apply H1|apply H2]; apply lookup_app_l_Some; exact H.
Qed.

Lemma appendAllColumns_spec dbName tbl tblName cols :
  forall columns names,
    numbered columns names ->
    let r := appendAllColumns dbName tbl tblName cols columns names in
    numbered (fst r) (snd r) /\
    length (fst r) = (length columns + length cols)%nat /\
    forall j c, cols !! j = Some c ->
      fst r !! (length columns + j)%nat =
        Some (colInfoToColumn c (length columns + j)) /\
      exists nm, snd r !! (length columns + j)%nat = Some nm /\
                 fnColName nm = Model.colName c /\ fnTblName nm = tblName.
Proof.
  induction cols as [|c rest IH]; intros columns names [Hlen Hidx]; cbv zeta.
  - cbn. split; [split; assumption|]. split; [lia|].
    intros j c Hj. rewrite lookup_nil in Hj. discriminate.
  - cbn [appendAllColumns].
    set (columns' := (columns ++ [colInfoToColumn c (length columns)])%list).
    set (names' := (names ++ [_])%list).
    assert (Hn : numbered columns' names').
    { split.
      - unfold columns', names'. rewrite !length_app. cbn. lia.
      - intros i col Hi. unfold columns' in Hi.
        apply lookup_app_Some in Hi as [Hi | [Hge Hi]]; [exact (Hidx i col Hi)|].
        destruct (i - length columns)%nat as [|k] eqn:Hk; [|discriminate].
        injection Hi as <-. cbn. lia. }
    destruct (IH columns' names' Hn) as (Hnum & Hl & Hall).
    assert (Hlc : length columns' = S (length columns)).
    { unfold columns'. rewrite length_app. cbn. lia. }
    split; [exact Hnum|]. split; [rewrite Hl, Hlc; cbn; lia|].
    destruct (appendAllColumns_keeps dbName tbl tblName rest columns' names')
      as [Hkeep Hkeepn].
    intros [|j] c' Hj.
    + injection Hj as <-. rewrite Nat.add_0_r. split.
      * apply Hkeep. unfold columns'.
        rewrite lookup_app_r by lia. rewrite Nat.sub_diag. reflexivity.
      * eexists. split.
        -- apply Hkeepn. unfold names'. rewrite lookup_app_r by lia.
           replace (length columns - length names)%nat with 0%nat by lia.
           reflexivity.
        -- split; reflexivity.
    + destruct (Hall j c' Hj) as [H1 H2].
      rewrite Hlc in H1, H2.
      replace (length columns + S j)%nat with (S (length columns) + j)%nat by lia.
      auto.
Qed.

Lemma buildFromFields_numbered ctx dbName tbl tblName :
  forall fields columns names columns' names',
    numbered columns names ->
    buildFromFields ctx dbName tbl tblName fields columns names =
      Some (columns', names') ->
    numbered columns' names'.
Proof.
  induction fields as [|field rest IH]; intros columns names columns' names' Hn H.
  - injection H as <- <-. exact Hn.
  - cbn [buildFromFields] in H.
    assert (Hone : forall col nm,
              numbered (columns ++ [col]) (names ++ [nm]) \/ cIndex col <> length columns).
    { intros col nm. destruct (decide (cIndex col = length columns)) as [E|E];
        [left|right; exact E].
      destruct Hn as [Hlen Hidx]. split.
      - rewrite !length_app. cbn. lia.
      - intros i c Hi.
        apply lookup_app_Some in Hi as [Hi | [Hge Hi]]; [exact (Hidx i c Hi)|].
        destruct (i - length columns)%nat as [|k] eqn:Hk; [|discriminate].
        injection Hi as <-. lia. }
    destruct (sfWildCard field) as [wc|].
    + destruct (negb _ && negb _); [discriminate|].
      destruct (appendAllColumns_spec dbName tbl tblName (tblColumns tbl)
                  columns names Hn) as (Hn' & _).
      destruct (appendAllColumns dbName tbl tblName (tblColumns tbl) columns names)
        as [c1 n1]. eapply IH; [exact Hn'|exact H].
    + destruct (tryExtractRowChecksumColumn ctx field (length columns))
        as [[nm col]|] eqn:Hck.
      * eapply IH; [|exact H].
        destruct (Hone col nm) as [Hok | Hbad]; [exact Hok|].
        exfalso. apply Hbad. unfold tryExtractRowChecksumColumn in Hck.
        destruct (sfExpr field) as [[]|]; try discriminate.
        destruct args; [|discriminate].
        destruct (eqs (L fnName) TiDBRowChecksum); [|discriminate].
        injection Hck as _ <-. reflexivity.
      * destruct (sfExpr field) as [[]|]; try discriminate.
        destruct (negb _ && negb _); [discriminate|].
        destruct (findCol ctx tbl name) as [col|]; [|discriminate].
        eapply IH; [|exact H].
        destruct (Hone (colInfoToColumn col (length columns))
                    {| fnDBName := dbName; fnOrigTblName := Model.tblName tbl;
                       fnTblName := tblName; fnOrigColName := Model.colName col;
                       fnColName := if negb (eqs (L (sfAsName field)) "")
                                    then sfAsName field else cnName name |})
          as [Hok | Hbad]; [exact Hok|].
        exfalso. apply Hbad. reflexivity.
Qed.

Lemma buildSchemaFromFields_columns (ctx : Ctx) (dbName : CIStr)
    (tbl : TableInfo) (tblName : CIStr) (fields : list SelectField)
    (columns : list Column) (names : list FieldName) :
  buildSchemaFromFields ctx dbName tbl tblName fields = Some (columns, names) ->
  numbered columns names /\
  (fields = [] ->
   length columns = length (tblColumns tbl) /\
   forall j c, tblColumns tbl !! j = Some c ->
     columns !! j = Some (colInfoToColumn c j) /\
     exists nm, names !! j = Some nm /\ fnColName nm = Model.colName c /\
                fnTblName nm = tblName).
Proof.
  assert (H0 : numbered [] []).
  { split; [reflexivity|]. intros i col Hi. rewrite lookup_nil in Hi. discriminate. }
  unfold buildSchemaFromFields. destruct fields as [|f rest].
  - intros [= Hc]. 
    destruct (appendAllColumns_spec dbName tbl tblName (tblColumns tbl) [] [] H0)
      as (Hn & Hl & Hall).
    destruct (appendAllColumns dbName tbl tblName (tblColumns tbl) [] [])
      as [c1 n1]. injection Hc as <- <-. cbn [fst snd length Nat.add] in *.
    split; [exact Hn|]. intros _. split; [exact Hl|exact Hall].
  - intros H. split; [|discriminate].
    eapply buildFromFields_numbered; [exact H0|exact H].
Qed.

(** X19: in the schema built for a plan the columns are numbered by their
    position and each has a name; for a statement without select fields
    (UPDATE, DELETE) the schema has one column for each column of the
    table, in the order of the table, under the column's own name. *)
Theorem buildSchemaFromFields_numbered (ctx : Ctx) (dbName : CIStr)
    (tbl : TableInfo) (tblName : CIStr) (fields : list SelectField)
    (columns : list Column) (names : list FieldName) :
  buildSchemaFromFields ctx dbName tbl tblName fields = Some (columns, names) ->
  numbered columns names /\
  (fields = [] ->
   length columns = length (tblColumns tbl) /\
   forall j c, tblColumns tbl !! j = Some c ->
     columns !! j = Some (colInfoToColumn c j) /\
     exists nm, names !! j = Some nm /\ fnColName nm = Model.colName c /\
                fnTblName nm = tblName).
Proof.
  apply buildSchemaFromFields_columns.
Qed.

(** *** Shape of the point-get plan *)

Lemma checkIndexLoop_shape ctx tblName tbl dbName schema names pairs
    partitionDef pos g dual p :
  forall indices check latest,
    checkIndexLoop ctx tblName tbl dbName schema names pairs partitionDef pos
      g dual check latest indices = Ok (Some p) ->
    p = setTableDual (newPointGetPlan ctx (O (tnSchema tblName)) schema tbl names) \/
    exists idx vs cs fts pcp,
      In idx indices /\ getIndexValues idx pairs = Some (vs, cs, fts) /\
      p = indexPlan ctx dbName schema tbl names idx vs cs fts partitionDef pcp.
Proof.
  induction indices as [|i0 rest IH]; intros check latest H; [discriminate|].
  cbn [checkIndexLoop] in H.
  assert (Hrec : forall c l,
            checkIndexLoop ctx tblName tbl dbName schema names pairs partitionDef
              pos g dual c l rest = Ok (Some p) ->
            p = setTableDual (newPointGetPlan ctx (O (tnSchema tblName)) schema tbl names) \/
            exists idx vs cs fts pcp,
              In idx (i0 :: rest) /\ getIndexValues idx pairs = Some (vs, cs, fts) /\
              p = indexPlan ctx dbName schema tbl names idx vs cs fts partitionDef pcp).
  { intros c l H'. destruct (IH c l H') as [Hd | (idx & vs & cs & fts & pcp & Hin & Hrest)];
      [left; exact Hd|].
    right. exists idx, vs, cs, fts, pcp. split; [right; exact Hin|exact Hrest]. }
  destruct (negb (indexUsable i0 (tnIndexHints tblName))); [eauto|].
  destruct (g && negb (idxGlobal i0)); [eauto|].
  destruct dual.
  - destruct (refreshLatest ctx (tblID tbl) check latest) as [[l' c']|];
      [|discriminate].
    destruct (c' && negb (latestIsPublic l' i0)); [eauto|].
    injection H as <-. left. reflexivity.
  - destruct (getIndexValues i0 pairs) as [[[vs cs] fts]|] eqn:Hv; [|eauto].
    destruct (refreshLatest ctx (tblID tbl) check latest) as [[l' c']|];
      [|discriminate].
    destruct (c' && negb (latestIsPublic l' i0)); [eauto|].
    destruct (match partitionDef with
              | Some _ => findPartitionIdx i0 pos pairs
              | None => Ok 0
              end) as [pcp|msg]; cbn [rbind] in H; [|discriminate].
    injection H as <-. right. exists i0, vs, cs, fts, pcp.
    split; [left; reflexivity|]. split; [exact Hv|reflexivity].
Qed.

Lemma checkTblIndexForPointPlan_shape ctx tblName schema names pairs
    partitionDef pos g dual check p :
  checkTblIndexForPointPlan ctx tblName schema names pairs partitionDef pos
    g dual check = Ok (Some p) ->
  exists tbl,
    tnTableInfo tblName = Some tbl /\ pTblInfo p = tbl /\ pSchema p = schema /\
    pOutputNames p = names /\ pLock p = false /\
    pLockWaitTime p = LockWaitTimeout ctx /\
    (isDualPlan p /\ pDbName p = O (tnSchema tblName) \/
     isIndexPlan tbl pairs p /\ pDbName p = planDb ctx tblName).
Proof.
  unfold checkTblIndexForPointPlan. intros H.
  match type of H with
  | rbind ?c _ = _ => destruct c as [stop|msg]; cbn [rbind] in H; [|discriminate]
  end.
  destruct stop; [discriminate|].
  destruct (tnTableInfo tblName) as [tbl|]; [|discriminate].
  exists tbl. split; [reflexivity|].
  destruct (checkIndexLoop_shape _ _ _ _ _ _ _ _ _ _ _ _ _ _ _ H)
    as [-> | (idx & vs & cs & fts & pcp & Hin & Hv & ->)].
  - repeat split; auto. left. repeat split.
  - repeat split; auto. right. repeat split. exists idx. repeat split; auto.
Qed.

Lemma findPKHandle_single tbl pairs :
  length pairs = 1%nat ->
  Kind (nvValue (fst (findPKHandle tbl pairs))) <> KindNull ->
  pairs = [fst (findPKHandle tbl pairs)].
Proof.
  intros Hlen Hk. destruct pairs as [|pr [|]]; try discriminate.
  revert Hk. unfold findPKHandle, findInPairs. cbn [findInPairsFrom].
  destruct (negb (tblPKIsHandle tbl)).
  - destruct (eqs (nvColName pr) "_tidb_rowid"); cbn; [reflexivity|].
    intros H. exfalso. apply H. reflexivity.
  - destruct (List.find _ (tblColumns tbl)) as [col|]; cbn.
    + destruct (eqs (nvColName pr) (L (colName col))); cbn; [reflexivity|].
      intros H. exfalso. apply H. reflexivity.
    + intros H. exfalso. apply H. reflexivity.
Qed.

Lemma resolveKey_shape ctx tblName tbl dbName schema names pairs partitionDef
    pairIdx dual check p :
  tnTableInfo tblName = Some tbl ->
  resolveKey ctx tblName tbl dbName schema names pairs partitionDef pairIdx
    dual check = Ok (Some p) ->
  dbName = planDb ctx tblName ->
  pTblInfo p = tbl /\ pSchema p = schema /\ pOutputNames p = names /\
  pLock p = false /\ pLockWaitTime p = LockWaitTimeout ctx /\
  (isDualPlan p /\ pDbName p = O (tnSchema tblName) \/
   isHandlePlan pairs p /\ pDbName p = planDb ctx tblName \/
   isIndexPlan tbl pairs p /\ pDbName p = planDb ctx tblName).
Proof.
  intros Htbl H0 Hdb. revert H0. subst dbName. unfold resolveKey.
  destruct (findPKHandle tbl pairs) as [handlePair fieldType] eqn:Hpk.
  destruct (negb (DatumKind_eqb (Kind (nvValue handlePair)) KindNull)) eqn:Hh.
  - destruct (Nat.eqb (length pairs) 1) eqn:Hlen; cbn [andb].
    + destruct (indexIsAvailableByHints None (tnIndexHints tblName)).
      * destruct dual.
        -- intros [= <-]. repeat split. left. repeat split.
        -- destruct fieldType as [ft|]; [|discriminate].
           intros [= <-]. repeat split. right. left. repeat split.
           exists handlePair. repeat split.
           apply Nat.eqb_eq in Hlen.
           assert (Hk : Kind (nvValue (fst (findPKHandle tbl pairs))) <> KindNull).
           { rewrite Hpk. cbn [fst]. intros E. rewrite E in Hh. discriminate. }
           rewrite (findPKHandle_single tbl pairs Hlen Hk) at 1.
           rewrite Hpk. reflexivity.
      * discriminate.
    + discriminate.
  - cbn [andb]. intros H.
    destruct (checkTblIndexForPointPlan_shape _ _ _ _ _ _ _ _ _ _ _ H)
      as (tbl' & Ht & H1 & H2 & H3 & H4 & H5 & Hshape).
    rewrite Htbl in Ht. injection Ht as <-.
    repeat split; auto. destruct Hshape; auto.
Qed.

Lemma tryPointGetPlan_inv ctx selStmt check p :
  tryPointGetPlan ctx selStmt check = Ok (Some p) ->
  pointGetClausesRefused ctx selStmt = false /\
  exists tblName tblAlias tbl schema names,
    getSingleTableNameAndAlias (ssFrom selStmt) = (Some tblName, tblAlias) /\
    tnTableInfo tblName = Some tbl /\ plainColumns tbl = true /\
    buildSchemaFromFields ctx (tnSchema tblName) tbl tblAlias (ssFields selStmt) =
      Some (schema, names) /\
    pTblInfo p = tbl /\ pSchema p = schema /\ pOutputNames p = names /\
    pLock p = false /\ pLockWaitTime p = LockWaitTimeout ctx /\
    let pairs := default [] (fst (getNameValuePairs ctx tbl tblAlias []
                                    (ssWhere selStmt))) in
    (isDualPlan p /\ pDbName p = O (tnSchema tblName) \/
     isHandlePlan pairs p /\ pDbName p = planDb ctx tblName \/
     isIndexPlan tbl pairs p /\ pDbName p = planDb ctx tblName).
Proof.
  unfold tryPointGetPlan. intros H.
  destruct (pointGetClausesRefused ctx selStmt); [discriminate|].
  split; [reflexivity|].
  destruct (getSingleTableNameAndAlias (ssFrom selStmt)) as [[tblName|] tblAlias];
    [|discriminate].
  destruct (tnTableInfo tblName) as [tbl|] eqn:Htbl; [|discriminate].
  destruct (existsb _ (tblColumns tbl)) eqn:Hcols; [discriminate|].
  destruct (buildSchemaFromFields ctx (tnSchema tblName) tbl tblAlias
              (ssFields selStmt)) as [[schema names]|] eqn:Hsch; [|discriminate].
  exists tblName, tblAlias, tbl, schema, names.
  split; [reflexivity|]. split; [exact Htbl|].
  split; [unfold plainColumns; rewrite Hcols; reflexivity|].
  split; [exact Hsch|].
  destruct (getNameValuePairs ctx tbl tblAlias [] (ssWhere selStmt))
    as [pairsOrNil dual]. cbn [fst].
  destruct (negb (isSome pairsOrNil) && negb dual); [discriminate|].
  assert (Hdual : forall q,
            Ok (Some (setTableDual
                        (newPointGetPlan ctx (O (tnSchema tblName)) schema tbl names))) =
              Ok (Some q) ->
            pTblInfo q = tbl /\ pSchema q = schema /\ pOutputNames q = names /\
            pLock q = false /\ pLockWaitTime q = LockWaitTimeout ctx /\
            (isDualPlan q /\ pDbName q = O (tnSchema tblName) \/
             isHandlePlan (default [] pairsOrNil) q /\ pDbName q = planDb ctx tblName \/
             isIndexPlan tbl (default [] pairsOrNil) q /\
             pDbName q = planDb ctx tblName)).
  { intros q [= <-]. repeat split. left. repeat split. }
  destruct (tblPartition tbl).
  - destruct (getPartitionDef ctx tbl (default [] pairsOrNil))
      as [[[[partitionDef pairIdx] pos] dual']|msg]; cbn [rbind] in H;
      [|discriminate].
    destruct dual'; [exact (Hdual p H)|].
    destruct partitionDef as [pd|].
    + destruct (Nat.ltb 0 (length (tnPartitionNames tblName)) && negb _);
        [exact (Hdual p H)|].
      exact (resolveKey_shape _ _ _ _ _ _ _ _ _ _ _ _ Htbl H eq_refl).
    + destruct (checkTblIndexForPointPlan_shape _ _ _ _ _ _ _ _ _ _ _ H)
        as (tbl' & Ht & H1 & H2 & H3 & H4 & H5 & Hshape).
      rewrite Htbl in Ht. injection Ht as <-.
      repeat split; auto. destruct Hshape; auto.
  - exact (resolveKey_shape _ _ _ _ _ _ _ _ _ _ _ _ Htbl H eq_refl).
Qed.

(** X20: a plan built by [tryPointGetPlan] is on the single table of the
    statement, with the schema and names built from its select fields,
    carries no lock yet, and is of exactly one kind: table-dual (no
    key), by handle (no index; the pairs are a single pair, whose value
    is the handle) or by index (no handle; an index of the table whose
    values are those [getIndexValues] draws from the pairs). *)
Theorem tryPointGetPlan_shape (ctx : Ctx) (selStmt : SelectStmt) (check : bool)
    (p : PointGetPlan) :
  tryPointGetPlan ctx selStmt check = Ok (Some p) ->
  exists tblName tblAlias tbl schema names,
    getSingleTableNameAndAlias (ssFrom selStmt) = (Some tblName, tblAlias) /\
    tnTableInfo tblName = Some tbl /\
    buildSchemaFromFields ctx (tnSchema tblName) tbl tblAlias (ssFields selStmt) =
      Some (schema, names) /\
    pTblInfo p = tbl /\ pSchema p = schema /\ pOutputNames p = names /\
    pLock p = false /\ pLockWaitTime p = LockWaitTimeout ctx /\
    let pairs := default [] (fst (getNameValuePairs ctx tbl tblAlias []
                                    (ssWhere selStmt))) in
    isDualPlan p \/ isHandlePlan pairs p \/ isIndexPlan tbl pairs p.
Proof.
  intros H.
  destruct (tryPointGetPlan_inv ctx selStmt check p H)
    as (_ & tblName & tblAlias & tbl & schema & names & H1 & H2 & _ & H3 & H4 &
        H5 & H6 & H7 & H8 & Hshape).
  exists tblName, tblAlias, tbl, schema, names. repeat split; auto.
  cbv zeta in *. destruct Hshape as [[Hs _] | [[Hs _] | [Hs _]]]; auto.
Qed.

(** *** The plan handed to the session *)

Lemma tryWhereIn2BatchPointGet_inv ctx selStmt fp :
  tryWhereIn2BatchPointGet ctx selStmt = Ok (Some fp) ->
  exists tblName tblAlias tbl,
    getSingleTableNameAndAlias (ssFrom selStmt) = (Some tblName, tblAlias) /\
    tnTableInfo tblName = Some tbl /\ plainColumns tbl = true /\
    bTblInfo fp = tbl /\ bDbName fp = planDb ctx tblName /\
    bLock fp = false /\ bLockWaitTime fp = 0 /\
    buildSchemaFromFields ctx (tnSchema tblName) tbl tblAlias (ssFields selStmt) =
      Some (bSchema fp, bNames fp).
Proof.
  unfold tryWhereIn2BatchPointGet. intros H.
  destruct (batchClausesRefused selStmt); [discriminate|].
  destruct (ssWhere selStmt) as [[]|]; try discriminate.
  destruct (not || _); [discriminate|].
  destruct (getSingleTableNameAndAlias (ssFrom selStmt)) as [[tblName|] tblAlias];
    [|discriminate].
  destruct (tnTableInfo tblName) as [tbl|] eqn:Htbl; [|discriminate].
  destruct (Nat.ltb 0 _); [discriminate|].
  destruct (existsb _ (tblColumns tbl)) eqn:Hcols; [discriminate|].
  destruct (buildSchemaFromFields ctx _ tbl tblAlias _) as [[schema names]|]
    eqn:Hsch; [|discriminate].
  cbv zeta in H.
  match type of H with
  | match ?t with _ => _ end = _ => destruct t as [[handleCol whereColNames]|]
  end; [|discriminate].
  destruct (newBatchPointGetPlan ctx items handleCol tbl schema names whereColNames
              (tnIndexHints tblName)) as [[q|]|msg] eqn:Hnew; cbn [rbind] in H;
    try discriminate.
  injection H as <-.
  exists tblName, tblAlias, tbl. split; [reflexivity|]. split; [exact Htbl|].
  split; [unfold plainColumns; rewrite Hcols; reflexivity|].
  assert (Hq : bTblInfo q = tbl /\ bLock q = false /\ bLockWaitTime q = 0 /\
               bSchema q = schema /\ bNames q = names).
  { revert Hnew. unfold newBatchPointGetPlan.
    destruct (batchPartitionExpr ctx tbl); [|discriminate].
    destruct handleCol as [hc|].
    - destruct (handleLoop ctx hc tbl items [] [] ∅) as [[[[? ?] ?]|]|];
        cbn [rbind]; try discriminate.
      intros [= <-]. repeat split.
    - destruct (findMatchIndex _ _ _ _) as [[idx|] perm]; [|discriminate].
      destruct (getPartitionColumnPos idx _ tbl) as [[pos|]|]; cbn [rbind];
        try discriminate.
      destruct (indexLoop ctx tbl _ _ _ items [] [] None ∅) as [[[[[? ?] ?] ?]|]|];
        cbn [rbind]; try discriminate.
      intros [= <-]. repeat split. }
  destruct Hq as (Ht & Hl & Hw & Hs & Hn). cbn [bSchema bNames setBatchDbName].
  rewrite Hs, Hn. repeat split; auto.
Qed.

Lemma TryFastPlan_inv ctx x pl :
  TryFastPlan ctx x = Ok (Some pl) ->
  checkStableResultMode ctx = false /\ SelectLimitIsMax ctx = true /\
  ((exists fp,
      tryWhereIn2BatchPointGet ctx x = Ok (Some fp) /\
      checkFastPlanPrivilege ctx (bDbName fp) (L (tblName (bTblInfo fp))) = None /\
      IsMemDB ctx (bDbName fp) = false /\
      pl = PlanBatchPointGet (setBatchLock (getLockWaitTime ctx (ssLockInfo x)) fp)) \/
   (exists fp,
      tryPointGetPlan ctx x (isForUpdateReadSelectLock ctx (ssLockInfo x)) =
        Ok (Some fp) /\
      checkFastPlanPrivilege ctx (pDbName fp) (L (tblName (pTblInfo fp))) = None /\
      IsMemDB ctx (pDbName fp) = false /\
      pl = if pIsTableDual fp then PlanTableDual (pSchema fp) (pOutputNames fp)
           else PlanPointGet (setLock (getLockWaitTime ctx (ssLockInfo x)) fp))).
Proof.
  unfold TryFastPlan.
  destruct (checkStableResultMode ctx); [discriminate|].
  intros H. split; [reflexivity|].
  assert (Hdef : forall q,
            Ok (if negb (SelectLimitIsMax ctx) && isSome (Some q) then None
                else Some q) = Ok (Some pl) ->
            SelectLimitIsMax ctx = true /\ pl = q).
  { intros q. destruct (SelectLimitIsMax ctx); cbn; [|discriminate].
    intros [= <-]. split; reflexivity. }
  destruct (tryWhereIn2BatchPointGet ctx x) as [[fp|]|msg] eqn:Hb; cbn [rbind] in H;
    [| |discriminate].
  - destruct (isSome (checkFastPlanPrivilege ctx _ _)) eqn:Hpriv; [discriminate|].
    destruct (IsMemDB ctx (bDbName fp)) eqn:Hmem; [discriminate|].
    destruct (Hdef _ H) as [Hmax ->]. split; [exact Hmax|].
    left. exists fp. repeat split; auto.
    destruct (checkFastPlanPrivilege ctx _ _); [discriminate|reflexivity].
  - destruct (tryPointGetPlan ctx x _) as [[fp|]|msg] eqn:Hpg; cbn [rbind] in H;
      try discriminate.
    destruct (isSome (checkFastPlanPrivilege ctx _ _)) eqn:Hpriv; [discriminate|].
    destruct (IsMemDB ctx (pDbName fp)) eqn:Hmem; [discriminate|].
    assert (Hp : checkFastPlanPrivilege ctx (pDbName fp) (L (tblName (pTblInfo fp))) =
                 None).
    { destruct (checkFastPlanPrivilege ctx _ _); [discriminate|reflexivity]. }
    destruct (pIsTableDual fp) eqn:Hd.
    + destruct (Hdef _ H) as [Hmax ->]. split; [exact Hmax|].
      right. exists fp. rewrite Hd. repeat split; auto.
    + destruct (Hdef _ H) as [Hmax ->]. split; [exact Hmax|].
      right. exists fp. rewrite Hd. repeat split; auto.
Qed.

Lemma getLockWaitTime_spec ctx lockInfo :
  fst (getLockWaitTime ctx lockInfo) = locksRows ctx lockInfo /\
  (fst (getLockWaitTime ctx lockInfo) = false ->
   snd (getLockWaitTime ctx lockInfo) = 0) /\
  (fst (getLockWaitTime ctx lockInfo) = true ->
   exists li, lockInfo = Some li /\
     snd (getLockWaitTime ctx lockInfo) =
       match liLockType li with
       | SelectLockForUpdateWaitN => toInt64 ((liWaitSec li * 1000) mod 2 ^ 64)
       | SelectLockForUpdateNoWait => LockNoWait ctx
       | _ => LockWaitTimeout ctx
       end).
Proof.
  unfold getLockWaitTime, locksRows. destruct lockInfo as [li|].
  2:{ repeat split; auto. discriminate. }
  destruct (IsSelectForUpdateLockType (liLockType li)); cbn [andb].
  2:{ repeat split; auto. discriminate. }
  destruct (negb (IsAutocommit ctx) || InTxn ctx || PessimisticAutoCommit ctx).
  2:{ repeat split; auto. discriminate. }
  destruct (liLockType li) eqn:Ht; cbn; repeat split; try discriminate;
    intros _; exists li; rewrite Ht; split; reflexivity.
Qed.

(** X21: the plan handed to the session locks rows exactly when the
    statement has a locking clause of the FOR UPDATE family and the
    session is outside autocommit, inside a transaction or under
    pessimistic auto-commit; the wait time is then the one of the
    clause or of the session, and 0 when nothing is locked.  For
    [WAIT n] it is [int64(n * 1000)] with the product taken on 64
    unsigned bits: [n * 1000] itself as long as that is below [2^63],
    and a wrapped, possibly negative, number beyond. *)
Theorem TryFastPlan_lock (ctx : Ctx) (x : SelectStmt) (pl : Plan)
    (lk : bool) (wt : Z) :
  TryFastPlan ctx x = Ok (Some pl) ->
  planLock pl = Some (lk, wt) ->
  lk = locksRows ctx (ssLockInfo x) /\
  (lk = false -> wt = 0) /\
  (lk = true ->
   exists li, ssLockInfo x = Some li /\
     wt = match liLockType li with
          | SelectLockForUpdateWaitN => toInt64 ((liWaitSec li * 1000) mod 2 ^ 64)
          | SelectLockForUpdateNoWait => LockNoWait ctx
          | _ => LockWaitTimeout ctx
          end /\
     (liLockType li = SelectLockForUpdateWaitN ->
      (0 <= liWaitSec li * 1000 < 2 ^ 63 -> wt = liWaitSec li * 1000) /\
      (2 ^ 63 <= liWaitSec li * 1000 < 2 ^ 64 ->
       wt = liWaitSec li * 1000 - 2 ^ 64))).
Proof.
  intros H Hpl.
  assert (Hspec := getLockWaitTime_spec ctx (ssLockInfo x)).
  assert (Hw : (lk, wt) = getLockWaitTime ctx (ssLockInfo x)).
  { destruct (TryFastPlan_inv ctx x pl H)
      as (_ & _ & [(fp & _ & _ & _ & ->) | (fp & _ & _ & _ & ->)]).
    - cbn in Hpl. injection Hpl as <- <-. symmetry. apply surjective_pairing.
    - destruct (pIsTableDual fp); [discriminate|].
      cbn in Hpl. injection Hpl as <- <-. symmetry. apply surjective_pairing. }
  rewrite <- Hw in Hspec. cbn [fst snd] in Hspec.
  destruct Hspec as (H1 & H2 & H3).
  split; [exact H1|]. split; [exact H2|].
  intros Hlk. destruct (H3 Hlk) as (li & Hli & Hwt).
  exists li. split; [exact Hli|]. split; [exact Hwt|].
  intros Ht. rewrite Ht in Hwt. subst wt. split; intros Hr.
  - rewrite Z.mod_small by lia. unfold toInt64.
    destruct (liWaitSec li * 1000 <? 2 ^ 63) eqn:E; [reflexivity|].
    apply Z.ltb_ge in E. lia.
  - rewrite Z.mod_small by lia. unfold toInt64.
    destruct (liWaitSec li * 1000 <? 2 ^ 63) eqn:E; [|reflexivity].
    apply Z.ltb_lt in E. lia.
Qed.

(** X22: a plan is handed to the session only outside the stable-result
    mode and with [sql_select_limit] at its maximum, for a statement on
    a single table all of whose columns are public and none generated,
    when the privilege check passes for that table and the database of
    the plan, which is not a memory database. *)
Theorem TryFastPlan_guards (ctx : Ctx) (x : SelectStmt) (pl : Plan) :
  TryFastPlan ctx x = Ok (Some pl) ->
  checkStableResultMode ctx = false /\ SelectLimitIsMax ctx = true /\
  exists tn tblAlias tbl db,
    getSingleTableNameAndAlias (ssFrom x) = (Some tn, tblAlias) /\
    tnTableInfo tn = Some tbl /\ plainColumns tbl = true /\
    (db = planDb ctx tn \/ db = O (tnSchema tn)) /\
    checkFastPlanPrivilege ctx db (L (tblName tbl)) = None /\
    IsMemDB ctx db = false.
Proof.
  intros H.
  destruct (TryFastPlan_inv ctx x pl H)
    as (Hst & Hmax & [(fp & Hfp & Hpriv & Hmem & _) | (fp & Hfp & Hpriv & Hmem & _)]).
  - split; [exact Hst|]. split; [exact Hmax|].
    destruct (tryWhereIn2BatchPointGet_inv ctx x fp Hfp)
      as (tn & alias & tbl & H1 & H2 & H3 & H4 & H5 & _).
    exists tn, alias, tbl, (bDbName fp). rewrite H4 in Hpriv.
    repeat split; auto.
  - split; [exact Hst|]. split; [exact Hmax|].
    destruct (tryPointGetPlan_inv ctx x _ fp Hfp)
      as (_ & tn & alias & tbl & schema & names & H1 & H2 & H3 & _ & H4 & _ & _ &
          _ & _ & Hshape).
    exists tn, alias, tbl, (pDbName fp). rewrite H4 in Hpriv.
    repeat split; auto. cbv zeta in Hshape.
    destruct Hshape as [[_ Hd] | [[_ Hd] | [_ Hd]]]; auto.
Qed.

(** *** Partitions of a batch plan *)

Ltac case_hyp H :=
  match type of H with
  | context [rbind ?c _] => destruct c eqn:?; cbn [rbind] in H
  | context [match ?x with _ => _ end] => destruct x eqn:?
  | context [if ?x then _ else _] => destruct x eqn:?
  end; try discriminate.

(** A partition [getPartitionDef] returns is the definition at the
    position it returns. *)
Lemma getPartitionDef_definition ctx tbl pairs def i pos dual :
  getPartitionDef ctx tbl pairs = Ok (Some def, i, pos, dual) ->
  exists pi, tblPartition tbl = Some pi /\ definitionAt pi pos = Ok def.
Proof.
  unfold getPartitionDef, noPartition. intros H.
  destruct (getPartitionExpr ctx tbl) as [pe|]; [|discriminate].
  destruct (tblPartition tbl) as [pi|]; [|discriminate].
  exists pi. split; [reflexivity|].
  repeat case_hyp H; injection H as <- <- <- <-; assumption.
Qed.

Lemma itemPartition_definition ctx tbl pairs pos def :
  itemPartition ctx tbl pairs = Ok (Some (Some (pos, def))) ->
  exists pi, tblPartition tbl = Some pi /\ definitionAt pi pos = Ok def.
Proof.
  unfold itemPartition. intros H.
  destruct (tblPartition tbl) as [pi|] eqn:Hpi; [|discriminate].
  destruct (getPartitionDef ctx tbl pairs) as [[[[d i] p] dual]|msg] eqn:Hg;
    cbn [rbind] in H; [|discriminate].
  destruct dual; [discriminate|].
  destruct d as [d|]; cbn in H; [|discriminate].
  injection H as <- <-.
  destruct (getPartitionDef_definition _ _ _ _ _ _ _ Hg) as (pi' & Hpi' & Hd).
  rewrite Hpi in Hpi'. injection Hpi' as <-. exists pi. split; [reflexivity|exact Hd].
Qed.

Lemma handleItem_definition ctx hc tbl item h con pos def :
  handleItem ctx hc tbl item = Ok (Some (h, con, Some (pos, def))) ->
  exists pi, tblPartition tbl = Some pi /\ definitionAt pi pos = Ok def.
Proof.
  unfold handleItem. cbv zeta. intros H.
  destruct (batchOperand ctx (unwrapParentheses item)) as [[d c]|]; [|discriminate].
  destruct (IsNull d); [discriminate|].
  destruct (fst (getPointGetValue ctx hc d)) as [intDatum|]; [|discriminate].
  match type of H with
  | rbind ?c _ = _ => destruct c as [[entry|]|msg] eqn:Hp; cbn [rbind] in H;
                      try discriminate
  end.
  injection H as _ _ ->.
  exact (itemPartition_definition _ _ _ _ _ Hp).
Qed.

Lemma handleLoop_partitions ctx hc tbl :
  forall items handles handleParams m handles' handleParams' m',
    handleLoop ctx hc tbl items handles handleParams m =
      Ok (Some (handles', handleParams', m')) ->
    (forall pos def, m !! pos = Some def ->
       exists pi, tblPartition tbl = Some pi /\ definitionAt pi pos = Ok def) ->
    forall pos def,
      m' !! pos = Some def <->
      m !! pos = Some def \/ recordsPartition ctx hc tbl items pos def.
Proof.
  induction items as [|item rest IH];
    intros handles handleParams m handles' handleParams' m' H Hinv pos def.
  - cbn in H. injection H as <- <- <-. split; [auto|].
    intros [H | (it & h & con & [] & _)]. exact H.
  - cbn [handleLoop] in H.
    destruct (handleItem ctx hc tbl item) as [[[[h con] entry]|]|msg] eqn:Hitem;
      cbn [rbind] in H; try discriminate.
    assert (Hinv' : forall pos def, recordPartition entry m !! pos = Some def ->
              exists pi, tblPartition tbl = Some pi /\ definitionAt pi pos = Ok def).
    { intros p d. destruct entry as [[p0 d0]|]; cbn [recordPartition]; [|apply Hinv].
      destruct (decide (p0 = p)) as [->|Hne].
      - rewrite lookup_insert_eq. intros [= <-].
        exact (handleItem_definition _ _ _ _ _ _ _ _ Hitem).
      - rewrite lookup_insert_ne by exact Hne. apply Hinv. }
    rewrite (IH _ _ _ _ _ _ H Hinv' pos def). split.
    + intros [Hm | (it & h' & con' & Hin & Hit)].
      * destruct entry as [[p0 d0]|]; cbn [recordPartition] in Hm; [|left; exact Hm].
        destruct (decide (p0 = pos)) as [->|Hne].
        -- rewrite lookup_insert_eq in Hm. injection Hm as <-.
           right. exists item, h, con. split; [left; reflexivity|exact Hitem].
        -- rewrite lookup_insert_ne in Hm by exact Hne. left. exact Hm.
      * right. exists it, h', con'. split; [right; exact Hin|exact Hit].
    + assert (Hsame : forall d1 d2,
                (exists pi, tblPartition tbl = Some pi /\ definitionAt pi pos = Ok d1) ->
                (exists pi, tblPartition tbl = Some pi /\ definitionAt pi pos = Ok d2) ->
                d1 = d2).
      { intros d1 d2 (pi1 & Hp1 & H1) (pi2 & Hp2 & H2). congruence. }
      intros [Hm | (it & h' & con' & [<- | Hin] & Hit)].
      * left. destruct entry as [[p0 d0]|]; cbn [recordPartition]; [|exact Hm].
        destruct (decide (p0 = pos)) as [->|Hne].
        -- rewrite lookup_insert_eq. f_equal.
           apply Hsame; [exact (handleItem_definition _ _ _ _ _ _ _ _ Hitem)|].
           exact (Hinv _ _ Hm).
        -- rewrite lookup_insert_ne by exact Hne. exact Hm.
      * left. rewrite Hitem in Hit. injection Hit as <- <- ->.
        cbn [recordPartition]. rewrite lookup_insert_eq. reflexivity.
      * right. exists it, h', con'. split; assumption.
Qed.

Lemma omap_lookup_all (m : gmap Z PartitionDefinition) (l : list Z) :
  (forall pos, In pos l -> is_Some (m !! pos)) ->
  Forall2 (fun pos def => m !! pos = Some def) l (omap (fun pos => m !! pos) l).
Proof.
  induction l as [|p rest IH]; intros H; [constructor|].
  destruct (H p (or_introl eq_refl)) as [d Hd].
  change (omap (fun pos => m !! pos) (p :: rest))
    with (match m !! p with
          | Some d => d :: omap (fun pos => m !! pos) rest
          | None => omap (fun pos => m !! pos) rest
          end).
  rewrite Hd. constructor; [exact Hd|].
  apply IH. intros pos Hpos. apply H. right. exact Hpos.
Qed.

Lemma sortedPartitionDefs_spec (m : gmap Z PartitionDefinition) :
  exists posArr defs,
    StronglySorted Z.lt posArr /\
    (forall pos, In pos posArr <-> is_Some (m !! pos)) /\
    Forall2 (fun pos def => m !! pos = Some def) posArr defs /\
    sortedPartitionDefs m = match defs with [] => None | _ => Some defs end.
Proof.
  unfold sortedPartitionDefs. cbv zeta.
  set (posArr := merge_sort Z.le (List.map fst (map_to_list m))).
  assert (Hperm : posArr ≡ₚ (map_to_list m).*1).
  { apply merge_sort_Permutation. }
  assert (Hin : forall pos, In pos posArr <-> is_Some (m !! pos)).
  { intros pos. rewrite <- list_elem_of_In, Hperm, list_elem_of_fmap. split.
    - intros ([p d] & -> & H). apply elem_of_map_to_list in H. eauto.
    - intros [d H]. exists (pos, d). split; [reflexivity|].
      apply elem_of_map_to_list. exact H. }
  assert (Hnd : NoDup posArr).
  { rewrite Hperm. apply NoDup_fst_map_to_list. }
  assert (Hsorted : StronglySorted Z.le posArr).
  { apply StronglySorted_merge_sort; [intros ? ? ?; lia|].
    intros x y. destruct (Z.le_ge_cases x y); [left|right]; lia. }
  assert (Hstrict : StronglySorted Z.lt posArr).
  { clear Hperm Hin. induction Hsorted as [|x l Hs IH Hall]; [constructor|].
    apply NoDup_cons in Hnd as [Hx Hnd]. constructor; [exact (IH Hnd)|].
    rewrite List.Forall_forall in *. intros y Hy.
    specialize (Hall y Hy). assert (x <> y).
    { intros ->. apply Hx. apply list_elem_of_In. exact Hy. }
    lia. }
  exists posArr, (omap (fun pos => m !! pos) posArr).
  split; [exact Hstrict|]. split; [exact Hin|].
  split; [apply omap_lookup_all; intros pos; apply Hin|].
  destruct (omap _ posArr); reflexivity.
Qed.

Lemma handleLoop_all ctx hc tbl :
  forall items handles handleParams m r,
    handleLoop ctx hc tbl items handles handleParams m = Ok (Some r) ->
    forall item, In item items ->
      exists h con entry, handleItem ctx hc tbl item = Ok (Some (h, con, entry)).
Proof.
  induction items as [|it rest IH]; intros handles handleParams m r H item Hin;
    [destruct Hin|].
  cbn [handleLoop] in H.
  destruct (handleItem ctx hc tbl it) as [[[[h con] entry]|]|msg] eqn:Hit;
    cbn [rbind] in H; try discriminate.
  destruct Hin as [<- | Hin]; [eauto|].
  exact (IH _ _ _ _ H item Hin).
Qed.

Lemma recordsPartition_hits ctx hc tbl items pos def :
  recordsPartition ctx hc tbl items pos def -> hitsPartition ctx hc tbl items pos def.
Proof.
  intros (item & h & con & Hin & H). unfold handleItem in H. cbv zeta in H.
  destruct (batchOperand ctx (unwrapParentheses item)) as [[d c]|] eqn:Hop;
    [|discriminate].
  destruct (IsNull d); [discriminate|].
  destruct (fst (getPointGetValue ctx hc d)) as [intDatum|] eqn:Hv; [|discriminate].
  match type of H with
  | rbind ?c _ = _ => destruct c as [[entry|]|msg] eqn:Hp; cbn [rbind] in H;
                      try discriminate
  end.
  injection H as _ <- ->.
  unfold itemPartition in Hp.
  destruct (tblPartition tbl); [|discriminate].
  match type of Hp with
  | rbind ?c _ = _ => destruct c as [[[[d0 i0] p0] dual]|msg] eqn:Hg;
                      cbn [rbind] in Hp; try discriminate
  end.
  destruct dual; [discriminate|]. destruct d0 as [d0|]; cbn in Hp; [|discriminate].
  injection Hp as <- <-.
  exists item, d, c, intDatum, i0. auto.
Qed.

Lemma hitsPartition_records ctx hc tbl items pos def :
  (forall item, In item items ->
     exists h con entry, handleItem ctx hc tbl item = Ok (Some (h, con, entry))) ->
  hitsPartition ctx hc tbl items pos def -> recordsPartition ctx hc tbl items pos def.
Proof.
  intros Hall (item & d & con & intDatum & idx & Hin & Hop & Hv & Hg).
  destruct (Hall item Hin) as (h & con' & entry & H).
  exists item, h, con'. split; [exact Hin|]. rewrite H. do 3 f_equal.
  unfold handleItem in H. cbv zeta in H. rewrite Hop in H.
  destruct (IsNull d); [discriminate|]. rewrite Hv in H.
  destruct (getPartitionDef_definition _ _ _ _ _ _ _ Hg) as (pi & Hpi & _).
  unfold itemPartition in H. rewrite Hpi, Hg in H. cbn in H.
  injection H as _ _ <-. reflexivity.
Qed.

(** X23: on the handle path of a batch plan, the plan's partition list
    holds the partitions in which [getPartitionDef] locates the elements
    of the IN list, each once, by ascending position; it is absent
    exactly when no element is located in a partition. *)
Theorem newBatchPointGetPlan_partitions (ctx : Ctx) (items : list ExprNode)
    (hc : ColumnInfo) (tbl : TableInfo) (schema : list Column)
    (names : list FieldName) (whereColNames : list string)
    (indexHints : list IndexHint) (p : BatchPointGetPlan) :
  newBatchPointGetPlan ctx items (Some hc) tbl schema names whereColNames
    indexHints = Ok (Some p) ->
  exists posArr defs,
    StronglySorted Z.lt posArr /\
    Forall2 (hitsPartition ctx hc tbl items) posArr defs /\
    (forall pos def, hitsPartition ctx hc tbl items pos def -> In pos posArr) /\
    bPartitionDefs p = match defs with [] => None | _ => Some defs end.
Proof.
  unfold newBatchPointGetPlan. intros H.
  match type of H with
  | match ?c with _ => _ end = _ => destruct c as [partitionExpr|]; [|discriminate]
  end.
  destruct (handleLoop ctx hc tbl items [] [] ∅)
    as [[[[handles handleParams] m]|]|msg] eqn:Hloop; try discriminate.
  injection H as <-. cbn [bPartitionDefs].
  assert (Hm : forall pos def,
            m !! pos = Some def <-> hitsPartition ctx hc tbl items pos def).
  { intros pos def.
    rewrite (handleLoop_partitions _ _ _ _ _ _ _ _ _ _ Hloop);
      [|intros ? ?; rewrite lookup_empty; discriminate].
    rewrite lookup_empty. split.
    - intros [|Hr]; [discriminate|]. exact (recordsPartition_hits _ _ _ _ _ _ Hr).
    - intros Hh. right.
      exact (hitsPartition_records _ _ _ _ _ _ (handleLoop_all _ _ _ _ _ _ _ _ Hloop) Hh). }
  destruct (sortedPartitionDefs_spec m) as (posArr & defs & Hs & Hin & Hall & Heq).
  exists posArr, defs. split; [exact Hs|]. split.
  - eapply Forall2_impl; [exact Hall|]. intros pos def. apply Hm.
  - split; [|exact Heq]. intros pos def Hh. apply Hin. exists def. apply Hm. exact Hh.
Qed.

(** *** Instances *)

(** X14 on the pair [b = 7] and the index [ib]. *)
Lemma getIndexValues_aligned_witness :
  let pairs := [mkPair "b" (Some (Examples.intType 0)) (NewIntDatum 7) None] in
  getIndexValues Examples.idxB pairs =
    Some ([NewIntDatum 7], [None], [Some (Examples.intType 0)]) /\
  length (idxColumns Examples.idxB) = length pairs /\
  HasPrefixIndex Examples.idxB = false.
Proof.
  cbv zeta.
  assert (H : getIndexValues Examples.idxB
                [mkPair "b" (Some (Examples.intType 0)) (NewIntDatum 7) None] =
              Some ([NewIntDatum 7], [None], [Some (Examples.intType 0)]))
    by (vm_compute; reflexivity).
  split; [exact H|].
  destruct (getIndexValues_aligned Examples.idxB _ _ _ _ H) as (H1 & _ & H2 & _).
  split; [exact H1|exact H2].
Defined.

(** X15 on the values 10 and 30 over the bounds 10, 20 and 30. *)
Lemma getPartitionDef_range_witness :
  getPartitionDef Scenarios.rangeCtx Scenarios.tblRange
    [mkPair "id" (Some (Examples.intType PriKeyFlag)) (NewIntDatum 10) None] =
    Ok (Some (mkPartitionDefinition 101 (NewCIStr "p1")), 0%nat, 1, false) /\
  getPartitionDef Scenarios.rangeCtx Scenarios.tblRange
    [mkPair "id" (Some (Examples.intType PriKeyFlag)) (NewIntDatum 30) None] =
    Ok (None, 0%nat, 0, true).
Proof.
  split.
  - epose proof (getPartitionDef_range Scenarios.rangeCtx Scenarios.tblRange
                   [mkPair "id" (Some (Examples.intType PriKeyFlag)) (NewIntDatum 10) None]
                   Scenarios.rangeById _ _ Examples.colId 0%nat
                   (mkPair "id" (Some (Examples.intType PriKeyFlag)) (NewIntDatum 10) None))
      as H.
    cbv zeta in H.
    specialize (H eq_refl eq_refl eq_refl eq_refl eq_refl eq_refl eq_refl).
    destruct H as (pos & Hle & Hprev & Hleast & Hat).
    assert (Hmono : forall a b : nat, (a <= b)%nat ->
              (0 <? frCompare (peForRangePruning Scenarios.rangeById) a
                      (GetInt64 (NewIntDatum 10))
                      (HasUnsignedFlag (ftFlag (cRetType (colInfoToColumn Examples.colId 0))))) = true ->
              (0 <? frCompare (peForRangePruning Scenarios.rangeById) b
                      (GetInt64 (NewIntDatum 10))
                      (HasUnsignedFlag (ftFlag (cRetType (colInfoToColumn Examples.colId 0))))) = true).
    { intros a b Hab. cbn.
      destruct (10 * (Z.of_nat a + 1) ?= 10) eqn:Ea; try discriminate.
      intros _. apply Z.compare_gt_iff in Ea.
      assert (Eb : (10 * (Z.of_nat b + 1) ?= 10) = Gt)
        by (apply Z.compare_gt_iff; lia).
      rewrite Eb. reflexivity. }
    specialize (Hleast Hmono).
    assert (Hpos : pos = 1%nat).
    { destruct pos as [|[|[|[|pos]]]]; cbn in Hle; try lia; try reflexivity.
      - exfalso. cbn in Hat. destruct Hat as [Hat _]. discriminate.
      - exfalso. specialize (Hleast 1%nat ltac:(lia)). discriminate.
      - exfalso. specialize (Hleast 1%nat ltac:(lia)). discriminate. }
    subst pos. exact (proj2 Hat).
  - epose proof (getPartitionDef_range Scenarios.rangeCtx Scenarios.tblRange
                   [mkPair "id" (Some (Examples.intType PriKeyFlag)) (NewIntDatum 30) None]
                   Scenarios.rangeById _ _ Examples.colId 0%nat
                   (mkPair "id" (Some (Examples.intType PriKeyFlag)) (NewIntDatum 30) None))
      as H.
    cbv zeta in H.
    specialize (H eq_refl eq_refl eq_refl eq_refl eq_refl eq_refl eq_refl).
    destruct H as (pos & Hle & Hprev & Hleast & Hat).
    destruct pos as [|[|[|[|pos]]]]; cbn in Hle; try lia.
    + exfalso. cbn in Hat. destruct Hat as [Hat _]. discriminate.
    + exfalso. cbn in Hat. destruct Hat as [Hat _]. discriminate.
    + exfalso. cbn in Hat. destruct Hat as [Hat _]. discriminate.
    + exact Hat.
Defined.

(** X17 on the condition [a = 5 and b = 7]. *)
Lemma getNameValuePairs_conjuncts_witness :
  let cond := BinaryOperationExpr LogicAnd (Examples.eqExpr "a" 5)
                (Examples.eqExpr "b" 7) in
  exists pairs new,
    getNameValuePairs Examples.plainCtx Examples.tblT (NewCIStr "t") []
      (Some cond) = (Some pairs, false) /\
    pairs = new /\
    Forall2 (fun c pr => equalityOn c (nvColName pr)) (conjuncts cond) new.
Proof.
  cbv zeta. eexists. 
  epose proof (getNameValuePairs_conjuncts Examples.plainCtx Examples.tblT
                 (NewCIStr "t") [] _
                 (Some (BinaryOperationExpr LogicAnd (Examples.eqExpr "a" 5)
                          (Examples.eqExpr "b" 7))) false) as H.
  assert (Hrun : getNameValuePairs Examples.plainCtx Examples.tblT (NewCIStr "t") []
            (Some (BinaryOperationExpr LogicAnd (Examples.eqExpr "a" 5)
                     (Examples.eqExpr "b" 7))) =
          (Some [mkPair "a" (Some (Examples.intType PriKeyFlag)) (NewIntDatum 5) None;
                 mkPair "b" (Some (Examples.intType 0)) (NewIntDatum 7) None], false)).
  { vm_compute. reflexivity. }
  destruct (H Hrun) as (e & new & He & Hp & Hall & _).
  exists new. split; [exact Hrun|]. split; [exact Hp|].
  injection He as <-. exact Hall.
Defined.

(** X19 on the table [t] without select fields. *)
Lemma buildSchemaFromFields_numbered_witness :
  exists columns names,
    buildSchemaFromFields Examples.plainCtx (NewCIStr "test") Examples.tblT
      (NewCIStr "t") [] = Some (columns, names) /\
    numbered columns names /\
    length columns = 2%nat /\
    columns !! 1%nat = Some (colInfoToColumn Examples.colB 1).
Proof.
  destruct (buildSchemaFromFields Examples.plainCtx (NewCIStr "test") Examples.tblT
              (NewCIStr "t") []) as [[columns names]|] eqn:H;
    [|vm_compute in H; discriminate].
  exists columns, names. split; [reflexivity|].
  destruct (buildSchemaFromFields_numbered Examples.plainCtx (NewCIStr "test")
              Examples.tblT (NewCIStr "t") [] columns names H) as (Hn & Hall).
  split; [exact Hn|].
  destruct (Hall eq_refl) as (Hlen & Hcols).
  split; [exact Hlen|].
  exact (proj1 (Hcols 1%nat Examples.colB eq_refl)).
Defined.

(** X20 on [select * from t where b = 7]. *)
Lemma tryPointGetPlan_shape_witness :
  let stmt := Examples.selectWhere Examples.tblT [] [] (Examples.eqExpr "b" 7) in
  exists p,
    tryPointGetPlan Examples.plainCtx stmt false = Ok (Some p) /\
    pTblInfo p = Examples.tblT /\ pLock p = false /\
    (isDualPlan p \/
     isHandlePlan [mkPair "b" (Some (Examples.intType 0)) (NewIntDatum 7) None] p \/
     isIndexPlan Examples.tblT
       [mkPair "b" (Some (Examples.intType 0)) (NewIntDatum 7) None] p).
Proof.
  cbv zeta.
  destruct (tryPointGetPlan Examples.plainCtx
              (Examples.selectWhere Examples.tblT [] [] (Examples.eqExpr "b" 7)) false)
    as [[p|]|msg] eqn:H; [|vm_compute in H; discriminate..].
  exists p. split; [reflexivity|].
  destruct (tryPointGetPlan_shape Examples.plainCtx _ false p H)
    as (tn & alias & tbl & schema & names & H1 & H2 & _ & H3 & _ & _ & H4 & _ & Hk).
  injection H1 as <- <-. injection H2 as <-.
  split; [exact H3|]. split; [exact H4|]. exact Hk.
Defined.

(** X21 on [select * from t where a = 5 for update wait 3] inside a transaction. *)
Lemma TryFastPlan_lock_witness :
  exists pl,
    TryFastPlan (Scenarios.inTxn Examples.plainCtx) Scenarios.selectForUpdateWait =
      Ok (Some pl) /\
    planLock pl = Some (true, 3000).
Proof.
  destruct (TryFastPlan (Scenarios.inTxn Examples.plainCtx)
              Scenarios.selectForUpdateWait) as [[pl|]|msg] eqn:H;
    [|vm_compute in H; discriminate..].
  exists pl. split; [reflexivity|].
  destruct (planLock pl) as [[lk wt]|] eqn:Hpl.
  - destruct (TryFastPlan_lock (Scenarios.inTxn Examples.plainCtx)
                Scenarios.selectForUpdateWait pl lk wt H Hpl) as (Hlk & _ & Hwt).
    cbn in Hlk. subst lk. destruct (Hwt eq_refl) as (li & Hli & _ & Hn).
    injection Hli as <-.
    rewrite (proj1 (Hn eq_refl) ltac:(cbn; lia)). reflexivity.
  - exfalso. vm_compute in H. injection H as <-. discriminate.
Defined.

(** X22 on [select * from t where a = 5]. *)
Lemma TryFastPlan_guards_witness :
  exists pl,
    TryFastPlan Examples.plainCtx
      (Examples.selectWhere Examples.tblT [] [] (Examples.eqExpr "a" 5)) =
      Ok (Some pl) /\
    plainColumns Examples.tblT = true /\
    checkFastPlanPrivilege Examples.plainCtx "test" "t" = None.
Proof.
  destruct (TryFastPlan Examples.plainCtx
              (Examples.selectWhere Examples.tblT [] [] (Examples.eqExpr "a" 5)))
    as [[pl|]|msg] eqn:H; [|vm_compute in H; discriminate..].
  exists pl. split; [reflexivity|].
  destruct (TryFastPlan_guards Examples.plainCtx _ pl H)
    as (_ & _ & tn & alias & tbl & db & H1 & H2 & H3 & Hdb & Hp & _).
  injection H1 as <- <-. injection H2 as <-.
  split; [exact H3|].
  destruct Hdb as [-> | ->]; exact Hp.
Defined.

(** X23 on [select * from th where id in (5, 1, 4, 1)] over three hash partitions. *)
Lemma newBatchPointGetPlan_partitions_witness :
  exists p posArr,
    newBatchPointGetPlan Examples.hashCtx (List.map Examples.intExpr [5; 1; 4; 1])
      (Some Examples.colId) (Examples.tblHash 3) [] [] ["id"] [] = Ok (Some p) /\
    StronglySorted Z.lt posArr /\
    Forall2 (hitsPartition Examples.hashCtx Examples.colId (Examples.tblHash 3)
               (List.map Examples.intExpr [5; 1; 4; 1]))
      posArr
      [mkPartitionDefinition 101 (NewCIStr "p1");
       mkPartitionDefinition 102 (NewCIStr "p2")] /\
    bPartitionDefs p = Some [mkPartitionDefinition 101 (NewCIStr "p1");
                             mkPartitionDefinition 102 (NewCIStr "p2")].
Proof.
  destruct (newBatchPointGetPlan Examples.hashCtx (List.map Examples.intExpr [5; 1; 4; 1])
              (Some Examples.colId) (Examples.tblHash 3) [] [] ["id"] [])
    as [[p|]|msg] eqn:H; [|vm_compute in H; discriminate..].
  destruct (newBatchPointGetPlan_partitions _ _ _ _ _ _ _ _ p H)
    as (posArr & defs & Hs & Hall & _ & Hd).
  assert (Hp : bPartitionDefs p = Some [mkPartitionDefinition 101 (NewCIStr "p1");
                                        mkPartitionDefinition 102 (NewCIStr "p2")]).
  { vm_compute in H. injection H as <-. reflexivity. }
  exists p, posArr. split; [reflexivity|]. split; [exact Hs|].
  rewrite Hp in Hd. destruct defs as [|d0 defs]; [discriminate|].
  injection Hd as E1 E2. subst d0 defs. split; [exact Hall|exact Hp].
Defined.

(** X18 on the condition [a = 5]. *)
Lemma getNameValuePairs_exact_values_witness :
  let pr := mkPair "a" (Some (Examples.intType PriKeyFlag)) (NewIntDatum 5) None in
  getNameValuePairs Examples.plainCtx Examples.tblT (NewCIStr "t") []
    (Some (Examples.eqExpr "a" 5)) = (Some [pr], false) /\
  exactValue Examples.plainCtx Examples.tblT pr.
Proof.
  cbv zeta.
  assert (H : getNameValuePairs Examples.plainCtx Examples.tblT (NewCIStr "t") []
                (Some (Examples.eqExpr "a" 5)) =
              (Some [mkPair "a" (Some (Examples.intType PriKeyFlag)) (NewIntDatum 5) None],
               false)) by (vm_compute; reflexivity).
  split; [exact H|].
  destruct (getNameValuePairs_exact_values Examples.plainCtx Examples.tblT
              (NewCIStr "t") [] _ _ H) as (new & Hnew & Hall).
  cbn [app] in Hnew. subst new.
  exact (Forall_inv Hall).
Defined.

End ResolverProofs.

(** ** Properties of the fast path of DELETE *)

Module DmlProofs.
Import Model Planner PlannerSpec ResolverSpec ResolverProofs Dml.

Lemma pkHandleCol_spec schema :
  forall cols i h,
    pkHandleCol i cols schema = Some (Ok h) ->
    exists j c, (i <= j < i + length cols)%nat /\ schema !! j = Some c /\
                h = IntHandleCols c.
Proof.
  induction cols as [|col rest IH]; intros i h H; [discriminate|].
  cbn [pkHandleCol] in H.
  destruct (HasPriKeyFlag (ftFlag (colFieldType col))).
  - destruct (schema !! i) as [c|] eqn:Hc; [|discriminate].
    injection H as <-. exists i, c. cbn [length]. split; [lia|]. auto.
  - destruct (IH _ _ H) as (j & c & Hj & Hc & ->).
    exists j, c. cbn [length]. split; [lia|]. auto.
Qed.

Lemma buildHandleCols_spec ctx sess tbl schema h schema' :
  (forall i col, schema !! i = Some col -> cIndex col = i) ->
  buildHandleCols ctx sess tbl schema = Ok (h, schema') ->
  handleInSchema schema' h /\
  (schema' = schema \/
   schema' = (schema ++ [colInfoToColumn (NewExtraHandleColInfo ctx)
                           (length schema)])%list).
Proof.
  intros Hnum. unfold buildHandleCols.
  destruct (if tblPKIsHandle tbl then pkHandleCol 0 (tblColumns tbl) schema else None)
    as [[h0|msg]|] eqn:Hpk; cbn [rbind]; try discriminate.
  - intros [= <- <-]. split; [|left; reflexivity].
    destruct (tblPKIsHandle tbl); [|discriminate].
    destruct (pkHandleCol_spec _ _ _ _ Hpk) as (j & c & _ & Hc & ->).
    cbn [handleInSchema]. rewrite (Hnum j c Hc). exact Hc.
  - destruct (tblIsCommonHandle tbl).
    + intros [= <- <-]. split; [reflexivity|left; reflexivity].
    + intros [= <- <-]. split; [|right; reflexivity].
      cbn [handleInSchema colInfoToColumn cIndex].
      rewrite lookup_app_r by lia. rewrite Nat.sub_diag. reflexivity.
Qed.

Lemma buildPointDeletePlan_spec ctx sess pointPlan dbName tbl d :
  (forall i col, planSchema pointPlan !! i = Some col -> cIndex col = i) ->
  buildPointDeletePlan ctx sess pointPlan dbName tbl = Ok (Some d) ->
  checkFastPlanPrivilegeFor sess dbName (L (tblName tbl)) [SelectPriv; DeletePriv] =
    None /\
  exists schema h,
    delSelectPlan d = setPlanSchema schema pointPlan /\
    delTblColPosInfos d = [mkTblColPosInfo (tblID tbl) 0 (length schema) h] /\
    handleInSchema schema h /\
    (schema = planSchema pointPlan \/
     schema = (planSchema pointPlan ++
               [colInfoToColumn (NewExtraHandleColInfo ctx)
                  (length (planSchema pointPlan))])%list).
Proof.
  intros Hnum. unfold buildPointDeletePlan.
  destruct (checkFastPlanPrivilegeFor sess dbName _ _) as [e|]; [discriminate|].
  cbn [isSome].
  destruct (buildHandleCols ctx sess tbl (planSchema pointPlan))
    as [[h schema]|msg] eqn:Hh; cbn [rbind]; [|discriminate].
  destruct (buildHandleCols_spec _ _ _ _ _ _ Hnum Hh) as (Hin & Hsch).
  intros H. split; [reflexivity|]. exists schema, h.
  assert (Hd : d = {| delSelectPlan := setPlanSchema schema pointPlan;
                      delTblColPosInfos :=
                        [mkTblColPosInfo (tblID tbl) 0 (length schema) h] |}).
  { destruct (TableByID sess (tblID tbl)).
    - destruct (buildOnDeleteFKTriggers sess (tblID tbl)); [discriminate|].
      injection H as <-. reflexivity.
    - injection H as <-. reflexivity. }
  subst d. cbn. auto.
Qed.

Lemma forUpdateLock_spec ctx :
  forUpdateLock ctx =
    if sessionLocks ctx then (true, LockWaitTimeout ctx) else (false, 0).
Proof.
  unfold forUpdateLock, getLockWaitTime, sessionLocks. cbn.
  destruct (negb (IsAutocommit ctx) || InTxn ctx || PessimisticAutoCommit ctx);
    reflexivity.
Qed.

(** What [tryDeletePointPlan] does to build a plan that deletes rows:
    it builds the plan of the read, sets its lock in a pessimistic
    transaction and hands it to [buildPointDeletePlan]. *)
Lemma tryDeletePointPlan_inv ctx sess delStmt d :
  tryDeletePointPlan ctx sess delStmt = Ok (Some (DeleteRows d)) ->
  dsIsMultiTable delStmt = false /\
  exists pl0 db tbl lk wt,
    buildPointDeletePlan ctx sess pl0 db tbl = Ok (Some d) /\
    planTable pl0 = Some tbl /\
    (forall i col, planSchema pl0 !! i = Some col -> cIndex col = i) /\
    planLock pl0 = Some (lk, wt) /\ deleteLock ctx sess lk wt.
Proof.
  unfold tryDeletePointPlan. intros H.
  destruct (dsIsMultiTable delStmt); [discriminate|]. split; [reflexivity|].
  cbv zeta in H.
  destruct (tryPointGetPlan ctx (selectOfDelete delStmt) true) as [[p|]|msg] eqn:Hp;
    cbn [rbind] in H; try discriminate.
  - destruct (pIsTableDual p); [discriminate|].
    match type of H with
    | rbind (buildPointDeletePlan _ _ ?pl ?db ?tbl) _ = _ =>
        destruct (buildPointDeletePlan ctx sess pl db tbl) as [[d0|]|msg] eqn:Hb;
          cbn [rbind option_map] in H; try discriminate
    end.
    injection H as <-.
    destruct (tryPointGetPlan_inv ctx _ true p Hp)
      as (_ & tn & alias & tbl & schema & names & _ & _ & _ & Hsch & Ht & Hs & _ &
          Hl & Hw & _).
    destruct (buildSchemaFromFields_columns _ _ _ _ _ _ _ Hsch) as ([_ Hnum] & _).
    rewrite forUpdateLock_spec in Hb. unfold deleteLock.
    destruct (IsPessimistic sess), (sessionLocks ctx);
      (eexists _, _, _, _, _; split; [exact Hb|]);
      cbn [planTable planSchema planLock setLock pTblInfo pSchema pLock
           pLockWaitTime fst snd andb];
      rewrite ?Hs, ?Hl, ?Hw; repeat split; auto; try discriminate.
  - destruct (tryWhereIn2BatchPointGet ctx (selectOfDelete delStmt))
      as [[p|]|msg] eqn:Hq; cbn [rbind] in H; try discriminate.
    match type of H with
    | rbind (buildPointDeletePlan _ _ ?pl ?db ?tbl) _ = _ =>
        destruct (buildPointDeletePlan ctx sess pl db tbl) as [[d0|]|msg] eqn:Hb;
          cbn [rbind option_map] in H; try discriminate
    end.
    injection H as <-.
    destruct (tryWhereIn2BatchPointGet_inv ctx _ p Hq)
      as (tn & alias & tbl & _ & _ & _ & Ht & _ & Hl & Hw & Hsch).
    destruct (buildSchemaFromFields_columns _ _ _ _ _ _ _ Hsch) as ([_ Hnum] & _).
    rewrite forUpdateLock_spec in Hb. unfold deleteLock.
    destruct (IsPessimistic sess), (sessionLocks ctx);
      (eexists _, _, _, _, _; split; [exact Hb|]);
      cbn [planTable planSchema planLock setBatchLock bTblInfo bSchema bLock
           bLockWaitTime fst snd andb];
      rewrite ?Hl, ?Hw; repeat split; auto; try discriminate.
Qed.

(** X24: a DELETE through the fast path locks the rows it reads exactly
    in a pessimistic transaction of a session that honours row locks
    (autocommit off, inside a transaction, or pessimistic auto-commit),
    and then waits for the session's lock-wait timeout. *)
Theorem tryDeletePointPlan_lock (ctx : Ctx) (sess : Session)
    (delStmt : DeleteStmt) (d : Delete) :
  tryDeletePointPlan ctx sess delStmt = Ok (Some (DeleteRows d)) ->
  exists lk wt,
    planLock (delSelectPlan d) = Some (lk, wt) /\
    lk = IsPessimistic sess && sessionLocks ctx /\
    (lk = true -> wt = LockWaitTimeout ctx) /\
    (IsPessimistic sess = true -> lk = false -> wt = 0).
Proof.
  intros H.
  destruct (tryDeletePointPlan_inv ctx sess delStmt d H)
    as (_ & pl0 & db & tbl & lk & wt & Hb & _ & Hnum & Hlk & Hdl).
  destruct (buildPointDeletePlan_spec _ _ _ _ _ _ Hnum Hb)
    as (_ & schema & h & -> & _).
  exists lk, wt. split; [|exact Hdl].
  destruct pl0; cbn in Hlk |- *; [exact Hlk|exact Hlk|discriminate].
Qed.

(** X25: the plan of a DELETE places the table at the columns
    [0 .. len(schema)) of the schema of its read, and its handle
    columns are columns of that schema: an integer handle column sits
    at its own index, also when it is the [_tidb_rowid] column that
    [buildHandleCols] appends to the schema of the read. *)
Theorem tryDeletePointPlan_handle_cols (ctx : Ctx) (sess : Session)
    (delStmt : DeleteStmt) (d : Delete) :
  tryDeletePointPlan ctx sess delStmt = Ok (Some (DeleteRows d)) ->
  exists tbl info,
    planTable (delSelectPlan d) = Some tbl /\
    delTblColPosInfos d = [info] /\
    tcTblID info = tblID tbl /\ tcStart info = 0%nat /\
    tcEnd info = length (planSchema (delSelectPlan d)) /\
    handleInSchema (planSchema (delSelectPlan d)) (tcHandleCols info).
Proof.
  intros H.
  destruct (tryDeletePointPlan_inv ctx sess delStmt d H)
    as (_ & pl0 & db & tbl & lk & wt & Hb & Ht & Hnum & Hlk & _).
  destruct (buildPointDeletePlan_spec _ _ _ _ _ _ Hnum Hb)
    as (_ & schema & h & -> & -> & Hin & _).
  exists tbl, (mkTblColPosInfo (tblID tbl) 0 (length schema) h).
  destruct pl0; cbn in Ht, Hlk |- *; try discriminate; repeat split; auto.
Qed.

(** X26: a multi-table DELETE, and a DELETE with ORDER BY, with LIMIT 0
    or with an offset, never gets a fast plan. *)
Theorem tryDeletePointPlan_refused (ctx : Ctx) (sess : Session)
    (delStmt : DeleteStmt) :
  dsIsMultiTable delStmt || isSome (dsOrder delStmt) ||
    limitZeroOrOffset ctx (selectOfDelete delStmt) = true ->
  tryDeletePointPlan ctx sess delStmt = Ok None.
Proof.
  intros H. unfold tryDeletePointPlan.
  destruct (dsIsMultiTable delStmt); [reflexivity|]. cbn [orb] in H.
  cbv zeta.
  assert (Hp : pointGetClausesRefused ctx (selectOfDelete delStmt) = true /\
               batchClausesRefused (selectOfDelete delStmt) = true).
  { destruct (isSome (dsOrder delStmt)) eqn:Ho.
    - unfold pointGetClausesRefused, batchClausesRefused.
      cbn [selectOfDelete ssOrderBy ssHaving ssGroupBy ssLimit ssWindowSpecs].
      rewrite Ho. cbn. split; [reflexivity|].
      destruct (isSome (dsLimit delStmt)); reflexivity.
    - cbn [orb] in H.
      destruct (PlannerProofs.limitZeroOrOffset_refused ctx _ H) as [H1 H2].
      split; [exact H1|]. unfold batchClausesRefused. rewrite H2.
      cbn [selectOfDelete ssOrderBy ssHaving ssGroupBy ssWindowSpecs].
      rewrite Ho. reflexivity. }
  destruct Hp as [Hp Hb].
  unfold tryPointGetPlan, tryWhereIn2BatchPointGet. rewrite Hp, Hb. reflexivity.
Qed.

(** *** Instances *)

(** X24 on [delete from t where a = 5] in a pessimistic transaction. *)
Lemma tryDeletePointPlan_lock_witness :
  exists d,
    tryDeletePointPlan (Scenarios.inTxn Examples.plainCtx) Scenarios.pessimistic
      (Scenarios.deleteWhere Examples.tblT (Examples.eqExpr "a" 5)) =
      Ok (Some (DeleteRows d)) /\
    planLock (delSelectPlan d) = Some (true, 50).
Proof.
  destruct (tryDeletePointPlan (Scenarios.inTxn Examples.plainCtx) Scenarios.pessimistic
              (Scenarios.deleteWhere Examples.tblT (Examples.eqExpr "a" 5)))
    as [[[names|d]|]|msg] eqn:H; try (vm_compute in H; discriminate).
  exists d. split; [reflexivity|].
  destruct (tryDeletePointPlan_lock _ _ _ d H) as (lk & wt & Hl & Hlk & Hwt & _).
  cbn in Hlk. subst lk. rewrite (Hwt eq_refl) in Hl. exact Hl.
Defined.

(** X25 on [delete from t3 where a = 5]: [t3] has no integer primary
    key, and [_tidb_rowid] becomes the third column. *)
Lemma tryDeletePointPlan_handle_cols_witness :
  exists d info,
    tryDeletePointPlan Examples.plainCtx Scenarios.pessimistic
      (Scenarios.deleteWhere Examples.tblTinyKey (Examples.eqExpr "a" 5)) =
      Ok (Some (DeleteRows d)) /\
    delTblColPosInfos d = [info] /\
    tcEnd info = 3%nat /\
    handleInSchema (planSchema (delSelectPlan d)) (tcHandleCols info).
Proof.
  destruct (tryDeletePointPlan Examples.plainCtx Scenarios.pessimistic
              (Scenarios.deleteWhere Examples.tblTinyKey (Examples.eqExpr "a" 5)))
    as [[[names|d]|]|msg] eqn:H; try (vm_compute in H; discriminate).
  destruct (tryDeletePointPlan_handle_cols _ _ _ d H)
    as (tbl & info & _ & Hi & _ & _ & He & Hh).
  exists d, info. split; [reflexivity|]. split; [exact Hi|].
  split; [|exact Hh]. rewrite He.
  vm_compute in H. injection H as <-. reflexivity.
Defined.

(** X26 on [delete from t where a = 5 order by a]. *)
Lemma tryDeletePointPlan_refused_witness :
  tryDeletePointPlan Examples.plainCtx Scenarios.pessimistic Scenarios.deleteOrderBy =
    Ok None.
Proof.
  exact (tryDeletePointPlan_refused Examples.plainCtx Scenarios.pessimistic
           Scenarios.deleteOrderBy eq_refl).
Defined.

End DmlProofs.
